(** * libosmscout type configuration: tags, conditions, features, types

    A shallow embedding of [TypeConfig.cpp] (tag registry, tag condition
    trees, feature schema, type schema, feature value buffer and the binary
    persistence of the type configuration), followed by the properties
    established about it.

    Conventions of the embedding:
    - [TagId], [TypeId] are [N] with the wrap-around of their (declared
      elsewhere) bit width written out; [uint8_t] values are [Z] reduced
      modulo 256; [size_t] offsets and sizes are [N]; list positions are
      [nat].
    - [std::map<TagId,std::string>] is [gmap N string]; hash maps are
      [gmap]; [std::set<std::string>] is [gset string]; vectors and lists
      are [list].
    - a call that runs into a failed [assert] or dereferences the null
      result of a [dynamic_cast] yields [None].
    - reference counted handles ([TypeInfoRef], [FeatureRef]) are modelled
      by the value of the object at the time the handle is stored; none of
      the embedded operations changes an object after it was published. *)

From stdpp Require Import gmap strings list fin_maps sorting.
From Stdlib Require Import ZArith QArith Qround Lia.

Set Warnings "-register-all".
Close Scope Q_scope.
Open Scope string_scope.
Open Scope list_scope.

(** ** Declarations that live outside of [TypeConfig.cpp] *)

(** Constants, type widths and helper functions that [TypeConfig.cpp] takes
    from headers and utility units.  They are parameters of the whole
    development; [ref_decls] below instantiates them so that the model can be
    run. *)
Class Declarations := {
  (** width in bits of the unsigned integer types [TagId] and [TypeId] *)
  TagId_bits : N;
  TypeId_bits : N;
  (** [TypeInfo::typeNode], [typeWay], [typeArea], [typeRelation] *)
  typeNode : Z;
  typeWay : Z;
  typeArea : Z;
  typeRelation : Z;
  (** [enum AccessFeatureValue::Access] *)
  footForward : Z;
  footBackward : Z;
  bicycleForward : Z;
  bicycleBackward : Z;
  carForward : Z;
  carBackward : Z;
  onewayForward : Z;
  onewayBackward : Z;
  (** [ParseAccessFlag(value,access,bit)], result is the new [access] *)
  ParseAccessFlag : string -> Z -> Z -> Z;
  (** [StringToNumber(const std::string&,size_t&)] *)
  StringToNumber_size_t : string -> option N;
  (** [StringToNumber(const std::string&,double&)], doubles as rationals *)
  StringToNumber_double : string -> option Q;
  (** whether the type [char] is signed *)
  char_is_signed : bool;
  (** the larger of [sizeof(size_t)] and the size of a pointer *)
  alignment : N;
  (** [sizeof(NameFeatureValue)], ... *)
  sizeof_NameFeatureValue : N;
  sizeof_NameAltFeatureValue : N;
  sizeof_RefFeatureValue : N;
  sizeof_AddressFeatureValue : N;
  sizeof_AccessFeatureValue : N;
  sizeof_LayerFeatureValue : N;
  sizeof_WidthFeatureValue : N;
  sizeof_MaxSpeedFeatureValue : N;
  sizeof_GradeFeatureValue : N
}.

Abbreviation TagId := N (only parsing).
Abbreviation TypeId := N (only parsing).

(** [tagIgnore] and [typeIgnore] are the constant 0. *)
Definition tagIgnore : TagId := 0%N.
Definition typeIgnore : TypeId := 0%N.

(** Conversion of an integer to [uint8_t]. *)
Definition uint8 (z : Z) : Z := (z mod 256)%Z.

(** ** Tag conditions *)

Inductive BinaryOperator :=
| operatorLess
| operatorLessEqual
| operatorEqual
| operatorNotEqual
| operatorGreaterEqual
| operatorGreater.

Inductive BoolType := boolAnd | boolOr.

Inductive ValueType := valueType_string | valueType_sizet.

(** The class hierarchy below [TagCondition]. *)
Inductive TagCondition :=
| TagNotCondition (condition : TagCondition)
| TagBoolCondition (type : BoolType) (conditions : list TagCondition)
| TagExistsCondition (tag : TagId)
| TagBinaryCondition (tag : TagId) (binaryOperator : BinaryOperator)
    (valueType : ValueType) (tagStringValue : string) (tagSizeValue : N)
| TagIsInCondition (tag : TagId) (tagValues : gset string).

(** [std::string] comparison operators. *)
Definition string_lt (a b : string) : bool := String.ltb a b.
Definition string_le (a b : string) : bool := String.leb a b.
Definition string_eq (a b : string) : bool := String.eqb a b.

Section Conditions.
Context `{D : Declarations}.

(** [TagNotCondition::Evaluate], [TagBoolCondition::Evaluate],
    [TagExistsCondition::Evaluate], [TagBinaryCondition::Evaluate] and
    [TagIsInCondition::Evaluate]. *)
Fixpoint Evaluate (c : TagCondition) (tagMap : gmap N string) : bool :=
  match c with
  | TagNotCondition condition => negb (Evaluate condition tagMap)
  | TagBoolCondition boolAnd conditions =>
      (fix loop (l : list TagCondition) : bool :=
         match l with
         | [] => true
         | condition :: l' =>
             if negb (Evaluate condition tagMap) then false else loop l'
         end) conditions
  | TagBoolCondition boolOr conditions =>
      (fix loop (l : list TagCondition) : bool :=
         match l with
         | [] => false
         | condition :: l' =>
             if Evaluate condition tagMap then true else loop l'
         end) conditions
  | TagExistsCondition tag =>
      match tagMap !! tag with
      | Some _ => true
      | None => false
      end
  | TagBinaryCondition tag binaryOperator valueType tagStringValue tagSizeValue =>
      match tagMap !! tag with
      | None => false
      | Some second =>
          match valueType with
          | valueType_string =>
              match binaryOperator with
              | operatorLess => string_lt second tagStringValue
              | operatorLessEqual => string_le second tagStringValue
              | operatorEqual => string_eq second tagStringValue
              | operatorNotEqual => negb (string_eq second tagStringValue)
              | operatorGreaterEqual => string_le tagStringValue second
              | operatorGreater => string_lt tagStringValue second
              end
          | valueType_sizet =>
              match StringToNumber_size_t second with
              | None => false
              | Some value =>
                  match binaryOperator with
                  | operatorLess => (value <? tagSizeValue)%N
                  | operatorLessEqual => (value <=? tagSizeValue)%N
                  | operatorEqual => (value =? tagSizeValue)%N
                  | operatorNotEqual => negb (value =? tagSizeValue)%N
                  | operatorGreaterEqual => (tagSizeValue <=? value)%N
                  | operatorGreater => (tagSizeValue <? value)%N
                  end
              end
          end
      end
  | TagIsInCondition tag tagValues =>
      match tagMap !! tag with
      | None => false
      | Some second => bool_decide (second ∈ tagValues)
      end
  end.

End Conditions.

(** ** Tags, feature values, features, types *)

(** [class TagInfo]. *)
Record TagInfo := {
  TagInfo_id : TagId;
  TagInfo_name : string;
  TagInfo_internalOnly : bool
}.

(** [TagInfo::TagInfo(const std::string&,bool)]: the id starts as 0. *)
Definition TagInfo_new (name : string) (internalOnly : bool) : TagInfo :=
  {| TagInfo_id := 0%N; TagInfo_name := name; TagInfo_internalOnly := internalOnly |}.

(** [TagInfo::SetId]. *)
Definition TagInfo_SetId (id : TagId) (t : TagInfo) : TagInfo :=
  {| TagInfo_id := id; TagInfo_name := TagInfo_name t;
     TagInfo_internalOnly := TagInfo_internalOnly t |}.

(** [TagInfo::SetToExternal]. *)
Definition TagInfo_SetToExternal (t : TagInfo) : TagInfo :=
  {| TagInfo_id := TagInfo_id t; TagInfo_name := TagInfo_name t;
     TagInfo_internalOnly := false |}.

(** The classes below [FeatureValue], each with its member variables. *)
Inductive FeatureValue :=
| NameFeatureValue (name : string)
| NameAltFeatureValue (nameAlt : string)
| RefFeatureValue (ref : string)
| AddressFeatureValue (location address : string)
| AccessFeatureValue (access : Z)
| LayerFeatureValue (layer : Z)
| WidthFeatureValue (width : Z)
| MaxSpeedFeatureValue (maxSpeed : Z)
| GradeFeatureValue (grade : Z).

(** The tag ids an [AccessFeature] caches in [Initialize]. *)
Record AccessFeatureTags := {
  tagOneway : TagId;
  tagJunction : TagId;
  tagAccess : TagId;
  tagAccessForward : TagId;
  tagAccessBackward : TagId;
  tagAccessFoot : TagId;
  tagAccessFootForward : TagId;
  tagAccessFootBackward : TagId;
  tagAccessBicycle : TagId;
  tagAccessBicycleForward : TagId;
  tagAccessBicycleBackward : TagId;
  tagAccessMotorVehicle : TagId;
  tagAccessMotorVehicleForward : TagId;
  tagAccessMotorVehicleBackward : TagId;
  tagAccessMotorcar : TagId;
  tagAccessMotorcarForward : TagId;
  tagAccessMotorcarBackward : TagId
}.

(** The classes below [Feature], each with the tag ids it caches. *)
Inductive Feature :=
| NameFeature
| NameAltFeature
| RefFeature (tagRef : TagId)
| AddressFeature (tagAddrHouseNr tagAddrStreet : TagId)
| AccessFeature (tags : AccessFeatureTags)
| LayerFeature (tagLayer : TagId)
| WidthFeature (tagWidth : TagId)
| MaxSpeedFeature (tagMaxSpeed : TagId)
| GradeFeature (tagSurface tagTrackType : TagId)
| BridgeFeature (tagBridge : TagId)
| TunnelFeature (tagTunnel : TagId)
| RoundaboutFeature (tagJunction : TagId).

(** [Feature::GetName], the [NAME] constant of each class. *)
Definition Feature_GetName (f : Feature) : string :=
  match f with
  | NameFeature => "Name"
  | NameAltFeature => "NameAlt"
  | RefFeature _ => "Ref"
  | AddressFeature _ _ => "Address"
  | AccessFeature _ => "Access"
  | LayerFeature _ => "Layer"
  | WidthFeature _ => "Width"
  | MaxSpeedFeature _ => "MaxSpeed"
  | GradeFeature _ _ => "Grade"
  | BridgeFeature _ => "Bridge"
  | TunnelFeature _ => "Tunnel"
  | RoundaboutFeature _ => "Roundabout"
  end.

Section FeatureSizes.
Context `{D : Declarations}.

(** [Feature::GetValueSize]. *)
Definition Feature_GetValueSize (f : Feature) : N :=
  match f with
  | NameFeature => sizeof_NameFeatureValue
  | NameAltFeature => sizeof_NameAltFeatureValue
  | RefFeature _ => sizeof_RefFeatureValue
  | AddressFeature _ _ => sizeof_AddressFeatureValue
  | AccessFeature _ => sizeof_AccessFeatureValue
  | LayerFeature _ => sizeof_LayerFeatureValue
  | WidthFeature _ => sizeof_WidthFeatureValue
  | MaxSpeedFeature _ => sizeof_MaxSpeedFeatureValue
  | GradeFeature _ _ => sizeof_GradeFeatureValue
  | BridgeFeature _ => 0
  | TunnelFeature _ => 0
  | RoundaboutFeature _ => 0
  end%N.

(** [Feature::HasValue]: [GetValueSize()>0]. *)
Definition Feature_HasValue (f : Feature) : bool :=
  (0 <? Feature_GetValueSize f)%N.

End FeatureSizes.

(** [class FeatureInstance]. *)
Record FeatureInstance := {
  feature : Feature;
  offset : N
}.

(** [struct TypeInfo::TypeCondition]. *)
Record TypeCondition := {
  cond_types : Z;
  cond_condition : TagCondition
}.

(** [class TypeInfo]. *)
Record TypeInfo := {
  id : TypeId;
  name : string;
  conditions : list TypeCondition;
  features : list FeatureInstance;
  featureSet : gset string;
  canBeNode : bool;
  canBeWay : bool;
  canBeArea : bool;
  canBeRelation : bool;
  canRouteFoot : bool;
  canRouteBicycle : bool;
  canRouteCar : bool;
  indexAsLocation : bool;
  indexAsRegion : bool;
  indexAsPOI : bool;
  optimizeLowZoom : bool;
  multipolygon : bool;
  pinWay : bool;
  ignoreSeaLand : bool;
  ignore : bool
}.

(** [TypeInfo::TypeInfo()]. *)
Definition TypeInfo_new : TypeInfo :=
  {| id := 0%N; name := ""; conditions := []; features := []; featureSet := ∅;
     canBeNode := false; canBeWay := false; canBeArea := false;
     canBeRelation := false; canRouteFoot := false; canRouteBicycle := false;
     canRouteCar := false; indexAsLocation := false; indexAsRegion := false;
     indexAsPOI := false; optimizeLowZoom := false; multipolygon := false;
     pinWay := false; ignoreSeaLand := false; ignore := false |}.

(** [class TypeConfig], the members that the embedded operations use. *)
Record TypeConfig := {
  tags : list TagInfo;
  types : list TypeInfo;
  nameToFeatureMap : gmap string Feature;
  nextTagId : TagId;
  nextTypeId : TypeId;
  stringToTagMap : gmap string TagId;
  nameTagIdToPrioMap : gmap N N;
  nameAltTagIdToPrioMap : gmap N N;
  nameToTypeMap : gmap string TypeInfo;
  idToTypeMap : gmap N TypeInfo;
  surfaceToGradeMap : gmap string N;
  typeInfoIgnore : TypeInfo
}.

(** *** Operations of [TypeInfo] *)

(** [TypeInfo::SetId]. *)
Definition TypeInfo_SetId (v : TypeId) (t : TypeInfo) : TypeInfo :=
  {| id := v; name := name t; conditions := conditions t;
     features := features t; featureSet := featureSet t;
     canBeNode := canBeNode t; canBeWay := canBeWay t;
     canBeArea := canBeArea t; canBeRelation := canBeRelation t;
     canRouteFoot := canRouteFoot t; canRouteBicycle := canRouteBicycle t;
     canRouteCar := canRouteCar t; indexAsLocation := indexAsLocation t;
     indexAsRegion := indexAsRegion t; indexAsPOI := indexAsPOI t;
     optimizeLowZoom := optimizeLowZoom t; multipolygon := multipolygon t;
     pinWay := pinWay t; ignoreSeaLand := ignoreSeaLand t;
     ignore := ignore t |}.

(** [TypeInfo::SetType]. *)
Definition TypeInfo_SetType (v : string) (t : TypeInfo) : TypeInfo :=
  {| id := id t; name := v; conditions := conditions t;
     features := features t; featureSet := featureSet t;
     canBeNode := canBeNode t; canBeWay := canBeWay t;
     canBeArea := canBeArea t; canBeRelation := canBeRelation t;
     canRouteFoot := canRouteFoot t; canRouteBicycle := canRouteBicycle t;
     canRouteCar := canRouteCar t; indexAsLocation := indexAsLocation t;
     indexAsRegion := indexAsRegion t; indexAsPOI := indexAsPOI t;
     optimizeLowZoom := optimizeLowZoom t; multipolygon := multipolygon t;
     pinWay := pinWay t; ignoreSeaLand := ignoreSeaLand t;
     ignore := ignore t |}.

(** The setter [TypeInfo::CanBeNode(bool)]. *)
Definition TypeInfo_CanBeNode (v : bool) (t : TypeInfo) : TypeInfo :=
  {| id := id t; name := name t; conditions := conditions t;
     features := features t; featureSet := featureSet t; canBeNode := v;
     canBeWay := canBeWay t; canBeArea := canBeArea t;
     canBeRelation := canBeRelation t; canRouteFoot := canRouteFoot t;
     canRouteBicycle := canRouteBicycle t; canRouteCar := canRouteCar t;
     indexAsLocation := indexAsLocation t; indexAsRegion := indexAsRegion t;
     indexAsPOI := indexAsPOI t; optimizeLowZoom := optimizeLowZoom t;
     multipolygon := multipolygon t; pinWay := pinWay t;
     ignoreSeaLand := ignoreSeaLand t; ignore := ignore t |}.

(** The setter [TypeInfo::CanBeWay(bool)]. *)
Definition TypeInfo_CanBeWay (v : bool) (t : TypeInfo) : TypeInfo :=
  {| id := id t; name := name t; conditions := conditions t;
     features := features t; featureSet := featureSet t;
     canBeNode := canBeNode t; canBeWay := v; canBeArea := canBeArea t;
     canBeRelation := canBeRelation t; canRouteFoot := canRouteFoot t;
     canRouteBicycle := canRouteBicycle t; canRouteCar := canRouteCar t;
     indexAsLocation := indexAsLocation t; indexAsRegion := indexAsRegion t;
     indexAsPOI := indexAsPOI t; optimizeLowZoom := optimizeLowZoom t;
     multipolygon := multipolygon t; pinWay := pinWay t;
     ignoreSeaLand := ignoreSeaLand t; ignore := ignore t |}.

(** The setter [TypeInfo::CanBeArea(bool)]. *)
Definition TypeInfo_CanBeArea (v : bool) (t : TypeInfo) : TypeInfo :=
  {| id := id t; name := name t; conditions := conditions t;
     features := features t; featureSet := featureSet t;
     canBeNode := canBeNode t; canBeWay := canBeWay t; canBeArea := v;
     canBeRelation := canBeRelation t; canRouteFoot := canRouteFoot t;
     canRouteBicycle := canRouteBicycle t; canRouteCar := canRouteCar t;
     indexAsLocation := indexAsLocation t; indexAsRegion := indexAsRegion t;
     indexAsPOI := indexAsPOI t; optimizeLowZoom := optimizeLowZoom t;
     multipolygon := multipolygon t; pinWay := pinWay t;
     ignoreSeaLand := ignoreSeaLand t; ignore := ignore t |}.

(** The setter [TypeInfo::CanBeRelation(bool)]. *)
Definition TypeInfo_CanBeRelation (v : bool) (t : TypeInfo) : TypeInfo :=
  {| id := id t; name := name t; conditions := conditions t;
     features := features t; featureSet := featureSet t;
     canBeNode := canBeNode t; canBeWay := canBeWay t;
     canBeArea := canBeArea t; canBeRelation := v;
     canRouteFoot := canRouteFoot t; canRouteBicycle := canRouteBicycle t;
     canRouteCar := canRouteCar t; indexAsLocation := indexAsLocation t;
     indexAsRegion := indexAsRegion t; indexAsPOI := indexAsPOI t;
     optimizeLowZoom := optimizeLowZoom t; multipolygon := multipolygon t;
     pinWay := pinWay t; ignoreSeaLand := ignoreSeaLand t;
     ignore := ignore t |}.

(** The setter [TypeInfo::CanRouteFoot(bool)]. *)
Definition TypeInfo_CanRouteFoot (v : bool) (t : TypeInfo) : TypeInfo :=
  {| id := id t; name := name t; conditions := conditions t;
     features := features t; featureSet := featureSet t;
     canBeNode := canBeNode t; canBeWay := canBeWay t;
     canBeArea := canBeArea t; canBeRelation := canBeRelation t;
     canRouteFoot := v; canRouteBicycle := canRouteBicycle t;
     canRouteCar := canRouteCar t; indexAsLocation := indexAsLocation t;
     indexAsRegion := indexAsRegion t; indexAsPOI := indexAsPOI t;
     optimizeLowZoom := optimizeLowZoom t; multipolygon := multipolygon t;
     pinWay := pinWay t; ignoreSeaLand := ignoreSeaLand t;
     ignore := ignore t |}.

(** The setter [TypeInfo::CanRouteBicycle(bool)]. *)
Definition TypeInfo_CanRouteBicycle (v : bool) (t : TypeInfo) : TypeInfo :=
  {| id := id t; name := name t; conditions := conditions t;
     features := features t; featureSet := featureSet t;
     canBeNode := canBeNode t; canBeWay := canBeWay t;
     canBeArea := canBeArea t; canBeRelation := canBeRelation t;
     canRouteFoot := canRouteFoot t; canRouteBicycle := v;
     canRouteCar := canRouteCar t; indexAsLocation := indexAsLocation t;
     indexAsRegion := indexAsRegion t; indexAsPOI := indexAsPOI t;
     optimizeLowZoom := optimizeLowZoom t; multipolygon := multipolygon t;
     pinWay := pinWay t; ignoreSeaLand := ignoreSeaLand t;
     ignore := ignore t |}.

(** The setter [TypeInfo::CanRouteCar(bool)]. *)
Definition TypeInfo_CanRouteCar (v : bool) (t : TypeInfo) : TypeInfo :=
  {| id := id t; name := name t; conditions := conditions t;
     features := features t; featureSet := featureSet t;
     canBeNode := canBeNode t; canBeWay := canBeWay t;
     canBeArea := canBeArea t; canBeRelation := canBeRelation t;
     canRouteFoot := canRouteFoot t; canRouteBicycle := canRouteBicycle t;
     canRouteCar := v; indexAsLocation := indexAsLocation t;
     indexAsRegion := indexAsRegion t; indexAsPOI := indexAsPOI t;
     optimizeLowZoom := optimizeLowZoom t; multipolygon := multipolygon t;
     pinWay := pinWay t; ignoreSeaLand := ignoreSeaLand t;
     ignore := ignore t |}.

(** The setter [TypeInfo::SetIndexAsLocation(bool)]. *)
Definition TypeInfo_SetIndexAsLocation (v : bool) (t : TypeInfo) : TypeInfo :=
  {| id := id t; name := name t; conditions := conditions t;
     features := features t; featureSet := featureSet t;
     canBeNode := canBeNode t; canBeWay := canBeWay t;
     canBeArea := canBeArea t; canBeRelation := canBeRelation t;
     canRouteFoot := canRouteFoot t; canRouteBicycle := canRouteBicycle t;
     canRouteCar := canRouteCar t; indexAsLocation := v;
     indexAsRegion := indexAsRegion t; indexAsPOI := indexAsPOI t;
     optimizeLowZoom := optimizeLowZoom t; multipolygon := multipolygon t;
     pinWay := pinWay t; ignoreSeaLand := ignoreSeaLand t;
     ignore := ignore t |}.

(** The setter [TypeInfo::SetIndexAsRegion(bool)]. *)
Definition TypeInfo_SetIndexAsRegion (v : bool) (t : TypeInfo) : TypeInfo :=
  {| id := id t; name := name t; conditions := conditions t;
     features := features t; featureSet := featureSet t;
     canBeNode := canBeNode t; canBeWay := canBeWay t;
     canBeArea := canBeArea t; canBeRelation := canBeRelation t;
     canRouteFoot := canRouteFoot t; canRouteBicycle := canRouteBicycle t;
     canRouteCar := canRouteCar t; indexAsLocation := indexAsLocation t;
     indexAsRegion := v; indexAsPOI := indexAsPOI t;
     optimizeLowZoom := optimizeLowZoom t; multipolygon := multipolygon t;
     pinWay := pinWay t; ignoreSeaLand := ignoreSeaLand t;
     ignore := ignore t |}.

(** The setter [TypeInfo::SetIndexAsPOI(bool)]. *)
Definition TypeInfo_SetIndexAsPOI (v : bool) (t : TypeInfo) : TypeInfo :=
  {| id := id t; name := name t; conditions := conditions t;
     features := features t; featureSet := featureSet t;
     canBeNode := canBeNode t; canBeWay := canBeWay t;
     canBeArea := canBeArea t; canBeRelation := canBeRelation t;
     canRouteFoot := canRouteFoot t; canRouteBicycle := canRouteBicycle t;
     canRouteCar := canRouteCar t; indexAsLocation := indexAsLocation t;
     indexAsRegion := indexAsRegion t; indexAsPOI := v;
     optimizeLowZoom := optimizeLowZoom t; multipolygon := multipolygon t;
     pinWay := pinWay t; ignoreSeaLand := ignoreSeaLand t;
     ignore := ignore t |}.

(** The setter [TypeInfo::SetIgnore(bool)]. *)
Definition TypeInfo_SetIgnore (v : bool) (t : TypeInfo) : TypeInfo :=
  {| id := id t; name := name t; conditions := conditions t;
     features := features t; featureSet := featureSet t;
     canBeNode := canBeNode t; canBeWay := canBeWay t;
     canBeArea := canBeArea t; canBeRelation := canBeRelation t;
     canRouteFoot := canRouteFoot t; canRouteBicycle := canRouteBicycle t;
     canRouteCar := canRouteCar t; indexAsLocation := indexAsLocation t;
     indexAsRegion := indexAsRegion t; indexAsPOI := indexAsPOI t;
     optimizeLowZoom := optimizeLowZoom t; multipolygon := multipolygon t;
     pinWay := pinWay t; ignoreSeaLand := ignoreSeaLand t; ignore := v |}.

(** Replaces the member [conditions]. *)
Definition TypeInfo_set_conditions (v : list TypeCondition) (t : TypeInfo) : TypeInfo :=
  {| id := id t; name := name t; conditions := v; features := features t;
     featureSet := featureSet t; canBeNode := canBeNode t;
     canBeWay := canBeWay t; canBeArea := canBeArea t;
     canBeRelation := canBeRelation t; canRouteFoot := canRouteFoot t;
     canRouteBicycle := canRouteBicycle t; canRouteCar := canRouteCar t;
     indexAsLocation := indexAsLocation t; indexAsRegion := indexAsRegion t;
     indexAsPOI := indexAsPOI t; optimizeLowZoom := optimizeLowZoom t;
     multipolygon := multipolygon t; pinWay := pinWay t;
     ignoreSeaLand := ignoreSeaLand t; ignore := ignore t |}.

(** Replaces the members [features] and [featureSet]. *)
Definition TypeInfo_set_features (fs : list FeatureInstance) (fset : gset string)
    (t : TypeInfo) : TypeInfo :=
  {| id := id t; name := name t; conditions := conditions t; features := fs;
     featureSet := fset; canBeNode := canBeNode t; canBeWay := canBeWay t;
     canBeArea := canBeArea t; canBeRelation := canBeRelation t;
     canRouteFoot := canRouteFoot t; canRouteBicycle := canRouteBicycle t;
     canRouteCar := canRouteCar t; indexAsLocation := indexAsLocation t;
     indexAsRegion := indexAsRegion t; indexAsPOI := indexAsPOI t;
     optimizeLowZoom := optimizeLowZoom t; multipolygon := multipolygon t;
     pinWay := pinWay t; ignoreSeaLand := ignoreSeaLand t;
     ignore := ignore t |}.

(** Truth value of an integer used as a C++ condition. *)
Definition nonzero (z : Z) : bool := negb (z =? 0)%Z.

(** Result of a loop body that may leave the enclosing function. *)
Inductive LoopResult (R S : Type) :=
| Return (r : R)
| Continue (s : S).
Arguments Return {R S} r.
Arguments Continue {R S} s.

Section TypeInfoOperations.
Context `{D : Declarations}.

(** [TypeInfo::AddCondition]. *)
Definition AddCondition (types : Z) (condition : TagCondition)
    (t : TypeInfo) : TypeInfo :=
  let t := if nonzero (Z.land types typeNode) then TypeInfo_CanBeNode true t else t in
  let t := if nonzero (Z.land types typeWay) then TypeInfo_CanBeWay true t else t in
  let t := if nonzero (Z.land types typeArea) then TypeInfo_CanBeArea true t else t in
  let t := if nonzero (Z.land types typeRelation) then TypeInfo_CanBeRelation true t else t in
  let typeCondition := {| cond_types := types; cond_condition := condition |} in
  TypeInfo_set_conditions (conditions t ++ [typeCondition]) t.

(** [TypeInfo::HasConditions] (inline in the header): the list of
    conditions is not empty. *)
Definition HasConditions (t : TypeInfo) : bool :=
  match conditions t with
  | [] => false
  | _ :: _ => true
  end.

(** The offset [TypeInfo::AddFeature] computes for the next feature. *)
Definition AddFeature_offset (fs : list FeatureInstance) : N :=
  match last fs with
  | None => 0
  | Some back =>
      let offset := offset back + Feature_GetValueSize (feature back) in
      if negb (offset mod alignment =? 0)
      then (offset / alignment + 1) * alignment
      else offset
  end%N.

(** [TypeInfo::AddFeature].  The handle may be null ([None]); both
    assertions of the source are checked. *)
Definition AddFeature (f : option Feature) (t : TypeInfo) : option TypeInfo :=
  match f with
  | None => None
  | Some f =>
      if bool_decide (Feature_GetName f ∈ featureSet t) then None
      else
        Some (TypeInfo_set_features
                (features t ++ [{| feature := f; offset := AddFeature_offset (features t) |}])
                ({[Feature_GetName f]} ∪ featureSet t)
                t)
  end.

(** [TypeInfo::HasFeature]. *)
Definition HasFeature (featureName : string) (t : TypeInfo) : bool :=
  bool_decide (featureName ∈ featureSet t).

(** [TypeInfo::GetFeatureValueBufferSize]. *)
Definition GetFeatureValueBufferSize (t : TypeInfo) : N :=
  match last (features t) with
  | None => 0
  | Some back => offset back + Feature_GetValueSize (feature back)
  end%N.

(** [TypeInfo::GetFeatureCount] (inline in the header). *)
Definition GetFeatureCount (t : TypeInfo) : nat := length (features t).

End TypeInfoOperations.

(** *** Member updates of [TypeConfig] *)

(** Replaces the member [tags]. *)
Definition TypeConfig_set_tags (v : list TagInfo)
    (c : TypeConfig) : TypeConfig :=
  {| tags := v; types := types c; nameToFeatureMap := nameToFeatureMap c;
     nextTagId := nextTagId c; nextTypeId := nextTypeId c;
     stringToTagMap := stringToTagMap c;
     nameTagIdToPrioMap := nameTagIdToPrioMap c;
     nameAltTagIdToPrioMap := nameAltTagIdToPrioMap c;
     nameToTypeMap := nameToTypeMap c; idToTypeMap := idToTypeMap c;
     surfaceToGradeMap := surfaceToGradeMap c;
     typeInfoIgnore := typeInfoIgnore c |}.

(** Replaces the member [nextTagId]. *)
Definition TypeConfig_set_nextTagId (v : TagId)
    (c : TypeConfig) : TypeConfig :=
  {| tags := tags c; types := types c;
     nameToFeatureMap := nameToFeatureMap c; nextTagId := v;
     nextTypeId := nextTypeId c; stringToTagMap := stringToTagMap c;
     nameTagIdToPrioMap := nameTagIdToPrioMap c;
     nameAltTagIdToPrioMap := nameAltTagIdToPrioMap c;
     nameToTypeMap := nameToTypeMap c; idToTypeMap := idToTypeMap c;
     surfaceToGradeMap := surfaceToGradeMap c;
     typeInfoIgnore := typeInfoIgnore c |}.

(** Replaces the member [stringToTagMap]. *)
Definition TypeConfig_set_stringToTagMap (v : gmap string TagId)
    (c : TypeConfig) : TypeConfig :=
  {| tags := tags c; types := types c;
     nameToFeatureMap := nameToFeatureMap c; nextTagId := nextTagId c;
     nextTypeId := nextTypeId c; stringToTagMap := v;
     nameTagIdToPrioMap := nameTagIdToPrioMap c;
     nameAltTagIdToPrioMap := nameAltTagIdToPrioMap c;
     nameToTypeMap := nameToTypeMap c; idToTypeMap := idToTypeMap c;
     surfaceToGradeMap := surfaceToGradeMap c;
     typeInfoIgnore := typeInfoIgnore c |}.

(** Replaces the member [nameTagIdToPrioMap]. *)
Definition TypeConfig_set_nameTagIdToPrioMap (v : gmap N N)
    (c : TypeConfig) : TypeConfig :=
  {| tags := tags c; types := types c;
     nameToFeatureMap := nameToFeatureMap c; nextTagId := nextTagId c;
     nextTypeId := nextTypeId c; stringToTagMap := stringToTagMap c;
     nameTagIdToPrioMap := v;
     nameAltTagIdToPrioMap := nameAltTagIdToPrioMap c;
     nameToTypeMap := nameToTypeMap c; idToTypeMap := idToTypeMap c;
     surfaceToGradeMap := surfaceToGradeMap c;
     typeInfoIgnore := typeInfoIgnore c |}.

(** Replaces the member [nameAltTagIdToPrioMap]. *)
Definition TypeConfig_set_nameAltTagIdToPrioMap (v : gmap N N)
    (c : TypeConfig) : TypeConfig :=
  {| tags := tags c; types := types c;
     nameToFeatureMap := nameToFeatureMap c; nextTagId := nextTagId c;
     nextTypeId := nextTypeId c; stringToTagMap := stringToTagMap c;
     nameTagIdToPrioMap := nameTagIdToPrioMap c; nameAltTagIdToPrioMap := v;
     nameToTypeMap := nameToTypeMap c; idToTypeMap := idToTypeMap c;
     surfaceToGradeMap := surfaceToGradeMap c;
     typeInfoIgnore := typeInfoIgnore c |}.

(** Replaces the member [nameToFeatureMap]. *)
Definition TypeConfig_set_nameToFeatureMap (v : gmap string Feature)
    (c : TypeConfig) : TypeConfig :=
  {| tags := tags c; types := types c; nameToFeatureMap := v;
     nextTagId := nextTagId c; nextTypeId := nextTypeId c;
     stringToTagMap := stringToTagMap c;
     nameTagIdToPrioMap := nameTagIdToPrioMap c;
     nameAltTagIdToPrioMap := nameAltTagIdToPrioMap c;
     nameToTypeMap := nameToTypeMap c; idToTypeMap := idToTypeMap c;
     surfaceToGradeMap := surfaceToGradeMap c;
     typeInfoIgnore := typeInfoIgnore c |}.

(** Replaces the member [nextTypeId]. *)
Definition TypeConfig_set_nextTypeId (v : TypeId)
    (c : TypeConfig) : TypeConfig :=
  {| tags := tags c; types := types c;
     nameToFeatureMap := nameToFeatureMap c; nextTagId := nextTagId c;
     nextTypeId := v; stringToTagMap := stringToTagMap c;
     nameTagIdToPrioMap := nameTagIdToPrioMap c;
     nameAltTagIdToPrioMap := nameAltTagIdToPrioMap c;
     nameToTypeMap := nameToTypeMap c; idToTypeMap := idToTypeMap c;
     surfaceToGradeMap := surfaceToGradeMap c;
     typeInfoIgnore := typeInfoIgnore c |}.

(** Replaces the member [types]. *)
Definition TypeConfig_set_types (v : list TypeInfo)
    (c : TypeConfig) : TypeConfig :=
  {| tags := tags c; types := v; nameToFeatureMap := nameToFeatureMap c;
     nextTagId := nextTagId c; nextTypeId := nextTypeId c;
     stringToTagMap := stringToTagMap c;
     nameTagIdToPrioMap := nameTagIdToPrioMap c;
     nameAltTagIdToPrioMap := nameAltTagIdToPrioMap c;
     nameToTypeMap := nameToTypeMap c; idToTypeMap := idToTypeMap c;
     surfaceToGradeMap := surfaceToGradeMap c;
     typeInfoIgnore := typeInfoIgnore c |}.

(** Replaces the member [nameToTypeMap]. *)
Definition TypeConfig_set_nameToTypeMap (v : gmap string TypeInfo)
    (c : TypeConfig) : TypeConfig :=
  {| tags := tags c; types := types c;
     nameToFeatureMap := nameToFeatureMap c; nextTagId := nextTagId c;
     nextTypeId := nextTypeId c; stringToTagMap := stringToTagMap c;
     nameTagIdToPrioMap := nameTagIdToPrioMap c;
     nameAltTagIdToPrioMap := nameAltTagIdToPrioMap c; nameToTypeMap := v;
     idToTypeMap := idToTypeMap c; surfaceToGradeMap := surfaceToGradeMap c;
     typeInfoIgnore := typeInfoIgnore c |}.

(** Replaces the member [idToTypeMap]. *)
Definition TypeConfig_set_idToTypeMap (v : gmap N TypeInfo)
    (c : TypeConfig) : TypeConfig :=
  {| tags := tags c; types := types c;
     nameToFeatureMap := nameToFeatureMap c; nextTagId := nextTagId c;
     nextTypeId := nextTypeId c; stringToTagMap := stringToTagMap c;
     nameTagIdToPrioMap := nameTagIdToPrioMap c;
     nameAltTagIdToPrioMap := nameAltTagIdToPrioMap c;
     nameToTypeMap := nameToTypeMap c; idToTypeMap := v;
     surfaceToGradeMap := surfaceToGradeMap c;
     typeInfoIgnore := typeInfoIgnore c |}.

(** Replaces the member [surfaceToGradeMap]. *)
Definition TypeConfig_set_surfaceToGradeMap (v : gmap string N)
    (c : TypeConfig) : TypeConfig :=
  {| tags := tags c; types := types c;
     nameToFeatureMap := nameToFeatureMap c; nextTagId := nextTagId c;
     nextTypeId := nextTypeId c; stringToTagMap := stringToTagMap c;
     nameTagIdToPrioMap := nameTagIdToPrioMap c;
     nameAltTagIdToPrioMap := nameAltTagIdToPrioMap c;
     nameToTypeMap := nameToTypeMap c; idToTypeMap := idToTypeMap c;
     surfaceToGradeMap := v; typeInfoIgnore := typeInfoIgnore c |}.

(** Replaces the member [typeInfoIgnore]. *)
Definition TypeConfig_set_typeInfoIgnore (v : TypeInfo)
    (c : TypeConfig) : TypeConfig :=
  {| tags := tags c; types := types c;
     nameToFeatureMap := nameToFeatureMap c; nextTagId := nextTagId c;
     nextTypeId := nextTypeId c; stringToTagMap := stringToTagMap c;
     nameTagIdToPrioMap := nameTagIdToPrioMap c;
     nameAltTagIdToPrioMap := nameAltTagIdToPrioMap c;
     nameToTypeMap := nameToTypeMap c; idToTypeMap := idToTypeMap c;
     surfaceToGradeMap := surfaceToGradeMap c; typeInfoIgnore := v |}.

Section TagRegistry.
Context `{D : Declarations}.

(** Conversion of an integer to [TagId], resp. [TypeId]. *)
Definition to_TagId (n : N) : TagId := (n mod 2 ^ TagId_bits)%N.
Definition to_TypeId (n : N) : TypeId := (n mod 2 ^ TypeId_bits)%N.

(** The part that [RegisterTagForInternalUse] and
    [RegisterTagForExternalUse] share literally: a [TagInfo] is created,
    gets its id and is stored. *)
Definition RegisterTag_new (tagName : string) (internalOnly : bool)
    (c : TypeConfig) : TagId * TypeConfig :=
  let tagInfo := TagInfo_new tagName internalOnly in
  let '(tagInfo, c) :=
    if (TagInfo_id tagInfo =? 0)%N
    then (TagInfo_SetId (nextTagId c) tagInfo,
          TypeConfig_set_nextTagId (to_TagId (nextTagId c + 1)) c)
    else (tagInfo,
          TypeConfig_set_nextTagId
            (N.max (nextTagId c) (to_TagId (TagInfo_id tagInfo + 1))) c) in
  let c := TypeConfig_set_tags (tags c ++ [tagInfo]) c in
  let c := TypeConfig_set_stringToTagMap
             (<[TagInfo_name tagInfo := TagInfo_id tagInfo]> (stringToTagMap c)) c in
  (TagInfo_id tagInfo, c).

(** [TypeConfig::RegisterTagForInternalUse]. *)
Definition RegisterTagForInternalUse (tagName : string) (c : TypeConfig)
    : TagId * TypeConfig :=
  match stringToTagMap c !! tagName with
  | Some second => (second, c)
  | None => RegisterTag_new tagName true c
  end.

(** [TypeConfig::RegisterTagForExternalUse].  [tags[mapping->second]] is
    the vector element at that position; a position outside of the vector
    (undefined in the source) leaves the vector as it is. *)
Definition RegisterTagForExternalUse (tagName : string) (c : TypeConfig)
    : TagId * TypeConfig :=
  match stringToTagMap c !! tagName with
  | Some second =>
      (second,
       TypeConfig_set_tags
         (alter TagInfo_SetToExternal (N.to_nat second) (tags c)) c)
  | None => RegisterTag_new tagName false c
  end.

(** [std::unordered_map::insert]: an existing key keeps its value. *)
Definition map_insert_new {V} (k : N) (v : V) (m : gmap N V) : gmap N V :=
  match m !! k with
  | Some _ => m
  | None => <[k := v]> m
  end.

(** [TypeConfig::RegisterNameTag]. *)
Definition RegisterNameTag (tagName : string) (priority : N) (c : TypeConfig)
    : TagId * TypeConfig :=
  let '(tagId, c) := RegisterTagForExternalUse tagName c in
  (tagId,
   TypeConfig_set_nameTagIdToPrioMap
     (map_insert_new tagId priority (nameTagIdToPrioMap c)) c).

(** [TypeConfig::RegisterNameAltTag]. *)
Definition RegisterNameAltTag (tagName : string) (priority : N) (c : TypeConfig)
    : TagId * TypeConfig :=
  let '(tagId, c) := RegisterTagForExternalUse tagName c in
  (tagId,
   TypeConfig_set_nameAltTagIdToPrioMap
     (map_insert_new tagId priority (nameAltTagIdToPrioMap c)) c).

(** [TypeConfig::GetTagId]. *)
Definition GetTagId (name : string) (c : TypeConfig) : TagId :=
  match stringToTagMap c !! name with
  | Some second => second
  | None => tagIgnore
  end.

End TagRegistry.

Section TypeConfigOperations.
Context `{D : Declarations}.

(** [Feature::Initialize] of each class: the tags the feature reads are
    registered for internal use and their ids stored in the feature. *)
Definition AccessFeature_Initialize (c : TypeConfig) : AccessFeatureTags * TypeConfig :=
  let '(tOneway, c) := RegisterTagForInternalUse "oneway" c in
  let '(tJunction, c) := RegisterTagForInternalUse "junction" c in
  let '(tAccess, c) := RegisterTagForInternalUse "access" c in
  let '(tAccessForward, c) := RegisterTagForInternalUse "access:foward" c in
  let '(tAccessBackward, c) := RegisterTagForInternalUse "access:backward" c in
  let '(tAccessFoot, c) := RegisterTagForInternalUse "access:foot" c in
  let '(tAccessFootForward, c) := RegisterTagForInternalUse "access:foot:foward" c in
  let '(tAccessFootBackward, c) := RegisterTagForInternalUse "access:foot:backward" c in
  let '(tAccessBicycle, c) := RegisterTagForInternalUse "access:bicycle" c in
  let '(tAccessBicycleForward, c) := RegisterTagForInternalUse "access:bicycle:foward" c in
  let '(tAccessBicycleBackward, c) := RegisterTagForInternalUse "access:bicycle:backward" c in
  let '(tAccessMotorVehicle, c) := RegisterTagForInternalUse "access:motor_vehicle" c in
  let '(tAccessMotorVehicleForward, c) := RegisterTagForInternalUse "access:motor_vehicle:foward" c in
  let '(tAccessMotorVehicleBackward, c) := RegisterTagForInternalUse "access:motor_vehicle:backward" c in
  let '(tAccessMotorcar, c) := RegisterTagForInternalUse "access:motorcar" c in
  let '(tAccessMotorcarForward, c) := RegisterTagForInternalUse "access:motorcar:foward" c in
  let '(tAccessMotorcarBackward, c) := RegisterTagForInternalUse "access:motorcar:backward" c in
  ({| tagOneway := tOneway; tagJunction := tJunction; tagAccess := tAccess;
      tagAccessForward := tAccessForward; tagAccessBackward := tAccessBackward;
      tagAccessFoot := tAccessFoot; tagAccessFootForward := tAccessFootForward;
      tagAccessFootBackward := tAccessFootBackward;
      tagAccessBicycle := tAccessBicycle;
      tagAccessBicycleForward := tAccessBicycleForward;
      tagAccessBicycleBackward := tAccessBicycleBackward;
      tagAccessMotorVehicle := tAccessMotorVehicle;
      tagAccessMotorVehicleForward := tAccessMotorVehicleForward;
      tagAccessMotorVehicleBackward := tAccessMotorVehicleBackward;
      tagAccessMotorcar := tAccessMotorcar;
      tagAccessMotorcarForward := tAccessMotorcarForward;
      tagAccessMotorcarBackward := tAccessMotorcarBackward |}, c).

Definition Feature_Initialize (f : Feature) (c : TypeConfig) : Feature * TypeConfig :=
  match f with
  | NameFeature => (NameFeature, c)
  | NameAltFeature => (NameAltFeature, c)
  | RefFeature _ =>
      let '(t, c) := RegisterTagForInternalUse "ref" c in (RefFeature t, c)
  | AddressFeature _ _ =>
      let '(tHouseNr, c) := RegisterTagForInternalUse "addr:housenumber" c in
      let '(tStreet, c) := RegisterTagForInternalUse "addr:street" c in
      (AddressFeature tHouseNr tStreet, c)
  | AccessFeature _ =>
      let '(ts, c) := AccessFeature_Initialize c in (AccessFeature ts, c)
  | LayerFeature _ =>
      let '(t, c) := RegisterTagForInternalUse "layer" c in (LayerFeature t, c)
  | WidthFeature _ =>
      let '(t, c) := RegisterTagForInternalUse "width" c in (WidthFeature t, c)
  | MaxSpeedFeature _ =>
      let '(t, c) := RegisterTagForInternalUse "maxspeed" c in (MaxSpeedFeature t, c)
  | GradeFeature _ _ =>
      let '(tSurface, c) := RegisterTagForInternalUse "surface" c in
      let '(tTrackType, c) := RegisterTagForInternalUse "tracktype" c in
      (GradeFeature tSurface tTrackType, c)
  | BridgeFeature _ =>
      let '(t, c) := RegisterTagForInternalUse "bridge" c in (BridgeFeature t, c)
  | TunnelFeature _ =>
      let '(t, c) := RegisterTagForInternalUse "tunnel" c in (TunnelFeature t, c)
  | RoundaboutFeature _ =>
      let '(t, c) := RegisterTagForInternalUse "junction" c in (RoundaboutFeature t, c)
  end.

(** [TypeConfig::RegisterFeature].  The map keeps a handle to the object
    that [Initialize] then fills in, so the stored value is the
    initialized feature. *)
Definition RegisterFeature (f : Feature) (c : TypeConfig) : TypeConfig :=
  let '(f', c) := Feature_Initialize f c in
  TypeConfig_set_nameToFeatureMap (<[Feature_GetName f := f']> (nameToFeatureMap c)) c.

(** [TypeConfig::GetFeature]; [None] is the null handle. *)
Definition GetFeature (name : string) (c : TypeConfig) : option Feature :=
  nameToFeatureMap c !! name.

(** [TypeConfig::AddTypeInfo].  The object behind the handle is changed by
    the call, so the result carries it next to the configuration. *)
Definition AddTypeInfo (typeInfo : TypeInfo) (c : TypeConfig)
    : option (TypeInfo * TypeConfig) :=
  match nameToTypeMap c !! name typeInfo with
  | Some _ => Some (typeInfo, c)
  | None =>
      typeInfo ←
        (if (canBeArea typeInfo || canBeNode typeInfo) &&
            negb (HasFeature "Address" typeInfo)
         then AddFeature (GetFeature "Address" c) typeInfo
         else Some typeInfo);
      let '(typeInfo, c) :=
        if (id typeInfo =? 0)%N
        then (TypeInfo_SetId (nextTypeId c) typeInfo,
              TypeConfig_set_nextTypeId (to_TypeId (nextTypeId c + 1)) c)
        else (typeInfo,
              TypeConfig_set_nextTypeId
                (N.max (nextTypeId c) (to_TypeId (id typeInfo + 1))) c) in
      let c := TypeConfig_set_types (types c ++ [typeInfo]) c in
      let c := TypeConfig_set_nameToTypeMap
                 (<[name typeInfo := typeInfo]> (nameToTypeMap c)) c in
      let c := TypeConfig_set_idToTypeMap
                 (<[id typeInfo := typeInfo]> (idToTypeMap c)) c in
      Some (typeInfo, c)
  end.

(** [TypeConfig::GetTypeId]. *)
Definition GetTypeId (n : string) (c : TypeConfig) : TypeId :=
  match nameToTypeMap c !! n with
  | Some second => id second
  | None => typeIgnore
  end.

(** [TypeConfig::IsNameTag]: [None] for [false], else the priority. *)
Definition IsNameTag (tag : TagId) (c : TypeConfig) : option N :=
  if bool_decide (nameTagIdToPrioMap c = ∅) then None
  else nameTagIdToPrioMap c !! tag.

(** [TypeConfig::IsNameAltTag]. *)
Definition IsNameAltTag (tag : TagId) (c : TypeConfig) : option N :=
  if bool_decide (nameAltTagIdToPrioMap c = ∅) then None
  else nameAltTagIdToPrioMap c !! tag.

(** *** Classification *)

(** Inner loop of [TypeConfig::GetNodeType] over the conditions of
    [type]; [Some] is the returned type. *)
Fixpoint GetNodeType_conditions (type : TypeInfo) (conds : list TypeCondition)
    (tagMap : gmap N string) : option TypeInfo :=
  match conds with
  | [] => None
  | cond :: rest =>
      if negb (nonzero (Z.land (cond_types cond) typeNode))
      then GetNodeType_conditions type rest tagMap
      else if Evaluate (cond_condition cond) tagMap
      then Some type
      else GetNodeType_conditions type rest tagMap
  end.

(** Outer loop of [TypeConfig::GetNodeType] over the types. *)
Fixpoint GetNodeType_types (ts : list TypeInfo) (tagMap : gmap N string)
    : option TypeInfo :=
  match ts with
  | [] => None
  | type :: rest =>
      if negb (HasConditions type) || negb (canBeNode type)
      then GetNodeType_types rest tagMap
      else
        match GetNodeType_conditions type (conditions type) tagMap with
        | Some r => Some r
        | None => GetNodeType_types rest tagMap
        end
  end.

(** [TypeConfig::GetNodeType]. *)
Definition GetNodeType (tagMap : gmap N string) (c : TypeConfig) : TypeInfo :=
  if bool_decide (tagMap = ∅) then typeInfoIgnore c
  else
    match GetNodeType_types (types c) tagMap with
    | Some r => r
    | None => typeInfoIgnore c
    end.

(** Inner loop of [TypeConfig::GetWayAreaTypeId]; the state is
    [(wayType,areaType)], a [Return] carries the function result and the
    two output parameters. *)
Fixpoint GetWayAreaTypeId_conditions (type : TypeInfo) (conds : list TypeCondition)
    (tagMap : gmap N string) (st : TypeId * TypeId)
    : LoopResult (bool * TypeId * TypeId) (TypeId * TypeId) :=
  match conds with
  | [] => Continue st
  | cond :: rest =>
      if negb (nonzero (Z.land (cond_types cond) typeWay) ||
               nonzero (Z.land (cond_types cond) typeArea))
      then GetWayAreaTypeId_conditions type rest tagMap st
      else if Evaluate (cond_condition cond) tagMap
      then
        let '(wayType, areaType) := st in
        let wayType :=
          if (wayType =? typeIgnore)%N && nonzero (Z.land (cond_types cond) typeWay)
          then id type else wayType in
        let areaType :=
          if (areaType =? typeIgnore)%N && nonzero (Z.land (cond_types cond) typeArea)
          then id type else areaType in
        if negb (wayType =? typeIgnore)%N || negb (areaType =? typeIgnore)%N
        then Return (true, wayType, areaType)
        else GetWayAreaTypeId_conditions type rest tagMap (wayType, areaType)
      else GetWayAreaTypeId_conditions type rest tagMap st
  end.

(** Outer loop of [TypeConfig::GetWayAreaTypeId]. *)
Fixpoint GetWayAreaTypeId_types (ts : list TypeInfo) (tagMap : gmap N string)
    (st : TypeId * TypeId) : bool * TypeId * TypeId :=
  match ts with
  | [] => (false, st.1, st.2)
  | type :: rest =>
      if negb ((canBeWay type || canBeArea type) && HasConditions type)
      then GetWayAreaTypeId_types rest tagMap st
      else
        match GetWayAreaTypeId_conditions type (conditions type) tagMap st with
        | Return r => r
        | Continue st => GetWayAreaTypeId_types rest tagMap st
        end
  end.

(** [TypeConfig::GetWayAreaTypeId]; the result is the returned flag with
    the final [wayType] and [areaType]. *)
Definition GetWayAreaTypeId (tagMap : gmap N string) (c : TypeConfig)
    : bool * TypeId * TypeId :=
  if bool_decide (tagMap = ∅) then (false, typeIgnore, typeIgnore)
  else GetWayAreaTypeId_types (types c) tagMap (typeIgnore, typeIgnore).

End TypeConfigOperations.

Section Constructor.
Context `{D : Declarations}.

(** The members as the initializer list of [TypeConfig::TypeConfig()]
    leaves them. *)
Definition TypeConfig_init : TypeConfig :=
  {| tags := []; types := []; nameToFeatureMap := ∅;
     nextTagId := 0%N; nextTypeId := 0%N; stringToTagMap := ∅;
     nameTagIdToPrioMap := ∅; nameAltTagIdToPrioMap := ∅;
     nameToTypeMap := ∅; idToTypeMap := ∅; surfaceToGradeMap := ∅;
     typeInfoIgnore := TypeInfo_new |}.

(** The names the constructor registers for external use, in order. *)
Definition ctor_external_tags : list string :=
  [ "name"; "ref"; "bridge"; "tunnel"; "layer"; "width"; "oneway";
    "addr:housenumber"; "addr:street"; "junction"; "maxspeed"; "surface";
    "tracktype"; "admin_level";
    "access"; "access:foward"; "access:backward";
    "access:foot"; "access:foot:foward"; "access:foot:backward";
    "access:bicycle"; "access:bicycle:foward"; "access:bicycle:backward";
    "access:motor_vehicle"; "access:motor_vehicle:foward";
    "access:motor_vehicle:backward";
    "access:motorcar"; "access:motorcar:foward"; "access:motorcar:backward" ].

(** The names it then registers for internal use. *)
Definition ctor_internal_tags : list string :=
  [ "area"; "natural"; "type"; "restriction" ].

(** The features it registers; the tag ids of a fresh feature object are
    not initialized in the source and are overwritten by [Initialize]. *)
Definition ctor_features : list Feature :=
  let none := {| tagOneway := 0; tagJunction := 0; tagAccess := 0;
                 tagAccessForward := 0; tagAccessBackward := 0;
                 tagAccessFoot := 0; tagAccessFootForward := 0;
                 tagAccessFootBackward := 0; tagAccessBicycle := 0;
                 tagAccessBicycleForward := 0; tagAccessBicycleBackward := 0;
                 tagAccessMotorVehicle := 0; tagAccessMotorVehicleForward := 0;
                 tagAccessMotorVehicleBackward := 0; tagAccessMotorcar := 0;
                 tagAccessMotorcarForward := 0;
                 tagAccessMotorcarBackward := 0 |}%N in
  [ NameFeature; NameAltFeature; RefFeature 0; AddressFeature 0 0;
    AccessFeature none; LayerFeature 0; WidthFeature 0; MaxSpeedFeature 0;
    GradeFeature 0 0; BridgeFeature 0; TunnelFeature 0; RoundaboutFeature 0 ]%N.

(** The types it adds after the ignore type. *)
Definition ctor_types : list TypeInfo :=
  [ TypeInfo_CanBeWay true (TypeInfo_SetType "_route" TypeInfo_new);
    TypeInfo_CanBeArea true (TypeInfo_SetType "_tile_land" TypeInfo_new);
    TypeInfo_CanBeArea true (TypeInfo_SetType "_tile_sea" TypeInfo_new);
    TypeInfo_CanBeArea true (TypeInfo_SetType "_tile_coast" TypeInfo_new);
    TypeInfo_CanBeArea true (TypeInfo_SetType "_tile_unknown" TypeInfo_new);
    TypeInfo_CanBeWay true (TypeInfo_SetType "_tile_coastline" TypeInfo_new) ].

(** [TypeConfig::TypeConfig()].  The ids the source caches in members
    afterwards ([tagRef], [typeTileLand], ...) are not part of the model;
    none of the embedded operations reads them. *)
Definition TypeConfig_new : option TypeConfig :=
  let c := TypeConfig_init in
  let c := (RegisterTagForInternalUse "" c).2 in
  let c := foldl (fun c n => (RegisterTagForExternalUse n c).2) c ctor_external_tags in
  let c := foldl (fun c n => (RegisterTagForInternalUse n c).2) c ctor_internal_tags in
  let c := foldl (fun c f => RegisterFeature f c) c ctor_features in
  let ignoreType := TypeInfo_SetType "" (typeInfoIgnore c) in
  '(ignoreType, c) ← AddTypeInfo ignoreType c;
  let c := TypeConfig_set_typeInfoIgnore ignoreType c in
  foldl (fun oc t => c ← oc; '(_, c) ← AddTypeInfo t c; Some c) (Some c) ctor_types.

End Constructor.

(** ** A sample instantiation of the declarations *)

(** Decimal digits of a string, most significant first; [acc] is the value
    read so far and [seen] tells whether a digit was read. *)
Fixpoint parse_digits (s : string) (acc : N) (seen : bool) : option N :=
  match s with
  | EmptyString => if seen then Some acc else None
  | String a rest =>
      let n := Ascii.N_of_ascii a in
      if ((48 <=? n) && (n <=? 57))%N
      then parse_digits rest (acc * 10 + (n - 48))%N true
      else None
  end.

(** An unsigned decimal number with an optional fraction, as a rational:
    [(mantissa, digits after the point)]. *)
Fixpoint parse_decimal (s : string) (acc : N) (seen : bool) (frac : option N)
    : option (N * N) :=
  match s with
  | EmptyString =>
      if seen then Some (acc, default 0%N frac) else None
  | String a rest =>
      let n := Ascii.N_of_ascii a in
      if ((48 <=? n) && (n <=? 57))%N
      then parse_decimal rest (acc * 10 + (n - 48))%N true (N.succ <$> frac)
      else if (n =? 46)%N
      then match frac with
           | None => parse_decimal rest acc seen (Some 0%N)
           | Some _ => None
           end
      else None
  end.

Definition parse_double (s : string) : option Q :=
  let '(neg, s) :=
    match s with
    | String (Ascii.Ascii true false true true false true false false) rest => (true, rest)
    | _ => (false, s)
    end in
  '(m, k) ← parse_decimal s 0%N false None;
  let q := Qmake (Z.of_N m) (Z.to_pos (10 ^ Z.of_N k)) in
  Some (if neg then Qopp q else q).

(** Values for running the model: 16 bit ids, the kind masks and access
    bits in declaration order, 8 byte alignment, decimal number parsing. *)
#[export] Instance ref_decls : Declarations := {|
  TagId_bits := 16;
  TypeId_bits := 16;
  typeNode := 1;
  typeWay := 2;
  typeArea := 4;
  typeRelation := 8;
  footForward := 1;
  footBackward := 2;
  bicycleForward := 4;
  bicycleBackward := 8;
  carForward := 16;
  carBackward := 32;
  onewayForward := 64;
  onewayBackward := 128;
  ParseAccessFlag := fun value access bit =>
    let access := uint8 (Z.land access (Z.lnot bit)) in
    if negb (string_eq value "no") then uint8 (Z.lor access bit) else access;
  StringToNumber_size_t := fun s => parse_digits s 0%N false;
  StringToNumber_double := parse_double;
  char_is_signed := true;
  alignment := 8;
  sizeof_NameFeatureValue := 40;
  sizeof_NameAltFeatureValue := 40;
  sizeof_RefFeatureValue := 40;
  sizeof_AddressFeatureValue := 72;
  sizeof_AccessFeatureValue := 16;
  sizeof_LayerFeatureValue := 16;
  sizeof_WidthFeatureValue := 16;
  sizeof_MaxSpeedFeatureValue := 16;
  sizeof_GradeFeatureValue := 16
|}.

(** ** Byte streams *)

(** Modelled from the spec: the byte-stream writer and reader
    ([FileWriter], [FileScanner]) are collaborators of this unit; the spec
    requires typed [Read]/[Write]/[ReadNumber]/[WriteNumber] primitives with
    error signalling, counts and ids as variable length integers, strings
    prefixed by their length, flags and small integers as one byte.  The
    error state is a flag of the stream ([HasError]); once set, every later
    operation fails.  A failed read leaves the variable it was to fill
    unchanged. *)
Record FileWriter := {
  written : list Z;
  writer_hasError : bool
}.

Record FileScanner := {
  input : list Z;
  scanner_hasError : bool
}.

Definition FileWriter_HasError (w : FileWriter) : bool := writer_hasError w.
Definition FileScanner_HasError (s : FileScanner) : bool := scanner_hasError s.

(** Appends bytes unless the writer is in its error state. *)
Definition FileWriter_put (bytes : list Z) (w : FileWriter) : bool * FileWriter :=
  if writer_hasError w then (false, w)
  else (true, {| written := written w ++ bytes; writer_hasError := false |}).

(** Runs a decoder on the remaining input; a decoder that fails puts the
    scanner into its error state. *)
Definition FileScanner_get {A} (decode : list Z -> option (A * list Z))
    (s : FileScanner) : option A * FileScanner :=
  if scanner_hasError s then (None, s)
  else
    match decode (input s) with
    | Some (a, rest) => (Some a, {| input := rest; scanner_hasError := false |})
    | None => (None, {| input := input s; scanner_hasError := true |})
    end.

(** Variable length encoding of a number: seven bits per byte, least
    significant group first, the high bit set on all but the last byte. *)
Fixpoint encode_number (fuel : nat) (n : N) : list Z :=
  match fuel with
  | O => [Z.of_N n]
  | S fuel =>
      if (n <? 128)%N then [Z.of_N n]
      else Z.of_N (n mod 128 + 128) :: encode_number fuel (n / 128)
  end.

Definition number_bytes (n : N) : list Z :=
  encode_number (N.to_nat (N.size n)) n.

Fixpoint decode_number (l : list Z) : option (N * list Z) :=
  match l with
  | [] => None
  | b :: rest =>
      if (b <? 128)%Z then Some (Z.to_N b, rest)
      else
        match decode_number rest with
        | Some (n, rest') => Some ((Z.to_N b - 128) + 128 * n, rest')
        | None => None
        end%N
  end.

Definition decode_byte (l : list Z) : option (Z * list Z) :=
  match l with
  | [] => None
  | b :: rest => Some (uint8 b, rest)
  end.

Definition string_bytes (s : string) : list Z :=
  number_bytes (N.of_nat (String.length s)) ++
  map (fun a => Z.of_N (Ascii.N_of_ascii a)) (String.list_ascii_of_string s).

Definition decode_string (l : list Z) : option (string * list Z) :=
  match decode_number l with
  | None => None
  | Some (n, rest) =>
      if (length rest <? N.to_nat n)%nat then None
      else
        Some (String.string_of_list_ascii
                (map (fun b => Ascii.ascii_of_N (Z.to_N (uint8 b)))
                     (take (N.to_nat n) rest)),
              drop (N.to_nat n) rest)
  end.

(** [FileWriter::Write(uint8_t)] and [FileWriter::Write(int8_t)]. *)
Definition FileWriter_Write_uint8 (v : Z) (w : FileWriter) : bool * FileWriter :=
  FileWriter_put [uint8 v] w.

(** [FileWriter::Write(bool)]. *)
Definition FileWriter_Write_bool (v : bool) (w : FileWriter) : bool * FileWriter :=
  FileWriter_put [if v then 1 else 0]%Z w.

(** [FileWriter::WriteNumber]. *)
Definition FileWriter_WriteNumber (n : N) (w : FileWriter) : bool * FileWriter :=
  FileWriter_put (number_bytes n) w.

(** [FileWriter::Write(const std::string&)]. *)
Definition FileWriter_Write_string (v : string) (w : FileWriter) : bool * FileWriter :=
  FileWriter_put (string_bytes v) w.

(** [FileScanner::Read(uint8_t&)]. *)
Definition FileScanner_Read_uint8 (s : FileScanner) : option Z * FileScanner :=
  FileScanner_get decode_byte s.

(** [FileScanner::Read(int8_t&)]: the byte as a signed value. *)
Definition FileScanner_Read_int8 (s : FileScanner) : option Z * FileScanner :=
  FileScanner_get
    (fun l => '(b, rest) ← decode_byte l;
              Some (if (b <? 128)%Z then b else (b - 256)%Z, rest)) s.

(** [FileScanner::Read(bool&)]. *)
Definition FileScanner_Read_bool (s : FileScanner) : option bool * FileScanner :=
  FileScanner_get
    (fun l => '(b, rest) ← decode_byte l; Some (nonzero b, rest)) s.

(** [FileScanner::ReadNumber]; the caller converts to the width of its
    variable. *)
Definition FileScanner_ReadNumber (s : FileScanner) : option N * FileScanner :=
  FileScanner_get decode_number s.

(** [FileScanner::Read(std::string&)]. *)
Definition FileScanner_Read_string (s : FileScanner) : option string * FileScanner :=
  FileScanner_get decode_string s.

(** [FileScanner::Close]: succeeds unless the scanner is in its error
    state. *)
Definition FileScanner_Close (s : FileScanner) : bool := negb (scanner_hasError s).

(** ** Feature value buffer *)

(** [class FeatureValueBuffer], bound to a type.  The raw value buffer is
    modelled by the objects constructed in it, keyed by their byte
    offset. *)
Record FeatureValueBuffer := {
  type : TypeInfo;
  featureBits : list Z;
  featureValueBuffer : gmap N FeatureValue
}.

Definition FeatureValueBuffer_set_featureBits (v : list Z)
    (b : FeatureValueBuffer) : FeatureValueBuffer :=
  {| type := type b; featureBits := v;
     featureValueBuffer := featureValueBuffer b |}.

Definition FeatureValueBuffer_set_featureValueBuffer (v : gmap N FeatureValue)
    (b : FeatureValueBuffer) : FeatureValueBuffer :=
  {| type := type b; featureBits := featureBits b; featureValueBuffer := v |}.

(** [Feature::AllocateValue]: the object that the placement [new]
    constructs, none for the features without value.  The default
    constructors (in the header) leave strings empty and numbers 0. *)
Definition Feature_AllocateValue (f : Feature) : option FeatureValue :=
  match f with
  | NameFeature => Some (NameFeatureValue "")
  | NameAltFeature => Some (NameAltFeatureValue "")
  | RefFeature _ => Some (RefFeatureValue "")
  | AddressFeature _ _ => Some (AddressFeatureValue "" "")
  | AccessFeature _ => Some (AccessFeatureValue 0)
  | LayerFeature _ => Some (LayerFeatureValue 0)
  | WidthFeature _ => Some (WidthFeatureValue 0)
  | MaxSpeedFeature _ => Some (MaxSpeedFeatureValue 0)
  | GradeFeature _ _ => Some (GradeFeatureValue 0)
  | BridgeFeature _ => None
  | TunnelFeature _ => None
  | RoundaboutFeature _ => None
  end.

(** Setters of the value classes, applied through a pointer of the
    class: [None] when the object is of another class. *)
Definition SetName (v : string) (o : FeatureValue) : option FeatureValue :=
  match o with NameFeatureValue _ => Some (NameFeatureValue v) | _ => None end.
Definition SetNameAlt (v : string) (o : FeatureValue) : option FeatureValue :=
  match o with NameAltFeatureValue _ => Some (NameAltFeatureValue v) | _ => None end.
Definition SetRef (v : string) (o : FeatureValue) : option FeatureValue :=
  match o with RefFeatureValue _ => Some (RefFeatureValue v) | _ => None end.
Definition SetAddress (l a : string) (o : FeatureValue) : option FeatureValue :=
  match o with AddressFeatureValue _ _ => Some (AddressFeatureValue l a) | _ => None end.
Definition SetAccess (v : Z) (o : FeatureValue) : option FeatureValue :=
  match o with AccessFeatureValue _ => Some (AccessFeatureValue (uint8 v)) | _ => None end.
Definition SetLayer (v : Z) (o : FeatureValue) : option FeatureValue :=
  match o with LayerFeatureValue _ => Some (LayerFeatureValue v) | _ => None end.
Definition SetWidth (v : Z) (o : FeatureValue) : option FeatureValue :=
  match o with WidthFeatureValue _ => Some (WidthFeatureValue (uint8 v)) | _ => None end.
Definition SetMaxSpeed (v : Z) (o : FeatureValue) : option FeatureValue :=
  match o with MaxSpeedFeatureValue _ => Some (MaxSpeedFeatureValue (uint8 v)) | _ => None end.
Definition SetGrade (v : Z) (o : FeatureValue) : option FeatureValue :=
  match o with GradeFeatureValue _ => Some (GradeFeatureValue (uint8 v)) | _ => None end.

(** [Feature::Read] of each class.  [value] is the object the pointer
    refers to; the result is [None] when the source would use the pointer
    with the wrong class, else the returned flag, the object afterwards
    and the scanner. *)
Definition Feature_Read (f : Feature) (scanner : FileScanner) (value : FeatureValue)
    : option (bool * FeatureValue * FileScanner) :=
  let read_string set :=
    match FileScanner_Read_string scanner with
    | (None, scanner) => Some (false, value, scanner)
    | (Some v, scanner) => o ← set v value; Some (true, o, scanner)
    end in
  let read_uint8 set :=
    match FileScanner_Read_uint8 scanner with
    | (None, scanner) => Some (false, value, scanner)
    | (Some v, scanner) => o ← set v value; Some (true, o, scanner)
    end in
  match f with
  | NameFeature => read_string SetName
  | NameAltFeature => read_string SetNameAlt
  | RefFeature _ => read_string SetRef
  | AddressFeature _ _ =>
      match FileScanner_Read_string scanner with
      | (None, scanner) => Some (false, value, scanner)
      | (Some location, scanner) =>
          match FileScanner_Read_string scanner with
          | (None, scanner) => Some (false, value, scanner)
          | (Some address, scanner) =>
              o ← SetAddress location address value; Some (true, o, scanner)
          end
      end
  | AccessFeature _ => read_uint8 SetAccess
  | LayerFeature _ =>
      match FileScanner_Read_int8 scanner with
      | (None, scanner) => Some (false, value, scanner)
      | (Some v, scanner) => o ← SetLayer v value; Some (true, o, scanner)
      end
  | WidthFeature _ => read_uint8 SetWidth
  | MaxSpeedFeature _ => read_uint8 SetMaxSpeed
  | GradeFeature _ _ => read_uint8 SetGrade
  | BridgeFeature _ => Some (true, value, scanner)
  | TunnelFeature _ => Some (true, value, scanner)
  | RoundaboutFeature _ => Some (true, value, scanner)
  end.

(** [Feature::Write] of each class.  [value] is the object the pointer
    refers to, if any; [None] results when the [dynamic_cast] yields null
    and is dereferenced. *)
Definition Feature_Write (f : Feature) (writer : FileWriter) (value : option FeatureValue)
    : option (bool * FileWriter) :=
  match f, value with
  | NameFeature, Some (NameFeatureValue v) => Some (FileWriter_Write_string v writer)
  | NameAltFeature, Some (NameAltFeatureValue v) => Some (FileWriter_Write_string v writer)
  | RefFeature _, Some (RefFeatureValue v) => Some (FileWriter_Write_string v writer)
  | AddressFeature _ _, Some (AddressFeatureValue location address) =>
      match FileWriter_Write_string location writer with
      | (false, writer) => Some (false, writer)
      | (true, writer) => Some (FileWriter_Write_string address writer)
      end
  | AccessFeature _, Some (AccessFeatureValue v) => Some (FileWriter_Write_uint8 v writer)
  | LayerFeature _, Some (LayerFeatureValue v) => Some (FileWriter_Write_uint8 v writer)
  | WidthFeature _, Some (WidthFeatureValue v) => Some (FileWriter_Write_uint8 v writer)
  | MaxSpeedFeature _, Some (MaxSpeedFeatureValue v) => Some (FileWriter_Write_uint8 v writer)
  | GradeFeature _ _, Some (GradeFeatureValue v) => Some (FileWriter_Write_uint8 v writer)
  | BridgeFeature _, _ => Some (true, writer)
  | TunnelFeature _, _ => Some (true, writer)
  | RoundaboutFeature _, _ => Some (true, writer)
  | _, _ => None
  end.

Section Buffer.
Context `{D : Declarations}.

(** [TypeInfo::GetFeatureBytes] (inline in the header): the number of
    bytes that hold one bit per feature. *)
Definition GetFeatureBytes (t : TypeInfo) : nat :=
  let size := length (features t) in
  if (size mod 8 =? 0)%nat then (size / 8)%nat else (size / 8 + 1)%nat.

(** [FeatureValueBuffer::SetType] on a buffer without type: what
    [AllocateData] leaves. *)
Definition FeatureValueBuffer_SetType (t : TypeInfo) : FeatureValueBuffer :=
  {| type := t; featureBits := replicate (GetFeatureBytes t) 0%Z;
     featureValueBuffer := ∅ |}.

(** [FeatureValueBuffer::HasValue]: the bit of feature [idx].  The
    source asserts [idx<type->GetFeatureCount()]; the loops and the
    operations below call it on positions of features, and the
    operations with an index of their own ([AllocateValue], [FreeValue])
    check the index first.  A byte outside of the array reads as 0. *)
Definition FeatureValueBuffer_HasValue (idx : nat) (b : FeatureValueBuffer) : bool :=
  nonzero (Z.land (default 0%Z (featureBits b !! (idx / 8)%nat))
                  (Z.shiftl 1 (Z.of_nat (idx mod 8)))).

(** [FeatureValueBuffer::GetValue]: the object at the offset of the
    feature, if one was constructed there. *)
Definition FeatureValueBuffer_GetValue (idx : nat) (b : FeatureValueBuffer)
    : option FeatureValue :=
  fi ← features (type b) !! idx;
  featureValueBuffer b !! offset fi.

(** Stores the outcome of a setter applied to the object of feature
    [idx]. *)
Definition FeatureValueBuffer_setValue (idx : nat)
    (set : FeatureValue -> option FeatureValue) (b : FeatureValueBuffer)
    : option FeatureValueBuffer :=
  fi ← features (type b) !! idx;
  o ← featureValueBuffer b !! offset fi;
  o' ← set o;
  Some (FeatureValueBuffer_set_featureValueBuffer
          (<[offset fi := o']> (featureValueBuffer b)) b).

(** [FeatureValueBuffer::AllocateValue], with its assertions. *)
Definition FeatureValueBuffer_AllocateValue (idx : nat) (b : FeatureValueBuffer)
    : option FeatureValueBuffer :=
  if negb (idx <? GetFeatureCount (type b))%nat then None
  else if FeatureValueBuffer_HasValue idx b then None
  else
    let byteIdx := (idx / 8)%nat in
    let b :=
      FeatureValueBuffer_set_featureBits
        (<[byteIdx := uint8 (Z.lor (default 0%Z (featureBits b !! byteIdx))
                                   (Z.shiftl 1 (Z.of_nat (idx mod 8))))]>
           (featureBits b)) b in
    fi ← features (type b) !! idx;
    if Feature_HasValue (feature fi)
    then
      match Feature_AllocateValue (feature fi) with
      | Some o =>
          Some (FeatureValueBuffer_set_featureValueBuffer
                  (<[offset fi := o]> (featureValueBuffer b)) b)
      | None => Some b
      end
    else Some b.

(** First loop of [FeatureValueBuffer::Write]: the bytes
    [featureBits[i]] for [i] from [i] on, [n] of them. *)
Fixpoint Write_featureBits (n i : nat) (b : FeatureValueBuffer) (writer : FileWriter)
    : option (LoopResult (bool * FileWriter) FileWriter) :=
  match n with
  | O => Some (Continue writer)
  | S n =>
      v ← featureBits b !! i;
      match FileWriter_Write_uint8 v writer with
      | (false, writer) => Some (Return (false, writer))
      | (true, writer) => Write_featureBits n (S i) b writer
      end
  end.

(** Second loop of [FeatureValueBuffer::Write] over the features from
    position [idx] on. *)
Fixpoint Write_features (fs : list FeatureInstance) (idx : nat)
    (b : FeatureValueBuffer) (writer : FileWriter)
    : option (LoopResult (bool * FileWriter) FileWriter) :=
  match fs with
  | [] => Some (Continue writer)
  | fi :: rest =>
      if FeatureValueBuffer_HasValue idx b && Feature_HasValue (feature fi)
      then
        r ← Feature_Write (feature fi) writer (FeatureValueBuffer_GetValue idx b);
        match r with
        | (false, writer) => Some (Return (false, writer))
        | (true, writer) => Write_features rest (S idx) b writer
        end
      else Write_features rest (S idx) b writer
  end.

(** [FeatureValueBuffer::Write]: the returned flag and the writer. *)
Definition FeatureValueBuffer_Write (b : FeatureValueBuffer) (writer : FileWriter)
    : option (bool * FileWriter) :=
  r ← Write_featureBits (GetFeatureBytes (type b)) 0 b writer;
  match r with
  | Return r => Some r
  | Continue writer =>
      r ← Write_features (features (type b)) 0 b writer;
      match r with
      | Return r => Some r
      | Continue writer => Some (negb (FileWriter_HasError writer), writer)
      end
  end.

(** First loop of [FeatureValueBuffer::Read]. *)
Fixpoint Read_featureBits (n i : nat) (b : FeatureValueBuffer) (scanner : FileScanner)
    : LoopResult (FeatureValueBuffer * FileScanner) (FeatureValueBuffer * FileScanner) :=
  match n with
  | O => Continue (b, scanner)
  | S n =>
      match FileScanner_Read_uint8 scanner with
      | (None, scanner) => Return (b, scanner)
      | (Some v, scanner) =>
          Read_featureBits n (S i)
            (FeatureValueBuffer_set_featureBits (<[i := v]> (featureBits b)) b)
            scanner
      end
  end.

(** Second loop of [FeatureValueBuffer::Read]. *)
Fixpoint Read_features (fs : list FeatureInstance) (idx : nat)
    (b : FeatureValueBuffer) (scanner : FileScanner)
    : option (LoopResult (FeatureValueBuffer * FileScanner)
                         (FeatureValueBuffer * FileScanner)) :=
  match fs with
  | [] => Some (Continue (b, scanner))
  | fi :: rest =>
      if FeatureValueBuffer_HasValue idx b && Feature_HasValue (feature fi)
      then
        o ← Feature_AllocateValue (feature fi);
        match Feature_Read (feature fi) scanner o with
        | None => None
        | Some (ok, o, scanner) =>
            let b := FeatureValueBuffer_set_featureValueBuffer
                       (<[offset fi := o]> (featureValueBuffer b)) b in
            if ok then Read_features rest (S idx) b scanner
            else Some (Return (b, scanner))
        end
      else Read_features rest (S idx) b scanner
  end.

(** [FeatureValueBuffer::Read]: the returned flag, the buffer and the
    scanner afterwards. *)
Definition FeatureValueBuffer_Read (b : FeatureValueBuffer) (scanner : FileScanner)
    : option (bool * FeatureValueBuffer * FileScanner) :=
  match Read_featureBits (GetFeatureBytes (type b)) 0 b scanner with
  | Return (b, scanner) => Some (false, b, scanner)
  | Continue (b, scanner) =>
      r ← Read_features (features (type b)) 0 b scanner;
      match r with
      | Return (b, scanner) => Some (false, b, scanner)
      | Continue (b, scanner) => Some (true, b, scanner)
      end
  end.

End Buffer.

(** ** Parsing of the access and width features *)

Section Parse.
Context `{D : Declarations}.

(** [access|=mask] and [access&=~mask] on an [uint8_t]. *)
Definition or_mask (access mask : Z) : Z := uint8 (Z.lor access mask).
Definition clear_mask (access mask : Z) : Z := uint8 (Z.land access (Z.lnot mask)).

(** The C++ expression [!access & bit]. *)
Definition not_access_and (access bit : Z) : bool :=
  nonzero (Z.land (if (access =? 0)%Z then 1 else 0) bit).

(** The access mask the type grants by default. *)
Definition AccessFeature_defaultAccess (type : TypeInfo) : Z :=
  let access := 0%Z in
  let access := if canRouteFoot type
                then or_mask access (Z.lor footForward footBackward) else access in
  let access := if canRouteBicycle type
                then or_mask access (Z.lor bicycleForward bicycleBackward) else access in
  let access := if canRouteCar type
                then or_mask access (Z.lor carForward carBackward) else access in
  access.

(** The blocks of [AccessFeature::Parse] for one mode of travel that is
    not foot: [forward] and [backward] are the bits of the mode. *)
Definition AccessFeature_mode (value : string) (forward backward access : Z) : Z :=
  let access := clear_mask access (Z.lor forward backward) in
  if negb (string_eq value "no")
  then
    let access := if not_access_and access onewayBackward
                  then or_mask access forward else access in
    let access := if not_access_and access onewayForward
                  then or_mask access backward else access in
    access
  else access.

(** The block for the tag [access]; [v] is what [tags.find] gives. *)
Definition AccessFeature_blanket (v : option string) (access : Z) : Z :=
  match v with
  | Some v =>
      if negb (string_eq v "no")
      then Z.lor footForward (Z.lor footBackward (Z.lor bicycleForward
             (Z.lor bicycleBackward (Z.lor carForward carBackward))))
      else 0%Z
  | None => access
  end.

(** The block for [access:forward] and [access:backward]. *)
Definition AccessFeature_direction (forward backward : option string) (access : Z) : Z :=
  match forward, backward with
  | Some v, _ =>
      let m := Z.lor footForward (Z.lor bicycleForward carForward) in
      let access := clear_mask access m in
      if negb (string_eq v "no") then or_mask access m else access
  | None, Some v =>
      let m := Z.lor footBackward (Z.lor bicycleBackward carBackward) in
      let access := clear_mask access m in
      if negb (string_eq v "no") then or_mask access m else access
  | None, None => access
  end.

(** The block for [access:foot], [access:bicycle], [access:motor_vehicle]
    and [access:motorcar]: the first of them that is present. *)
Definition AccessFeature_modes (foot bicycle motorVehicle motorcar : option string)
    (access : Z) : Z :=
  match foot with
  | Some v =>
      let m := Z.lor footForward footBackward in
      let access := clear_mask access m in
      if negb (string_eq v "no") then or_mask access m else access
  | None =>
      match bicycle with
      | Some v => AccessFeature_mode v bicycleForward bicycleBackward access
      | None =>
          match motorVehicle with
          | Some v => AccessFeature_mode v carForward carBackward access
          | None =>
              match motorcar with
              | Some v => AccessFeature_mode v carForward carBackward access
              | None => access
              end
          end
      end
  end.

(** One of the blocks per mode and direction. *)
Definition AccessFeature_flag (v : option string) (bit : Z) (access : Z) : Z :=
  match v with
  | Some v => ParseAccessFlag v access bit
  | None => access
  end.

(** The block for [oneway] and [junction]. *)
Definition AccessFeature_oneway (oneway junction : option string) (access : Z) : Z :=
  match oneway with
  | Some v =>
      if string_eq v "-1"
      then or_mask
             (clear_mask access
                (Z.lor bicycleForward (Z.lor carForward onewayForward)))
             onewayBackward
      else if negb (string_eq v "no" || string_eq v "false" || string_eq v "0")
      then or_mask
             (clear_mask access
                (Z.lor bicycleBackward (Z.lor carBackward onewayBackward)))
             onewayForward
      else access
  | None =>
      match junction with
      | Some v =>
          if string_eq v "roundabout"
          then or_mask
                 (clear_mask access
                    (Z.lor bicycleBackward (Z.lor carBackward onewayBackward)))
                 (Z.lor bicycleForward (Z.lor carForward onewayForward))
          else access
      | None => access
      end
  end.

(** The value of [access] when [AccessFeature::Parse] reaches its final
    comparison with [defaultAccess]. *)
Definition AccessFeature_access (t : AccessFeatureTags) (type : TypeInfo)
    (tags : gmap N string) : Z :=
  let access := AccessFeature_defaultAccess type in
  let access := AccessFeature_blanket (tags !! tagAccess t) access in
  let access :=
    AccessFeature_direction (tags !! tagAccessForward t)
      (tags !! tagAccessBackward t) access in
  let access :=
    AccessFeature_modes (tags !! tagAccessFoot t) (tags !! tagAccessBicycle t)
      (tags !! tagAccessMotorVehicle t) (tags !! tagAccessMotorcar t) access in
  let access := AccessFeature_flag (tags !! tagAccessFootForward t) footForward access in
  let access := AccessFeature_flag (tags !! tagAccessFootBackward t) footBackward access in
  let access :=
    AccessFeature_flag (tags !! tagAccessBicycleForward t) bicycleForward access in
  let access :=
    AccessFeature_flag (tags !! tagAccessBicycleBackward t) bicycleBackward access in
  let access :=
    AccessFeature_flag (tags !! tagAccessMotorVehicleForward t) carForward access in
  let access :=
    AccessFeature_flag (tags !! tagAccessMotorVehicleBackward t) carBackward access in
  let access :=
    AccessFeature_flag (tags !! tagAccessMotorcarForward t) carForward access in
  let access :=
    AccessFeature_flag (tags !! tagAccessMotorcarBackward t) carBackward access in
  AccessFeature_oneway (tags !! tagOneway t) (tags !! tagJunction t) access.

(** [AccessFeature::Parse]. *)
Definition AccessFeature_Parse (t : AccessFeatureTags) (type : TypeInfo)
    (idx : nat) (tags : gmap N string) (buffer : FeatureValueBuffer)
    : option FeatureValueBuffer :=
  let defaultAccess := AccessFeature_defaultAccess type in
  let access := AccessFeature_access t type tags in
  if negb (access =? defaultAccess)%Z
  then
    buffer ← FeatureValueBuffer_AllocateValue idx buffer;
    FeatureValueBuffer_setValue idx (SetAccess access) buffer
  else Some buffer.

(** The loop of [WidthFeature::Parse] that looks for commas: the state
    is [(pos,count)], [i] the position of the head of [l]. *)
Fixpoint Width_commas (l : list Ascii.ascii) (i : nat) (st : nat * nat) : nat * nat :=
  match l with
  | [] => st
  | a :: rest =>
      if (st.2 <=? 1)%nat
      then Width_commas rest (S i)
             (if (Ascii.N_of_ascii a =? 44)%N then (i, S st.2) else st)
      else st
  end.

(** [c<=' '] on a [char]. *)
Definition char_le_space (a : Ascii.ascii) : bool :=
  let n := Ascii.N_of_ascii a in
  ((n <=? 32) || (char_is_signed && (128 <=? n)))%N.

(** The loop that erases the last character as long as it is a space, on
    the reversed string. *)
Fixpoint Width_trim (r : list Ascii.ascii) : list Ascii.ascii :=
  match r with
  | a :: rest => if (Ascii.N_of_ascii a =? 32)%N then Width_trim rest else r
  | [] => []
  end.

(** The string [WidthFeature::Parse] hands to [StringToNumber]. *)
Definition Width_normalize (value : string) : string :=
  let widthString := String.list_ascii_of_string value in
  let '(pos, count) := Width_commas widthString 0 (0, 0)%nat in
  let widthString :=
    if (count =? 1)%nat
    then <[pos := Ascii.ascii_of_N 46]> widthString else widthString in
  let widthString :=
    if (2 <=? length widthString)%nat
    then
      let r := rev widthString in
      let r :=
        match r with
        | last :: before :: _ =>
            let n := Ascii.N_of_ascii before in
            if (Ascii.N_of_ascii last =? 109)%N &&
               (((48 <=? n) && (n <=? 57))%N || char_le_space before)
            then tail r else r
        | _ => r
        end in
      rev (Width_trim r)
    else widthString in
  String.string_of_list_ascii widthString.

(** The range test of [WidthFeature::Parse]: [w<0 && w>255.5]. *)
Definition Width_out_of_range (w : Q) : bool :=
  negb (Qle_bool 0 w) && negb (Qle_bool w (511 # 2)).

(** [WidthFeature::Parse]; [progress] collects the warnings, [object]
    is [object.GetName()].  The number is the exact value of the decimal
    string, where the source holds the nearest [double]; the conversion
    of the rounded value to [uint8_t] is taken modulo 256, which the
    source leaves undefined for a value outside of the range of
    [uint8_t]. *)
Definition WidthFeature_Parse (tagWidth : TagId) (object : string)
    (idx : nat) (tags : gmap N string)
    (progress : list string) (buffer : FeatureValueBuffer)
    : option (list string * FeatureValueBuffer) :=
  match tags !! tagWidth with
  | None => Some (progress, buffer)
  | Some second =>
      let widthString := Width_normalize second in
      match StringToNumber_double widthString with
      | None =>
          Some ((progress ++
                   ["Width tag value '" +:+ second +:+ "' for " +:+ object +:+
                    " is no double!"])%list, buffer)
      | Some w =>
          if Width_out_of_range w
          then
            Some ((progress ++
                     ["Width tag value '" +:+ second +:+ "' for " +:+ object +:+
                      " value is too small or too big!"])%list, buffer)
          else
            buffer ← FeatureValueBuffer_AllocateValue idx buffer;
            buffer ← FeatureValueBuffer_setValue idx
                       (SetWidth (Qfloor (Qplus w (1 # 2)))) buffer;
            Some (progress, buffer)
      end
  end.

End Parse.

(** ** Loading the type configuration from its data file *)

Section Load.
Context `{D : Declarations}.

(** Conversion to [uint32_t]. *)
Definition to_uint32 (n : N) : N := (n mod 2 ^ 32)%N.

(** A chain [scanner.Read(b1) && ... && scanner.Read(bn)] on [bool]
    variables: the values read, or [None] as soon as one read fails. *)
Fixpoint Read_bools (n : nat) (scanner : FileScanner) : option (list bool) * FileScanner :=
  match n with
  | O => (Some [], scanner)
  | S n =>
      match FileScanner_Read_bool scanner with
      | (None, scanner) => (None, scanner)
      | (Some v, scanner) =>
          match Read_bools n scanner with
          | (None, scanner) => (None, scanner)
          | (Some l, scanner) => (Some (v :: l), scanner)
          end
      end
  end.

(** The loop over the tags, [n] entries to go.  The condition of the
    source is [!(ReadNumber(requestedId) && Read(name), Read(internalOnly))]:
    a comma operator, so only the last read decides.  [garbage] is the
    content of the uninitialized [requestedId]. *)
Fixpoint Load_tags (n : nat) (garbage : TagId) (c : TypeConfig) (scanner : FileScanner)
    : LoopResult (bool * TypeConfig) (TypeConfig * FileScanner) :=
  match n with
  | O => Continue (c, scanner)
  | S n =>
      let '(requestedId, name, scanner) :=
        match FileScanner_ReadNumber scanner with
        | (None, scanner) => (garbage, "", scanner)
        | (Some v, scanner) =>
            match FileScanner_Read_string scanner with
            | (None, scanner) => (to_TagId v, "", scanner)
            | (Some s, scanner) => (to_TagId v, s, scanner)
            end
        end in
      match FileScanner_Read_bool scanner with
      | (None, scanner) => Return (false, c)
      | (Some internalOnly, scanner) =>
          let '(actualId, c) :=
            if internalOnly then RegisterTagForInternalUse name c
            else RegisterTagForExternalUse name c in
          if negb (actualId =? requestedId)%N then Return (false, c)
          else Load_tags n garbage c scanner
      end
  end.

(** What one entry of the name tag (and name alt tag) loop reads:
    [requestedId], [name], [priority] and whether the chain of reads
    succeeded.  Variables not reached keep their initial content. *)
Definition Load_nameTagEntry (garbage : TagId) (scanner : FileScanner)
    : bool * TagId * string * N * FileScanner :=
  match FileScanner_ReadNumber scanner with
  | (None, scanner) => (false, garbage, "", 0%N, scanner)
  | (Some v, scanner) =>
      match FileScanner_Read_string scanner with
      | (None, scanner) => (false, to_TagId v, "", 0%N, scanner)
      | (Some s, scanner) =>
          match FileScanner_ReadNumber scanner with
          | (None, scanner) => (false, to_TagId v, s, 0%N, scanner)
          | (Some p, scanner) => (true, to_TagId v, s, to_uint32 p, scanner)
          end
      end
  end.

(** The loops over the name tags and the name alt tags; [register] is
    [RegisterNameTag] resp. [RegisterNameAltTag].  A failed read is
    reported on [std::cerr] and the loop body goes on. *)
Fixpoint Load_nameTags (register : string -> N -> TypeConfig -> TagId * TypeConfig)
    (n : nat) (garbage : TagId) (c : TypeConfig) (scanner : FileScanner)
    : LoopResult (bool * TypeConfig) (TypeConfig * FileScanner) :=
  match n with
  | O => Continue (c, scanner)
  | S n =>
      let '(_, requestedId, name, priority, scanner) :=
        Load_nameTagEntry garbage scanner in
      let '(actualId, c) := register name priority c in
      if negb (actualId =? requestedId)%N then Return (false, c)
      else Load_nameTags register n garbage c scanner
  end.

(** The loop over the feature names of one type. *)
Fixpoint Load_features (n : nat) (typeInfo : TypeInfo) (c : TypeConfig)
    (scanner : FileScanner)
    : option (LoopResult bool (TypeInfo * FileScanner)) :=
  match n with
  | O => Some (Continue (typeInfo, scanner))
  | S n =>
      match FileScanner_Read_string scanner with
      | (None, scanner) => Some (Return false)
      | (Some featureName, scanner) =>
          match GetFeature featureName c with
          | None => Some (Return false)
          | Some f =>
              typeInfo ← AddFeature (Some f) typeInfo;
              Load_features n typeInfo c scanner
          end
      end
  end.

(** The flags of a type as the loop over the types sets them: the five
    values after [indexAsPOI] all go through [SetIgnore]. *)
Definition Load_typeInfo (id : TypeId) (name : string) (flags : list bool) : TypeInfo :=
  let flag i := default false (flags !! i) in
  let t := TypeInfo_new in
  let t := TypeInfo_SetId id t in
  let t := TypeInfo_SetType name t in
  let t := TypeInfo_CanBeNode (flag 0%nat) t in
  let t := TypeInfo_CanBeWay (flag 1%nat) t in
  let t := TypeInfo_CanBeArea (flag 2%nat) t in
  let t := TypeInfo_CanBeRelation (flag 3%nat) t in
  let t := TypeInfo_CanRouteFoot (flag 4%nat) t in
  let t := TypeInfo_CanRouteBicycle (flag 5%nat) t in
  let t := TypeInfo_CanRouteCar (flag 6%nat) t in
  let t := TypeInfo_SetIndexAsLocation (flag 7%nat) t in
  let t := TypeInfo_SetIndexAsRegion (flag 8%nat) t in
  let t := TypeInfo_SetIndexAsPOI (flag 9%nat) t in
  let t := TypeInfo_SetIgnore (flag 10%nat) t in
  let t := TypeInfo_SetIgnore (flag 11%nat) t in
  let t := TypeInfo_SetIgnore (flag 12%nat) t in
  let t := TypeInfo_SetIgnore (flag 13%nat) t in
  let t := TypeInfo_SetIgnore (flag 14%nat) t in
  t.

(** The loop over the types. *)
Fixpoint Load_types (n : nat) (c : TypeConfig) (scanner : FileScanner)
    : option (LoopResult (bool * TypeConfig) (TypeConfig * FileScanner)) :=
  match n with
  | O => Some (Continue (c, scanner))
  | S n =>
      match FileScanner_ReadNumber scanner with
      | (None, scanner) => Some (Return (false, c))
      | (Some id, scanner) =>
          match FileScanner_Read_string scanner with
          | (None, scanner) => Some (Return (false, c))
          | (Some name, scanner) =>
              match Read_bools 15 scanner with
              | (None, scanner) => Some (Return (false, c))
              | (Some flags, scanner) =>
                  let typeInfo := Load_typeInfo (to_TypeId id) name flags in
                  match FileScanner_ReadNumber scanner with
                  | (None, scanner) => Some (Return (false, c))
                  | (Some featureCount, scanner) =>
                      r ← Load_features (N.to_nat (to_uint32 featureCount))
                            typeInfo c scanner;
                      match r with
                      | Return r => Some (Return (r, c))
                      | Continue (typeInfo, scanner) =>
                          match AddTypeInfo typeInfo c with
                          | None => None
                          | Some (_, c) => Load_types n c scanner
                          end
                      end
                  end
              end
          end
      end
  end.

(** [TypeConfig::LoadFromDataFile].  [file] is the content of
    [types.dat], [None] if the file cannot be opened.  The result is the
    returned flag and the configuration as the call leaves it. *)
Definition LoadFromDataFile (file : option (list Z)) (garbage : TagId) (c : TypeConfig)
    : option (bool * TypeConfig) :=
  match file with
  | None => Some (false, c)
  | Some bytes =>
      let scanner := {| input := bytes; scanner_hasError := false |} in
      match FileScanner_ReadNumber scanner with
      | (None, scanner) => Some (false, c)
      | (Some tagCount, scanner) =>
      match Load_tags (N.to_nat (to_uint32 tagCount)) garbage c scanner with
      | Return r => Some r
      | Continue (c, scanner) =>
      match FileScanner_ReadNumber scanner with
      | (None, scanner) => Some (false, c)
      | (Some nameTagCount, scanner) =>
      match Load_nameTags RegisterNameTag (N.to_nat (to_uint32 nameTagCount))
              garbage c scanner with
      | Return r => Some r
      | Continue (c, scanner) =>
      match FileScanner_ReadNumber scanner with
      | (None, scanner) => Some (false, c)
      | (Some nameAltTagCount, scanner) =>
      match Load_nameTags RegisterNameAltTag (N.to_nat (to_uint32 nameAltTagCount))
              garbage c scanner with
      | Return r => Some r
      | Continue (c, scanner) =>
      match FileScanner_ReadNumber scanner with
      | (None, scanner) => Some (false, c)
      | (Some typeCount, scanner) =>
          r ← Load_types (N.to_nat (to_uint32 typeCount)) c scanner;
          match r with
          | Return r => Some r
          | Continue (c, scanner) =>
              Some (negb (FileScanner_HasError scanner) && FileScanner_Close scanner, c)
          end
      end end end end end end end
  end.

End Load.

(** ** Classification as the specification words it *)

Section ClassificationSpec.
Context `{D : Declarations}.

(** A condition is node-scoped and holds for the tag map. *)
Definition node_condition_holds (tagMap : gmap N string) (cond : TypeCondition) : bool :=
  nonzero (Z.land (cond_types cond) typeNode) && Evaluate (cond_condition cond) tagMap.

(** A type can be a node, has conditions, and one of its node-scoped
    conditions holds. *)
Definition node_type_matches (tagMap : gmap N string) (t : TypeInfo) : bool :=
  HasConditions t && canBeNode t &&
  existsb (node_condition_holds tagMap) (conditions t).

(** Node classification in the words of the specification: the first
    type in registration order that matches, else the ignore type. *)
Definition ClassifyNode (tagMap : gmap N string) (c : TypeConfig) : TypeInfo :=
  if bool_decide (tagMap = ∅) then typeInfoIgnore c
  else default (typeInfoIgnore c) (find (node_type_matches tagMap) (types c)).

Definition way_scoped (cond : TypeCondition) : bool :=
  nonzero (Z.land (cond_types cond) typeWay).
Definition area_scoped (cond : TypeCondition) : bool :=
  nonzero (Z.land (cond_types cond) typeArea).

(** The pairs of a type and one of its conditions in the order in which
    the way/area classification visits them. *)
Definition way_area_candidates (ts : list TypeInfo) : list (TypeInfo * TypeCondition) :=
  flat_map (fun t =>
              if (canBeWay t || canBeArea t) && HasConditions t
              then map (pair t) (conditions t) else []) ts.

(** A visited pair ends the scan: the condition is way- or area-scoped
    and holds, and the id of the type is not the ignore id. *)
Definition way_area_hit (tagMap : gmap N string) (p : TypeInfo * TypeCondition) : bool :=
  (way_scoped p.2 || area_scoped p.2) &&
  Evaluate (cond_condition p.2) tagMap &&
  negb (id p.1 =? typeIgnore)%N.

(** Way/area classification by first hit. *)
Definition ClassifyWayOrArea (tagMap : gmap N string) (c : TypeConfig)
    : bool * TypeId * TypeId :=
  if bool_decide (tagMap = ∅) then (false, typeIgnore, typeIgnore)
  else
    match find (way_area_hit tagMap) (way_area_candidates (types c)) with
    | Some (t, cond) =>
        (true,
         if way_scoped cond then id t else typeIgnore,
         if area_scoped cond then id t else typeIgnore)
    | None => (false, typeIgnore, typeIgnore)
    end.

(** The way/area claim of the specification at one configuration and
    tag map: whenever a way-scoped condition of a type and an
    area-scoped condition of a later type hold, both results are
    non-ignore. *)
Definition way_and_area_both_fixed (tagMap : gmap N string) (c : TypeConfig) : Prop :=
  forall (i j : nat) (t1 t2 : TypeInfo) (cw ca : TypeCondition),
    (i < j)%nat ->
    types c !! i = Some t1 -> types c !! j = Some t2 ->
    cw ∈ conditions t1 -> way_scoped cw = true ->
    Evaluate (cond_condition cw) tagMap = true ->
    ca ∈ conditions t2 -> area_scoped ca = true ->
    Evaluate (cond_condition ca) tagMap = true ->
    (GetWayAreaTypeId tagMap c).1.2 <> typeIgnore /\
    (GetWayAreaTypeId tagMap c).2 <> typeIgnore.

End ClassificationSpec.

(** ** Sample configurations *)

(** A fresh configuration to which a way type for tag 40 and then an area
    type for tag 41 are added. *)
Definition sample_way_area_config : option TypeConfig :=
  c ← TypeConfig_new;
  '(_, c) ← AddTypeInfo
              (AddCondition typeWay (TagExistsCondition 40%N)
                 (TypeInfo_SetType "highway" TypeInfo_new)) c;
  '(_, c) ← AddTypeInfo
              (AddCondition typeArea (TagExistsCondition 41%N)
                 (TypeInfo_SetType "building" TypeInfo_new)) c;
  Some c.

Definition sample_way_area : TypeConfig :=
  default TypeConfig_init sample_way_area_config.

(** A tag map that holds both tags. *)
Definition sample_way_area_tags : gmap N string :=
  {[ 40%N := "residential"; 41%N := "yes" ]}.

(** A fresh configuration to which two node types are added that both
    match the presence of tag 40. *)
Definition sample_node_config : option TypeConfig :=
  c ← TypeConfig_new;
  '(_, c) ← AddTypeInfo
              (AddCondition typeNode (TagExistsCondition 40%N)
                 (TypeInfo_SetType "amenity" TypeInfo_new)) c;
  '(_, c) ← AddTypeInfo
              (AddCondition typeNode (TagExistsCondition 40%N)
                 (TypeInfo_SetType "shop" TypeInfo_new)) c;
  Some c.

Definition sample_node : TypeConfig :=
  default TypeConfig_init sample_node_config.

(** ** Consistency of the tag registry *)

Section TagRegistryInvariant.
Context `{D : Declarations}.

(** The members [tags], [stringToTagMap] and [nextTagId] fit together:
    the next id is the number of tags and is a [TagId]; the tag at
    position [i] has id [i] and the map sends its name to [i]; every entry
    of the map names the tag at the position it gives. *)
Definition TagRegistry_ok (c : TypeConfig) : bool :=
  (nextTagId c =? N.of_nat (length (tags c)))%N &&
  (N.of_nat (length (tags c)) <? 2 ^ TagId_bits)%N &&
  forallb (fun p : nat * TagInfo =>
             (TagInfo_id p.2 =? N.of_nat p.1)%N &&
             bool_decide (stringToTagMap c !! TagInfo_name p.2 = Some (N.of_nat p.1)))
          (imap pair (tags c)) &&
  forallb (fun p : string * TagId =>
             match tags c !! N.to_nat p.2 with
             | Some t => bool_decide (TagInfo_name t = p.1)
             | None => false
             end)
          (map_to_list (stringToTagMap c)).

(** The same as a proposition. *)
Definition TagRegistry_inv (c : TypeConfig) : Prop :=
  nextTagId c = N.of_nat (length (tags c)) /\
  (N.of_nat (length (tags c)) < 2 ^ TagId_bits)%N /\
  (forall i t, tags c !! i = Some t ->
     TagInfo_id t = N.of_nat i /\
     stringToTagMap c !! TagInfo_name t = Some (N.of_nat i)) /\
  (forall n i, stringToTagMap c !! n = Some i ->
     exists t, tags c !! N.to_nat i = Some t /\ TagInfo_name t = n).

End TagRegistryInvariant.

(** The configuration as the constructor leaves it. *)
Definition sample_fresh : TypeConfig := default TypeConfig_init TypeConfig_new.

(** ** Sequences of [AddFeature] calls *)

Section AddFeatures.
Context `{D : Declarations}.

(** The calls [AddFeature] for the features of [fs], in order; [None] as
    soon as one of them fails. *)
Definition AddFeatures (fs : list Feature) (t : TypeInfo) : option TypeInfo :=
  foldl (fun ot f => t ← ot; AddFeature (Some f) t) (Some t) fs.

(** The offsets grow strictly from each feature to the next. *)
Definition offsets_strictly_increasing (t : TypeInfo) : Prop :=
  forall i a b,
    features t !! i = Some a -> features t !! S i = Some b ->
    (offset a < offset b)%N.

End AddFeatures.

(** The marker features for bridges and tunnels added to a new type. *)
Definition sample_markers : option TypeInfo :=
  AddFeatures [BridgeFeature 3%N; TunnelFeature 4%N] TypeInfo_new.

(** A name, a bridge marker and a width added to a new type. *)
Definition sample_features : list Feature :=
  [NameFeature; BridgeFeature 3%N; WidthFeature 6%N].

(** ** Conditions on the declarations used by the access feature *)

Section AccessDeclarations.
Context `{D : Declarations}.

(** The eight values of [enum AccessFeatureValue::Access]. *)
Definition AccessBits : list Z :=
  [footForward; footBackward; bicycleForward; bicycleBackward;
   carForward; carBackward; onewayForward; onewayBackward].

(** A value is one bit of an [uint8_t]. *)
Definition is_bit (m : Z) : bool :=
  existsb (fun k => (m =? 2 ^ k)%Z) [0; 1; 2; 3; 4; 5; 6; 7]%Z.

(** The enumeration values are eight different bits of an [uint8_t]. *)
Definition AccessBits_ok : bool :=
  forallb is_bit AccessBits && bool_decide (NoDup AccessBits).

(** The tag ids of an access feature. *)
Definition AccessFeatureTags_list (t : AccessFeatureTags) : list N :=
  [tagOneway t; tagJunction t; tagAccess t; tagAccessForward t;
   tagAccessBackward t; tagAccessFoot t; tagAccessFootForward t;
   tagAccessFootBackward t; tagAccessBicycle t; tagAccessBicycleForward t;
   tagAccessBicycleBackward t; tagAccessMotorVehicle t;
   tagAccessMotorVehicleForward t; tagAccessMotorVehicleBackward t;
   tagAccessMotorcar t; tagAccessMotorcarForward t;
   tagAccessMotorcarBackward t].

End AccessDeclarations.

(** The tag ids of the access feature of a configuration as the
    constructor leaves it. *)
Definition sample_access_tags : AccessFeatureTags :=
  (AccessFeature_Initialize sample_fresh).1.

(** A type that can be routed by foot, bicycle and car, with the access
    feature and the width feature. *)
Definition sample_road : TypeInfo :=
  default TypeInfo_new
    (AddFeatures [AccessFeature sample_access_tags; WidthFeature 6%N]
       (TypeInfo_CanRouteCar true
          (TypeInfo_CanRouteBicycle true
             (TypeInfo_CanRouteFoot true
                (TypeInfo_SetType "highway" TypeInfo_new))))).

(** ** Sample runs of the width feature and of the loader *)

(** What [WidthFeature::Parse] leaves for the value [v] of the width tag
    on a buffer just bound to the sample road type (the width feature is
    at position 1): the warnings, the stored value and the presence
    bit. *)
Definition sample_width (v : string) : option (list string * option FeatureValue * bool) :=
  r ← WidthFeature_Parse 6%N "Way 1" 1 {[ 6%N := v ]} []
        (FeatureValueBuffer_SetType sample_road);
  Some (r.1, FeatureValueBuffer_GetValue 1 r.2, FeatureValueBuffer_HasValue 1 r.2).

(** A data file that ends inside its only name tag entry: no tags, one
    name tag with id 34 and name [name:en], the priority is missing. *)
Definition sample_short_file : list Z :=
  [0; 1; 34; 7; 110; 97; 109; 101; 58; 101; 110]%Z.

(** What [LoadFromDataFile] leaves on a fresh configuration: the returned
    flag, the id of the tag [name:en] and its name tag priority. *)
Definition sample_short_load (garbage : N) : option (bool * N * option N) :=
  r ← LoadFromDataFile (Some sample_short_file) garbage sample_fresh;
  Some (r.1, GetTagId "name:en" r.2, IsNameTag 34%N r.2).

(** ** Buffers and their serialized form *)

(** The bytes [Feature::Write] emits for a value. *)
Definition FeatureValue_bytes (v : FeatureValue) : list Z :=
  match v with
  | NameFeatureValue s => string_bytes s
  | NameAltFeatureValue s => string_bytes s
  | RefFeatureValue s => string_bytes s
  | AddressFeatureValue location address => string_bytes location ++ string_bytes address
  | AccessFeatureValue v => [uint8 v]
  | LayerFeatureValue v => [uint8 v]
  | WidthFeatureValue v => [uint8 v]
  | MaxSpeedFeatureValue v => [uint8 v]
  | GradeFeatureValue v => [uint8 v]
  end.

(** A value is an object of the value class of the feature, with its
    number in the range of the member ([uint8_t], for the layer
    [int8_t]). *)
Definition value_ok (f : Feature) (v : FeatureValue) : bool :=
  match f, v with
  | NameFeature, NameFeatureValue _ => true
  | NameAltFeature, NameAltFeatureValue _ => true
  | RefFeature _, RefFeatureValue _ => true
  | AddressFeature _ _, AddressFeatureValue _ _ => true
  | AccessFeature _, AccessFeatureValue v => (0 <=? v)%Z && (v <? 256)%Z
  | LayerFeature _, LayerFeatureValue v => (-128 <=? v)%Z && (v <? 128)%Z
  | WidthFeature _, WidthFeatureValue v => (0 <=? v)%Z && (v <? 256)%Z
  | MaxSpeedFeature _, MaxSpeedFeatureValue v => (0 <=? v)%Z && (v <? 256)%Z
  | GradeFeature _ _, GradeFeatureValue v => (0 <=? v)%Z && (v <? 256)%Z
  | _, _ => false
  end.

(** Modelled from the spec: the equality operator of the value classes
    is declared in the header; two values are equal when they are of the
    same class and their members are equal. *)
Definition FeatureValue_eq (a b : FeatureValue) : bool :=
  match a, b with
  | NameFeatureValue x, NameFeatureValue y => string_eq x y
  | NameAltFeatureValue x, NameAltFeatureValue y => string_eq x y
  | RefFeatureValue x, RefFeatureValue y => string_eq x y
  | AddressFeatureValue x1 x2, AddressFeatureValue y1 y2 =>
      string_eq x1 y1 && string_eq x2 y2
  | AccessFeatureValue x, AccessFeatureValue y => (x =? y)%Z
  | LayerFeatureValue x, LayerFeatureValue y => (x =? y)%Z
  | WidthFeatureValue x, WidthFeatureValue y => (x =? y)%Z
  | MaxSpeedFeatureValue x, MaxSpeedFeatureValue y => (x =? y)%Z
  | GradeFeatureValue x, GradeFeatureValue y => (x =? y)%Z
  | _, _ => false
  end.

Section BufferSpec.
Context `{D : Declarations}.

(** Feature [idx] is present in the buffer and has a payload. *)
Definition has_payload (b : FeatureValueBuffer) (idx : nat) (fi : FeatureInstance) : bool :=
  FeatureValueBuffer_HasValue idx b && Feature_HasValue (feature fi).

(** A populated buffer: the presence bits are an array of bytes of the
    size the type asks for, and every present feature with a payload has
    its value object at its offset. *)
Definition buffer_ok (b : FeatureValueBuffer) : Prop :=
  length (featureBits b) = GetFeatureBytes (type b) /\
  Forall (fun v => 0 <= v < 256)%Z (featureBits b) /\
  forall idx fi,
    features (type b) !! idx = Some fi ->
    has_payload b idx fi = true ->
    exists v, featureValueBuffer b !! offset fi = Some v /\
              value_ok (feature fi) v = true.

(** The payloads of the features [fs], which start at position [idx], in
    the order of the list. *)
Fixpoint payload_bytes (b : FeatureValueBuffer) (fs : list FeatureInstance)
    (idx : nat) : list Z :=
  match fs with
  | [] => []
  | fi :: rest =>
      (if has_payload b idx fi
       then match featureValueBuffer b !! offset fi with
            | Some v => FeatureValue_bytes v
            | None => []
            end
       else []) ++ payload_bytes b rest (S idx)
  end.

(** The serialized form of a buffer: the presence bits, then the
    payloads in the order of the features of the type. *)
Definition buffer_bytes (b : FeatureValueBuffer) : list Z :=
  featureBits b ++ payload_bytes b (features (type b)) 0.

(** The features of a type are laid out by [AddFeature]: each offset is
    the one [AddFeature] computes from the features before it. *)
Definition laid_out (l : list FeatureInstance) : Prop :=
  forall i fi, l !! i = Some fi -> offset fi = AddFeature_offset (take i l).

(** The offsets of features with a payload are below the offsets of all
    later features. *)
Definition payload_offsets_increasing (l : list FeatureInstance) : Prop :=
  forall i j a c,
    i < j -> l !! i = Some a -> l !! j = Some c ->
    Feature_HasValue (feature a) = true -> (offset a < offset c)%N.

(** [laid_out] as a test. *)
Definition offsets_laid_out (l : list FeatureInstance) : bool :=
  forallb (fun p : nat * FeatureInstance =>
             (offset p.2 =? AddFeature_offset (take p.1 l))%N)
          (imap pair l).

(** [buffer_ok] as a test. *)
Definition buffer_populated (b : FeatureValueBuffer) : bool :=
  (length (featureBits b) =? GetFeatureBytes (type b))%nat &&
  forallb (fun v => (0 <=? v)%Z && (v <? 256)%Z) (featureBits b) &&
  forallb (fun p : nat * FeatureInstance =>
             if has_payload b p.1 p.2
             then match featureValueBuffer b !! offset p.2 with
                  | Some v => value_ok (feature p.2) v
                  | None => false
                  end
             else true)
          (imap pair (features (type b))).

End BufferSpec.

(** A buffer for the sample road type in which [oneway=yes] and a width
    of [2,5m] were parsed. *)
Definition sample_buffer : FeatureValueBuffer :=
  default (FeatureValueBuffer_SetType sample_road)
    (b ← AccessFeature_Parse sample_access_tags sample_road 0
           {[ 7%N := "yes"; 6%N := "2,5m" ]}
           (FeatureValueBuffer_SetType sample_road);
     r ← WidthFeature_Parse 6%N "Way 1" 1 {[ 7%N := "yes"; 6%N := "2,5m" ]} [] b;
     Some r.2).

(** ** Relations, lookups by name and sets of types *)

Section Lookups.
Context `{D : Declarations}.

(** Inner loop of [TypeConfig::GetRelationTypeId(tagMap,typeId)].  The
    source has the loop twice; [mask] is [typeArea] in the branch for
    multipolygon relations and [typeRelation] in the other one. *)
Fixpoint GetRelationTypeId_conditions (mask : Z) (type : TypeInfo)
    (conds : list TypeCondition) (tagMap : gmap N string) : option TypeId :=
  match conds with
  | [] => None
  | cond :: rest =>
      if negb (nonzero (Z.land (cond_types cond) mask))
      then GetRelationTypeId_conditions mask type rest tagMap
      else if Evaluate (cond_condition cond) tagMap
      then Some (id type)
      else GetRelationTypeId_conditions mask type rest tagMap
  end.

(** Outer loop; [can] is [CanBeArea] resp. [CanBeRelation]. *)
Fixpoint GetRelationTypeId_types (can : TypeInfo -> bool) (mask : Z)
    (ts : list TypeInfo) (tagMap : gmap N string) : option TypeId :=
  match ts with
  | [] => None
  | type :: rest =>
      if negb (HasConditions type) || negb (can type)
      then GetRelationTypeId_types can mask rest tagMap
      else
        match GetRelationTypeId_conditions mask type (conditions type) tagMap with
        | Some r => Some r
        | None => GetRelationTypeId_types can mask rest tagMap
        end
  end.

(** [TypeConfig::GetRelationTypeId(tagMap,typeId)]: the returned flag and
    [typeId].  [tagType] is the member of that name, which the constructor
    sets to the id of the tag [type]. *)
Definition GetRelationTypeId (tagType : TagId) (tagMap : gmap N string)
    (c : TypeConfig) : bool * TypeId :=
  if bool_decide (tagMap = ∅) then (false, typeIgnore)
  else
    let found :=
      match tagMap !! tagType with
      | Some second =>
          if string_eq second "multipolygon"
          then GetRelationTypeId_types canBeArea typeArea (types c) tagMap
          else GetRelationTypeId_types canBeRelation typeRelation (types c) tagMap
      | None => GetRelationTypeId_types canBeRelation typeRelation (types c) tagMap
      end in
    match found with
    | Some typeId => (true, typeId)
    | None => (false, typeIgnore)
    end.

(** [TypeConfig::GetNodeTypeId], [GetWayTypeId], [GetAreaTypeId] and
    [GetRelationTypeId(name)]. *)
Definition GetNodeTypeId (n : string) (c : TypeConfig) : TypeId :=
  match nameToTypeMap c !! n with
  | Some second => if canBeNode second then id second else typeIgnore
  | None => typeIgnore
  end.

Definition GetWayTypeId (n : string) (c : TypeConfig) : TypeId :=
  match nameToTypeMap c !! n with
  | Some second => if canBeWay second then id second else typeIgnore
  | None => typeIgnore
  end.

Definition GetAreaTypeId (n : string) (c : TypeConfig) : TypeId :=
  match nameToTypeMap c !! n with
  | Some second => if canBeArea second then id second else typeIgnore
  | None => typeIgnore
  end.

Definition GetRelationTypeId_name (n : string) (c : TypeConfig) : TypeId :=
  match nameToTypeMap c !! n with
  | Some second => if canBeRelation second then id second else typeIgnore
  | None => typeIgnore
  end.

(** [TypeConfig::GetMaxTypeId]. *)
Definition GetMaxTypeId (c : TypeConfig) : TypeId :=
  if (nextTypeId c =? 0)%N then 0%N else (nextTypeId c - 1)%N.

(** [TypeConfig::GetAreaTypes] and [GetWayTypes]: [types0] is the set the
    caller passes in, the result the set afterwards. *)
Definition GetAreaTypes (c : TypeConfig) (types0 : gset N) : gset N :=
  foldl (fun acc type =>
           if (id type =? typeIgnore)%N then acc
           else if ignore type then acc
           else if canBeArea type then {[ id type ]} ∪ acc
           else acc)
        types0 (types c).

Definition GetWayTypes (c : TypeConfig) (types0 : gset N) : gset N :=
  foldl (fun acc type =>
           if (id type =? typeIgnore)%N then acc
           else if ignore type then acc
           else if canBeWay type then {[ id type ]} ∪ acc
           else acc)
        types0 (types c).

(** [TypeConfig::GetRoutables], [GetIndexAsLocationTypes],
    [GetIndexAsRegionTypes] and [GetIndexAsPOITypes]; these clear the set
    first. *)
Definition GetRoutables (c : TypeConfig) (types0 : gset N) : gset N :=
  foldl (fun acc type =>
           if canRouteFoot type || canRouteBicycle type || canRouteCar type
           then {[ id type ]} ∪ acc else acc)
        ∅ (types c).

Definition GetIndexAsLocationTypes (c : TypeConfig) (types0 : gset N) : gset N :=
  foldl (fun acc type => if indexAsLocation type then {[ id type ]} ∪ acc else acc)
        ∅ (types c).

Definition GetIndexAsRegionTypes (c : TypeConfig) (types0 : gset N) : gset N :=
  foldl (fun acc type => if indexAsRegion type then {[ id type ]} ∪ acc else acc)
        ∅ (types c).

Definition GetIndexAsPOITypes (c : TypeConfig) (types0 : gset N) : gset N :=
  foldl (fun acc type => if indexAsPOI type then {[ id type ]} ∪ acc else acc)
        ∅ (types c).

(** [TypeConfig::RegisterSurfaceToGradeMapping]: [insert] keeps the grade
    of a surface that is already mapped. *)
Definition RegisterSurfaceToGradeMapping (surface : string) (grade : N)
    (c : TypeConfig) : TypeConfig :=
  TypeConfig_set_surfaceToGradeMap
    (match surfaceToGradeMap c !! surface with
     | Some _ => surfaceToGradeMap c
     | None => <[surface := grade]> (surfaceToGradeMap c)
     end) c.

(** [TypeConfig::GetGradeForSurface]: [None] for [false], else the
    grade. *)
Definition GetGradeForSurface (surface : string) (c : TypeConfig) : option N :=
  surfaceToGradeMap c !! surface.

(** A type matches a relation in the scope [mask]: it has conditions, can
    be of the kind [can], and one of its conditions of that scope
    holds. *)
Definition relation_type_matches (can : TypeInfo -> bool) (mask : Z)
    (tagMap : gmap N string) (t : TypeInfo) : bool :=
  HasConditions t && can t &&
  existsb (fun cond => nonzero (Z.land (cond_types cond) mask) &&
                       Evaluate (cond_condition cond) tagMap)
          (conditions t).

(** The relation is tagged as a multipolygon. *)
Definition is_multipolygon (tagType : TagId) (tagMap : gmap N string) : bool :=
  match tagMap !! tagType with
  | Some second => string_eq second "multipolygon"
  | None => false
  end.

End Lookups.

(** ** The other features and the parsing of a whole object *)

(** [std::map<TagId,std::string>] is iterated in the order of its keys. *)
Definition TagId_le (a b : N * string) : Prop := (a.1 <= b.1)%N.

#[export] Instance TagId_le_dec (a b : N * string) : Decision (TagId_le a b) :=
  decide (a.1 <= b.1)%N.

Definition tags_in_order (tags : gmap N string) : list (N * string) :=
  merge_sort TagId_le (map_to_list tags).

(** The loop of [NameFeature::Parse] and of [NameAltFeature::Parse] over
    the tags; [isNameTag] is [IsNameTag] resp. [IsNameAltTag] of the
    configuration, the state is [(name,namePriority)]. *)
Definition Name_loop (isNameTag : TagId -> option N) (l : list (N * string))
    (st : string * N) : string * N :=
  foldl (fun st tag =>
           match isNameTag tag.1 with
           | Some ntPrio =>
               if string_eq st.1 "" || (st.2 <? ntPrio)%N
               then (tag.2, ntPrio) else st
           | None => st
           end)
        st l.

(** The matches of [valueString.rfind] for the pattern [mph]: [found] is
    the last position seen so far, [i] the position of the head of
    [l]. *)
Fixpoint rfind_mph (l : list Ascii.ascii) (i : nat) (found : option nat) : option nat :=
  match l with
  | [] => found
  | a :: rest =>
      rfind_mph rest (S i)
        (match l with
         | m :: p :: h :: _ =>
             if (Ascii.N_of_ascii m =? 109)%N && (Ascii.N_of_ascii p =? 112)%N &&
                (Ascii.N_of_ascii h =? 104)%N
             then Some i else found
         | _ => found
         end)
  end.

(** The string [MaxSpeedFeature::Parse] hands to [StringToNumber], and
    [isMph]. *)
Definition MaxSpeed_normalize (value : string) : string * bool :=
  let valueString := String.list_ascii_of_string value in
  let '(valueString, isMph) :=
    match rfind_mph valueString 0 None with
    | Some pos => (take pos valueString, true)
    | None => (valueString, false)
    end in
  (String.string_of_list_ascii (rev (Width_trim (rev valueString))), isMph).

(** The speed that [MaxSpeedFeature::Parse] stores for the number
    [valueNumeric]; 1.609 is taken as the rational 1609/1000. *)
Definition MaxSpeed_value (valueNumeric : N) (isMph : bool) : Z :=
  if isMph
  then
    if negb (Qle_bool (inject_Z (Z.of_N valueNumeric))
                      (Qplus (Qdiv (inject_Z 255) (1609 # 1000)) (1 # 2)))
    then 255%Z
    else uint8 (Qfloor (Qplus (Qmult (inject_Z (Z.of_N valueNumeric)) (1609 # 1000))
                              (1 # 2)))
  else
    if (255 <? valueNumeric)%N then 255%Z else Z.of_N valueNumeric.

Section Features.
Context `{D : Declarations}.

(** [StringToNumber(const std::string&,int8_t&)], declared with the other
    conversions outside of this unit. *)
Variable StringToNumber_int8 : string -> option Z.

(** [FeatureValueBuffer::FreeValue], with its assertions; the destructor
    call ends the life of the object at the offset of the feature. *)
Definition FeatureValueBuffer_FreeValue (idx : nat) (b : FeatureValueBuffer)
    : option FeatureValueBuffer :=
  if negb (idx <? GetFeatureCount (type b))%nat then None
  else if negb (FeatureValueBuffer_HasValue idx b) then None
  else
    let byteIdx := (idx / 8)%nat in
    let b :=
      FeatureValueBuffer_set_featureBits
        (<[byteIdx := uint8 (Z.land (default 0%Z (featureBits b !! byteIdx))
                                    (Z.lnot (Z.shiftl 1 (Z.of_nat (idx mod 8)))))]>
           (featureBits b)) b in
    fi ← features (type b) !! idx;
    if Feature_HasValue (feature fi)
    then Some (FeatureValueBuffer_set_featureValueBuffer
                 (delete (offset fi) (featureValueBuffer b)) b)
    else Some b.

(** [NameFeature::Parse]. *)
Definition NameFeature_Parse (c : TypeConfig) (idx : nat) (tags : gmap N string)
    (buffer : FeatureValueBuffer) : option FeatureValueBuffer :=
  let '(name, _) :=
    Name_loop (fun tag => IsNameTag tag c) (tags_in_order tags) ("", 0%N) in
  if negb (string_eq name "")
  then
    buffer ← FeatureValueBuffer_AllocateValue idx buffer;
    FeatureValueBuffer_setValue idx (SetName name) buffer
  else Some buffer.

(** [NameAltFeature::Parse]. *)
Definition NameAltFeature_Parse (c : TypeConfig) (idx : nat) (tags : gmap N string)
    (buffer : FeatureValueBuffer) : option FeatureValueBuffer :=
  let '(nameAlt, _) :=
    Name_loop (fun tag => IsNameAltTag tag c) (tags_in_order tags) ("", 0%N) in
  if negb (string_eq nameAlt "")
  then
    buffer ← FeatureValueBuffer_AllocateValue idx buffer;
    FeatureValueBuffer_setValue idx (SetNameAlt nameAlt) buffer
  else Some buffer.

(** [RefFeature::Parse]. *)
Definition RefFeature_Parse (tagRef : TagId) (idx : nat) (tags : gmap N string)
    (buffer : FeatureValueBuffer) : option FeatureValueBuffer :=
  match tags !! tagRef with
  | Some second =>
      if negb (string_eq second "")
      then
        buffer ← FeatureValueBuffer_AllocateValue idx buffer;
        FeatureValueBuffer_setValue idx (SetRef second) buffer
      else Some buffer
  | None => Some buffer
  end.

(** [AddressFeature::Parse]. *)
Definition AddressFeature_Parse (tagAddrHouseNr tagAddrStreet : TagId) (idx : nat)
    (tags : gmap N string) (buffer : FeatureValueBuffer)
    : option FeatureValueBuffer :=
  let street := tags !! tagAddrStreet in
  let houseNr :=
    match street with
    | Some _ => tags !! tagAddrHouseNr
    | None => None
    end in
  match street, houseNr with
  | Some street, Some houseNr =>
      if negb (string_eq street "") && negb (string_eq houseNr "")
      then
        buffer ← FeatureValueBuffer_AllocateValue idx buffer;
        FeatureValueBuffer_setValue idx (SetAddress street houseNr) buffer
      else Some buffer
  | _, _ => Some buffer
  end.

(** [LayerFeature::Parse]. *)
Definition LayerFeature_Parse (tagLayer : TagId) (object : string) (idx : nat)
    (tags : gmap N string) (progress : list string) (buffer : FeatureValueBuffer)
    : option (list string * FeatureValueBuffer) :=
  match tags !! tagLayer with
  | Some second =>
      match StringToNumber_int8 second with
      | Some layerValue =>
          if negb (layerValue =? 0)%Z
          then
            buffer ← FeatureValueBuffer_AllocateValue idx buffer;
            buffer ← FeatureValueBuffer_setValue idx (SetLayer layerValue) buffer;
            Some (progress, buffer)
          else Some (progress, buffer)
      | None =>
          Some ((progress ++
                   ["Layer tag value '" +:+ second +:+ "' for " +:+ object +:+
                    " is not numeric!"])%list, buffer)
      end
  | None => Some (progress, buffer)
  end.

(** [MaxSpeedFeature::Parse]. *)
Definition MaxSpeedFeature_Parse (tagMaxSpeed : TagId) (object : string) (idx : nat)
    (tags : gmap N string) (progress : list string) (buffer : FeatureValueBuffer)
    : option (list string * FeatureValueBuffer) :=
  match tags !! tagMaxSpeed with
  | None => Some (progress, buffer)
  | Some second =>
      if string_eq second "signals" then Some (progress, buffer)
      else if string_eq second "none" then Some (progress, buffer)
      else if string_eq second "walk"
      then
        buffer ← FeatureValueBuffer_AllocateValue idx buffer;
        buffer ← FeatureValueBuffer_setValue idx (SetMaxSpeed 10) buffer;
        Some (progress, buffer)
      else
        let '(valueString, isMph) := MaxSpeed_normalize second in
        match StringToNumber_size_t valueString with
        | None =>
            Some ((progress ++
                     ["Max speed tag value '" +:+ second +:+ "' for " +:+ object +:+
                      " is not numeric!"])%list, buffer)
        | Some valueNumeric =>
            buffer ← FeatureValueBuffer_AllocateValue idx buffer;
            buffer ← FeatureValueBuffer_setValue idx
                       (SetMaxSpeed (MaxSpeed_value valueNumeric isMph)) buffer;
            Some (progress, buffer)
        end
  end.

(** The five branches of [GradeFeature::Parse] for the values [grade1]
    to [grade5] of the track type. *)
Definition Grade_of_tracktype (second : string) : option Z :=
  if string_eq second "grade1" then Some 1%Z
  else if string_eq second "grade2" then Some 2%Z
  else if string_eq second "grade3" then Some 3%Z
  else if string_eq second "grade4" then Some 4%Z
  else if string_eq second "grade5" then Some 5%Z
  else None.

(** The part of [GradeFeature::Parse] that looks at the surface. *)
Definition GradeFeature_Parse_surface (c : TypeConfig) (tagSurface : TagId)
    (object : string) (idx : nat) (tags : gmap N string)
    (progress : list string) (buffer : FeatureValueBuffer)
    : option (list string * FeatureValueBuffer) :=
  match tags !! tagSurface with
  | Some second =>
      match GetGradeForSurface second c with
      | Some grade =>
          buffer ← FeatureValueBuffer_AllocateValue idx buffer;
          buffer ← FeatureValueBuffer_setValue idx (SetGrade (Z.of_N grade)) buffer;
          Some (progress, buffer)
      | None =>
          Some ((progress ++
                   ["Unknown surface type '" +:+ second +:+ "' for " +:+ object +:+
                    "!"])%list, buffer)
      end
  | None => Some (progress, buffer)
  end.

(** [GradeFeature::Parse]. *)
Definition GradeFeature_Parse (c : TypeConfig) (tagSurface tagTrackType : TagId)
    (object : string) (idx : nat) (tags : gmap N string)
    (progress : list string) (buffer : FeatureValueBuffer)
    : option (list string * FeatureValueBuffer) :=
  match tags !! tagTrackType with
  | Some second =>
      match Grade_of_tracktype second with
      | Some grade =>
          buffer ← FeatureValueBuffer_AllocateValue idx buffer;
          buffer ← FeatureValueBuffer_setValue idx (SetGrade grade) buffer;
          Some (progress, buffer)
      | None =>
          GradeFeature_Parse_surface c tagSurface object idx tags
            (progress ++
               ["Unsupported tracktype value '" +:+ second +:+ "' for " +:+ object])%list
            buffer
      end
  | None => GradeFeature_Parse_surface c tagSurface object idx tags progress buffer
  end.

(** [BridgeFeature::Parse] and [TunnelFeature::Parse], which differ in the
    tag only. *)
Definition BridgeFeature_Parse (tagBridge : TagId) (idx : nat) (tags : gmap N string)
    (buffer : FeatureValueBuffer) : option FeatureValueBuffer :=
  match tags !! tagBridge with
  | Some second =>
      if negb (string_eq second "no" || string_eq second "false" || string_eq second "0")
      then FeatureValueBuffer_AllocateValue idx buffer
      else Some buffer
  | None => Some buffer
  end.

(** [RoundaboutFeature::Parse]. *)
Definition RoundaboutFeature_Parse (tagJunction : TagId) (idx : nat)
    (tags : gmap N string) (buffer : FeatureValueBuffer)
    : option FeatureValueBuffer :=
  match tags !! tagJunction with
  | Some second =>
      if string_eq second "roundabout"
      then FeatureValueBuffer_AllocateValue idx buffer
      else Some buffer
  | None => Some buffer
  end.

(** The virtual call [feature.GetFeature()->Parse(...)]. *)
Definition Feature_Parse (f : Feature) (c : TypeConfig) (object : string)
    (type : TypeInfo) (idx : nat) (tags : gmap N string)
    (progress : list string) (buffer : FeatureValueBuffer)
    : option (list string * FeatureValueBuffer) :=
  let quiet (r : option FeatureValueBuffer) := buffer ← r; Some (progress, buffer) in
  match f with
  | NameFeature => quiet (NameFeature_Parse c idx tags buffer)
  | NameAltFeature => quiet (NameAltFeature_Parse c idx tags buffer)
  | RefFeature tagRef => quiet (RefFeature_Parse tagRef idx tags buffer)
  | AddressFeature tagAddrHouseNr tagAddrStreet =>
      quiet (AddressFeature_Parse tagAddrHouseNr tagAddrStreet idx tags buffer)
  | AccessFeature t => quiet (AccessFeature_Parse t type idx tags buffer)
  | LayerFeature tagLayer => LayerFeature_Parse tagLayer object idx tags progress buffer
  | WidthFeature tagWidth => WidthFeature_Parse tagWidth object idx tags progress buffer
  | MaxSpeedFeature tagMaxSpeed =>
      MaxSpeedFeature_Parse tagMaxSpeed object idx tags progress buffer
  | GradeFeature tagSurface tagTrackType =>
      GradeFeature_Parse c tagSurface tagTrackType object idx tags progress buffer
  | BridgeFeature tagBridge => quiet (BridgeFeature_Parse tagBridge idx tags buffer)
  | TunnelFeature tagTunnel => quiet (BridgeFeature_Parse tagTunnel idx tags buffer)
  | RoundaboutFeature tagJunction =>
      quiet (RoundaboutFeature_Parse tagJunction idx tags buffer)
  end.

(** The loop of [FeatureValueBuffer::Parse] over the features from
    position [featureIdx] on. *)
Fixpoint Parse_features (fs : list FeatureInstance) (featureIdx : nat)
    (c : TypeConfig) (object : string) (tags : gmap N string)
    (progress : list string) (buffer : FeatureValueBuffer)
    : option (list string * FeatureValueBuffer) :=
  match fs with
  | [] => Some (progress, buffer)
  | fi :: rest =>
      '(progress, buffer) ←
        Feature_Parse (feature fi) c object (type buffer) featureIdx tags
          progress buffer;
      Parse_features rest (S featureIdx) c object tags progress buffer
  end.

(** [FeatureValueBuffer::Parse]. *)
Definition FeatureValueBuffer_Parse (c : TypeConfig) (object : string)
    (tags : gmap N string) (progress : list string) (buffer : FeatureValueBuffer)
    : option (list string * FeatureValueBuffer) :=
  Parse_features (features (type buffer)) 0 c object tags progress buffer.

End Features.

(** *** What the parse of an object leaves in its buffer *)

Section ParseOutcome.
Context `{D : Declarations}.
Variable StringToNumber_int8 : string -> option Z.

(** The buffer after the presence bit of feature [idx] was set and, for a
    feature with a value, the object [v] was left in its slot. *)
Definition stored (idx : nat) (fi : FeatureInstance) (v : option FeatureValue)
    (b : FeatureValueBuffer) : FeatureValueBuffer :=
  {| type := type b;
     featureBits :=
       <[(idx / 8)%nat :=
           uint8 (Z.lor (default 0%Z (featureBits b !! (idx / 8)%nat))
                        (Z.shiftl 1 (Z.of_nat (idx mod 8))))]> (featureBits b);
     featureValueBuffer :=
       match v with
       | Some v => <[offset fi := v]> (featureValueBuffer b)
       | None => featureValueBuffer b
       end |}.

(** What the [Parse] of a feature decides for a tag map: the warnings it
    reports, and whether it marks the feature as present, with the value
    it stores when the feature has one. *)
Definition Feature_outcome (f : Feature) (c : TypeConfig) (object : string)
    (type : TypeInfo) (tags : gmap N string)
    : list string * option (option FeatureValue) :=
  match f with
  | NameFeature =>
      let name := (Name_loop (fun tag => IsNameTag tag c) (tags_in_order tags) ("", 0%N)).1 in
      ([], if string_eq name "" then None else Some (Some (NameFeatureValue name)))
  | NameAltFeature =>
      let name := (Name_loop (fun tag => IsNameAltTag tag c) (tags_in_order tags) ("", 0%N)).1 in
      ([], if string_eq name "" then None else Some (Some (NameAltFeatureValue name)))
  | RefFeature tagRef =>
      ([], match tags !! tagRef with
           | Some v => if string_eq v "" then None else Some (Some (RefFeatureValue v))
           | None => None
           end)
  | AddressFeature tagAddrHouseNr tagAddrStreet =>
      ([], match tags !! tagAddrStreet, tags !! tagAddrHouseNr with
           | Some street, Some houseNr =>
               if string_eq street "" || string_eq houseNr "" then None
               else Some (Some (AddressFeatureValue street houseNr))
           | _, _ => None
           end)
  | AccessFeature t =>
      let access := AccessFeature_access t type tags in
      ([], if (access =? AccessFeature_defaultAccess type)%Z then None
           else Some (Some (AccessFeatureValue (uint8 access))))
  | LayerFeature tagLayer =>
      match tags !! tagLayer with
      | Some v =>
          match StringToNumber_int8 v with
          | Some layer =>
              ([], if (layer =? 0)%Z then None else Some (Some (LayerFeatureValue layer)))
          | None =>
              (["Layer tag value '" +:+ v +:+ "' for " +:+ object +:+ " is not numeric!"],
               None)
          end
      | None => ([], None)
      end
  | WidthFeature tagWidth =>
      match tags !! tagWidth with
      | Some v =>
          match StringToNumber_double (Width_normalize v) with
          | Some w =>
              if Width_out_of_range w
              then (["Width tag value '" +:+ v +:+ "' for " +:+ object +:+
                     " value is too small or too big!"], None)
              else ([], Some (Some (WidthFeatureValue (uint8 (Qfloor (Qplus w (1 # 2)))))))
          | None =>
              (["Width tag value '" +:+ v +:+ "' for " +:+ object +:+ " is no double!"],
               None)
          end
      | None => ([], None)
      end
  | MaxSpeedFeature tagMaxSpeed =>
      match tags !! tagMaxSpeed with
      | Some v =>
          if string_eq v "signals" || string_eq v "none" then ([], None)
          else if string_eq v "walk" then ([], Some (Some (MaxSpeedFeatureValue 10)))
          else
            match StringToNumber_size_t (MaxSpeed_normalize v).1 with
            | Some n =>
                ([], Some (Some (MaxSpeedFeatureValue
                                   (uint8 (MaxSpeed_value n (MaxSpeed_normalize v).2)))))
            | None =>
                (["Max speed tag value '" +:+ v +:+ "' for " +:+ object +:+
                  " is not numeric!"], None)
            end
      | None => ([], None)
      end
  | GradeFeature tagSurface tagTrackType =>
      let surface :=
        match tags !! tagSurface with
        | Some v =>
            match GetGradeForSurface v c with
            | Some grade => ([], Some (Some (GradeFeatureValue (uint8 (Z.of_N grade)))))
            | None => (["Unknown surface type '" +:+ v +:+ "' for " +:+ object +:+ "!"],
                       None)
            end
        | None => ([], None)
        end in
      match tags !! tagTrackType with
      | Some v =>
          match Grade_of_tracktype v with
          | Some grade => ([], Some (Some (GradeFeatureValue (uint8 grade))))
          | None =>
              (("Unsupported tracktype value '" +:+ v +:+ "' for " +:+ object)
                 :: surface.1,
               surface.2)
          end
      | None => surface
      end
  | BridgeFeature tag | TunnelFeature tag =>
      ([], match tags !! tag with
           | Some v =>
               if string_eq v "no" || string_eq v "false" || string_eq v "0"
               then None else Some None
           | None => None
           end)
  | RoundaboutFeature tagJunction =>
      ([], match tags !! tagJunction with
           | Some v => if string_eq v "roundabout" then Some None else None
           | None => None
           end)
  end.

(** The value classes have a size. *)
Definition value_sizes_ok (t : TypeInfo) : bool :=
  forallb (fun fi => match Feature_AllocateValue (feature fi) with
                     | Some _ => Feature_HasValue (feature fi)
                     | None => true
                     end)
          (features t).

End ParseOutcome.

(** ** Tag information *)

Section TagInformation.
Context `{D : Declarations}.

(** [TypeConfig::GetTagInfo], with its assertion. *)
Definition GetTagInfo (id : TagId) (c : TypeConfig) : option TagInfo :=
  if (N.to_nat id <? length (tags c))%nat then tags c !! N.to_nat id else None.

(** [TypeConfig::ResolveTags]: the vector [tags] afterwards, as pairs of
    key and value. *)
Fixpoint ResolveTags_loop (l : list (N * string)) (c : TypeConfig)
    (tags : list (TagId * string)) : option (list (TagId * string)) :=
  match l with
  | [] => Some tags
  | t :: rest =>
      info ← GetTagInfo t.1 c;
      if TagInfo_internalOnly info then ResolveTags_loop rest c tags
      else ResolveTags_loop rest c (tags ++ [(t.1, t.2)])
  end.

Definition ResolveTags (map : gmap N string) (c : TypeConfig)
    : option (list (TagId * string)) :=
  ResolveTags_loop (tags_in_order map) c [].

(** The tag with id [k] is registered and external. *)
Definition tag_is_external (c : TypeConfig) (k : TagId) : bool :=
  match tags c !! N.to_nat k with
  | Some info => negb (TagInfo_internalOnly info)
  | None => false
  end.

(** The tags a feature reads, by name, with the ids it caches. *)
Definition Feature_tags (f : Feature) : list (string * TagId) :=
  match f with
  | NameFeature | NameAltFeature => []
  | RefFeature tagRef => [("ref", tagRef)]
  | AddressFeature tagAddrHouseNr tagAddrStreet =>
      [("addr:housenumber", tagAddrHouseNr); ("addr:street", tagAddrStreet)]
  | AccessFeature t =>
      [("oneway", tagOneway t); ("junction", tagJunction t);
       ("access", tagAccess t);
       ("access:foward", tagAccessForward t);
       ("access:backward", tagAccessBackward t);
       ("access:foot", tagAccessFoot t);
       ("access:foot:foward", tagAccessFootForward t);
       ("access:foot:backward", tagAccessFootBackward t);
       ("access:bicycle", tagAccessBicycle t);
       ("access:bicycle:foward", tagAccessBicycleForward t);
       ("access:bicycle:backward", tagAccessBicycleBackward t);
       ("access:motor_vehicle", tagAccessMotorVehicle t);
       ("access:motor_vehicle:foward", tagAccessMotorVehicleForward t);
       ("access:motor_vehicle:backward", tagAccessMotorVehicleBackward t);
       ("access:motorcar", tagAccessMotorcar t);
       ("access:motorcar:foward", tagAccessMotorcarForward t);
       ("access:motorcar:backward", tagAccessMotorcarBackward t)]
  | LayerFeature tagLayer => [("layer", tagLayer)]
  | WidthFeature tagWidth => [("width", tagWidth)]
  | MaxSpeedFeature tagMaxSpeed => [("maxspeed", tagMaxSpeed)]
  | GradeFeature tagSurface tagTrackType =>
      [("surface", tagSurface); ("tracktype", tagTrackType)]
  | BridgeFeature tagBridge => [("bridge", tagBridge)]
  | TunnelFeature tagTunnel => [("tunnel", tagTunnel)]
  | RoundaboutFeature tag => [("junction", tag)]
  end.

End TagInformation.

(** ** More samples *)

(** A decimal number between -128 and 127 with an optional sign, for
    [StringToNumber] on [int8_t]. *)
Definition parse_int8 (s : string) : option Z :=
  let '(neg, s) :=
    match s with
    | String (Ascii.Ascii true false true true false true false false) rest => (true, rest)
    | _ => (false, s)
    end in
  n ← parse_digits s 0%N false;
  let z := if neg then (- Z.of_N n)%Z else Z.of_N n in
  if ((-128 <=? z) && (z <=? 127))%Z then Some z else None.

(** A fresh configuration with a routable way type for tag 40, an area
    type for tag 41 and a relation type for tag 42. *)
Definition sample_schema_config : option TypeConfig :=
  c ← TypeConfig_new;
  '(_, c) ← AddTypeInfo
              (TypeInfo_CanRouteCar true
                 (AddCondition typeWay (TagExistsCondition 40%N)
                    (TypeInfo_SetType "highway" TypeInfo_new))) c;
  '(_, c) ← AddTypeInfo
              (AddCondition typeArea (TagExistsCondition 41%N)
                 (TypeInfo_SetType "building" TypeInfo_new)) c;
  '(_, c) ← AddTypeInfo
              (AddCondition typeRelation (TagExistsCondition 42%N)
                 (TypeInfo_SetType "boundary" TypeInfo_new)) c;
  Some c.

Definition sample_schema : TypeConfig :=
  default TypeConfig_init sample_schema_config.

(** A relation with the tags 41 and 42, tagged as a multipolygon or
    not; 32 is the id of the tag [type]. *)
Definition sample_relation_tags (kind : string) : gmap N string :=
  {[ 32%N := kind; 41%N := "yes"; 42%N := "administrative" ]}.

(** A way type that is yet to be added to the fresh configuration, and
    the result of adding it. *)
Definition sample_highway : TypeInfo :=
  TypeInfo_CanBeWay true (TypeInfo_SetType "highway" TypeInfo_new).

Definition sample_highway_added : TypeInfo * TypeConfig :=
  default (TypeInfo_new, TypeConfig_init) (AddTypeInfo sample_highway sample_fresh).

(** A type with a name, a bridge marker and a width: the marker shares
    its offset with the width. *)
Definition sample_bridge_type : TypeInfo :=
  default TypeInfo_new
    (AddFeatures sample_features (TypeInfo_SetType "highway" TypeInfo_new)).

(** A type with a maximum speed, a grade and a layer. *)
Definition sample_track_type : TypeInfo :=
  default TypeInfo_new
    (AddFeatures [MaxSpeedFeature 11%N; GradeFeature 12%N 13%N; LayerFeature 5%N]
       (TypeInfo_SetType "track" TypeInfo_new)).

(** The fresh configuration with the name tags [name], priority 0, and
    [name:en], priority 5, and with a grade for the surface
    [asphalt]. *)
Definition sample_names : TypeConfig :=
  RegisterSurfaceToGradeMapping "asphalt" 1%N
    (RegisterNameTag "name:en" 5%N (RegisterNameTag "name" 0%N sample_fresh).2).2.

(** ** Storing the type configuration in its data file *)

(** Modelled from the spec: [FileWriter::Close] ends the writing; it
    reports [false] when the writer is in its error state. *)
Definition FileWriter_Close (w : FileWriter) : bool := negb (writer_hasError w).

Section Store.
Context `{D : Declarations}.

(** The first loop of [TypeConfig::StoreToDataFile], over the tags. *)
Definition Store_tags (ts : list TagInfo) (writer : FileWriter) : FileWriter :=
  foldl (fun writer tag =>
           let writer := (FileWriter_WriteNumber (TagInfo_id tag) writer).2 in
           let writer := (FileWriter_Write_string (TagInfo_name tag) writer).2 in
           (FileWriter_Write_bool (TagInfo_internalOnly tag) writer).2)
        writer ts.

(** The loop that counts the name tags and the alternative name tags in
    [uint32_t] counters. *)
Definition Store_counts (c : TypeConfig) : N * N :=
  foldl (fun counts tag =>
           let nameTagCount :=
             match IsNameTag (TagInfo_id tag) c with
             | Some _ => to_uint32 (counts.1 + 1)
             | None => counts.1
             end in
           let nameAltTagCount :=
             match IsNameAltTag (TagInfo_id tag) c with
             | Some _ => to_uint32 (counts.2 + 1)
             | None => counts.2
             end in
           (nameTagCount, nameAltTagCount))
        (0%N, 0%N) (tags c).

(** The loops over the name tags and over the alternative name tags;
    [isNameTag] is [IsNameTag] resp. [IsNameAltTag]. *)
Definition Store_nameTags (isNameTag : TagId -> option N) (ts : list TagInfo)
    (writer : FileWriter) : FileWriter :=
  foldl (fun writer tag =>
           match isNameTag (TagInfo_id tag) with
           | Some priority =>
               let writer := (FileWriter_WriteNumber (TagInfo_id tag) writer).2 in
               let writer := (FileWriter_Write_string (TagInfo_name tag) writer).2 in
               (FileWriter_WriteNumber (to_uint32 priority) writer).2
           | None => writer
           end)
        writer ts.

(** The flags of a type in the order in which they are written. *)
Definition Store_flags (type : TypeInfo) : list bool :=
  [canBeNode type; canBeWay type; canBeArea type; canBeRelation type;
   canRouteFoot type; canRouteBicycle type; canRouteCar type;
   indexAsLocation type; indexAsRegion type; indexAsPOI type;
   optimizeLowZoom type; multipolygon type; pinWay type; ignoreSeaLand type;
   ignore type].

(** The body of the loop over the types. *)
Definition Store_type (type : TypeInfo) (writer : FileWriter) : FileWriter :=
  let writer := (FileWriter_WriteNumber (id type) writer).2 in
  let writer := (FileWriter_Write_string (name type) writer).2 in
  let writer :=
    foldl (fun writer flag => (FileWriter_Write_bool flag writer).2) writer
          (Store_flags type) in
  let writer :=
    (FileWriter_WriteNumber (to_uint32 (N.of_nat (length (features type)))) writer).2 in
  foldl (fun writer fi =>
           (FileWriter_Write_string (Feature_GetName (feature fi)) writer).2)
        writer (features type).

(** [TypeConfig::StoreToDataFile]: the returned flag and the bytes
    written; [opens] tells whether the file can be created. *)
Definition StoreToDataFile (opens : bool) (c : TypeConfig) : bool * list Z :=
  if negb opens then (false, [])
  else
    let writer := {| written := []; writer_hasError := false |} in
    let writer :=
      (FileWriter_WriteNumber (to_uint32 (N.of_nat (length (tags c)))) writer).2 in
    let writer := Store_tags (tags c) writer in
    let '(nameTagCount, nameAltTagCount) := Store_counts c in
    let writer := (FileWriter_WriteNumber nameTagCount writer).2 in
    let writer := Store_nameTags (fun tag => IsNameTag tag c) (tags c) writer in
    let writer := (FileWriter_WriteNumber nameAltTagCount writer).2 in
    let writer := Store_nameTags (fun tag => IsNameAltTag tag c) (tags c) writer in
    let writer :=
      (FileWriter_WriteNumber (to_uint32 (N.of_nat (length (types c)))) writer).2 in
    let writer := foldl (fun writer type => Store_type type writer) writer (types c) in
    (negb (FileWriter_HasError writer) && FileWriter_Close writer, written writer).

End Store.

(** *** The layout of the data file *)

Section DataFile.
Context `{D : Declarations}.

Definition tag_bytes (tag : TagInfo) : list Z :=
  number_bytes (TagInfo_id tag) ++ string_bytes (TagInfo_name tag) ++
  [if TagInfo_internalOnly tag then 1 else 0]%Z.

Definition nameTag_bytes (isNameTag : TagId -> option N) (tag : TagInfo) : list Z :=
  match isNameTag (TagInfo_id tag) with
  | Some priority =>
      number_bytes (TagInfo_id tag) ++ string_bytes (TagInfo_name tag) ++
      number_bytes (to_uint32 priority)
  | None => []
  end.

Definition type_bytes (type : TypeInfo) : list Z :=
  number_bytes (id type) ++ string_bytes (name type) ++
  ((fun flag : bool => if flag then 1 else 0)%Z <$> Store_flags type) ++
  number_bytes (to_uint32 (N.of_nat (length (features type)))) ++
  concat ((fun fi => string_bytes (Feature_GetName (feature fi))) <$> features type).

(** The number of tags for which [isNameTag] holds. *)
Definition nameTag_count (isNameTag : TagId -> option N) (ts : list TagInfo) : nat :=
  length (filter (fun tag => is_Some (isNameTag (TagInfo_id tag))) ts).

(** The content of [types.dat] for a configuration. *)
Definition file_bytes (c : TypeConfig) : list Z :=
  number_bytes (to_uint32 (N.of_nat (length (tags c)))) ++
  concat (tag_bytes <$> tags c) ++
  number_bytes (to_uint32 (N.of_nat (nameTag_count (fun tag => IsNameTag tag c) (tags c)))) ++
  concat (nameTag_bytes (fun tag => IsNameTag tag c) <$> tags c) ++
  number_bytes (to_uint32 (N.of_nat (nameTag_count (fun tag => IsNameAltTag tag c) (tags c)))) ++
  concat (nameTag_bytes (fun tag => IsNameAltTag tag c) <$> tags c) ++
  number_bytes (to_uint32 (N.of_nat (length (types c)))) ++
  concat (type_bytes <$> types c).

End DataFile.

(** *** Configurations that their own data file describes *)

Section Reloadable.
Context `{D : Declarations}.

(** The tag is registered: its id is a [TagId], its name is mapped to the
    id and the vector holds it at the position of its id. *)
Definition tag_known (c : TypeConfig) (tag : TagInfo) : Prop :=
  (TagInfo_id tag < 2 ^ TagId_bits)%N /\
  stringToTagMap c !! TagInfo_name tag = Some (TagInfo_id tag) /\
  tags c !! N.to_nat (TagInfo_id tag) = Some tag.

(** The names of the features of a type, in the order of the features. *)
Definition feature_names (fs : list FeatureInstance) : list string :=
  (fun fi => Feature_GetName (feature fi)) <$> fs.

(** The feature is registered under its own name. *)
Definition Feature_registered (c : TypeConfig) (fi : FeatureInstance) : bool :=
  match GetFeature (Feature_GetName (feature fi)) c with
  | Some f => bool_decide (Feature_GetName f = Feature_GetName (feature fi))
  | None => false
  end.

(** The type is registered under its name, its feature count fits
    [uint32_t], its features are registered and no two of them share a
    name. *)
Definition Type_stored_ok (c : TypeConfig) (type : TypeInfo) : bool :=
  bool_decide (is_Some (nameToTypeMap c !! name type)) &&
  (N.of_nat (length (features type)) <? 2 ^ 32)%N &&
  forallb (Feature_registered c) (features type) &&
  bool_decide (NoDup (feature_names (features type))).

(** A name tag or alternative name tag is not internal. *)
Definition Tag_stored_ok (c : TypeConfig) (tag : TagInfo) : bool :=
  match IsNameTag (TagInfo_id tag) c, IsNameAltTag (TagInfo_id tag) c with
  | None, None => true
  | _, _ => negb (TagInfo_internalOnly tag)
  end.

Definition Stored_ok (c : TypeConfig) : bool :=
  TagRegistry_ok c &&
  (N.of_nat (length (tags c)) <? 2 ^ 32)%N &&
  (N.of_nat (length (types c)) <? 2 ^ 32)%N &&
  forallb (Tag_stored_ok c) (tags c) &&
  forallb (Type_stored_ok c) (types c).

End Reloadable.

(** ** Comparisons and type lookup by id *)

(** The operator that holds for two comparable values exactly when the
    given one does not. *)
Definition BinaryOperator_complement (op : BinaryOperator) : BinaryOperator :=
  match op with
  | operatorLess => operatorGreaterEqual
  | operatorLessEqual => operatorGreater
  | operatorEqual => operatorNotEqual
  | operatorNotEqual => operatorEqual
  | operatorGreaterEqual => operatorLess
  | operatorGreater => operatorLessEqual
  end.

Section TypeLookup.
Context `{D : Declarations}.

(** [TypeConfig::GetTypeInfo]: the element of [types] at the position
    of the id; [None] is the failed assertion [id<types.size()]. *)
Definition GetTypeInfo (id : TypeId) (c : TypeConfig) : option TypeInfo :=
  types c !! N.to_nat id.

(** The members [types] and [nextTypeId] fit together: the next id is
    the number of types and the type at position [i] has id [i]. *)
Definition TypeRegistry_ok (c : TypeConfig) : bool :=
  (nextTypeId c =? N.of_nat (length (types c)))%N &&
  forallb (fun p : nat * TypeInfo => (id p.2 =? N.of_nat p.1)%N)
          (imap pair (types c)).

End TypeLookup.

(** The sample schema with the name tag [name] and the alternative name
    tag [name:en]. *)
Definition sample_stored : TypeConfig :=
  (RegisterNameAltTag "name:en" 5%N (RegisterNameTag "name" 0%N sample_schema).2).2.

(** A way type with a maximum speed, a grade and a layer, with all of the
    flags [optimizeLowZoom], [multipolygon], [pinWay] and [ignoreSeaLand]
    set. *)
Definition sample_stored_type : TypeInfo :=
  {| id := 12%N; name := "track"; conditions := [];
     features := features sample_track_type;
     featureSet := featureSet sample_track_type;
     canBeNode := false; canBeWay := true; canBeArea := false;
     canBeRelation := false; canRouteFoot := true; canRouteBicycle := false;
     canRouteCar := false; indexAsLocation := false; indexAsRegion := false;
     indexAsPOI := false; optimizeLowZoom := true; multipolygon := true;
     pinWay := true; ignoreSeaLand := true; ignore := false |}.

(** * Properties *)

(** ** Evaluation of conditions *)

Section ConditionFacts.
Context `{D : Declarations}.

Lemma Evaluate_exists_absent (tag : TagId) (tagMap : gmap N string) :
  tagMap !! tag = None -> Evaluate (TagExistsCondition tag) tagMap = false.
Proof. intros H. simpl. by rewrite H. Qed.

Lemma Evaluate_binary_absent (tag : TagId) op vt s n (tagMap : gmap N string) :
  tagMap !! tag = None -> Evaluate (TagBinaryCondition tag op vt s n) tagMap = false.
Proof. intros H. simpl. by rewrite H. Qed.

Lemma Evaluate_isin_absent (tag : TagId) vs (tagMap : gmap N string) :
  tagMap !! tag = None -> Evaluate (TagIsInCondition tag vs) tagMap = false.
Proof. intros H. simpl. by rewrite H. Qed.

Lemma Evaluate_binary_not_numeric (tag : TagId) op s n v (tagMap : gmap N string) :
  tagMap !! tag = Some v ->
  StringToNumber_size_t v = None ->
  Evaluate (TagBinaryCondition tag op valueType_sizet s n) tagMap = false.
Proof. intros H1 H2. simpl. by rewrite H1, H2. Qed.

(** C6.  Evaluation is a total function of the condition and the tag
    map; a condition of kind exists, compare or set membership on a tag
    that the map does not contain is false; a compare with an integer
    literal on a value that does not parse as a number is false; an empty
    And is true and an empty Or is false. *)
Theorem C6_evaluate_total_missing_false (tagMap : gmap N string) (tag : TagId) :
  (forall c : TagCondition, exists b : bool, Evaluate c tagMap = b) /\
  (tagMap !! tag = None ->
     Evaluate (TagExistsCondition tag) tagMap = false /\
     (forall op vt s n, Evaluate (TagBinaryCondition tag op vt s n) tagMap = false) /\
     (forall vs, Evaluate (TagIsInCondition tag vs) tagMap = false)) /\
  (forall v op s n,
     tagMap !! tag = Some v ->
     StringToNumber_size_t v = None ->
     Evaluate (TagBinaryCondition tag op valueType_sizet s n) tagMap = false) /\
  Evaluate (TagBoolCondition boolAnd []) tagMap = true /\
  Evaluate (TagBoolCondition boolOr []) tagMap = false.
Proof.
  split; [by eauto|].
  split.
  { intros H. split; [by apply Evaluate_exists_absent|].
    split; intros; [by apply Evaluate_binary_absent|by apply Evaluate_isin_absent]. }
  split; [intros; by eapply Evaluate_binary_not_numeric|].
  by split.
Qed.

End ConditionFacts.

(** The facts of C6 on the map that holds the value [abc] for tag 1, with
    tag 2 absent. *)
Lemma C6_witness :
  Evaluate (TagExistsCondition 2%N) ({[ 1%N := "abc" ]} : gmap N string) = false /\
  Evaluate (TagBinaryCondition 1%N operatorLess valueType_sizet "" 5%N)
           ({[ 1%N := "abc" ]} : gmap N string) = false.
Proof.
  split.
  - destruct (C6_evaluate_total_missing_false {[ 1%N := "abc" ]} 2%N)
      as (_ & Habsent & _).
    apply Habsent. reflexivity.
  - destruct (C6_evaluate_total_missing_false {[ 1%N := "abc" ]} 1%N)
      as (_ & _ & Hnumber & _).
    apply (Hnumber "abc"); reflexivity.
Defined.

(** ** Classification *)

Lemma map_not_empty (m : gmap N string) : bool_decide (m = ∅) = false -> m <> ∅.
Proof. apply bool_decide_eq_false. Qed.

Section ClassificationFacts.
Context `{D : Declarations}.

Lemma find_first {A} (p : A -> bool) (pre post : list A) (x : A) :
  find p pre = None -> p x = true ->
  find p (pre ++ x :: post) = Some x.
Proof.
  induction pre as [|y pre IH]; simpl; intros Hpre Hx.
  - by rewrite Hx.
  - destruct (p y); [done|]. by apply IH.
Qed.

Lemma find_append {A} (p : A -> bool) (l1 l2 : list A) :
  find p (l1 ++ l2) =
  match find p l1 with
  | Some x => Some x
  | None => find p l2
  end.
Proof. induction l1 as [|y l1 IH]; simpl; [done|]. by destruct (p y). Qed.

Lemma GetNodeType_conditions_spec type conds tagMap :
  GetNodeType_conditions type conds tagMap =
  if existsb (node_condition_holds tagMap) conds then Some type else None.
Proof.
  induction conds as [|cond rest IH]; simpl; [done|].
  unfold node_condition_holds at 1.
  destruct (nonzero (Z.land (cond_types cond) typeNode)); simpl; [|done].
  by destruct (Evaluate (cond_condition cond) tagMap).
Qed.

Lemma GetNodeType_types_spec ts tagMap :
  GetNodeType_types ts tagMap = find (node_type_matches tagMap) ts.
Proof.
  induction ts as [|type rest IH]; simpl; [done|].
  unfold node_type_matches at 1.
  rewrite GetNodeType_conditions_spec.
  destruct (HasConditions type); simpl; [|done].
  destruct (canBeNode type); simpl; [|done].
  by destruct (existsb _ _).
Qed.

Lemma GetNodeType_spec tagMap c : GetNodeType tagMap c = ClassifyNode tagMap c.
Proof.
  unfold GetNodeType, ClassifyNode. rewrite GetNodeType_types_spec.
  case_bool_decide; [done|]. by destruct (find _ _).
Qed.

(** C4.  Node classification is a total function of the tag map and the
    configuration.  It is the first type in registration order that can
    be a node, has conditions and has a node-scoped condition that
    holds; the ignore type for the empty tag map and when no type
    matches; a matching type wins over every type registered after
    it. *)
Theorem C4_GetNodeType_first_match (tagMap : gmap N string) (c : TypeConfig) :
  GetNodeType tagMap c = ClassifyNode tagMap c /\
  (tagMap = ∅ -> GetNodeType tagMap c = typeInfoIgnore c) /\
  (find (node_type_matches tagMap) (types c) = None ->
     GetNodeType tagMap c = typeInfoIgnore c) /\
  (forall pre t post,
     tagMap <> ∅ ->
     types c = pre ++ t :: post ->
     find (node_type_matches tagMap) pre = None ->
     node_type_matches tagMap t = true ->
     GetNodeType tagMap c = t).
Proof.
  split; [apply GetNodeType_spec|].
  rewrite GetNodeType_spec. unfold ClassifyNode.
  split; [intros ->; by rewrite bool_decide_eq_true_2|].
  split.
  - intros Hall. case_bool_decide; [done|]. by rewrite Hall.
  - intros pre t post Hne Hts Hpre Ht.
    rewrite bool_decide_eq_false_2 by done.
    rewrite Hts. by rewrite find_first.
Qed.

(** While the scan of the way/area classification goes on, both
    results are still the ignore id. *)
Lemma GetWayAreaTypeId_conditions_spec type conds tagMap :
  GetWayAreaTypeId_conditions type conds tagMap (typeIgnore, typeIgnore) =
  match find (way_area_hit tagMap) (map (pair type) conds) with
  | Some (t, cond) =>
      Return (true,
              if way_scoped cond then id t else typeIgnore,
              if area_scoped cond then id t else typeIgnore)
  | None => Continue (typeIgnore, typeIgnore)
  end.
Proof.
  induction conds as [|cond rest IH]; simpl; [done|].
  unfold way_area_hit at 1, way_scoped at 1 2, area_scoped at 1 2. simpl.
  destruct (id type =? typeIgnore)%N eqn:Hid;
    [apply N.eqb_eq in Hid; rewrite Hid|];
    destruct (nonzero (Z.land (cond_types cond) typeWay)) eqn:Hw;
    destruct (nonzero (Z.land (cond_types cond) typeArea)) eqn:Ha;
    destruct (Evaluate (cond_condition cond) tagMap); simpl;
    rewrite ?Hid; simpl; unfold way_scoped, area_scoped;
    by rewrite ?IH, ?Hw, ?Ha.
Qed.

Lemma GetWayAreaTypeId_types_spec ts tagMap :
  GetWayAreaTypeId_types ts tagMap (typeIgnore, typeIgnore) =
  match find (way_area_hit tagMap) (way_area_candidates ts) with
  | Some (t, cond) =>
      (true,
       if way_scoped cond then id t else typeIgnore,
       if area_scoped cond then id t else typeIgnore)
  | None => (false, typeIgnore, typeIgnore)
  end.
Proof.
  induction ts as [|type rest IH]; simpl; [done|].
  destruct ((canBeWay type || canBeArea type) && HasConditions type); simpl;
    [|done].
  rewrite GetWayAreaTypeId_conditions_spec.
  rewrite find_append.
  destruct (find (way_area_hit tagMap) (map (pair type) (conditions type)))
    as [[t cond]|]; done.
Qed.

Lemma GetWayAreaTypeId_spec tagMap c :
  GetWayAreaTypeId tagMap c = ClassifyWayOrArea tagMap c.
Proof.
  unfold GetWayAreaTypeId, ClassifyWayOrArea.
  case_bool_decide; [done|]. apply GetWayAreaTypeId_types_spec.
Qed.

(** C1, as the code has it.  The way/area classification visits the
    types in registration order and their conditions in list order and
    returns at the first way- or area-scoped condition that holds for a
    type whose id is not the ignore id.  That one condition fixes both
    results: the way result is the id of the type if the condition is
    way-scoped and else ignore, the area result is the id of the type if
    the condition is area-scoped and else ignore.  Without such a
    condition, and for the empty tag map, the call returns [false] and
    both results are ignore.  So when the first hit is a condition that
    is way-scoped but not area-scoped, the area result is ignore,
    whatever the types registered later match. *)
Theorem C1_GetWayAreaTypeId_first_hit (tagMap : gmap N string) (c : TypeConfig) :
  GetWayAreaTypeId tagMap c = ClassifyWayOrArea tagMap c /\
  (forall pre t cond post,
     tagMap <> ∅ ->
     way_area_candidates (types c) = pre ++ (t, cond) :: post ->
     find (way_area_hit tagMap) pre = None ->
     way_area_hit tagMap (t, cond) = true ->
     way_scoped cond = true -> area_scoped cond = false ->
     GetWayAreaTypeId tagMap c = (true, id t, typeIgnore)) /\
  (forall pre t cond post,
     tagMap <> ∅ ->
     way_area_candidates (types c) = pre ++ (t, cond) :: post ->
     find (way_area_hit tagMap) pre = None ->
     way_area_hit tagMap (t, cond) = true ->
     GetWayAreaTypeId tagMap c =
       (true,
        if way_scoped cond then id t else typeIgnore,
        if area_scoped cond then id t else typeIgnore)) /\
  (tagMap = ∅ \/ find (way_area_hit tagMap) (way_area_candidates (types c)) = None ->
     GetWayAreaTypeId tagMap c = (false, typeIgnore, typeIgnore)).
Proof.
  split; [apply GetWayAreaTypeId_spec|].
  rewrite GetWayAreaTypeId_spec. unfold ClassifyWayOrArea.
  split; [|split].
  - intros pre t cond post Hne Hcs Hpre Hhit Hw Ha.
    rewrite bool_decide_eq_false_2 by done.
    rewrite Hcs, find_first by done. by rewrite Hw, Ha.
  - intros pre t cond post Hne Hcs Hpre Hhit.
    rewrite bool_decide_eq_false_2 by done.
    by rewrite Hcs, find_first.
  - intros [->|Hnone]; [by rewrite bool_decide_eq_true_2|].
    case_bool_decide; [done|]. by rewrite Hnone.
Qed.

End ClassificationFacts.

(** C4 on the sample with two matching node types: the one registered
    first is returned. *)
Lemma C4_witness :
  exists t,
    types sample_node !! 7%nat = Some t /\
    name t = "amenity" /\
    GetNodeType {[ 40%N := "yes" ]} sample_node = t.
Proof.
  eexists.
  split; [vm_compute; reflexivity|].
  split; [reflexivity|].
  match goal with
  | |- GetNodeType ?m ?c = ?t =>
      apply (proj2 (proj2 (proj2 (C4_GetNodeType_first_match m c)))
               (take 7 (types c)) t (drop 8 (types c)))
  end.
  - apply map_not_empty. vm_compute. reflexivity.
  - vm_compute. reflexivity.
  - vm_compute. reflexivity.
  - vm_compute. reflexivity.
Defined.

(** C1 on the sample: the way-only condition of the type registered first
    is the first hit, so the area result is the ignore id although the
    later type has an area-scoped condition that holds. *)
Lemma C1_witness :
  GetWayAreaTypeId sample_way_area_tags sample_way_area = (true, 7%N, typeIgnore).
Proof.
  pose proof (proj1 (proj2 (C1_GetWayAreaTypeId_first_hit sample_way_area_tags
                              sample_way_area)) []
                (default TypeInfo_new (types sample_way_area !! 7%nat))
                {| cond_types := typeWay;
                   cond_condition := TagExistsCondition 40%N |}
                (drop 1 (way_area_candidates (types sample_way_area)))) as Hfirst.
  apply Hfirst.
  - apply map_not_empty. vm_compute. reflexivity.
  - vm_compute. reflexivity.
  - reflexivity.
  - vm_compute. reflexivity.
  - vm_compute. reflexivity.
  - vm_compute. reflexivity.
Defined.

(** The claim that both results are fixed fails on the sample: a
    way-scoped condition of type 7 and an area-scoped condition of the
    later type 8 hold, and the area result is the ignore id. *)
Lemma C1_counterexample :
  ~ way_and_area_both_fixed sample_way_area_tags sample_way_area.
Proof.
  intros Hclaim.
  edestruct (Hclaim 7%nat 8%nat) as [_ Harea].
  - lia.
  - vm_compute. reflexivity.
  - vm_compute. reflexivity.
  - apply list_elem_of_here.
  - vm_compute. reflexivity.
  - vm_compute. reflexivity.
  - apply list_elem_of_here.
  - vm_compute. reflexivity.
  - vm_compute. reflexivity.
  - apply Harea. vm_compute. reflexivity.
Qed.

(** ** Adding a type twice *)

Section AddTypeInfoFacts.
Context `{D : Declarations}.

Lemma AddFeature_name f t t' : AddFeature f t = Some t' -> name t' = name t.
Proof.
  unfold AddFeature. destruct f as [f|]; [|done].
  case_bool_decide; [done|]. by intros [= <-].
Qed.

(** After a call of [AddTypeInfo] the name of the type is registered. *)
Lemma AddTypeInfo_registers typeInfo c typeInfo' c' :
  AddTypeInfo typeInfo c = Some (typeInfo', c') ->
  is_Some (nameToTypeMap c' !! name typeInfo).
Proof.
  unfold AddTypeInfo.
  destruct (nameToTypeMap c !! name typeInfo) as [old|] eqn:Hold.
  { intros [= <- <-]. by rewrite Hold. }
  destruct (if (canBeArea typeInfo || canBeNode typeInfo) &&
               negb (HasFeature "Address" typeInfo)
            then AddFeature (GetFeature "Address" c) typeInfo
            else Some typeInfo) as [t1|] eqn:Ht1; simpl; [|done].
  assert (name t1 = name typeInfo) as Hname.
  { destruct (_ && _); [by eapply AddFeature_name|by injection Ht1 as <-]. }
  destruct (id t1 =? 0)%N; intros [= <- <-]; simpl;
    rewrite <- Hname; by rewrite lookup_insert_eq.
Qed.

(** C10.  Adding a type whose name is already registered changes nothing:
    the call succeeds, the type object and the whole configuration (the
    list of types, the index by name, the index by id, the next type id)
    are as before.  A name is registered by the first successful
    [AddTypeInfo] for it, so adding a type of the same name after that is
    such a call. *)
Theorem C10_AddTypeInfo_duplicate_noop (typeInfo : TypeInfo) (c : TypeConfig) :
  (is_Some (nameToTypeMap c !! name typeInfo) ->
     exists c',
       AddTypeInfo typeInfo c = Some (typeInfo, c') /\
       c' = c /\
       types c' = types c /\
       nameToTypeMap c' = nameToTypeMap c /\
       idToTypeMap c' = idToTypeMap c /\
       nextTypeId c' = nextTypeId c) /\
  (forall first first' c0,
     AddTypeInfo first c0 = Some (first', c) ->
     name typeInfo = name first ->
     AddTypeInfo typeInfo c = Some (typeInfo, c)).
Proof.
  assert (is_Some (nameToTypeMap c !! name typeInfo) ->
          AddTypeInfo typeInfo c = Some (typeInfo, c)) as Hdup.
  { intros [old Hold]. unfold AddTypeInfo. by rewrite Hold. }
  split.
  - intros Hsome. exists c. by rewrite Hdup.
  - intros first first' c0 Hfirst Hname. apply Hdup. rewrite Hname.
    by eapply AddTypeInfo_registers.
Qed.

End AddTypeInfoFacts.

(** C10 on the sample: a second type named amenity leaves the
    configuration as it is. *)
Lemma C10_witness :
  AddTypeInfo (TypeInfo_CanBeWay true (TypeInfo_SetType "amenity" TypeInfo_new))
    sample_node =
  Some (TypeInfo_CanBeWay true (TypeInfo_SetType "amenity" TypeInfo_new), sample_node).
Proof.
  destruct (proj1 (C10_AddTypeInfo_duplicate_noop
                     (TypeInfo_CanBeWay true (TypeInfo_SetType "amenity" TypeInfo_new))
                     sample_node)) as (c' & Hadd & -> & _).
  - apply (bool_decide_unpack _). vm_compute. exact I.
  - exact Hadd.
Defined.

(** ** Tag registration *)

Section TagRegistryFacts.
Context `{D : Declarations}.

Lemma TagRegistry_ok_inv c : TagRegistry_ok c = true <-> TagRegistry_inv c.
Proof.
  unfold TagRegistry_ok, TagRegistry_inv.
  rewrite !andb_true_iff, N.eqb_eq, N.ltb_lt, !forallb_forall.
  split.
  - intros [[[Hnext Hlen] Htags] Hmap].
    split; [done|]. split; [done|]. split.
    + intros i t Hi.
      assert (In (i, t) (imap pair (tags c))) as Hin.
      { apply list_elem_of_In. by apply (elem_of_lookup_imap_2 pair). }
      apply Htags in Hin. simpl in Hin.
      apply andb_true_iff in Hin as [Hid Hn].
      apply N.eqb_eq in Hid. by apply bool_decide_eq_true in Hn.
    + intros n i Hn.
      assert (In (n, i) (map_to_list (stringToTagMap c))) as Hin.
      { apply list_elem_of_In. by apply elem_of_map_to_list. }
      apply Hmap in Hin. simpl in Hin.
      destruct (tags c !! N.to_nat i) as [t|]; [|done].
      exists t. split; [done|]. by apply bool_decide_eq_true in Hin.
  - intros (Hnext & Hlen & Htags & Hmap).
    split; [split; [done|]|].
    + intros [i t] Hin. apply list_elem_of_In in Hin. simpl.
      apply elem_of_lookup_imap in Hin as (j & y & Heq & Hy).
      injection Heq as -> ->.
      destruct (Htags _ _ Hy) as [Hid Hn].
      apply andb_true_iff. split; [by apply N.eqb_eq|by apply bool_decide_eq_true].
    + intros [n i] Hin. apply list_elem_of_In, elem_of_map_to_list in Hin. simpl.
      destruct (Hmap _ _ Hin) as (t & -> & Ht). by apply bool_decide_eq_true.
Qed.

(** What the registration of a name that is not yet known does. *)
Lemma RegisterTag_new_eq tagName internalOnly c :
  RegisterTag_new tagName internalOnly c =
  (nextTagId c,
   TypeConfig_set_stringToTagMap (<[tagName := nextTagId c]> (stringToTagMap c))
     (TypeConfig_set_tags
        (tags c ++ [{| TagInfo_id := nextTagId c; TagInfo_name := tagName;
                       TagInfo_internalOnly := internalOnly |}])
        (TypeConfig_set_nextTagId (to_TagId (nextTagId c + 1)) c))).
Proof. reflexivity. Qed.

Lemma RegisterTag_new_inv tagName internalOnly c :
  TagRegistry_inv c ->
  stringToTagMap c !! tagName = None ->
  (N.of_nat (length (tags c)) + 1 < 2 ^ TagId_bits)%N ->
  TagRegistry_inv (RegisterTag_new tagName internalOnly c).2.
Proof.
  intros (Hnext & Hlen & Htags & Hmap) Hfresh Hroom.
  rewrite RegisterTag_new_eq. unfold TagRegistry_inv. simpl.
  rewrite length_app. simpl. rewrite Hnext.
  split; [unfold to_TagId; rewrite N.mod_small; lia|].
  split; [lia|].
  split.
  - intros i t Hi. apply lookup_snoc_Some in Hi as [[Hlt Hi]|[-> <-]].
    + destruct (Htags _ _ Hi) as [Hid Hn]. split; [done|].
      rewrite lookup_insert_ne; [done|]. intros Heq. rewrite Heq in Hfresh. congruence.
    + simpl. split; [done|]. by rewrite lookup_insert_eq.
  - intros n i. destruct (decide (tagName = n)) as [<-|Hne].
    + rewrite lookup_insert_eq. intros [= <-]. eexists. split.
      * rewrite Nat2N.id. by rewrite list_lookup_middle.
      * done.
    + rewrite lookup_insert_ne by done. intros Hn.
      destruct (Hmap _ _ Hn) as (t & Ht & Hname). exists t. split; [|done].
      rewrite lookup_app_l; [done|]. by eapply lookup_lt_Some.
Qed.

Lemma RegisterTagForExternalUse_known_inv tagName i c :
  TagRegistry_inv c ->
  stringToTagMap c !! tagName = Some i ->
  TagRegistry_inv (RegisterTagForExternalUse tagName c).2.
Proof.
  intros (Hnext & Hlen & Htags & Hmap) Hknown.
  unfold RegisterTagForExternalUse. rewrite Hknown.
  unfold TagRegistry_inv. simpl. rewrite length_alter.
  split; [done|]. split; [done|]. split.
  - intros j t. rewrite list_lookup_alter.
    case_decide as Hj.
    + subst j. destruct (tags c !! N.to_nat i) as [t0|] eqn:Ht0; simpl; [|done].
      intros [= <-]. simpl. by apply Htags.
    + apply Htags.
  - intros n j Hn. destruct (Hmap _ _ Hn) as (t & Ht & Hname).
    rewrite list_lookup_alter. case_decide as Hj.
    + rewrite Hj, Ht. simpl. by eexists.
    + by exists t.
Qed.

(** C5.  On a consistent registry: registering a known name through
    either function returns its id and adds no entry; the internal
    function leaves the configuration as it is, so it never turns an
    external tag back into an internal one; the external function clears
    the internal-only flag of that tag in place, keeping its id and name
    and all other tags; a new name gets the next id in sequence (the
    number of tags registered so far, 0 for the first registration, which
    the constructor makes for the empty name, 1 for the next) and is
    appended; no name other than the one registered first is ever mapped
    to id 0; the registry stays consistent while ids remain. *)
Theorem C5_tag_registration (tagName : string) (c : TypeConfig) :
  TagRegistry_ok c = true ->
  (forall i, stringToTagMap c !! tagName = Some i ->
     RegisterTagForInternalUse tagName c = (i, c) /\
     exists t,
       tags c !! N.to_nat i = Some t /\
       TagInfo_id t = i /\ TagInfo_name t = tagName /\
       (RegisterTagForExternalUse tagName c).1 = i /\
       stringToTagMap (RegisterTagForExternalUse tagName c).2 = stringToTagMap c /\
       nextTagId (RegisterTagForExternalUse tagName c).2 = nextTagId c /\
       tags (RegisterTagForExternalUse tagName c).2 =
         <[N.to_nat i := {| TagInfo_id := i; TagInfo_name := tagName;
                            TagInfo_internalOnly := false |}]> (tags c) /\
       TagRegistry_ok (RegisterTagForExternalUse tagName c).2 = true) /\
  (stringToTagMap c !! tagName = None ->
     forall register internalOnly,
       (register = RegisterTagForInternalUse /\ internalOnly = true) \/
       (register = RegisterTagForExternalUse /\ internalOnly = false) ->
       (register tagName c).1 = N.of_nat (length (tags c)) /\
       tags (register tagName c).2 =
         tags c ++ [{| TagInfo_id := N.of_nat (length (tags c));
                       TagInfo_name := tagName;
                       TagInfo_internalOnly := internalOnly |}] /\
       stringToTagMap (register tagName c).2 =
         <[tagName := N.of_nat (length (tags c))]> (stringToTagMap c) /\
       (tags c <> [] -> (register tagName c).1 <> tagIgnore) /\
       ((N.of_nat (length (tags c)) + 1 < 2 ^ TagId_bits)%N ->
          nextTagId (register tagName c).2 = (N.of_nat (length (tags c)) + 1)%N /\
          TagRegistry_ok (register tagName c).2 = true)) /\
  (forall first n, tags c !! 0%nat = Some first ->
     stringToTagMap c !! n = Some tagIgnore -> n = TagInfo_name first).
Proof.
  intros Hok. pose proof Hok as Hinv. apply TagRegistry_ok_inv in Hinv.
  pose proof Hinv as (Hnext & Hlen & Htags & Hmap).
  split; [|split].
  - intros i Hknown.
    split; [unfold RegisterTagForInternalUse; by rewrite Hknown|].
    destruct (Hmap _ _ Hknown) as (t & Ht & Hname).
    destruct (Htags _ _ Ht) as [Hid _]. rewrite N2Nat.id in Hid.
    exists t. split; [done|]. split; [done|]. split; [done|].
    split; [|split; [|split; [|split]]].
    + unfold RegisterTagForExternalUse. by rewrite Hknown.
    + unfold RegisterTagForExternalUse. by rewrite Hknown.
    + unfold RegisterTagForExternalUse. by rewrite Hknown.
    + unfold RegisterTagForExternalUse. rewrite Hknown. simpl.
      apply list_eq. intros j. rewrite list_lookup_alter, list_lookup_insert.
      destruct (decide (N.to_nat i = j)) as [<-|Hne].
      * rewrite Ht. simpl. rewrite decide_True.
        -- unfold TagInfo_SetToExternal. by rewrite Hid, Hname.
        -- split; [done|]. by eapply lookup_lt_Some.
      * by rewrite decide_False by tauto.
    + apply TagRegistry_ok_inv. by eapply RegisterTagForExternalUse_known_inv.
  - intros Hfresh register internalOnly Hreg.
    assert (register tagName c = RegisterTag_new tagName internalOnly c) as ->.
    { destruct Hreg as [[-> ->]|[-> ->]];
        unfold RegisterTagForInternalUse, RegisterTagForExternalUse;
        by rewrite Hfresh. }
    assert ((N.of_nat (length (tags c)) + 1 < 2 ^ TagId_bits)%N ->
            TagRegistry_ok (RegisterTag_new tagName internalOnly c).2 = true)
      as Hinv'.
    { intros Hroom. apply TagRegistry_ok_inv. by apply RegisterTag_new_inv. }
    revert Hinv'. rewrite RegisterTag_new_eq. simpl. rewrite Hnext. intros Hok'.
    split; [done|]. split; [done|]. split; [done|]. split.
    + intros Hne. destruct (tags c); [done|]. simpl. unfold tagIgnore. lia.
    + intros Hroom. split; [unfold to_TagId; by rewrite N.mod_small|].
      by apply Hok'.
  - intros first n Hfirst Hn.
    destruct (Hmap _ _ Hn) as (t & Ht & Hname).
    change (N.to_nat tagIgnore) with 0%nat in Ht.
    rewrite Hfirst in Ht. by injection Ht as ->.
Qed.

End TagRegistryFacts.

(** C5 on the configuration as the constructor leaves it: the empty name
    has id 0 and [name], registered next, id 1; registering [name] again
    for internal use changes nothing; registering [area], so far internal,
    for external use returns its id 30; the new name [highway] gets the
    next id 34. *)
Lemma C5_witness :
  GetTagId "" sample_fresh = tagIgnore /\
  RegisterTagForInternalUse "name" sample_fresh = (1%N, sample_fresh) /\
  (RegisterTagForExternalUse "area" sample_fresh).1 = 30%N /\
  (RegisterTagForInternalUse "highway" sample_fresh).1 = 34%N.
Proof.
  split; [vm_compute; reflexivity|].
  split; [|split].
  - destruct (C5_tag_registration "name" sample_fresh) as (Hknown & _).
    + vm_compute. reflexivity.
    + apply (Hknown 1%N). vm_compute. reflexivity.
  - destruct (C5_tag_registration "area" sample_fresh) as (Hknown & _).
    + vm_compute. reflexivity.
    + destruct (Hknown 30%N) as (_ & t & _ & _ & _ & Hid & _).
      * vm_compute. reflexivity.
      * exact Hid.
  - destruct (C5_tag_registration "highway" sample_fresh) as (_ & Hnew & _).
    + vm_compute. reflexivity.
    + destruct Hnew with (register := RegisterTagForInternalUse)
                         (internalOnly := true) as (Hid & _).
      * vm_compute. reflexivity.
      * left. split; reflexivity.
      * rewrite Hid. vm_compute. reflexivity.
Defined.

(** ** Offsets of the features of a type *)

Section AddFeatureFacts.
Context `{D : Declarations}.

(** The rounding in [AddFeature] yields the least multiple of the
    alignment that is not below the sum. *)
Lemma round_up_spec (o : N) :
  (0 < alignment)%N ->
  let r := if negb (o mod alignment =? 0)%N
           then ((o / alignment + 1) * alignment)%N else o in
  (r mod alignment = 0 /\ o <= r /\ r < o + alignment)%N.
Proof.
  intros Hpos. simpl.
  pose proof (N.div_mod o alignment ltac:(lia)) as Hdm.
  pose proof (N.mod_lt o alignment ltac:(lia)) as Hlt.
  destruct (o mod alignment =? 0)%N eqn:Hz; simpl.
  - apply N.eqb_eq in Hz. lia.
  - apply N.eqb_neq in Hz.
    split; [apply N.Div0.mod_mul|].
    revert Hdm Hlt Hz Hpos.
    generalize alignment (o / alignment)%N (o mod alignment)%N.
    intros a q m Hdm Hlt Hz Hpos. subst o.
    replace ((q + 1) * a)%N with (a * q + a)%N by ring. lia.
Qed.

Lemma laid_out_snoc l f :
  laid_out l ->
  laid_out (l ++ [{| feature := f; offset := AddFeature_offset l |}]).
Proof.
  intros Hl i fi Hi. apply lookup_snoc_Some in Hi as [[Hlt Hi]|[-> <-]].
  - rewrite take_app_le by lia. by apply Hl.
  - by rewrite take_app_length.
Qed.

Lemma AddFeatures_snoc fs f t :
  AddFeatures (fs ++ [f]) t = (t' ← AddFeatures fs t; AddFeature (Some f) t').
Proof. unfold AddFeatures. by rewrite foldl_snoc. Qed.

Lemma AddFeatures_spec fs t0 :
  features t0 = [] -> featureSet t0 = ∅ ->
  NoDup (Feature_GetName <$> fs) ->
  exists t,
    AddFeatures fs t0 = Some t /\
    feature <$> features t = fs /\
    (forall n, n ∈ featureSet t <-> n ∈ (Feature_GetName <$> fs)) /\
    laid_out (features t).
Proof.
  intros Hfs0 Hset0. induction fs as [|f fs IH] using rev_ind; intros Hnodup.
  - exists t0. split; [done|]. rewrite Hfs0, Hset0.
    split; [done|]. split; [set_solver|]. by intros i fi.
  - rewrite fmap_app in Hnodup. apply NoDup_app in Hnodup as (Hnd & Hnotin & _).
    destruct (IH Hnd) as (t & Ht & Hmap & Hset & Hlaid).
    rewrite AddFeatures_snoc, Ht. simpl.
    assert (Feature_GetName f ∉ featureSet t) as Hfresh.
    { intros Hin%Hset. apply (Hnotin _ Hin). simpl. apply list_elem_of_here. }
    rewrite bool_decide_eq_false_2 by done.
    eexists. split; [done|]. simpl.
    split; [by rewrite fmap_app, Hmap|].
    split; [|by apply laid_out_snoc].
    intros n. rewrite fmap_app, elem_of_app, elem_of_union, Hset. simpl.
    rewrite elem_of_singleton, list_elem_of_singleton. tauto.
Qed.

Lemma laid_out_first l fi : laid_out l -> l !! 0%nat = Some fi -> offset fi = 0%N.
Proof. intros Hl Hi. by rewrite (Hl _ _ Hi). Qed.

Lemma laid_out_next l i a b :
  laid_out l -> l !! i = Some a -> l !! S i = Some b ->
  offset b =
    let o := (offset a + Feature_GetValueSize (feature a))%N in
    if negb (o mod alignment =? 0)%N
    then ((o / alignment + 1) * alignment)%N else o.
Proof.
  intros Hl Ha Hb. rewrite (Hl _ _ Hb), (take_S_r _ _ _ Ha).
  unfold AddFeature_offset. by rewrite last_snoc.
Qed.

(** C9, as the code has it.  For a sequence of [AddFeature] calls with
    distinct feature names on a type without features, every call
    succeeds and the features are stored in call order; the first offset
    is 0; every offset is a multiple of the alignment; each later offset
    is the previous offset plus the previous payload size, rounded up to
    the next multiple of the alignment, so the offsets never decrease from
    one feature to the next and increase strictly after a feature with a
    payload (after a feature without payload the offset stays the same);
    adding a feature whose name is already on the type fails. *)
Theorem C9_AddFeature_offsets (fs : list Feature) (t0 : TypeInfo) :
  (0 < alignment)%N ->
  features t0 = [] -> featureSet t0 = ∅ ->
  NoDup (Feature_GetName <$> fs) ->
  exists t,
    AddFeatures fs t0 = Some t /\
    feature <$> features t = fs /\
    (forall fi, features t !! 0%nat = Some fi -> offset fi = 0%N) /\
    (forall i fi, features t !! i = Some fi -> (offset fi mod alignment = 0)%N) /\
    (forall i a b,
       features t !! i = Some a -> features t !! S i = Some b ->
       (offset a + Feature_GetValueSize (feature a) <= offset b)%N /\
       (offset b < offset a + Feature_GetValueSize (feature a) + alignment)%N /\
       (offset a <= offset b)%N /\
       (Feature_HasValue (feature a) = true -> (offset a < offset b)%N) /\
       (Feature_HasValue (feature a) = false -> offset b = offset a)) /\
    (forall f, Feature_GetName f ∈ (Feature_GetName <$> fs) ->
       AddFeature (Some f) t = None).
Proof.
  intros Hpos Hfs0 Hset0 Hnodup.
  destruct (AddFeatures_spec fs t0 Hfs0 Hset0 Hnodup) as (t & Ht & Hmap & Hset & Hlaid).
  assert (forall i a b,
            features t !! i = Some a -> features t !! S i = Some b ->
            (offset b mod alignment = 0 /\
             offset a + Feature_GetValueSize (feature a) <= offset b /\
             offset b < offset a + Feature_GetValueSize (feature a) + alignment)%N)
    as Hnext.
  { intros i a b Ha Hb. rewrite (laid_out_next _ _ _ _ Hlaid Ha Hb).
    by apply round_up_spec. }
  exists t. split; [done|]. split; [done|].
  split; [intros fi; by apply laid_out_first|].
  split; [|split].
  - intros [|i] fi Hi.
    + rewrite (laid_out_first _ _ Hlaid Hi). by apply N.Div0.mod_0_l.
    + destruct (lookup_lt_is_Some_2 (features t) i) as [a Ha].
      { apply lookup_lt_Some in Hi. lia. }
      by destruct (Hnext _ _ _ Ha Hi).
  - intros i a b Ha Hb.
    destruct (Hnext _ _ _ Ha Hb) as (Hmod & Hle & Hlt).
    split; [done|]. split; [done|]. split; [lia|].
    unfold Feature_HasValue. split.
    + intros Hv%N.ltb_lt. lia.
    + intros Hv%N.ltb_ge.
      assert (Feature_GetValueSize (feature a) = 0%N) as Hz by lia.
      rewrite Hz, N.add_0_r in Hle, Hlt.
      assert (offset a mod alignment = 0)%N as Hamod.
      { destruct i as [|i].
        - rewrite (laid_out_first _ _ Hlaid Ha). by apply N.Div0.mod_0_l.
        - destruct (lookup_lt_is_Some_2 (features t) i) as [p Hp].
          { apply lookup_lt_Some in Ha. lia. }
          by destruct (Hnext _ _ _ Hp Ha). }
      rewrite (laid_out_next _ _ _ _ Hlaid Ha Hb). simpl.
      by rewrite Hz, N.add_0_r, Hamod.
  - intros f Hin. unfold AddFeature.
    rewrite bool_decide_eq_true_2; [done|]. by apply Hset.
Qed.

End AddFeatureFacts.

(** C9 on the sample [Name], [Bridge], [Width]: the offsets are 0, 40 and
    40. *)
Lemma C9_witness :
  exists t,
    AddFeatures sample_features TypeInfo_new = Some t /\
    offset <$> features t = [0; 40; 40]%N.
Proof.
  destruct (C9_AddFeature_offsets sample_features TypeInfo_new)
    as (t & Ht & _).
  - vm_compute. reflexivity.
  - reflexivity.
  - reflexivity.
  - apply (bool_decide_unpack _). vm_compute. exact I.
  - exists t. split; [exact Ht|].
    revert Ht. vm_compute. intros [= <-]. reflexivity.
Defined.

(** The offsets of the two marker features are both 0: the claim that
    offsets grow strictly from each feature to the next fails. *)
Lemma C9_counterexample :
  exists t,
    sample_markers = Some t /\ ~ offsets_strictly_increasing t.
Proof.
  eexists. split; [vm_compute; reflexivity|].
  intros Hclaim.
  specialize (Hclaim 0%nat _ _ eq_refl eq_refl). simpl in Hclaim. lia.
Qed.

(** ** Bits of an [uint8_t] *)

#[local] Arguments Nat.div : simpl never.
#[local] Arguments Nat.modulo : simpl never.
#[local] Arguments Z.shiftl : simpl never.

Lemma testbit_uint8 (x k : Z) :
  (0 <= k < 8)%Z -> Z.testbit (uint8 x) k = Z.testbit x k.
Proof.
  intros Hk. unfold uint8. change 256%Z with (2 ^ 8)%Z.
  apply Z.mod_pow2_bits_low. lia.
Qed.

Lemma testbit_pow2 (i k : Z) :
  (0 <= i)%Z -> (0 <= k)%Z -> Z.testbit (2 ^ i) k = (i =? k)%Z.
Proof.
  intros Hi Hk. by rewrite Z.pow2_bits_eqb.
Qed.

(** Masking with a single bit tests that bit. *)
Lemma land_pow2 (v k : Z) :
  (0 <= k)%Z ->
  Z.land v (2 ^ k) = if Z.testbit v k then (2 ^ k)%Z else 0%Z.
Proof.
  intros Hk. apply Z.bits_inj'. intros n Hn.
  rewrite Z.land_spec, testbit_pow2 by done.
  destruct (Z.eqb_spec k n) as [<-|Hne].
  - rewrite andb_true_r. destruct (Z.testbit v k) eqn:Hv.
    + by rewrite testbit_pow2, Z.eqb_refl.
    + by rewrite Z.bits_0.
  - rewrite andb_false_r. destruct (Z.testbit v k).
    + rewrite testbit_pow2 by done. symmetry. by apply Z.eqb_neq.
    + by rewrite Z.bits_0.
Qed.

Lemma uint8_small (x : Z) : (0 <= x < 256)%Z -> uint8 x = x.
Proof. intros Hx. unfold uint8. by apply Z.mod_small. Qed.

Lemma uint8_range (x : Z) : (0 <= uint8 x < 256)%Z.
Proof. unfold uint8. apply Z.mod_pos_bound. lia. Qed.

Lemma uint8_idemp (x : Z) : uint8 (uint8 x) = uint8 x.
Proof. apply uint8_small, uint8_range. Qed.

(** ** The feature value buffer after one allocation *)

Section BufferFacts.
Context `{D : Declarations}.

Lemma GetFeatureBytes_bound (t : TypeInfo) (idx : nat) :
  idx < length (features t) -> idx / 8 < GetFeatureBytes t.
Proof.
  intros Hlt. unfold GetFeatureBytes.
  pose proof (Nat.div_mod_eq idx 8) as Hi.
  pose proof (Nat.div_mod_eq (length (features t)) 8) as Hn.
  pose proof (Nat.mod_upper_bound idx 8 ltac:(lia)) as Hib.
  pose proof (Nat.mod_upper_bound (length (features t)) 8 ltac:(lia)) as Hnb.
  destruct (length (features t) mod 8 =? 0)%nat eqn:Hz.
  - apply Nat.eqb_eq in Hz. lia.
  - lia.
Qed.

Lemma HasValue_SetType (t : TypeInfo) (idx : nat) :
  FeatureValueBuffer_HasValue idx (FeatureValueBuffer_SetType t) = false.
Proof.
  unfold FeatureValueBuffer_HasValue, FeatureValueBuffer_SetType. simpl.
  destruct (replicate (GetFeatureBytes t) 0%Z !! (idx / 8)%nat) as [v|] eqn:Hv;
    simpl; [|reflexivity].
  apply lookup_replicate in Hv as [-> _]. reflexivity.
Qed.

Lemma bit_set_test (k : nat) :
  k < 8 ->
  nonzero (Z.land (uint8 (Z.lor 0 (Z.shiftl 1 (Z.of_nat k))))
                  (Z.shiftl 1 (Z.of_nat k))) = true.
Proof.
  intros Hk.
  do 8 (destruct k as [|k]; [reflexivity|]). lia.
Qed.

(** Allocation in a buffer that was just bound to its type: the bit of
    the feature is set and the default object is constructed. *)
Lemma AllocateValue_SetType (t : TypeInfo) (idx : nat) (fi : FeatureInstance) o :
  features t !! idx = Some fi ->
  Feature_HasValue (feature fi) = true ->
  Feature_AllocateValue (feature fi) = Some o ->
  exists b,
    FeatureValueBuffer_AllocateValue idx (FeatureValueBuffer_SetType t) = Some b /\
    type b = t /\
    featureValueBuffer b = {[ offset fi := o ]} /\
    FeatureValueBuffer_HasValue idx b = true.
Proof.
  intros Hfi Hhas Ho.
  pose proof (lookup_lt_Some _ _ _ Hfi) as Hlt.
  unfold FeatureValueBuffer_AllocateValue.
  rewrite HasValue_SetType. unfold GetFeatureCount. simpl.
  rewrite (proj2 (Nat.ltb_lt _ _) Hlt). simpl.
  rewrite Hfi. simpl. rewrite Hhas, Ho.
  eexists. split; [done|]. simpl. split; [done|]. split; [by rewrite insert_empty|].
  unfold FeatureValueBuffer_HasValue. simpl.
  rewrite list_lookup_insert_eq.
  - simpl. rewrite lookup_replicate_2 by by apply GetFeatureBytes_bound.
    simpl. apply bit_set_test. apply Nat.mod_upper_bound. lia.
  - rewrite length_replicate. by apply GetFeatureBytes_bound.
Qed.

(** Allocation followed by a setter of the class of the object. *)
Lemma Allocate_set_SetType (t : TypeInfo) (idx : nat) (fi : FeatureInstance)
    (set : FeatureValue -> option FeatureValue) o o' :
  features t !! idx = Some fi ->
  Feature_HasValue (feature fi) = true ->
  Feature_AllocateValue (feature fi) = Some o ->
  set o = Some o' ->
  exists b,
    (b0 ← FeatureValueBuffer_AllocateValue idx (FeatureValueBuffer_SetType t);
     FeatureValueBuffer_setValue idx set b0) = Some b /\
    FeatureValueBuffer_GetValue idx b = Some o' /\
    FeatureValueBuffer_HasValue idx b = true.
Proof.
  intros Hfi Hhas Ho Hset.
  destruct (AllocateValue_SetType t idx fi o Hfi Hhas Ho)
    as (b0 & -> & Htype & Hstore & Hbit).
  simpl. unfold FeatureValueBuffer_setValue.
  rewrite Htype, Hfi. simpl. rewrite Hstore, lookup_singleton_eq. simpl.
  rewrite Hset. simpl.
  eexists. split; [done|].
  unfold FeatureValueBuffer_GetValue. simpl. rewrite Htype, Hfi. simpl.
  split; [by rewrite lookup_insert_eq|done].
Qed.

End BufferFacts.

(** ** The access feature *)

(** Splits a hypothesis [NoDup [x1; ...; xn]] into the inequalities
    between the elements. *)
Ltac nodup_inv H :=
  repeat (apply NoDup_cons in H as [? H]);
  repeat match goal with
         | Hn : _ ∉ _ :: _ |- _ => apply not_elem_of_cons in Hn as [? Hn]
         end.

(** Reduces a bit test on a combination of single-bit masks to
    comparisons of the bit positions and decides them from the equations
    and inequations between positions in the context. *)
Ltac solve_bits :=
  unfold or_mask, clear_mask;
  repeat first
    [ rewrite testbit_uint8 by lia
    | rewrite Z.lor_spec
    | rewrite Z.land_spec
    | rewrite Z.lnot_spec by lia
    | rewrite testbit_pow2 by lia
    | rewrite Z.bits_0 ];
  repeat match goal with
         | |- context [(?a =? ?b)%Z] =>
             destruct (Z.eqb_spec a b); try congruence
         end;
  simpl; try reflexivity.

Section AccessFacts.
Context `{D : Declarations}.

Lemma is_bit_spec (m : Z) :
  is_bit m = true -> exists k, (0 <= k < 8)%Z /\ m = (2 ^ k)%Z.
Proof.
  unfold is_bit. intros H. apply existsb_exists in H as (k & Hin & Hk).
  apply Z.eqb_eq in Hk. exists k. split; [|done].
  simpl in Hin. lia.
Qed.

(** The positions of the eight access bits. *)
Lemma AccessBits_positions :
  AccessBits_ok = true ->
  exists kff kfb kbf kbb kcf kcb kof kob,
    AccessBits = Z.pow 2 <$> [kff; kfb; kbf; kbb; kcf; kcb; kof; kob] /\
    Forall (fun k => 0 <= k < 8)%Z [kff; kfb; kbf; kbb; kcf; kcb; kof; kob] /\
    NoDup [kff; kfb; kbf; kbb; kcf; kcb; kof; kob].
Proof.
  unfold AccessBits_ok. intros [Hbits Hnd]%andb_true_iff.
  apply bool_decide_eq_true in Hnd.
  unfold AccessBits in *. simpl in Hbits.
  apply andb_true_iff in Hbits as [(kff & Hkff & Hff)%is_bit_spec Hbits].
  apply andb_true_iff in Hbits as [(kfb & Hkfb & Hfb)%is_bit_spec Hbits].
  apply andb_true_iff in Hbits as [(kbf & Hkbf & Hbf)%is_bit_spec Hbits].
  apply andb_true_iff in Hbits as [(kbb & Hkbb & Hbb)%is_bit_spec Hbits].
  apply andb_true_iff in Hbits as [(kcf & Hkcf & Hcf)%is_bit_spec Hbits].
  apply andb_true_iff in Hbits as [(kcb & Hkcb & Hcb)%is_bit_spec Hbits].
  apply andb_true_iff in Hbits as [(kof & Hkof & Hof)%is_bit_spec Hbits].
  apply andb_true_iff in Hbits as [(kob & Hkob & Hob)%is_bit_spec _].
  exists kff, kfb, kbf, kbb, kcf, kcb, kof, kob.
  assert ([footForward; footBackward; bicycleForward; bicycleBackward;
           carForward; carBackward; onewayForward; onewayBackward] =
          Z.pow 2 <$> [kff; kfb; kbf; kbb; kcf; kcb; kof; kob]) as Heq.
  { simpl. congruence. }
  split; [done|]. split; [repeat constructor; lia|].
  rewrite Heq in Hnd. by apply NoDup_fmap_1 in Hnd.
Qed.

(** A tag map with one entry has no value for the other tags of the
    feature. *)
Lemma AccessFeatureTags_singleton (t : AccessFeatureTags) (tag : N) (v : string) :
  NoDup (AccessFeatureTags_list t) ->
  tag ∈ AccessFeatureTags_list t ->
  Forall (fun tag' => ({[ tag := v ]} : gmap N string) !! tag' =
                      if bool_decide (tag' = tag) then Some v else None)
         (AccessFeatureTags_list t).
Proof.
  intros _ _. apply Forall_forall. intros tag' _.
  case_bool_decide as Heq.
  - subst. apply lookup_singleton_eq.
  - apply lookup_singleton_ne. congruence.
Qed.

(** The computed mask when the tag map holds the access tag only. *)
Lemma AccessFeature_access_only_access (t : AccessFeatureTags) (type : TypeInfo) (v : string) :
  NoDup (AccessFeatureTags_list t) ->
  AccessFeature_access t type {[ tagAccess t := v ]} =
  if negb (string_eq v "no")
  then Z.lor footForward (Z.lor footBackward (Z.lor bicycleForward
         (Z.lor bicycleBackward (Z.lor carForward carBackward))))
  else 0%Z.
Proof.
  intros Hnd. unfold AccessFeatureTags_list in Hnd. nodup_inv Hnd.
  unfold AccessFeature_access.
  rewrite lookup_singleton_eq.
  by rewrite !lookup_singleton_ne by done.
Qed.

(** The computed mask when the tag map holds the oneway tag only. *)
Lemma AccessFeature_access_only_oneway (t : AccessFeatureTags) (type : TypeInfo) (v : string) :
  NoDup (AccessFeatureTags_list t) ->
  AccessFeature_access t type {[ tagOneway t := v ]} =
  AccessFeature_oneway (Some v) None (AccessFeature_defaultAccess type).
Proof.
  intros Hnd. unfold AccessFeatureTags_list in Hnd. nodup_inv Hnd.
  unfold AccessFeature_access.
  rewrite lookup_singleton_eq.
  by rewrite !lookup_singleton_ne by done.
Qed.

(** The bits of the default mask of a type with all three routing flags
    and of the mask after [oneway=yes]; the masks are the bits at the
    given positions. *)
Lemma oneway_yes_bits (kff kfb kbf kbb kcf kcb kof kob : Z) :
  Forall (fun k => 0 <= k < 8)%Z [kff; kfb; kbf; kbb; kcf; kcb; kof; kob] ->
  NoDup [kff; kfb; kbf; kbb; kcf; kcb; kof; kob] ->
  let default :=
    or_mask (or_mask (or_mask 0 (Z.lor (2 ^ kff) (2 ^ kfb)))
               (Z.lor (2 ^ kbf) (2 ^ kbb)))
      (Z.lor (2 ^ kcf) (2 ^ kcb)) in
  let access :=
    or_mask (clear_mask default (Z.lor (2 ^ kbb) (Z.lor (2 ^ kcb) (2 ^ kob))))
      (2 ^ kof) in
  Z.testbit default kbb = true /\
  Z.testbit access kbb = false /\
  Z.testbit (uint8 access) kff = true /\
  Z.testbit (uint8 access) kfb = true /\
  Z.testbit (uint8 access) kbf = true /\
  Z.testbit (uint8 access) kcf = true /\
  Z.testbit (uint8 access) kbb = false /\
  Z.testbit (uint8 access) kcb = false.
Proof.
  intros Hrange Hnd.
  repeat match goal with
         | H : Forall _ (_ :: _) |- _ => apply Forall_cons in H as [? H]
         end.
  nodup_inv Hnd. cbv zeta.
  repeat apply conj; solve_bits.
Qed.

(** The outcome of [AccessFeature::Parse] on a buffer just bound to the
    type. *)
Lemma AccessFeature_Parse_SetType (t : AccessFeatureTags) (type : TypeInfo)
    (idx : nat) (fi : FeatureInstance) (tags : gmap N string) :
  (0 < sizeof_AccessFeatureValue)%N ->
  features type !! idx = Some fi -> feature fi = AccessFeature t ->
  exists b,
    AccessFeature_Parse t type idx tags (FeatureValueBuffer_SetType type) = Some b /\
    if (AccessFeature_access t type tags =? AccessFeature_defaultAccess type)%Z
    then b = FeatureValueBuffer_SetType type /\
         FeatureValueBuffer_HasValue idx b = false
    else FeatureValueBuffer_GetValue idx b =
           Some (AccessFeatureValue (uint8 (AccessFeature_access t type tags))) /\
         FeatureValueBuffer_HasValue idx b = true.
Proof.
  intros Hsize Hfi Hfeature. unfold AccessFeature_Parse.
  destruct (AccessFeature_access t type tags =? AccessFeature_defaultAccess type)%Z;
    simpl.
  - eexists. split; [done|]. split; [done|]. apply HasValue_SetType.
  - apply (Allocate_set_SetType type idx fi
             (SetAccess (AccessFeature_access t type tags))
             (AccessFeatureValue 0)
             (AccessFeatureValue (uint8 (AccessFeature_access t type tags)))).
    + done.
    + rewrite Hfeature. unfold Feature_HasValue. simpl. by apply N.ltb_lt.
    + by rewrite Hfeature.
    + done.
Qed.

(** C8.  On a buffer just bound to a type with the access feature at
    position [idx]: [Parse] stores a value exactly when the computed mask
    differs from the mask of the default routing flags of the type, and
    the value is the computed mask.  For a type with all three default
    routing flags, a tag map with only [access=no] stores the mask 0, in
    which all six permission bits are clear, and a tag map with only
    [oneway=yes] stores a mask with both foot bits and the forward
    bicycle and car bits set and the backward bicycle and car bits
    clear. *)
Theorem C8_AccessFeature_Parse (t : AccessFeatureTags) (type : TypeInfo)
    (idx : nat) (fi : FeatureInstance) :
  AccessBits_ok = true ->
  (0 < sizeof_AccessFeatureValue)%N ->
  NoDup (AccessFeatureTags_list t) ->
  features type !! idx = Some fi -> feature fi = AccessFeature t ->
  (forall tags, exists b,
     AccessFeature_Parse t type idx tags (FeatureValueBuffer_SetType type) = Some b /\
     if (AccessFeature_access t type tags =? AccessFeature_defaultAccess type)%Z
     then b = FeatureValueBuffer_SetType type /\
          FeatureValueBuffer_HasValue idx b = false
     else FeatureValueBuffer_GetValue idx b =
            Some (AccessFeatureValue (uint8 (AccessFeature_access t type tags))) /\
          FeatureValueBuffer_HasValue idx b = true) /\
  (canRouteFoot type = true -> canRouteBicycle type = true ->
   canRouteCar type = true ->
   (exists b,
      AccessFeature_Parse t type idx {[ tagAccess t := "no" ]}
        (FeatureValueBuffer_SetType type) = Some b /\
      FeatureValueBuffer_HasValue idx b = true /\
      FeatureValueBuffer_GetValue idx b = Some (AccessFeatureValue 0) /\
      Forall (fun m => Z.land 0 m = 0%Z)
        [footForward; footBackward; bicycleForward; bicycleBackward;
         carForward; carBackward]) /\
   (exists b v,
      AccessFeature_Parse t type idx {[ tagOneway t := "yes" ]}
        (FeatureValueBuffer_SetType type) = Some b /\
      FeatureValueBuffer_HasValue idx b = true /\
      FeatureValueBuffer_GetValue idx b = Some (AccessFeatureValue v) /\
      Z.land v footForward = footForward /\
      Z.land v footBackward = footBackward /\
      Z.land v bicycleForward = bicycleForward /\
      Z.land v carForward = carForward /\
      Z.land v bicycleBackward = 0%Z /\
      Z.land v carBackward = 0%Z)).
Proof.
  intros Hbits Hsize Hnd Hfi Hfeature.
  split; [intros tags; by eapply AccessFeature_Parse_SetType|].
  intros Hfoot Hbicycle Hcar.
  destruct (AccessBits_positions Hbits)
    as (kff & kfb & kbf & kbb & kcf & kcb & kof & kob & Hmasks & Hrange & Hdistinct).
  unfold AccessBits in Hmasks. simpl in Hmasks.
  injection Hmasks as Hff Hfb Hbf Hbb Hcf Hcb Hof Hob.
  destruct (oneway_yes_bits _ _ _ _ _ _ _ _ Hrange Hdistinct)
    as (Hdefault_bb & Haccess_bb & Hkff & Hkfb & Hkbf & Hkcf & Hkbb & Hkcb).
  assert (0 <= kff /\ 0 <= kfb /\ 0 <= kbf /\ 0 <= kbb /\ 0 <= kcf /\ 0 <= kcb)%Z
    as (? & ? & ? & ? & ? & ?).
  { repeat match goal with
           | H : Forall _ (_ :: _) |- _ => apply Forall_cons in H as [? H]
           end. lia. }
  clear Hrange Hdistinct Hbits.
  assert (AccessFeature_defaultAccess type =
          or_mask (or_mask (or_mask 0 (Z.lor footForward footBackward))
                     (Z.lor bicycleForward bicycleBackward))
            (Z.lor carForward carBackward)) as Hdefault.
  { unfold AccessFeature_defaultAccess. by rewrite Hfoot, Hbicycle, Hcar. }
  split.
  - destruct (AccessFeature_Parse_SetType t type idx fi {[ tagAccess t := "no" ]}
                Hsize Hfi Hfeature) as (b & Hb & Hres).
    rewrite AccessFeature_access_only_access in Hres by done.
    change (negb (string_eq "no" "no")) with false in Hres. cbv iota in Hres.
    destruct (Z.eqb_spec 0 (AccessFeature_defaultAccess type)) as [Hz|_].
    { rewrite Hdefault, Hff, Hfb, Hbf, Hbb, Hcf, Hcb in Hz.
      rewrite <- Hz, Z.bits_0 in Hdefault_bb. discriminate. }
    destruct Hres as [Hvalue Hpresent].
    exists b. split; [done|]. split; [done|]. split; [done|].
    repeat constructor.
  - destruct (AccessFeature_Parse_SetType t type idx fi {[ tagOneway t := "yes" ]}
                Hsize Hfi Hfeature) as (b & Hb & Hres).
    rewrite AccessFeature_access_only_oneway in Hres by done.
    unfold AccessFeature_oneway in Hres.
    change (string_eq "yes" "-1") with false in Hres.
    change (negb (string_eq "yes" "no" || string_eq "yes" "false" ||
                  string_eq "yes" "0")) with true in Hres.
    cbv iota in Hres.
    rewrite Hdefault, Hff, Hfb, Hbf, Hbb, Hcf, Hcb, Hof, Hob in Hres.
    match type of Hres with
    | if (?a =? ?d)%Z then _ else _ =>
        destruct (Z.eqb_spec a d) as [Heq|_]
    end.
    { rewrite Heq in Haccess_bb. congruence. }
    destruct Hres as [Hvalue Hpresent].
    eexists b, _. split; [done|]. split; [done|]. split; [exact Hvalue|].
    rewrite Hff, Hfb, Hbf, Hbb, Hcf, Hcb.
    rewrite !land_pow2 by done.
    by rewrite Hkff, Hkfb, Hkbf, Hkcf, Hkbb, Hkcb.
Qed.

End AccessFacts.


(** C8 on the sample road type: [access=no] stores the mask 0. *)
Lemma C8_witness :
  exists b,
    AccessFeature_Parse sample_access_tags sample_road 0
      {[ tagAccess sample_access_tags := "no" ]}
      (FeatureValueBuffer_SetType sample_road) = Some b /\
    FeatureValueBuffer_GetValue 0 b = Some (AccessFeatureValue 0).
Proof.
  destruct (C8_AccessFeature_Parse sample_access_tags sample_road 0
              {| feature := AccessFeature sample_access_tags; offset := 0 |})
    as [_ Hflags].
  - vm_compute. reflexivity.
  - vm_compute. reflexivity.
  - apply (bool_decide_unpack _). vm_compute. exact I.
  - vm_compute. reflexivity.
  - reflexivity.
  - destruct Hflags as [(b & Hparse & _ & Hvalue & _) _].
    + vm_compute. reflexivity.
    + vm_compute. reflexivity.
    + vm_compute. reflexivity.
    + exists b. split; [exact Hparse|exact Hvalue].
Defined.

(** ** The width feature *)

Lemma Width_out_of_range_never (w : Q) : Width_out_of_range w = false.
Proof.
  unfold Width_out_of_range.
  destruct (Qle_bool 0 w) eqn:H0; [done|].
  destruct (Qle_bool w (511 # 2)) eqn:H1; [done|]. exfalso.
  assert (~ (0 <= w)%Q) as Hn0 by (rewrite <- Qle_bool_iff; congruence).
  assert (~ (w <= 511 # 2)%Q) as Hn1 by (rewrite <- Qle_bool_iff; congruence).
  apply Qnot_le_lt in Hn0, Hn1.
  apply (Qlt_irrefl w). eapply Qlt_trans; [exact Hn0|].
  eapply Qlt_trans; [|exact Hn1]. reflexivity.
Qed.

(** C7, the code at the inputs of the claim.  The range test of
    [WidthFeature::Parse] holds for no number.  [2,5m] stores 3 and [abc]
    gives a warning and no value, as claimed; but [300] and [-3], which
    are out of range, give no warning and store a value. *)
Theorem C7_WidthFeature_Parse_range_check :
  (forall w : Q, Width_out_of_range w = false) /\
  sample_width "2,5m" = Some ([], Some (WidthFeatureValue 3), true) /\
  sample_width "abc" =
    Some (["Width tag value 'abc' for Way 1 is no double!"], None, false) /\
  sample_width "300" = Some ([], Some (WidthFeatureValue 44), true) /\
  sample_width "-3" = Some ([], Some (WidthFeatureValue 253), true).
Proof.
  split; [apply Width_out_of_range_never|].
  repeat apply conj; vm_compute; reflexivity.
Qed.

(** ** Loading a truncated data file *)

(** C3, the code at a file that ends inside a name tag entry.  The read
    of the priority fails, and the load goes on with the entry all the
    same: on return the tag [name:en] is registered with id 34 and is a
    name tag of priority 0, although the configuration did not know the
    tag before.  The call returns [false] only because the next read
    fails, too. *)
Theorem C3_LoadFromDataFile_short_read_continues (garbage : N) :
  GetTagId "name:en" sample_fresh = tagIgnore /\
  sample_short_load garbage = Some (false, 34%N, Some 0%N).
Proof.
  split; vm_compute; reflexivity.
Qed.

(** ** Round trip of the stream primitives *)

Lemma decode_encode_number (fuel : nat) (n : N) (rest : list Z) :
  (n < 2 ^ N.of_nat fuel)%N ->
  decode_number (encode_number fuel n ++ rest) = Some (n, rest).
Proof.
  revert n. induction fuel as [|fuel IH]; intros n Hn.
  - simpl in Hn. assert (n = 0%N) as -> by lia. reflexivity.
  - simpl encode_number. destruct (n <? 128)%N eqn:Hsmall.
    + apply N.ltb_lt in Hsmall. simpl.
      rewrite (proj2 (Z.ltb_lt _ _)) by lia. by rewrite N2Z.id.
    + apply N.ltb_ge in Hsmall.
      change ((Z.of_N (n mod 128 + 128) :: encode_number fuel (n / 128)) ++ rest)
        with (Z.of_N (n mod 128 + 128) :: (encode_number fuel (n / 128) ++ rest)).
      cbn [decode_number].
      pose proof (N.div_mod n 128 ltac:(lia)) as Hdm.
      revert Hdm. generalize (n mod 128)%N. intros m Hdm.
      rewrite (proj2 (Z.ltb_ge (Z.of_N (m + 128)) 128)) by lia.
      rewrite IH.
      * rewrite N2Z.id. f_equal. f_equal. lia.
      * apply N.Div0.div_lt_upper_bound.
        rewrite Nat2N.inj_succ, N.pow_succ_r' in Hn. lia.
Qed.

Lemma decode_number_bytes (n : N) (rest : list Z) :
  decode_number (number_bytes n ++ rest) = Some (n, rest).
Proof.
  unfold number_bytes. apply decode_encode_number.
  rewrite N2Nat.id. apply N.size_gt.
Qed.

Lemma length_list_ascii_of_string (s : string) :
  length (String.list_ascii_of_string s) = String.length s.
Proof. induction s as [|a s IH]; simpl; [done|by rewrite IH]. Qed.

Lemma decode_string_bytes (s : string) (rest : list Z) :
  decode_string (string_bytes s ++ rest) = Some (s, rest).
Proof.
  unfold decode_string, string_bytes. rewrite <- app_assoc, decode_number_bytes.
  rewrite Nat2N.id.
  set (chars := map (fun a => Z.of_N (Ascii.N_of_ascii a)) (String.list_ascii_of_string s)).
  assert (length chars = String.length s) as Hlen.
  { unfold chars. by rewrite length_map, length_list_ascii_of_string. }
  rewrite (proj2 (Nat.ltb_ge _ _)) by (rewrite length_app; lia).
  rewrite take_app_length', drop_app_length' by done.
  f_equal. f_equal. unfold chars. rewrite map_map.
  rewrite <- (String.string_of_list_ascii_of_string s) at 2. f_equal.
  rewrite <- (map_id (String.list_ascii_of_string s)) at 2.
  apply map_ext. intros a.
  pose proof (Ascii.N_ascii_bounded a) as Hb.
  rewrite uint8_small by lia. rewrite N2Z.id. apply Ascii.ascii_N_embedding.
Qed.

(** A signed byte written as [uint8_t] and read back as [int8_t]. *)
Lemma int8_of_uint8 (v : Z) :
  (-128 <= v < 128)%Z ->
  (if (uint8 v <? 128)%Z then uint8 v else (uint8 v - 256)%Z) = v.
Proof.
  intros Hv. unfold uint8.
  destruct (Z.lt_ge_cases v 0) as [Hneg|Hpos].
  - assert (v mod 256 = v + 256)%Z as ->.
    { rewrite <- (Z.mod_add v 1 256) by lia. apply Z.mod_small. lia. }
    destruct (Z.ltb_spec (v + 256) 128); lia.
  - rewrite Z.mod_small by lia. destruct (Z.ltb_spec v 128); lia.
Qed.

(** What a read does on a scanner without error whose input starts with
    an encoded value. *)
Lemma FileScanner_get_ok {A} (decode : list Z -> option (A * list Z))
    (l rest : list Z) (a : A) :
  decode l = Some (a, rest) ->
  FileScanner_get decode {| input := l; scanner_hasError := false |} =
  (Some a, {| input := rest; scanner_hasError := false |}).
Proof. intros H. unfold FileScanner_get. simpl. by rewrite H. Qed.

Lemma FileWriter_put_ok (bytes : list Z) (w : FileWriter) :
  writer_hasError w = false ->
  FileWriter_put bytes w =
  (true, {| written := written w ++ bytes; writer_hasError := false |}).
Proof. intros H. unfold FileWriter_put. by rewrite H. Qed.

(** Round trip of one value through [Feature::Write] and
    [Feature::Read]. *)
Lemma Feature_Write_ok (f : Feature) (v : FeatureValue) (w : FileWriter) :
  value_ok f v = true ->
  writer_hasError w = false ->
  Feature_Write f w (Some v) =
  Some (true, {| written := written w ++ FeatureValue_bytes v;
                 writer_hasError := false |}).
Proof.
  intros Hok Hw.
  destruct f, v; try discriminate Hok; simpl;
    unfold FileWriter_Write_string, FileWriter_Write_uint8;
    rewrite ?FileWriter_put_ok by done; try done.
  simpl. by rewrite app_assoc.
Qed.

Lemma Feature_Read_ok (f : Feature) (v o : FeatureValue) (rest : list Z) :
  value_ok f v = true ->
  Feature_AllocateValue f = Some o ->
  Feature_Read f {| input := FeatureValue_bytes v ++ rest; scanner_hasError := false |} o =
  Some (true, v, {| input := rest; scanner_hasError := false |}).
Proof.
  intros Hok Ho.
  destruct f, v; try discriminate Hok; injection Ho as <-; simpl;
    unfold FileScanner_Read_string, FileScanner_Read_uint8, FileScanner_Read_int8.
  - by rewrite (FileScanner_get_ok _ _ rest name0 (decode_string_bytes _ _)).
  - by rewrite (FileScanner_get_ok _ _ rest nameAlt (decode_string_bytes _ _)).
  - by rewrite (FileScanner_get_ok _ _ rest ref (decode_string_bytes _ _)).
  - rewrite <- app_assoc.
    rewrite (FileScanner_get_ok _ _ _ location (decode_string_bytes _ _)).
    by rewrite (FileScanner_get_ok _ _ rest address (decode_string_bytes _ _)).
  - apply andb_true_iff in Hok as [?%Z.leb_le ?%Z.ltb_lt].
    by rewrite !uint8_idemp, uint8_small.
  - apply andb_true_iff in Hok as [?%Z.leb_le ?%Z.ltb_lt].
    by rewrite uint8_idemp, int8_of_uint8.
  - apply andb_true_iff in Hok as [?%Z.leb_le ?%Z.ltb_lt].
    by rewrite !uint8_idemp, uint8_small.
  - apply andb_true_iff in Hok as [?%Z.leb_le ?%Z.ltb_lt].
    by rewrite !uint8_idemp, uint8_small.
  - apply andb_true_iff in Hok as [?%Z.leb_le ?%Z.ltb_lt].
    by rewrite !uint8_idemp, uint8_small.
Qed.

(** ** Round trip of a feature value buffer *)

Section BufferRoundTrip.
Context `{D : Declarations}.

Lemma laid_out_step l i a c :
  (0 < alignment)%N -> laid_out l ->
  l !! i = Some a -> l !! S i = Some c ->
  (offset a + Feature_GetValueSize (feature a) <= offset c)%N.
Proof.
  intros Hpos Hl Ha Hc. rewrite (laid_out_next _ _ _ _ Hl Ha Hc).
  by apply round_up_spec.
Qed.

Lemma laid_out_monotone l :
  (0 < alignment)%N -> laid_out l ->
  forall n i a c, l !! i = Some a -> l !! (i + n)%nat = Some c ->
                  (offset a <= offset c)%N.
Proof.
  intros Hpos Hl. induction n as [|n IH]; intros i a c Ha Hc.
  - rewrite Nat.add_0_r in Hc. assert (a = c) as -> by congruence. lia.
  - destruct (lookup_lt_is_Some_2 l (S i)) as [m Hm].
    { apply lookup_lt_Some in Hc. lia. }
    pose proof (laid_out_step _ _ _ _ Hpos Hl Ha Hm).
    assert (offset m <= offset c)%N.
    { apply (IH (S i)); [done|]. by replace (S i + n)%nat with (i + S n)%nat by lia. }
    lia.
Qed.

Lemma laid_out_increasing l :
  (0 < alignment)%N -> laid_out l -> payload_offsets_increasing l.
Proof.
  intros Hpos Hl i j a c Hij Ha Hc Hpayload.
  destruct (lookup_lt_is_Some_2 l (S i)) as [m Hm].
  { apply lookup_lt_Some in Hc. lia. }
  pose proof (laid_out_step _ _ _ _ Hpos Hl Ha Hm).
  assert (offset m <= offset c)%N.
  { apply (laid_out_monotone l Hpos Hl (j - S i) (S i)); [done|].
    by replace (S i + (j - S i))%nat with j by lia. }
  unfold Feature_HasValue in Hpayload. apply N.ltb_lt in Hpayload. lia.
Qed.

(** The first loop of [Write] emits the presence bits. *)
Lemma Write_featureBits_ok (b : FeatureValueBuffer) (mid pre post : list Z) (w : FileWriter) :
  featureBits b = pre ++ mid ++ post ->
  Forall (fun v => 0 <= v < 256)%Z mid ->
  writer_hasError w = false ->
  Write_featureBits (length mid) (length pre) b w =
  Some (Continue {| written := written w ++ mid; writer_hasError := false |}).
Proof.
  revert pre w. induction mid as [|m mid IH]; intros pre w Hbits Hrange Hw.
  - simpl. rewrite app_nil_r. by destruct w; simpl in *; subst.
  - apply Forall_cons in Hrange as [Hm Hrange].
    simpl in Hbits. simpl. rewrite Hbits, list_lookup_middle by done. simpl.
    unfold FileWriter_Write_uint8. rewrite FileWriter_put_ok by done.
    rewrite uint8_small by done.
    replace (S (length pre)) with (length (pre ++ [m])) by (rewrite length_app; simpl; lia).
    rewrite IH; simpl; [|by rewrite <- app_assoc|done|done].
    by rewrite <- app_assoc.
Qed.

(** The first loop of [Read] reads them back. *)
Lemma Read_featureBits_ok (l mid pre post : list Z) (b : FeatureValueBuffer) (rest : list Z) :
  featureBits b = pre ++ mid ++ post ->
  length mid = length l ->
  Forall (fun v => 0 <= v < 256)%Z l ->
  Read_featureBits (length l) (length pre) b
    {| input := l ++ rest; scanner_hasError := false |} =
  Continue (FeatureValueBuffer_set_featureBits (pre ++ l ++ post) b,
            {| input := rest; scanner_hasError := false |}).
Proof.
  revert mid pre b. induction l as [|v l IH]; intros mid pre b Hbits Hlen Hrange.
  - destruct mid; [|done]. simpl in *. rewrite <- Hbits. by destruct b.
  - destruct mid as [|m mid]; [done|].
    apply Forall_cons in Hrange as [Hv Hrange].
    simpl. rewrite uint8_small by done.
    replace (S (length pre)) with (length (pre ++ [v])) by (rewrite length_app; simpl; lia).
    rewrite (IH mid (pre ++ [v])); simpl.
    + by rewrite <- !app_assoc.
    + rewrite Hbits. rewrite <- (Nat.add_0_r (length pre)), insert_app_r. simpl.
      by rewrite <- app_assoc.
    + simpl in Hlen. lia.
    + done.
Qed.

(** A value of the class of a feature shows that the feature constructs
    an object. *)
Lemma value_ok_AllocateValue (f : Feature) (v : FeatureValue) :
  value_ok f v = true -> exists o, Feature_AllocateValue f = Some o.
Proof. destruct f, v; try discriminate; simpl; eauto. Qed.

(** The second loop of [Write] emits the payloads in feature order. *)
Lemma Write_features_ok (b : FeatureValueBuffer) (fs pre : list FeatureInstance)
    (w : FileWriter) :
  buffer_ok b ->
  features (type b) = pre ++ fs ->
  writer_hasError w = false ->
  Write_features fs (length pre) b w =
  Some (Continue {| written := written w ++ payload_bytes b fs (length pre);
                    writer_hasError := false |}).
Proof.
  intros (_ & _ & Hvalues). revert pre w.
  induction fs as [|fi fs IH]; intros pre w Hfs Hw.
  - simpl. rewrite app_nil_r. by destruct w; simpl in *; subst.
  - assert (features (type b) !! length pre = Some fi) as Hfi.
    { rewrite Hfs. by apply list_lookup_middle. }
    assert (features (type b) = (pre ++ [fi]) ++ fs) as Hfs'
      by by rewrite <- app_assoc.
    assert (S (length pre) = length (pre ++ [fi])) as Hlen
      by (rewrite length_app; simpl; lia).
    simpl. fold (has_payload b (length pre) fi).
    destruct (has_payload b (length pre) fi) eqn:Hpayload.
    + destruct (Hvalues _ _ Hfi Hpayload) as (v & Hv & Hok).
      unfold FeatureValueBuffer_GetValue. rewrite Hfi. simpl. rewrite Hv.
      rewrite Feature_Write_ok by done. simpl.
      rewrite Hlen, IH by done. simpl. by rewrite <- app_assoc.
    + rewrite Hlen, IH by done. done.
Qed.

(** The second loop of [Read] constructs the values again.  [b'] is the
    buffer that is read into: it has the type and, after the first loop,
    the presence bits of the written buffer [b]. *)
Lemma Read_features_ok (b : FeatureValueBuffer) (fs pre : list FeatureInstance)
    (b' : FeatureValueBuffer) (rest : list Z) :
  buffer_ok b ->
  payload_offsets_increasing (features (type b)) ->
  features (type b) = pre ++ fs ->
  type b' = type b -> featureBits b' = featureBits b ->
  exists b'',
    Read_features fs (length pre) b'
      {| input := payload_bytes b fs (length pre) ++ rest;
         scanner_hasError := false |} =
    Some (Continue (b'', {| input := rest; scanner_hasError := false |})) /\
    type b'' = type b /\ featureBits b'' = featureBits b /\
    (forall o,
       (forall k fi, fs !! k = Some fi ->
                     has_payload b (length pre + k) fi = true -> offset fi <> o) ->
       featureValueBuffer b'' !! o = featureValueBuffer b' !! o) /\
    (forall k fi, fs !! k = Some fi ->
                  has_payload b (length pre + k) fi = true ->
                  featureValueBuffer b'' !! offset fi =
                  featureValueBuffer b !! offset fi).
Proof.
  intros Hb Hincr. pose proof Hb as (_ & _ & Hvalues).
  revert pre b'. induction fs as [|fi fs IH]; intros pre b' Hfs Htype Hbits.
  - exists b'. simpl. split; [done|]. split; [done|]. split; [done|].
    split; [done|]. intros k fi Hk. by destruct k.
  - assert (features (type b) !! length pre = Some fi) as Hfi.
    { rewrite Hfs. by apply list_lookup_middle. }
    assert (features (type b) = (pre ++ [fi]) ++ fs) as Hfs'
      by by rewrite <- app_assoc.
    assert (S (length pre) = length (pre ++ [fi])) as Hlen
      by (rewrite length_app; simpl; lia).
    assert (forall idx fi', has_payload b' idx fi' = has_payload b idx fi') as Hsame.
    { intros idx fi'. unfold has_payload, FeatureValueBuffer_HasValue.
      by rewrite Hbits. }
    simpl. fold (has_payload b' (length pre) fi). rewrite Hsame.
    fold (has_payload b (length pre) fi).
    destruct (has_payload b (length pre) fi) eqn:Hpayload.
    + destruct (Hvalues _ _ Hfi Hpayload) as (v & Hv & Hok).
      destruct (value_ok_AllocateValue _ _ Hok) as [o Ho].
      rewrite Hv, Ho. simpl. rewrite <- app_assoc.
      rewrite (Feature_Read_ok _ v o) by done.
      rewrite Hlen.
      destruct (IH (pre ++ [fi])
                  (FeatureValueBuffer_set_featureValueBuffer
                     (<[offset fi := v]> (featureValueBuffer b')) b'))
        as (b'' & Hread & Htype'' & Hbits'' & Hframe & Hvals); [done..|].
      exists b''. split; [done|]. split; [done|]. split; [done|].
      rewrite <- Hlen in Hframe, Hvals. split.
      * intros o' Ho'. rewrite Hframe.
        -- simpl. rewrite lookup_insert_ne; [done|].
           apply (Ho' 0%nat fi); [done|]. by rewrite Nat.add_0_r.
        -- intros k fi' Hk Hp. apply (Ho' (S k) fi'); [done|].
           by replace (length pre + S k)%nat with (S (length pre) + k)%nat by lia.
      * intros [|k] fi' Hk Hp.
        -- injection Hk as <-. rewrite Hframe.
           ++ simpl. by rewrite lookup_insert_eq.
           ++ intros k fi' Hk Hp' Heq.
              assert (offset fi < offset fi')%N; [|lia].
              apply (Hincr (length pre) (S (length pre) + k)%nat); [lia|done| |].
              ** rewrite Hfs'. rewrite lookup_app_r by (rewrite Hlen; lia).
                 by replace (S (length pre) + k - length (pre ++ [fi]))%nat
                   with k by (rewrite <- Hlen; lia).
              ** unfold has_payload in Hpayload.
                 by apply andb_true_iff in Hpayload as [_ ?].
        -- apply (Hvals k fi'); [done|].
           by replace (S (length pre) + k)%nat with (length pre + S k)%nat by lia.
    + rewrite Hlen.
      destruct (IH (pre ++ [fi]) b') as (b'' & Hread & Htype'' & Hbits'' & Hframe & Hvals);
        [done..|].
      exists b''. split; [done|]. split; [done|]. split; [done|].
      rewrite <- Hlen in Hframe, Hvals. split.
      * intros o Ho'. apply Hframe.
        intros k fi' Hk Hp. apply (Ho' (S k) fi'); [done|].
        by replace (length pre + S k)%nat with (S (length pre) + k)%nat by lia.
      * intros [|k] fi' Hk Hp.
        -- injection Hk as <-. rewrite Nat.add_0_r in Hp. congruence.
        -- apply (Hvals k fi'); [done|].
           by replace (S (length pre) + k)%nat with (length pre + S k)%nat by lia.
Qed.

Lemma offsets_laid_out_spec (l : list FeatureInstance) :
  offsets_laid_out l = true -> laid_out l.
Proof.
  unfold offsets_laid_out. rewrite forallb_forall. intros Hall i fi Hi.
  apply N.eqb_eq. apply (Hall (i, fi)).
  apply list_elem_of_In. by apply (elem_of_lookup_imap_2 pair).
Qed.

Lemma buffer_populated_spec (b : FeatureValueBuffer) :
  buffer_populated b = true -> buffer_ok b.
Proof.
  unfold buffer_populated, buffer_ok.
  rewrite !andb_true_iff, Nat.eqb_eq, !forallb_forall.
  intros [[Hlen Hrange] Hvalues]. split; [done|]. split.
  - apply Forall_forall. intros v Hv%list_elem_of_In%Hrange.
    apply andb_true_iff in Hv as [?%Z.leb_le ?%Z.ltb_lt]. lia.
  - intros idx fi Hfi Hpayload.
    assert (In (idx, fi) (imap pair (features (type b)))) as Hin.
    { apply list_elem_of_In. by apply (elem_of_lookup_imap_2 pair). }
    apply Hvalues in Hin. simpl in Hin. rewrite Hpayload in Hin.
    destruct (featureValueBuffer b !! offset fi) as [v|]; [|done]. by exists v.
Qed.

Lemma FeatureValue_eq_refl (v : FeatureValue) : FeatureValue_eq v v = true.
Proof.
  destruct v; simpl; unfold string_eq;
    rewrite ?String.eqb_refl, ?Z.eqb_refl; done.
Qed.

(** C2.  For a populated buffer whose type was built by [AddFeature]:
    [Write] on a writer without error succeeds and appends the presence
    bits followed by the payloads of the present features in the order of
    the feature list; [Read] of these bytes into a fresh buffer bound to
    the same type succeeds, consumes exactly these bytes, yields the same
    presence bits and, for every present feature with a payload, a value
    equal to the written one. *)
Theorem C2_FeatureValueBuffer_roundtrip (b : FeatureValueBuffer)
    (writer : FileWriter) (rest : list Z) :
  (0 < alignment)%N ->
  offsets_laid_out (features (type b)) = true ->
  buffer_populated b = true ->
  writer_hasError writer = false ->
  FeatureValueBuffer_Write b writer =
    Some (true, {| written := written writer ++ buffer_bytes b;
                   writer_hasError := false |}) /\
  exists b',
    FeatureValueBuffer_Read (FeatureValueBuffer_SetType (type b))
      {| input := buffer_bytes b ++ rest; scanner_hasError := false |} =
    Some (true, b', {| input := rest; scanner_hasError := false |}) /\
    type b' = type b /\
    featureBits b' = featureBits b /\
    (forall idx, FeatureValueBuffer_HasValue idx b' = FeatureValueBuffer_HasValue idx b) /\
    (forall idx fi,
       features (type b) !! idx = Some fi ->
       has_payload b idx fi = true ->
       exists v v',
         FeatureValueBuffer_GetValue idx b = Some v /\
         FeatureValueBuffer_GetValue idx b' = Some v' /\
         v' = v /\ FeatureValue_eq v' v = true).
Proof.
  intros Hpos Hlaid%offsets_laid_out_spec Hb%buffer_populated_spec Hw.
  pose proof Hb as (Hlen & Hrange & Hvalues).
  pose proof (laid_out_increasing _ Hpos Hlaid) as Hincr.
  split.
  - unfold FeatureValueBuffer_Write, buffer_bytes. rewrite <- Hlen.
    rewrite (Write_featureBits_ok b (featureBits b) [] []);
      [|by rewrite app_nil_r|done|done].
    simpl.
    rewrite (Write_features_ok b (features (type b)) []); [|done|done|done].
    simpl. by rewrite app_assoc.
  - unfold FeatureValueBuffer_Read, buffer_bytes.
    change (type (FeatureValueBuffer_SetType (type b))) with (type b).
    rewrite <- Hlen, <- app_assoc.
    rewrite (Read_featureBits_ok (featureBits b)
               (replicate (length (featureBits b)) 0%Z) [] []);
      [|simpl; by rewrite app_nil_r, Hlen|by rewrite length_replicate|done].
    simpl. rewrite app_nil_r.
    destruct (Read_features_ok b (features (type b)) []
                (FeatureValueBuffer_set_featureBits (featureBits b)
                   (FeatureValueBuffer_SetType (type b)))
                rest Hb Hincr)
      as (b' & Hread & Htype & Hbits & _ & Hvals); [done..|].
    simpl in Hread. rewrite Hread.
    exists b'. split; [done|]. split; [done|]. split; [done|]. split.
    + intros idx. unfold FeatureValueBuffer_HasValue. by rewrite Hbits.
    + intros idx fi Hfi Hpayload.
      destruct (Hvalues _ _ Hfi Hpayload) as (v & Hv & _).
      exists v, v. unfold FeatureValueBuffer_GetValue.
      rewrite Htype, Hfi. simpl.
      rewrite (Hvals idx fi Hfi Hpayload), Hv.
      split; [done|]. split; [done|]. split; [done|]. apply FeatureValue_eq_refl.
Qed.

End BufferRoundTrip.

(** C2 on the sample buffer: access mask 87 and width 3 are written as
    the presence byte 3 followed by the two payload bytes, and read
    back. *)
Lemma C2_witness :
  FeatureValueBuffer_Write sample_buffer {| written := []; writer_hasError := false |} =
    Some (true, {| written := [3; 87; 3]%Z; writer_hasError := false |}) /\
  exists b',
    FeatureValueBuffer_Read (FeatureValueBuffer_SetType (type sample_buffer))
      {| input := [3; 87; 3]%Z; scanner_hasError := false |} =
    Some (true, b', {| input := []; scanner_hasError := false |}) /\
    FeatureValueBuffer_GetValue 1 b' = Some (WidthFeatureValue 3).
Proof.
  destruct (C2_FeatureValueBuffer_roundtrip sample_buffer
              {| written := []; writer_hasError := false |} [])
    as (Hwrite & b' & Hread & _ & _ & _ & Hvalues).
  - vm_compute. reflexivity.
  - vm_compute. reflexivity.
  - vm_compute. reflexivity.
  - reflexivity.
  - assert (buffer_bytes sample_buffer = [3; 87; 3]%Z) as Hbytes
      by (vm_compute; reflexivity).
    rewrite Hbytes in Hwrite, Hread.
    split; [exact Hwrite|].
    exists b'. split; [exact Hread|].
    destruct (Hvalues 1%nat {| feature := WidthFeature 6%N; offset := 16%N |})
      as (v & v' & Hv & Hv' & -> & _).
    + vm_compute. reflexivity.
    + vm_compute. reflexivity.
    + rewrite Hv'. rewrite <- Hv. vm_compute. reflexivity.
Defined.

(** * Further properties *)

Section LookupFacts.
Context `{D : Declarations}.

Lemma GetRelationTypeId_conditions_spec mask type conds tagMap :
  GetRelationTypeId_conditions mask type conds tagMap =
  if existsb (fun cond => nonzero (Z.land (cond_types cond) mask) &&
                          Evaluate (cond_condition cond) tagMap) conds
  then Some (id type) else None.
Proof.
  induction conds as [|cond rest IH]; [done|]. simpl.
  destruct (nonzero (Z.land (cond_types cond) mask)); simpl; [|done].
  by destruct (Evaluate (cond_condition cond) tagMap).
Qed.

Lemma GetRelationTypeId_types_spec can mask ts tagMap :
  GetRelationTypeId_types can mask ts tagMap =
  id <$> find (relation_type_matches can mask tagMap) ts.
Proof.
  induction ts as [|t rest IH]; [done|]. simpl.
  unfold relation_type_matches at 1.
  rewrite GetRelationTypeId_conditions_spec.
  destruct (HasConditions t); simpl; [|done].
  destruct (can t); simpl; [|done].
  by destruct (existsb _ _).
Qed.

(** X1.  [GetRelationTypeId] on tags: the result is the id of the first
    type, in registration order, that matches; for a relation tagged
    [type=multipolygon] only types that can be areas and their
    area-scoped conditions count, for every other relation only types
    that can be relations and their relation-scoped conditions.  The empty
    tag map, or no match, gives [false] and the ignore id. *)
Theorem X1_GetRelationTypeId_first_match (tagType : TagId)
    (tagMap : gmap N string) (c : TypeConfig) :
  (tagMap = ∅ -> GetRelationTypeId tagType tagMap c = (false, typeIgnore)) /\
  (tagMap <> ∅ -> is_multipolygon tagType tagMap = true ->
     GetRelationTypeId tagType tagMap c =
     match find (relation_type_matches canBeArea typeArea tagMap) (types c) with
     | Some t => (true, id t)
     | None => (false, typeIgnore)
     end) /\
  (tagMap <> ∅ -> is_multipolygon tagType tagMap = false ->
     GetRelationTypeId tagType tagMap c =
     match find (relation_type_matches canBeRelation typeRelation tagMap) (types c) with
     | Some t => (true, id t)
     | None => (false, typeIgnore)
     end) /\
  (forall i, GetRelationTypeId tagType tagMap c = (true, i) ->
     exists t cond,
       t ∈ types c /\ id t = i /\ cond ∈ conditions t /\
       Evaluate (cond_condition cond) tagMap = true /\
       if is_multipolygon tagType tagMap
       then canBeArea t = true /\ nonzero (Z.land (cond_types cond) typeArea) = true
       else canBeRelation t = true /\
            nonzero (Z.land (cond_types cond) typeRelation) = true).
Proof.
  assert (forall can mask t,
            find (relation_type_matches can mask tagMap) (types c) = Some t ->
            exists cond,
              t ∈ types c /\ cond ∈ conditions t /\
              Evaluate (cond_condition cond) tagMap = true /\
              can t = true /\ nonzero (Z.land (cond_types cond) mask) = true)
    as Hfind.
  { intros can mask t Ht. apply find_some in Ht as [Hin Hm].
    unfold relation_type_matches in Hm.
    apply andb_true_iff in Hm as [[_ Hcan]%andb_true_iff Hex].
    apply existsb_exists in Hex as (cond & Hcond & [Hmask Hev]%andb_true_iff).
    exists cond. by rewrite !list_elem_of_In. }
  unfold GetRelationTypeId, is_multipolygon.
  split; [intros ->; by rewrite bool_decide_eq_true_2|].
  split; [|split].
  - intros Hne Hmp. rewrite bool_decide_eq_false_2 by done.
    destruct (tagMap !! tagType) as [second|]; [|done]. rewrite Hmp.
    rewrite GetRelationTypeId_types_spec. by destruct (find _ _).
  - intros Hne Hmp. rewrite bool_decide_eq_false_2 by done.
    destruct (tagMap !! tagType) as [second|]; [rewrite Hmp|];
      rewrite GetRelationTypeId_types_spec; by destruct (find _ _).
  - intros i. case_bool_decide as Hempty; [done|].
    destruct (tagMap !! tagType) as [second|];
      [destruct (string_eq second "multipolygon")|];
      rewrite GetRelationTypeId_types_spec;
      destruct (find _ _) as [t|] eqn:Ht; simpl; try done;
      intros [= <-]; destruct (Hfind _ _ _ Ht) as (cond & ? & ? & ? & ? & ?);
      by exists t, cond.
Qed.

Lemma AddFeature_flags f t t' :
  AddFeature f t = Some t' ->
  id t' = id t /\ canBeNode t' = canBeNode t /\ canBeWay t' = canBeWay t /\
  canBeArea t' = canBeArea t /\ canBeRelation t' = canBeRelation t /\
  forall n, n ∈ featureSet t -> n ∈ featureSet t'.
Proof.
  unfold AddFeature. destruct f as [f|]; [|done].
  case_bool_decide; [done|]. intros [= <-]. simpl.
  repeat (split; [done|]). intros n Hn. apply elem_of_union. by right.
Qed.

(** X2.  [AddTypeInfo] of a type with a new name, and the lookups by
    name: the type keeps a non-zero id and gets the next free id
    otherwise, it is appended to the list of types, [GetTypeId] of its
    name gives its id, the lookups restricted to a kind give the id when
    the type can be of that kind and the ignore id when not, the id map
    leads to the type, a type that can be a node or an area has the
    address feature (when the feature map holds the address feature under
    its name), and the lookups of every other name are as before. *)
Theorem X2_AddTypeInfo_lookup (typeInfo typeInfo' : TypeInfo) (c c' : TypeConfig) :
  nameToTypeMap c !! name typeInfo = None ->
  AddTypeInfo typeInfo c = Some (typeInfo', c') ->
  id typeInfo' = (if (id typeInfo =? 0)%N then nextTypeId c else id typeInfo) /\
  name typeInfo' = name typeInfo /\
  types c' = types c ++ [typeInfo'] /\
  idToTypeMap c' !! id typeInfo' = Some typeInfo' /\
  GetTypeId (name typeInfo) c' = id typeInfo' /\
  GetNodeTypeId (name typeInfo) c' =
    (if canBeNode typeInfo then id typeInfo' else typeIgnore) /\
  GetWayTypeId (name typeInfo) c' =
    (if canBeWay typeInfo then id typeInfo' else typeIgnore) /\
  GetAreaTypeId (name typeInfo) c' =
    (if canBeArea typeInfo then id typeInfo' else typeIgnore) /\
  GetRelationTypeId_name (name typeInfo) c' =
    (if canBeRelation typeInfo then id typeInfo' else typeIgnore) /\
  (canBeArea typeInfo || canBeNode typeInfo = true ->
     (forall f, GetFeature "Address" c = Some f -> Feature_GetName f = "Address") ->
     HasFeature "Address" typeInfo' = true) /\
  (forall n, n <> name typeInfo ->
     GetTypeId n c' = GetTypeId n c /\
     GetNodeTypeId n c' = GetNodeTypeId n c /\
     GetWayTypeId n c' = GetWayTypeId n c /\
     GetAreaTypeId n c' = GetAreaTypeId n c /\
     GetRelationTypeId_name n c' = GetRelationTypeId_name n c).
Proof.
  intros Hnew. unfold AddTypeInfo. rewrite Hnew.
  destruct (if (canBeArea typeInfo || canBeNode typeInfo) &&
               negb (HasFeature "Address" typeInfo)
            then AddFeature (GetFeature "Address" c) typeInfo
            else Some typeInfo) as [t1|] eqn:Ht1; [|done].
  assert (name t1 = name typeInfo /\ id t1 = id typeInfo /\
          canBeNode t1 = canBeNode typeInfo /\ canBeWay t1 = canBeWay typeInfo /\
          canBeArea t1 = canBeArea typeInfo /\
          canBeRelation t1 = canBeRelation typeInfo /\
          (canBeArea typeInfo || canBeNode typeInfo = true ->
           (forall f, GetFeature "Address" c = Some f ->
                      Feature_GetName f = "Address") ->
           HasFeature "Address" t1 = true))
    as (Hname & Hid & Hn & Hw & Ha & Hr & Haddr).
  { destruct ((canBeArea typeInfo || canBeNode typeInfo) &&
              negb (HasFeature "Address" typeInfo)) eqn:Hadd.
    - pose proof (AddFeature_name _ _ _ Ht1) as Hname.
      pose proof (AddFeature_flags _ _ _ Ht1) as (Hid & Hn & Hw & Ha & Hr & _).
      repeat (split; [done|]). intros _ Hkey.
      revert Ht1. unfold AddFeature, HasFeature.
      destruct (GetFeature "Address" c) as [f|] eqn:Hf; [|done].
      rewrite (Hkey f eq_refl).
      case_bool_decide; [done|]. intros [= <-]. simpl.
      apply bool_decide_eq_true_2. apply elem_of_union. left.
      by apply elem_of_singleton.
    - injection Ht1 as <-. repeat (split; [done|]). intros Hcan _.
      rewrite Hcan in Hadd. simpl in Hadd. by apply negb_false_iff in Hadd. }
  simpl. unfold GetTypeId, GetNodeTypeId, GetWayTypeId, GetAreaTypeId,
    GetRelationTypeId_name.
  destruct (id t1 =? 0)%N eqn:Hzero; intros [= <- <-]; simpl;
    rewrite <- ?Hid, ?Hzero, ?Hname, !lookup_insert_eq; simpl;
    rewrite ?Hn, ?Hw, ?Ha, ?Hr;
    repeat apply conj; try done;
    intros n Hn'; by rewrite !lookup_insert_ne.
Qed.

(** Membership in a set that a loop over the types fills. *)
Lemma foldl_insert_if (f : gset N -> TypeInfo -> gset N) (p : TypeInfo -> bool)
    (l : list TypeInfo) (s : gset N) (i : N) :
  (forall acc t, f acc t = if p t then {[ id t ]} ∪ acc else acc) ->
  i ∈ foldl f s l <-> i ∈ s \/ exists t, t ∈ l /\ id t = i /\ p t = true.
Proof.
  intros Hf. revert s. induction l as [|t l IH]; intros s; simpl.
  - split; [by left|]. intros [?|(t & Ht & _)]; [done|]. by apply elem_of_nil in Ht.
  - rewrite IH, Hf. split.
    + intros [Hin|(t' & Ht' & Hid & Hp)].
      * destruct (p t) eqn:Hp; [|by left].
        apply elem_of_union in Hin as [->%elem_of_singleton|Hin]; [|by left].
        right. exists t. split; [apply list_elem_of_here|done].
      * right. exists t'. split; [by apply list_elem_of_further|done].
    + intros [Hin|(t' & Ht' & Hid & Hp)].
      * left. destruct (p t); [|done]. apply elem_of_union. by right.
      * apply elem_of_cons in Ht' as [->|Ht'].
        -- left. rewrite Hp. apply elem_of_union. left. by apply elem_of_singleton.
        -- right. by exists t'.
Qed.

(** X3.  [GetAreaTypes] and [GetWayTypes] add to the set they are given:
    afterwards it holds what it held before and the ids of the types that
    can be areas (ways), except the ignore id and the types flagged
    [ignore]. *)
Theorem X3_GetAreaTypes_GetWayTypes (c : TypeConfig) (types0 : gset N) (i : N) :
  (i ∈ GetAreaTypes c types0 <->
   i ∈ types0 \/
   exists t, t ∈ types c /\ id t = i /\
             i <> typeIgnore /\ ignore t = false /\ canBeArea t = true) /\
  (i ∈ GetWayTypes c types0 <->
   i ∈ types0 \/
   exists t, t ∈ types c /\ id t = i /\
             i <> typeIgnore /\ ignore t = false /\ canBeWay t = true).
Proof.
  split.
  - unfold GetAreaTypes.
    rewrite (foldl_insert_if _
               (fun t => negb (id t =? typeIgnore)%N && negb (ignore t) && canBeArea t));
      [|intros acc t; by destruct (id t =? typeIgnore)%N, (ignore t), (canBeArea t)].
    apply or_iff_compat_l. split; intros (t & Ht & <- & Hp); exists t.
    + apply andb_true_iff in Hp as [[Hid%negb_true_iff Hig%negb_true_iff]%andb_true_iff Hcan].
      apply N.eqb_neq in Hid. done.
    + destruct Hp as (Hid%N.eqb_neq & -> & ->). by rewrite Hid.
  - unfold GetWayTypes.
    rewrite (foldl_insert_if _
               (fun t => negb (id t =? typeIgnore)%N && negb (ignore t) && canBeWay t));
      [|intros acc t; by destruct (id t =? typeIgnore)%N, (ignore t), (canBeWay t)].
    apply or_iff_compat_l. split; intros (t & Ht & <- & Hp); exists t.
    + apply andb_true_iff in Hp as [[Hid%negb_true_iff Hig%negb_true_iff]%andb_true_iff Hcan].
      apply N.eqb_neq in Hid. done.
    + destruct Hp as (Hid%N.eqb_neq & -> & ->). by rewrite Hid.
Qed.

(** X4.  [GetRoutables] and the three [GetIndexAs...Types] functions
    clear the set they are given: afterwards it holds the ids of the types
    with the flag in question and nothing else, whatever it held before;
    the ignore id and types flagged [ignore] are not left out. *)
Theorem X4_GetRoutables_GetIndexAs (c : TypeConfig) (types0 : gset N) (i : N) :
  (i ∈ GetRoutables c types0 <->
   exists t, t ∈ types c /\ id t = i /\
             canRouteFoot t || canRouteBicycle t || canRouteCar t = true) /\
  (i ∈ GetIndexAsLocationTypes c types0 <->
   exists t, t ∈ types c /\ id t = i /\ indexAsLocation t = true) /\
  (i ∈ GetIndexAsRegionTypes c types0 <->
   exists t, t ∈ types c /\ id t = i /\ indexAsRegion t = true) /\
  (i ∈ GetIndexAsPOITypes c types0 <->
   exists t, t ∈ types c /\ id t = i /\ indexAsPOI t = true).
Proof.
  assert (forall P : Prop, i ∈ (∅ : gset N) \/ P <-> P) as Hempty.
  { intros P. split; [|by right]. intros [H|H]; [|done].
    by apply elem_of_empty in H. }
  unfold GetRoutables, GetIndexAsLocationTypes, GetIndexAsRegionTypes,
    GetIndexAsPOITypes.
  split; [|split; [|split]].
  - rewrite (foldl_insert_if _
               (fun t => canRouteFoot t || canRouteBicycle t || canRouteCar t))
      by done.
    apply Hempty.
  - rewrite (foldl_insert_if _ indexAsLocation) by done. apply Hempty.
  - rewrite (foldl_insert_if _ indexAsRegion) by done. apply Hempty.
  - rewrite (foldl_insert_if _ indexAsPOI) by done. apply Hempty.
Qed.

End LookupFacts.

Section AllocateFacts.
Context `{D : Declarations}.

Lemma nonzero_land_bit (v : Z) (k : nat) :
  nonzero (Z.land v (Z.shiftl 1 (Z.of_nat k))) = Z.testbit v (Z.of_nat k).
Proof.
  rewrite Z.shiftl_1_l, land_pow2 by lia. unfold nonzero.
  destruct (Z.testbit v (Z.of_nat k)); [|done].
  apply negb_true_iff, Z.eqb_neq.
  pose proof (Z.pow_pos_nonneg 2 (Z.of_nat k)). lia.
Qed.

Lemma HasValue_testbit (idx : nat) (b : FeatureValueBuffer) :
  FeatureValueBuffer_HasValue idx b =
  Z.testbit (default 0%Z (featureBits b !! (idx / 8))) (Z.of_nat (idx mod 8)).
Proof. apply nonzero_land_bit. Qed.

Lemma index_split (i j : nat) : i / 8 = j / 8 -> i mod 8 = j mod 8 -> i = j.
Proof.
  intros Hd Hm. rewrite (Nat.div_mod_eq i 8), (Nat.div_mod_eq j 8). lia.
Qed.

(** The presence bits after bit [idx] was set. *)
Lemma set_bit_test (bits : list Z) (idx j : nat) :
  idx / 8 < length bits ->
  Z.testbit
    (default 0%Z
       (<[idx / 8 := uint8 (Z.lor (default 0%Z (bits !! (idx / 8)))
                                  (Z.shiftl 1 (Z.of_nat (idx mod 8))))]> bits
        !! (j / 8)))
    (Z.of_nat (j mod 8)) =
  if decide (j = idx) then true
  else Z.testbit (default 0%Z (bits !! (j / 8))) (Z.of_nat (j mod 8)).
Proof.
  intros Hlen. pose proof (Nat.mod_upper_bound j 8 ltac:(lia)) as Hj.
  destruct (decide (j / 8 = idx / 8)) as [Hd|Hd].
  - rewrite Hd, list_lookup_insert_eq by done. simpl.
    rewrite testbit_uint8, Z.lor_spec, Z.shiftl_1_l, testbit_pow2 by lia.
    case_decide as Heq.
    + subst j. rewrite Z.eqb_refl. apply orb_true_r.
    + rewrite (proj2 (Z.eqb_neq _ _)); [apply orb_false_r|].
      intros Hm. apply Heq, index_split; [done|lia].
  - rewrite list_lookup_insert_ne by done.
    case_decide as Heq; [|done]. by subst j.
Qed.

(** The presence bits after bit [idx] was cleared. *)
Lemma clear_bit_test (bits : list Z) (idx j : nat) :
  idx / 8 < length bits ->
  Z.testbit
    (default 0%Z
       (<[idx / 8 := uint8 (Z.land (default 0%Z (bits !! (idx / 8)))
                                   (Z.lnot (Z.shiftl 1 (Z.of_nat (idx mod 8)))))]> bits
        !! (j / 8)))
    (Z.of_nat (j mod 8)) =
  if decide (j = idx) then false
  else Z.testbit (default 0%Z (bits !! (j / 8))) (Z.of_nat (j mod 8)).
Proof.
  intros Hlen. pose proof (Nat.mod_upper_bound j 8 ltac:(lia)) as Hj.
  destruct (decide (j / 8 = idx / 8)) as [Hd|Hd].
  - rewrite Hd, list_lookup_insert_eq by done. simpl.
    rewrite testbit_uint8, Z.land_spec, Z.lnot_spec, Z.shiftl_1_l, testbit_pow2 by lia.
    case_decide as Heq.
    + subst j. rewrite Z.eqb_refl. apply andb_false_r.
    + rewrite (proj2 (Z.eqb_neq _ _)); [apply andb_true_r|].
      intros Hm. apply Heq, index_split; [done|lia].
  - rewrite list_lookup_insert_ne by done.
    case_decide as Heq; [|done]. by subst j.
Qed.

(** Clearing a bit that was set on a byte in which it was clear gives the
    byte back. *)
Lemma set_clear_byte (x : Z) (k : nat) :
  (0 <= x < 256)%Z -> k < 8 -> Z.testbit x (Z.of_nat k) = false ->
  uint8 (Z.land (uint8 (Z.lor x (Z.shiftl 1 (Z.of_nat k))))
                (Z.lnot (Z.shiftl 1 (Z.of_nat k)))) = x.
Proof.
  intros Hx Hk Hbit.
  assert (forall n, (0 <= n)%Z ->
            Z.testbit (Z.land (uint8 (Z.lor x (Z.shiftl 1 (Z.of_nat k))))
                              (Z.lnot (Z.shiftl 1 (Z.of_nat k)))) n =
            Z.testbit x n) as Hbits.
  { intros n Hn.
    rewrite Z.land_spec, Z.lnot_spec, Z.shiftl_1_l, testbit_pow2 by lia.
    destruct (Z.of_nat k =? n)%Z eqn:Hkn.
    - apply Z.eqb_eq in Hkn. subst n. by rewrite Hbit, andb_false_r.
    - rewrite andb_true_r. destruct (Z.lt_ge_cases n 8).
      + rewrite testbit_uint8, Z.lor_spec, testbit_pow2 by lia.
        by rewrite Hkn, orb_false_r.
      + unfold uint8. change 256%Z with (2 ^ 8)%Z.
        rewrite Z.mod_pow2_bits_high by lia. symmetry.
        apply Z.bits_above_log2; [lia|].
        destruct (decide (x = 0%Z)) as [->|]; [simpl; lia|].
        apply Z.log2_lt_pow2; [lia|]. 
        eapply Z.lt_le_trans; [apply Hx|].
        change 256%Z with (2 ^ 8)%Z. apply Z.pow_le_mono_r; lia. }
  rewrite uint8_small.
  - apply Z.bits_inj'. exact Hbits.
  - assert (Z.land (uint8 (Z.lor x (Z.shiftl 1 (Z.of_nat k))))
                   (Z.lnot (Z.shiftl 1 (Z.of_nat k))) = x) as ->; [|done].
    apply Z.bits_inj'. exact Hbits.
Qed.

(** What [AllocateValue] does to a buffer in which the feature is not
    present. *)
Lemma AllocateValue_spec (idx : nat) (fi : FeatureInstance) (b : FeatureValueBuffer) :
  features (type b) !! idx = Some fi ->
  length (featureBits b) = GetFeatureBytes (type b) ->
  FeatureValueBuffer_HasValue idx b = false ->
  exists b',
    FeatureValueBuffer_AllocateValue idx b = Some b' /\
    type b' = type b /\
    featureBits b' =
      <[idx / 8 := uint8 (Z.lor (default 0%Z (featureBits b !! (idx / 8)))
                                (Z.shiftl 1 (Z.of_nat (idx mod 8))))]> (featureBits b) /\
    (forall j, FeatureValueBuffer_HasValue j b' =
               if decide (j = idx) then true else FeatureValueBuffer_HasValue j b) /\
    featureValueBuffer b' =
      match Feature_AllocateValue (feature fi) with
      | Some o => if Feature_HasValue (feature fi)
                  then <[offset fi := o]> (featureValueBuffer b)
                  else featureValueBuffer b
      | None => featureValueBuffer b
      end.
Proof.
  intros Hfi Hlen Hno.
  assert (idx / 8 < length (featureBits b)) as Hbyte.
  { rewrite Hlen. apply GetFeatureBytes_bound. by eapply lookup_lt_Some. }
  unfold FeatureValueBuffer_AllocateValue, GetFeatureCount.
  rewrite (proj2 (Nat.ltb_lt _ _)) by (by eapply lookup_lt_Some).
  rewrite Hno. simpl. rewrite Hfi. simpl.
  assert (forall b0 : FeatureValueBuffer,
            featureBits b0 =
              <[idx / 8 := uint8 (Z.lor (default 0%Z (featureBits b !! (idx / 8)))
                                        (Z.shiftl 1 (Z.of_nat (idx mod 8))))]>
                (featureBits b) ->
            forall j, FeatureValueBuffer_HasValue j b0 =
                      if decide (j = idx) then true
                      else FeatureValueBuffer_HasValue j b) as Hbits.
  { intros b0 Hb0 j. rewrite !HasValue_testbit, Hb0. by apply set_bit_test. }
  destruct (Feature_HasValue (feature fi)) eqn:Hpay;
    [destruct (Feature_AllocateValue (feature fi)) as [o|] eqn:Ho|];
    eexists; (split; [reflexivity|]); simpl;
    (split; [done|]); (split; [done|]); (split; [by apply Hbits|]); try done.
  by destruct (Feature_AllocateValue (feature fi)).
Qed.

(** X5.  [AllocateValue] and [FreeValue] on a buffer in which feature
    [idx] is not present and its slot is empty: [AllocateValue] sets the
    presence bit of [idx] and no other; allocating a second time and
    freeing what is not present run into the assertion; [FreeValue]
    after [AllocateValue] gives the buffer back as it was. *)
Theorem X5_AllocateValue_FreeValue (idx : nat) (fi : FeatureInstance)
    (b : FeatureValueBuffer) :
  features (type b) !! idx = Some fi ->
  length (featureBits b) = GetFeatureBytes (type b) ->
  Forall (fun v => 0 <= v < 256)%Z (featureBits b) ->
  FeatureValueBuffer_HasValue idx b = false ->
  featureValueBuffer b !! offset fi = None ->
  exists b1,
    FeatureValueBuffer_AllocateValue idx b = Some b1 /\
    FeatureValueBuffer_HasValue idx b1 = true /\
    (forall j, j <> idx ->
       FeatureValueBuffer_HasValue j b1 = FeatureValueBuffer_HasValue j b) /\
    (Feature_HasValue (feature fi) = true ->
       FeatureValueBuffer_GetValue idx b1 = Feature_AllocateValue (feature fi) /\
       is_Some (FeatureValueBuffer_GetValue idx b1)) /\
    FeatureValueBuffer_AllocateValue idx b1 = None /\
    FeatureValueBuffer_FreeValue idx b = None /\
    FeatureValueBuffer_FreeValue idx b1 = Some b.
Proof.
  intros Hfi Hlen Hrange Hno Hslot.
  destruct (AllocateValue_spec idx fi b Hfi Hlen Hno)
    as (b1 & Halloc & Htype & Hbits & Hhas & Hstore).
  assert (idx < length (features (type b))) as Hidx by (by eapply lookup_lt_Some).
  assert (idx / 8 < length (featureBits b)) as Hbyte.
  { rewrite Hlen. by apply GetFeatureBytes_bound. }
  assert (FeatureValueBuffer_HasValue idx b1 = true) as Hset.
  { rewrite Hhas. by rewrite decide_True. }
  exists b1. split; [done|]. split; [done|]. split.
  { intros j Hj. rewrite Hhas. by rewrite decide_False. }
  split.
  { intros Hpay. unfold FeatureValueBuffer_GetValue. rewrite Htype, Hfi. simpl.
    rewrite Hstore, Hpay.
    assert (is_Some (Feature_AllocateValue (feature fi))) as [o Ho].
    { revert Hpay. unfold Feature_HasValue.
      destruct (feature fi); simpl; try done; by eexists. }
    rewrite Ho, lookup_insert_eq. split; [done|by eexists]. }
  split.
  { unfold FeatureValueBuffer_AllocateValue, GetFeatureCount.
    rewrite Htype, (proj2 (Nat.ltb_lt _ _)) by done. simpl. by rewrite Hset. }
  split.
  { unfold FeatureValueBuffer_FreeValue, GetFeatureCount.
    rewrite (proj2 (Nat.ltb_lt _ _)) by done. simpl. by rewrite Hno. }
  unfold FeatureValueBuffer_FreeValue, GetFeatureCount.
  rewrite Htype, (proj2 (Nat.ltb_lt _ _)) by done. simpl. rewrite Hset. simpl.
  rewrite Htype, Hfi. simpl.
  assert (<[idx / 8 := uint8 (Z.land (default 0%Z (featureBits b1 !! (idx / 8)))
                                     (Z.lnot (Z.shiftl 1 (Z.of_nat (idx mod 8)))))]>
            (featureBits b1) = featureBits b) as Hback.
  { rewrite Hbits, list_lookup_insert_eq by done. simpl.
    rewrite list_insert_insert_eq.
    destruct (lookup_lt_is_Some_2 _ _ Hbyte) as [x Hx]. rewrite Hx. simpl.
    apply list_insert_id. rewrite Hx. f_equal. symmetry.
    apply set_clear_byte.
    - by eapply (Forall_lookup_1 _ _ _ _ Hrange).
    - apply Nat.mod_upper_bound. lia.
    - rewrite HasValue_testbit, Hx in Hno. exact Hno. }
  rewrite Hback.
  destruct b as [t bits store]. simpl in *.
  destruct (Feature_HasValue (feature fi)) eqn:Hpay; unfold
    FeatureValueBuffer_set_featureValueBuffer, FeatureValueBuffer_set_featureBits;
    simpl; rewrite Htype, Hstore; f_equal; f_equal.
  - destruct (Feature_AllocateValue (feature fi)).
    + by rewrite delete_insert_eq, delete_id.
    + by rewrite delete_id.
  - by destruct (Feature_AllocateValue (feature fi)).
Qed.

Lemma AllocateValue_stored (idx : nat) (fi : FeatureInstance) (b : FeatureValueBuffer) :
  features (type b) !! idx = Some fi ->
  length (featureBits b) = GetFeatureBytes (type b) ->
  FeatureValueBuffer_HasValue idx b = false ->
  FeatureValueBuffer_AllocateValue idx b =
  Some (stored idx fi (if Feature_HasValue (feature fi)
                       then Feature_AllocateValue (feature fi) else None) b).
Proof.
  intros Hfi Hlen Hno.
  unfold FeatureValueBuffer_AllocateValue, GetFeatureCount.
  rewrite (proj2 (Nat.ltb_lt _ _)) by (by eapply lookup_lt_Some).
  rewrite Hno. simpl. rewrite Hfi. simpl.
  destruct (Feature_HasValue (feature fi)); [|done].
  by destruct (Feature_AllocateValue (feature fi)).
Qed.

Lemma setValue_stored (idx : nat) (fi : FeatureInstance) (b : FeatureValueBuffer)
    (set : FeatureValue -> option FeatureValue) (o v : FeatureValue) :
  features (type b) !! idx = Some fi ->
  set o = Some v ->
  FeatureValueBuffer_setValue idx set (stored idx fi (Some o) b) =
  Some (stored idx fi (Some v) b).
Proof.
  intros Hfi Hset.
  unfold FeatureValueBuffer_setValue. simpl. rewrite Hfi. simpl.
  rewrite lookup_insert_eq. simpl. rewrite Hset. simpl.
  unfold FeatureValueBuffer_set_featureValueBuffer, stored. simpl.
  by rewrite insert_insert_eq.
Qed.

Lemma Allocate_set_stored (idx : nat) (fi : FeatureInstance) (b : FeatureValueBuffer)
    (set : FeatureValue -> option FeatureValue) (o v : FeatureValue) :
  features (type b) !! idx = Some fi ->
  length (featureBits b) = GetFeatureBytes (type b) ->
  FeatureValueBuffer_HasValue idx b = false ->
  Feature_HasValue (feature fi) = true ->
  Feature_AllocateValue (feature fi) = Some o ->
  set o = Some v ->
  (b1 ← FeatureValueBuffer_AllocateValue idx b;
   FeatureValueBuffer_setValue idx set b1) = Some (stored idx fi (Some v) b).
Proof.
  intros Hfi Hlen Hno Hpay Ho Hset.
  rewrite (AllocateValue_stored idx fi b Hfi Hlen Hno), Hpay, Ho. simpl.
  unfold FeatureValueBuffer_setValue. simpl. rewrite Hfi. simpl.
  rewrite lookup_insert_eq. simpl. rewrite Hset. simpl.
  unfold FeatureValueBuffer_set_featureValueBuffer, stored. simpl.
  by rewrite insert_insert_eq.
Qed.

End AllocateFacts.

Section ParseFacts.
Context `{D : Declarations}.
Variable StringToNumber_int8 : string -> option Z.

Lemma Feature_Parse_outcome (idx : nat) (fi : FeatureInstance) (c : TypeConfig)
    (object : string) (tags : gmap N string) (progress : list string)
    (b : FeatureValueBuffer) :
  features (type b) !! idx = Some fi ->
  length (featureBits b) = GetFeatureBytes (type b) ->
  FeatureValueBuffer_HasValue idx b = false ->
  match Feature_AllocateValue (feature fi) with
  | Some _ => Feature_HasValue (feature fi)
  | None => true
  end = true ->
  Feature_Parse StringToNumber_int8 (feature fi) c object (type b) idx tags progress b =
  Some (progress ++ (Feature_outcome StringToNumber_int8 (feature fi) c object (type b) tags).1,
        match (Feature_outcome StringToNumber_int8 (feature fi) c object (type b) tags).2 with
        | None => b
        | Some v => stored idx fi v b
        end).
Proof.
  intros Hfi Hlen Hno Hsize.
  pose proof (fun set o v => Allocate_set_stored idx fi b set o v Hfi Hlen Hno) as Hset.
  pose proof (AllocateValue_stored idx fi b Hfi Hlen Hno) as Halloc.
  pose proof (fun set o v => setValue_stored idx fi b set o v Hfi) as Hput.
  destruct (feature fi)
    as [| |tagRef|tagAddrHouseNr tagAddrStreet|ts|tagLayer|tagWidth|tagMaxSpeed
        |tagSurface tagTrackType|tagBridge|tagTunnel|tagRoundabout] eqn:Hf;
    simpl in Hsize; simpl.
  - unfold NameFeature_Parse.
    destruct (Name_loop _ _ _) as [name prio]. simpl.
    destruct (string_eq name ""); simpl; [by rewrite app_nil_r|].
    rewrite (Hset _ (NameFeatureValue "") (NameFeatureValue name)) by done.
    simpl. by rewrite app_nil_r.
  - unfold NameAltFeature_Parse.
    destruct (Name_loop _ _ _) as [name prio]. simpl.
    destruct (string_eq name ""); simpl; [by rewrite app_nil_r|].
    rewrite (Hset _ (NameAltFeatureValue "") (NameAltFeatureValue name)) by done.
    simpl. by rewrite app_nil_r.
  - unfold RefFeature_Parse.
    destruct (tags !! tagRef) as [v|]; simpl; [|by rewrite app_nil_r].
    destruct (string_eq v ""); simpl; [by rewrite app_nil_r|].
    rewrite (Hset _ (RefFeatureValue "") (RefFeatureValue v)) by done.
    simpl. by rewrite app_nil_r.
  - unfold AddressFeature_Parse.
    destruct (tags !! tagAddrStreet) as [street|]; simpl; [|by rewrite app_nil_r].
    destruct (tags !! tagAddrHouseNr) as [houseNr|]; simpl; [|by rewrite app_nil_r].
    destruct (string_eq street ""), (string_eq houseNr ""); simpl;
      try by rewrite app_nil_r.
    rewrite (Hset _ (AddressFeatureValue "" "") (AddressFeatureValue street houseNr))
      by done.
    simpl. by rewrite app_nil_r.
  - unfold AccessFeature_Parse.
    destruct (_ =? _)%Z; simpl; [by rewrite app_nil_r|].
    rewrite (Hset _ (AccessFeatureValue 0)
               (AccessFeatureValue (uint8 (AccessFeature_access ts (type b) tags))))
      by done.
    simpl. by rewrite app_nil_r.
  - unfold LayerFeature_Parse.
    destruct (tags !! tagLayer) as [v|]; simpl; [|by rewrite app_nil_r].
    destruct (StringToNumber_int8 v) as [layer|]; simpl; [|done].
    destruct (layer =? 0)%Z; simpl; [by rewrite app_nil_r|].
    rewrite Halloc, Hsize. simpl.
    rewrite (Hput _ _ (LayerFeatureValue layer)) by done.
    simpl. by rewrite app_nil_r.
  - unfold WidthFeature_Parse.
    destruct (tags !! tagWidth) as [v|]; simpl; [|by rewrite app_nil_r].
    destruct (StringToNumber_double _) as [w|]; simpl; [|done].
    destruct (Width_out_of_range w); simpl; [done|].
    rewrite Halloc, Hsize. simpl.
    rewrite (Hput _ _ (WidthFeatureValue (uint8 (Qfloor (Qplus w (1 # 2)))))) by done.
    simpl. by rewrite app_nil_r.
  - unfold MaxSpeedFeature_Parse.
    destruct (tags !! tagMaxSpeed) as [v|]; simpl; [|by rewrite app_nil_r].
    destruct (string_eq v "signals"); simpl; [by rewrite app_nil_r|].
    destruct (string_eq v "none"); simpl; [by rewrite app_nil_r|].
    destruct (string_eq v "walk"); simpl.
    { rewrite Halloc, Hsize. simpl.
      rewrite (Hput _ _ (MaxSpeedFeatureValue 10)) by done.
      simpl. by rewrite app_nil_r. }
    destruct (MaxSpeed_normalize v) as [valueString isMph]. simpl.
    destruct (StringToNumber_size_t valueString) as [n|]; simpl; [|done].
    rewrite Halloc, Hsize. simpl.
    rewrite (Hput _ _ (MaxSpeedFeatureValue (uint8 (MaxSpeed_value n isMph)))) by done.
    simpl. by rewrite app_nil_r.
  - unfold GradeFeature_Parse, GradeFeature_Parse_surface.
    destruct (tags !! tagTrackType) as [v|]; simpl.
    + destruct (Grade_of_tracktype v) as [grade|]; simpl.
      * rewrite Halloc, Hsize. simpl.
        rewrite (Hput _ _ (GradeFeatureValue (uint8 grade))) by done.
        simpl. by rewrite app_nil_r.
      * destruct (tags !! tagSurface) as [s|]; simpl; [|done].
        destruct (GetGradeForSurface s c) as [grade|]; simpl.
        -- rewrite Halloc, Hsize. simpl.
           by rewrite (Hput _ _ (GradeFeatureValue (uint8 (Z.of_N grade)))) by done.
        -- by rewrite <- app_assoc.
    + destruct (tags !! tagSurface) as [s|]; simpl; [|by rewrite app_nil_r].
      destruct (GetGradeForSurface s c) as [grade|]; simpl; [|done].
      rewrite Halloc, Hsize. simpl.
      rewrite (Hput _ _ (GradeFeatureValue (uint8 (Z.of_N grade)))) by done.
      simpl. by rewrite app_nil_r.
  - unfold BridgeFeature_Parse.
    destruct (tags !! tagBridge) as [v|]; simpl; [|by rewrite app_nil_r].
    destruct (string_eq v "no" || string_eq v "false" || string_eq v "0"); simpl;
      [by rewrite app_nil_r|].
    rewrite Halloc. simpl. by rewrite app_nil_r.
  - unfold BridgeFeature_Parse.
    destruct (tags !! tagTunnel) as [v|]; simpl; [|by rewrite app_nil_r].
    destruct (string_eq v "no" || string_eq v "false" || string_eq v "0"); simpl;
      [by rewrite app_nil_r|].
    rewrite Halloc. simpl. by rewrite app_nil_r.
  - unfold RoundaboutFeature_Parse.
    destruct (tags !! tagRoundabout) as [v|]; simpl; [|by rewrite app_nil_r].
    destruct (string_eq v "roundabout"); simpl; [|by rewrite app_nil_r].
    rewrite Halloc. simpl. by rewrite app_nil_r.
Qed.

Lemma stored_HasValue (idx j : nat) (fi : FeatureInstance) (v : option FeatureValue)
    (b : FeatureValueBuffer) :
  idx / 8 < length (featureBits b) ->
  FeatureValueBuffer_HasValue j (stored idx fi v b) =
  if decide (j = idx) then true else FeatureValueBuffer_HasValue j b.
Proof. intros Hlen. rewrite !HasValue_testbit. by apply set_bit_test. Qed.

Lemma Feature_outcome_value (f : Feature) c object type tags (v : FeatureValue) :
  (Feature_outcome StringToNumber_int8 f c object type tags).2 = Some (Some v) ->
  is_Some (Feature_AllocateValue f).
Proof.
  destruct f; simpl; try (by eexists); intros Hv;
    repeat case_match; simplify_eq.
Qed.

Lemma Parse_features_ok (c : TypeConfig) (object : string) (tags : gmap N string)
    (t : TypeInfo) :
  (0 < alignment)%N -> laid_out (features t) -> value_sizes_ok t = true ->
  forall fs pre progress b,
    features t = pre ++ fs -> type b = t ->
    length (featureBits b) = GetFeatureBytes t ->
    (forall j, length pre <= j -> FeatureValueBuffer_HasValue j b = false) ->
    exists b',
      Parse_features StringToNumber_int8 fs (length pre) c object tags progress b =
      Some (progress ++
              concat (map (fun fi =>
                             (Feature_outcome StringToNumber_int8 (feature fi) c
                                object t tags).1) fs), b') /\
      type b' = t /\
      (forall j, j < length pre ->
         FeatureValueBuffer_HasValue j b' = FeatureValueBuffer_HasValue j b) /\
      (forall j fi, j < length pre -> features t !! j = Some fi ->
         Feature_HasValue (feature fi) = true ->
         featureValueBuffer b' !! offset fi = featureValueBuffer b !! offset fi) /\
      (forall k fi, fs !! k = Some fi ->
         FeatureValueBuffer_HasValue (length pre + k) b' =
           bool_decide (is_Some (Feature_outcome StringToNumber_int8 (feature fi) c
                                   object t tags).2) /\
         (forall v,
            (Feature_outcome StringToNumber_int8 (feature fi) c object t tags).2 =
              Some (Some v) ->
            featureValueBuffer b' !! offset fi = Some v) /\
         (Feature_HasValue (feature fi) = true ->
          (forall v,
             (Feature_outcome StringToNumber_int8 (feature fi) c object t tags).2 <>
               Some (Some v)) ->
          featureValueBuffer b' !! offset fi = featureValueBuffer b !! offset fi)).
Proof.
  intros Hpos Hlaid Hsizes.
  pose proof (laid_out_increasing _ Hpos Hlaid) as Hincr.
  induction fs as [|fi rest IH]; intros pre progress b Hfs Htype Hlen Hclear.
  - exists b. simpl. rewrite app_nil_r. do 4 (split; [done|]).
    intros ? ? Hnil. by rewrite lookup_nil in Hnil.
  - assert (features t !! length pre = Some fi) as Hfi.
    { rewrite Hfs. by apply list_lookup_middle. }
    assert (length pre / 8 < length (featureBits b)) as Hbyte.
    { rewrite Hlen. apply GetFeatureBytes_bound. by eapply lookup_lt_Some. }
    assert (match Feature_AllocateValue (feature fi) with
            | Some _ => Feature_HasValue (feature fi)
            | None => true
            end = true) as Hsize.
    { unfold value_sizes_ok in Hsizes. rewrite forallb_forall in Hsizes.
      apply Hsizes, list_elem_of_In. by eapply list_elem_of_lookup_2. }
    simpl.
    rewrite (Feature_Parse_outcome (length pre) fi); [|by rewrite Htype|
      by rewrite Htype|by apply Hclear|done].
    simpl. rewrite Htype.
    set (o := Feature_outcome StringToNumber_int8 (feature fi) c object t tags).
    set (b1 := match o.2 with None => b | Some v => stored (length pre) fi v b end).
    assert (type b1 = t) as Htype1 by (subst b1; by destruct (o.2)).
    assert (length (featureBits b1) = GetFeatureBytes t) as Hlen1.
    { subst b1. destruct (o.2); [|done]. simpl. by rewrite length_insert. }
    assert (forall j, FeatureValueBuffer_HasValue j b1 =
                      if decide (j = length pre)
                      then bool_decide (is_Some o.2)
                      else FeatureValueBuffer_HasValue j b) as Hbits1.
    { intros j. subst b1. destruct (o.2) as [v|].
      - rewrite stored_HasValue by done. case_decide; [|done].
        symmetry. apply bool_decide_eq_true_2. by eexists.
      - case_decide as Hj; [|done]. subst j.
        rewrite Hclear by lia. symmetry. apply bool_decide_eq_false_2.
        by intros [? ?]. }
    assert (forall j fj, j < length pre -> features t !! j = Some fj ->
              Feature_HasValue (feature fj) = true ->
              featureValueBuffer b1 !! offset fj = featureValueBuffer b !! offset fj)
      as Hstore1.
    { intros j fj Hj Hfj Hpay. subst b1. destruct (o.2) as [[v|]|]; try done.
      simpl. apply lookup_insert_ne.
      pose proof (Hincr j (length pre) fj fi Hj Hfj Hfi Hpay). lia. }
    destruct (IH (pre ++ [fi]) (progress ++ o.1) b1) as
      (b' & Hparse & Htype' & Hbits' & Hstore' & Hrest).
    { by rewrite <- app_assoc. }
    { done. }
    { done. }
    { intros j Hj. rewrite length_app in Hj. simpl in Hj.
      rewrite Hbits1. case_decide; [lia|]. apply Hclear. lia. }
    rewrite length_app in Hparse, Hbits', Hstore', Hrest. simpl in *.
    replace (length pre + 1) with (S (length pre)) in * by lia.
    exists b'. split; [by rewrite Hparse, <- app_assoc|].
    split; [done|]. split.
    { intros j Hj. rewrite Hbits' by lia. rewrite Hbits1. case_decide; [lia|done]. }
    split.
    { intros j fj Hj Hfj Hpay. rewrite (Hstore' j fj) by (done || lia).
      by apply (Hstore1 j). }
    intros [|k] fk Hk; simpl in Hk.
    + injection Hk as <-. rewrite Nat.add_0_r. split; [|split].
      * rewrite Hbits' by lia. rewrite Hbits1. by rewrite decide_True.
      * intros v Hv.
        assert (Feature_HasValue (feature fi) = true) as Hpay.
        { destruct (Feature_outcome_value _ _ _ _ _ _ Hv) as [d Hd].
          by rewrite Hd in Hsize. }
        rewrite (Hstore' (length pre) fi) by (done || lia).
        subst b1. fold o in Hv. rewrite Hv. simpl. apply lookup_insert_eq.
      * intros Hpay Hnone.
        rewrite (Hstore' (length pre) fi) by (done || lia).
        subst b1. fold o in Hnone. destruct (o.2) as [[v|]|]; try done.
        by destruct (Hnone v).
    + replace (length pre + S k) with (S (length pre) + k) by lia.
      destruct (Hrest k fk Hk) as (Hbit & Hval & Hframe).
      split; [done|]. split; [done|].
      intros Hpay Hnone. rewrite (Hframe Hpay Hnone).
      subst b1. destruct (o.2) as [[v|]|] eqn:Ho; try done.
      simpl. apply lookup_insert_ne.
      assert (Feature_HasValue (feature fi) = true) as Hpayi.
      { destruct (Feature_outcome_value _ _ _ _ _ _ Ho) as [d Hd].
        by rewrite Hd in Hsize. }
      assert (features t !! (length pre + S k) = Some fk) as Hfk.
      { rewrite Hfs, lookup_app_r by lia.
        by replace (length pre + S k - length pre) with (S k) by lia. }
      pose proof (Hincr (length pre) (length pre + S k) fi fk ltac:(lia) Hfi Hfk Hpayi).
      lia.
Qed.

(** X6.  [FeatureValueBuffer::Parse] on a buffer just bound to a type
    whose features were laid out by [AddFeature]: no assertion fails; the
    warnings are those of the features, in the order of the features;
    and each feature is present, and holds the value, exactly as if its
    own [Parse] had run alone on a fresh buffer.  So no feature disturbs
    another one, although features without value share their offset with
    the feature that follows. *)
Theorem X6_FeatureValueBuffer_Parse (c : TypeConfig) (object : string)
    (tags : gmap N string) (progress : list string) (t : TypeInfo) :
  (0 < alignment)%N ->
  offsets_laid_out (features t) = true ->
  value_sizes_ok t = true ->
  exists b',
    FeatureValueBuffer_Parse StringToNumber_int8 c object tags progress
      (FeatureValueBuffer_SetType t) =
    Some (progress ++
            concat (map (fun fi =>
                           (Feature_outcome StringToNumber_int8 (feature fi) c
                              object t tags).1) (features t)), b') /\
    type b' = t /\
    forall idx fi,
      features t !! idx = Some fi ->
      exists alone,
        Feature_Parse StringToNumber_int8 (feature fi) c object t idx tags []
          (FeatureValueBuffer_SetType t) =
        Some ((Feature_outcome StringToNumber_int8 (feature fi) c object t tags).1,
              alone) /\
        FeatureValueBuffer_HasValue idx b' = FeatureValueBuffer_HasValue idx alone /\
        (Feature_HasValue (feature fi) = true ->
         FeatureValueBuffer_GetValue idx b' = FeatureValueBuffer_GetValue idx alone).
Proof.
  intros Hpos Hlaid%offsets_laid_out_spec Hsizes.
  destruct (Parse_features_ok c object tags t Hpos Hlaid Hsizes (features t) []
              progress (FeatureValueBuffer_SetType t))
    as (b' & Hparse & Htype & _ & _ & Hall);
    [done|done|apply length_replicate|intros; apply HasValue_SetType|].
  exists b'. split; [exact Hparse|]. split; [done|].
  intros idx fi Hfi.
  pose proof (Feature_Parse_outcome idx fi c object tags []
                (FeatureValueBuffer_SetType t) Hfi (length_replicate _ _)
                (HasValue_SetType t idx)) as Halone.
  simpl in Halone. rewrite Halone.
  2:{ unfold value_sizes_ok in Hsizes. rewrite forallb_forall in Hsizes.
      apply Hsizes, list_elem_of_In. by eapply list_elem_of_lookup_2. }
  eexists. split; [reflexivity|].
  destruct (Hall idx fi Hfi) as (Hbit & Hval & Hframe). simpl in Hbit.
  assert (idx / 8 < length (featureBits (FeatureValueBuffer_SetType t))) as Hbyte.
  { simpl. rewrite length_replicate. apply GetFeatureBytes_bound.
    by eapply lookup_lt_Some. }
  split.
  - rewrite Hbit.
    destruct (Feature_outcome _ _ _ _ _ _).2 as [v|].
    + rewrite stored_HasValue, decide_True by done.
      apply bool_decide_eq_true_2. by eexists.
    + rewrite HasValue_SetType. apply bool_decide_eq_false_2. by intros [? ?].
  - intros Hpay. unfold FeatureValueBuffer_GetValue. rewrite Htype. simpl.
    rewrite Hfi. simpl.
    destruct (Feature_outcome _ _ _ _ _ _).2 as [[v|]|] eqn:Ho.
    + rewrite (Hval v eq_refl). simpl. rewrite Hfi. simpl.
      by rewrite lookup_insert_eq.
    + rewrite Hframe by done. simpl. by rewrite Hfi.
    + rewrite Hframe by done. simpl. by rewrite Hfi.
Qed.


End ParseFacts.

(** ** The name with the highest priority *)

#[local] Instance TagId_le_trans : Transitive TagId_le.
Proof. intros x y z. unfold TagId_le. lia. Qed.

#[local] Instance TagId_le_total : Total TagId_le.
Proof. intros x y. unfold TagId_le. lia. Qed.

Lemma tags_in_order_elem (tags : gmap N string) (t : N) (v : string) :
  (t, v) ∈ tags_in_order tags <-> tags !! t = Some v.
Proof.
  unfold tags_in_order. rewrite merge_sort_Permutation.
  apply elem_of_map_to_list.
Qed.

Lemma tags_in_order_sorted (tags : gmap N string) :
  StronglySorted TagId_le (tags_in_order tags).
Proof. apply StronglySorted_merge_sort; apply _. Qed.

Lemma Name_loop_snoc isNameTag l x st :
  Name_loop isNameTag (l ++ [x]) st =
  let st' := Name_loop isNameTag l st in
  match isNameTag x.1 with
  | Some ntPrio =>
      if string_eq st'.1 "" || (st'.2 <? ntPrio)%N then (x.2, ntPrio) else st'
  | None => st'
  end.
Proof. unfold Name_loop. by rewrite foldl_app. Qed.

(** The name the loop selects is the value of a name tag of the map. *)
Lemma Name_loop_member (isNameTag : N -> option N) (l : list (N * string)) :
  let r := Name_loop isNameTag l ("", 0%N) in
  r.1 = "" \/ exists t, (t, r.1) ∈ l /\ isNameTag t = Some r.2.
Proof.
  induction l as [|[t v] l IH] using rev_ind; [by left|].
  rewrite Name_loop_snoc. simpl.
  destruct (isNameTag t) as [p|] eqn:Hp.
  - destruct (string_eq _ "" || _); simpl.
    + right. exists t. split; [|done]. apply elem_of_app. right.
      apply list_elem_of_here.
    + destruct IH as [?|(t0 & Ht0 & Hp0)]; [by left|]. right. exists t0.
      split; [|done]. apply elem_of_app. by left.
  - destruct IH as [?|(t0 & Ht0 & Hp0)]; [by left|]. right. exists t0.
    split; [|done]. apply elem_of_app. by left.
Qed.

(** When no name tag has an empty value, the loop selects a name tag of
    the highest priority, the one with the lowest id among these. *)
Lemma Name_loop_spec (isNameTag : N -> option N) (l : list (N * string)) :
  StronglySorted TagId_le l ->
  (forall t v p, (t, v) ∈ l -> isNameTag t = Some p -> v <> "") ->
  let r := Name_loop isNameTag l ("", 0%N) in
  (r = ("", 0%N) /\ forall t v, (t, v) ∈ l -> isNameTag t = None) \/
  (r.1 <> "" /\
   exists t, (t, r.1) ∈ l /\ isNameTag t = Some r.2 /\
     forall t' v' p', (t', v') ∈ l -> isNameTag t' = Some p' ->
       (p' <= r.2)%N /\ (p' = r.2 -> (t <= t')%N)).
Proof.
  induction l as [|[t v] l IH] using rev_ind; intros Hsorted Hvalues.
  - left. split; [done|]. intros t v Hin. by apply elem_of_nil in Hin.
  - rewrite Name_loop_snoc. simpl.
    assert (forall y, y ∈ l -> (y.1 <= t)%N) as Hbefore.
    { intros y Hy.
      apply (StronglySorted_app_1_elem_of TagId_le l [(t, v)] y (t, v) Hsorted Hy).
      apply list_elem_of_here. }
    destruct IH as [[Hr Hnone]|(Hne & t0 & Ht0 & Hp0 & Hmax)].
    { by eapply StronglySorted_app_1_l. }
    { intros t' v' p' Hin. apply Hvalues. apply elem_of_app. by left. }
    + rewrite Hr. simpl.
      destruct (isNameTag t) as [p|] eqn:Hp; simpl.
      * right. split.
        { apply (Hvalues t v p); [|done]. apply elem_of_app. right.
          apply list_elem_of_here. }
        exists t. split; [apply elem_of_app; right; apply list_elem_of_here|].
        split; [done|].
        intros t' v' p' [Hin|Hin%list_elem_of_singleton]%elem_of_app Hp'.
        -- by rewrite (Hnone _ _ Hin) in Hp'.
        -- injection Hin as -> ->. rewrite Hp in Hp'. injection Hp' as ->. lia.
      * left. split; [done|].
        intros t' v' [Hin|Hin%list_elem_of_singleton]%elem_of_app.
        -- by eapply Hnone.
        -- by injection Hin as -> ->.
    + right.
      unfold string_eq. rewrite (proj2 (String.eqb_neq _ _) Hne). simpl.
      destruct (isNameTag t) as [p|] eqn:Hp; simpl.
      * destruct (_ <? p)%N eqn:Hlt; simpl.
        -- apply N.ltb_lt in Hlt. split.
           { apply (Hvalues t v p); [|done]. apply elem_of_app. right.
             apply list_elem_of_here. }
           exists t. split; [apply elem_of_app; right; apply list_elem_of_here|].
           split; [done|].
           intros t' v' p' [Hin|Hin%list_elem_of_singleton]%elem_of_app Hp'.
           ++ destruct (Hmax _ _ _ Hin Hp'). lia.
           ++ injection Hin as -> ->. rewrite Hp in Hp'. injection Hp' as ->. lia.
        -- apply N.ltb_ge in Hlt. split; [done|].
           exists t0. split; [apply elem_of_app; by left|]. split; [done|].
           intros t' v' p' [Hin|Hin%list_elem_of_singleton]%elem_of_app Hp'.
           ++ by apply (Hmax _ _ _ Hin).
           ++ injection Hin as -> ->. rewrite Hp in Hp'. injection Hp' as ->.
              split; [done|]. intros _. apply (Hbefore _ Ht0).
      * split; [done|].
        exists t0. split; [apply elem_of_app; by left|]. split; [done|].
        intros t' v' p' [Hin|Hin%list_elem_of_singleton]%elem_of_app Hp'.
        -- by apply (Hmax _ _ _ Hin).
        -- injection Hin as -> ->. by rewrite Hp in Hp'.
Qed.

Section FeatureParseFacts.
Context `{D : Declarations}.

(** X7.  [NameFeature::Parse] on a buffer just bound to a type: it never
    stores an empty name, and a stored name is the value of a name tag of
    the object; when no name tag of the object has an empty value, the
    name is stored if and only if the object has a name tag, and it is the
    value of the name tag with the highest priority, among equal
    priorities of the one with the lowest tag id. *)
Theorem X7_NameFeature_Parse_priority (c : TypeConfig) (idx : nat)
    (fi : FeatureInstance) (tags : gmap N string) (t : TypeInfo) :
  features t !! idx = Some fi -> feature fi = NameFeature ->
  (0 < sizeof_NameFeatureValue)%N ->
  exists b',
    NameFeature_Parse c idx tags (FeatureValueBuffer_SetType t) = Some b' /\
    (FeatureValueBuffer_HasValue idx b' = true ->
     exists tag v p,
       tags !! tag = Some v /\ IsNameTag tag c = Some p /\ v <> "" /\
       FeatureValueBuffer_GetValue idx b' = Some (NameFeatureValue v)) /\
    ((forall tag v p, tags !! tag = Some v -> IsNameTag tag c = Some p -> v <> "") ->
     ((forall tag v, tags !! tag = Some v -> IsNameTag tag c = None) ->
      b' = FeatureValueBuffer_SetType t) /\
     (forall tag0 v0 p0,
        tags !! tag0 = Some v0 -> IsNameTag tag0 c = Some p0 ->
        exists tag v p,
          tags !! tag = Some v /\ IsNameTag tag c = Some p /\
          FeatureValueBuffer_HasValue idx b' = true /\
          FeatureValueBuffer_GetValue idx b' = Some (NameFeatureValue v) /\
          forall tag' v' p',
            tags !! tag' = Some v' -> IsNameTag tag' c = Some p' ->
            (p' <= p)%N /\ (p' = p -> (tag <= tag')%N))).
Proof.
  intros Hfi Hf Hsize.
  assert (Feature_HasValue (feature fi) = true) as Hpay.
  { rewrite Hf. by apply N.ltb_lt. }
  unfold NameFeature_Parse.
  pose proof (Name_loop_member (fun tag => IsNameTag tag c) (tags_in_order tags))
    as Hmember.
  pose proof (Name_loop_spec (fun tag => IsNameTag tag c) (tags_in_order tags)
                (tags_in_order_sorted tags)) as Hspec.
  destruct (Name_loop _ _ _) as [name prio]. simpl in *.
  destruct (string_eq name "") eqn:Hname; simpl.
  - apply String.eqb_eq in Hname. subst name.
    exists (FeatureValueBuffer_SetType t). split; [done|]. split.
    { by rewrite HasValue_SetType. }
    intros Hvalues. split; [done|].
    intros tag0 v0 p0 Htag0 Hp0. exfalso.
    destruct Hspec as [[_ Hnone]|[Hne _]]; [|
      by rewrite (Hnone tag0 v0 (proj2 (tags_in_order_elem _ _ _) Htag0)) in Hp0|done].
    intros tag v p Hin%tags_in_order_elem. by apply Hvalues.
  - apply String.eqb_neq in Hname.
    destruct (Allocate_set_SetType t idx fi (SetName name) (NameFeatureValue "")
                (NameFeatureValue name) Hfi Hpay)
      as (b' & Hparse & Hvalue & Hbit); [by rewrite Hf|done|].
    exists b'. split; [exact Hparse|]. split.
    { intros _. destruct Hmember as [?|(tag & Hin%tags_in_order_elem & Hp)]; [done|].
      by exists tag, name, prio. }
    intros Hvalues.
    destruct Hspec as [[Hr _]|(_ & tag & Hin%tags_in_order_elem & Hp & Hmax)].
    { intros tag v p Hin%tags_in_order_elem. by apply Hvalues. }
    { by injection Hr as -> ->. }
    split.
    { intros Hnone. by rewrite (Hnone _ _ Hin) in Hp. }
    intros _ _ _ _ _. exists tag, name, prio. repeat (split; [done|]).
    intros tag' v' p' Hin'%tags_in_order_elem. by apply (Hmax tag' v').
Qed.

(** The speed [MaxSpeedFeature::Parse] stores is the number, for miles per
    hour multiplied by 1.609 and rounded, cut off at 255. *)
Lemma MaxSpeed_value_spec (n : N) (isMph : bool) :
  MaxSpeed_value n isMph =
  Z.min 255 (if isMph then (1609 * Z.of_N n + 500) / 1000 else Z.of_N n)%Z.
Proof.
  unfold MaxSpeed_value. destruct isMph.
  - assert (Qfloor (Qplus (Qmult (inject_Z (Z.of_N n)) (1609 # 1000)) (1 # 2)) =
            ((1609 * Z.of_N n + 500) / 1000)%Z) as Hfloor.
    { unfold Qfloor, Qplus, Qmult, inject_Z. simpl.
      change (Z.pos (1 * 1000 * 2)) with (1000 * 2)%Z.
      change (Z.pos (1 * 1000)) with 1000%Z.
      replace (Z.of_N n * 1609 * 2 + 1 * 1000)%Z
        with ((1609 * Z.of_N n + 500) * 2)%Z by lia.
      by rewrite Z.div_mul_cancel_r by lia. }
    rewrite Hfloor.
    destruct (Qle_bool _ _) eqn:Hle.
    + apply Qle_bool_iff in Hle. unfold Qle, Qplus, Qdiv, Qmult, Qinv, inject_Z in Hle.
      simpl in Hle.
      change (Z.pos (1 * 1609 * 2)) with 3218%Z in Hle.
      change (Z.pos (1 * 1609)) with 1609%Z in Hle.
      assert (Z.of_N n <= 158)%Z as Hn by lia.
      assert ((1609 * Z.of_N n + 500) / 1000 < 255)%Z.
      { apply Z.div_lt_upper_bound; lia. }
      assert (0 <= (1609 * Z.of_N n + 500) / 1000)%Z.
      { apply Z.div_pos; lia. }
      simpl. rewrite uint8_small by lia. lia.
    + assert (~ (inject_Z (Z.of_N n) <=
                 Qplus (Qdiv (inject_Z 255) (1609 # 1000)) (1 # 2))%Q) as Hnle.
      { rewrite <- Qle_bool_iff. congruence. }
      unfold Qle, Qplus, Qdiv, Qmult, Qinv, inject_Z in Hnle. simpl in Hnle.
      change (Z.pos (1 * 1609 * 2)) with 3218%Z in Hnle.
      change (Z.pos (1 * 1609)) with 1609%Z in Hnle.
      assert (159 <= Z.of_N n)%Z as Hn by lia.
      assert (255 <= (1609 * Z.of_N n + 500) / 1000)%Z.
      { apply Z.div_le_lower_bound; lia. }
      simpl. lia.
  - destruct (255 <? n)%N eqn:Hlt.
    + apply N.ltb_lt in Hlt. lia.
    + apply N.ltb_ge in Hlt. lia.
Qed.

Lemma stored_fresh (idx : nat) (fi : FeatureInstance) (v : FeatureValue) (t : TypeInfo) :
  features t !! idx = Some fi ->
  FeatureValueBuffer_HasValue idx
    (stored idx fi (Some v) (FeatureValueBuffer_SetType t)) = true /\
  FeatureValueBuffer_GetValue idx
    (stored idx fi (Some v) (FeatureValueBuffer_SetType t)) = Some v.
Proof.
  intros Hfi. split.
  - rewrite stored_HasValue, decide_True; [done..|].
    simpl. rewrite length_replicate. apply GetFeatureBytes_bound.
    by eapply lookup_lt_Some.
  - unfold FeatureValueBuffer_GetValue. simpl. rewrite Hfi. simpl.
    apply lookup_insert_eq.
Qed.

(** X8.  [MaxSpeedFeature::Parse] on a buffer just bound to a type:
    without the tag, and for the values [signals] and [none], nothing is
    stored and nothing reported; [walk] stores 10; any other value is
    cut at the last [mph] and freed of trailing blanks, and if the rest
    is not a number a warning is reported and nothing stored; otherwise
    the number is stored, for miles per hour multiplied by 1.609 and
    rounded, and a speed above 255 is stored as 255. *)
Theorem X8_MaxSpeedFeature_Parse (tagMaxSpeed : TagId) (object : string)
    (idx : nat) (fi : FeatureInstance) (tags : gmap N string)
    (progress : list string) (t : TypeInfo) :
  features t !! idx = Some fi -> feature fi = MaxSpeedFeature tagMaxSpeed ->
  (0 < sizeof_MaxSpeedFeatureValue)%N ->
  exists w b',
    MaxSpeedFeature_Parse tagMaxSpeed object idx tags progress
      (FeatureValueBuffer_SetType t) = Some (progress ++ w, b') /\
    (tags !! tagMaxSpeed = None -> w = [] /\ b' = FeatureValueBuffer_SetType t) /\
    (forall v, tags !! tagMaxSpeed = Some v ->
       (v = "signals" \/ v = "none" -> w = [] /\ b' = FeatureValueBuffer_SetType t) /\
       (v = "walk" ->
          w = [] /\ FeatureValueBuffer_HasValue idx b' = true /\
          FeatureValueBuffer_GetValue idx b' = Some (MaxSpeedFeatureValue 10)) /\
       (v <> "signals" -> v <> "none" -> v <> "walk" ->
          match StringToNumber_size_t (MaxSpeed_normalize v).1 with
          | None =>
              w = ["Max speed tag value '" +:+ v +:+ "' for " +:+ object +:+
                   " is not numeric!"] /\
              b' = FeatureValueBuffer_SetType t
          | Some n =>
              w = [] /\ FeatureValueBuffer_HasValue idx b' = true /\
              FeatureValueBuffer_GetValue idx b' =
                Some (MaxSpeedFeatureValue
                        (Z.min 255 (if (MaxSpeed_normalize v).2
                                    then (1609 * Z.of_N n + 500) / 1000
                                    else Z.of_N n)%Z))
          end)).
Proof.
  intros Hfi Hf Hsize.
  pose proof (fun c => Feature_Parse_outcome (fun _ => None) idx fi c object tags progress
                (FeatureValueBuffer_SetType t) Hfi (length_replicate _ _)
                (HasValue_SetType t idx)) as Hparse.
  rewrite Hf in Hparse. simpl in Hparse.
  specialize (Hparse TypeConfig_init (proj2 (N.ltb_lt _ _) Hsize)).
  rewrite Hparse. clear Hparse.
  eexists _, _. split; [reflexivity|].
  destruct (tags !! tagMaxSpeed) as [v|]; [|by split].
  split; [done|]. intros ? [= <-].
  destruct (string_eq v "signals") eqn:H1; simpl.
  { apply String.eqb_eq in H1. subst v. repeat split; try done.
    all: intros; congruence. }
  destruct (string_eq v "none") eqn:H2; simpl.
  { apply String.eqb_eq in H2. subst v. repeat split; try done.
    all: intros; congruence. }
  apply String.eqb_neq in H1, H2.
  destruct (string_eq v "walk") eqn:H3; simpl.
  { apply String.eqb_eq in H3. subst v.
    destruct (stored_fresh idx fi (MaxSpeedFeatureValue 10) t Hfi).
    split; [by intros [?|?]|]. split; [done|]. by intros _ _ []. }
  apply String.eqb_neq in H3.
  split; [by intros [?|?]|]. split; [done|]. intros _ _ _.
  destruct (StringToNumber_size_t _) as [n|]; simpl; [|done].
  rewrite MaxSpeed_value_spec.
  assert (0 <= if (MaxSpeed_normalize v).2
               then (1609 * Z.of_N n + 500) / 1000 else Z.of_N n)%Z.
  { destruct (MaxSpeed_normalize v).2; [apply Z.div_pos|]; lia. }
  rewrite uint8_small by lia.
  split; [done|]. by apply stored_fresh.
Qed.

(** X9.  [GradeFeature::Parse] on a buffer just bound to a type: a track
    type [grade1] to [grade5] stores 1 to 5 whatever the surface is; any
    other track type is reported and the surface decides, as it does
    without track type: a surface with a grade stores the grade (as
    [uint8_t]), an unknown surface is reported and nothing is stored.  The
    grade of a surface is the one registered first. *)
Theorem X9_GradeFeature_Parse (c : TypeConfig) (tagSurface tagTrackType : TagId)
    (object : string) (idx : nat) (fi : FeatureInstance) (tags : gmap N string)
    (progress : list string) (t : TypeInfo) :
  features t !! idx = Some fi -> feature fi = GradeFeature tagSurface tagTrackType ->
  (0 < sizeof_GradeFeatureValue)%N ->
  (forall s g,
     GetGradeForSurface s (RegisterSurfaceToGradeMapping s g c) =
       Some (default g (GetGradeForSurface s c)) /\
     forall s', s' <> s ->
       GetGradeForSurface s' (RegisterSurfaceToGradeMapping s g c) =
       GetGradeForSurface s' c) /\
  exists w b',
    GradeFeature_Parse c tagSurface tagTrackType object idx tags progress
      (FeatureValueBuffer_SetType t) = Some (progress ++ w, b') /\
    match tags !! tagTrackType ≫= Grade_of_tracktype with
    | Some g =>
        (1 <= g <= 5)%Z /\ w = [] /\
        FeatureValueBuffer_HasValue idx b' = true /\
        FeatureValueBuffer_GetValue idx b' = Some (GradeFeatureValue g)
    | None =>
        let w1 :=
          match tags !! tagTrackType with
          | Some v => ["Unsupported tracktype value '" +:+ v +:+ "' for " +:+ object]
          | None => []
          end in
        match tags !! tagSurface with
        | None => w = w1 /\ b' = FeatureValueBuffer_SetType t
        | Some s =>
            match GetGradeForSurface s c with
            | Some g =>
                w = w1 /\ FeatureValueBuffer_HasValue idx b' = true /\
                FeatureValueBuffer_GetValue idx b' =
                  Some (GradeFeatureValue (uint8 (Z.of_N g)))
            | None =>
                w = w1 ++ ["Unknown surface type '" +:+ s +:+ "' for " +:+ object +:+ "!"] /\
                b' = FeatureValueBuffer_SetType t
            end
        end
    end.
Proof.
  intros Hfi Hf Hsize. split.
  { intros s g. unfold GetGradeForSurface, RegisterSurfaceToGradeMapping. simpl.
    destruct (surfaceToGradeMap c !! s) as [g0|] eqn:Hs; simpl.
    - by rewrite Hs.
    - rewrite lookup_insert_eq. split; [done|]. intros s' Hs'.
      by rewrite lookup_insert_ne. }
  pose proof (Feature_Parse_outcome (fun _ => None) idx fi c object tags progress
                (FeatureValueBuffer_SetType t) Hfi (length_replicate _ _)
                (HasValue_SetType t idx)) as Hparse.
  rewrite Hf in Hparse. simpl in Hparse.
  rewrite (Hparse (proj2 (N.ltb_lt _ _) Hsize)). clear Hparse.
  eexists _, _. split; [reflexivity|].
  assert (forall v g, Grade_of_tracktype v = Some g ->
            (1 <= g <= 5)%Z /\ uint8 g = g) as Hgrade.
  { intros v g. unfold Grade_of_tracktype.
    repeat case_match; intros [= <-]; by vm_compute. }
  destruct (tags !! tagTrackType) as [v|]; simpl.
  - destruct (Grade_of_tracktype v) as [g|] eqn:Hg; simpl.
    + destruct (Hgrade v g Hg) as [Hrange Hsmall]. rewrite Hsmall.
      split; [done|]. split; [done|]. by apply stored_fresh.
    + destruct (tags !! tagSurface) as [s|]; simpl; [|done].
      destruct (GetGradeForSurface s c) as [g|]; simpl; [|done].
      split; [done|]. by apply stored_fresh.
  - destruct (tags !! tagSurface) as [s|]; simpl; [|done].
    destruct (GetGradeForSurface s c) as [g|]; simpl; [|done].
    split; [done|]. by apply stored_fresh.
Qed.

End FeatureParseFacts.

Section RegistryFacts.
Context `{D : Declarations}.

(** Registering a tag yields an id to which the name is then mapped, and
    leaves the ids of the names known before. *)
Lemma RegisterTagForInternalUse_mapped (tagName : string) (c : TypeConfig) :
  stringToTagMap (RegisterTagForInternalUse tagName c).2 !! tagName =
    Some (RegisterTagForInternalUse tagName c).1 /\
  (forall n i, stringToTagMap c !! n = Some i ->
     stringToTagMap (RegisterTagForInternalUse tagName c).2 !! n = Some i) /\
  nameToFeatureMap (RegisterTagForInternalUse tagName c).2 = nameToFeatureMap c.
Proof.
  unfold RegisterTagForInternalUse.
  destruct (stringToTagMap c !! tagName) as [i|] eqn:Hi; [done|].
  rewrite RegisterTag_new_eq. simpl. rewrite lookup_insert_eq.
  split; [done|]. split; [|done]. intros n i Hn.
  rewrite lookup_insert_ne; [done|]. congruence.
Qed.

Ltac register_step :=
  match goal with
  | |- context [RegisterTagForInternalUse ?n ?c] =>
      let Hm := fresh "Hmapped" in
      let Hk := fresh "Hkept" in
      let Hf := fresh "Hfeatures" in
      destruct (RegisterTagForInternalUse_mapped n c) as (Hm & Hk & Hf);
      destruct (RegisterTagForInternalUse n c) as [? ?]; simpl in Hm, Hk, Hf
  end.

Lemma Feature_Initialize_tags (f : Feature) (c : TypeConfig) :
  Feature_GetName (Feature_Initialize f c).1 = Feature_GetName f /\
  nameToFeatureMap (Feature_Initialize f c).2 = nameToFeatureMap c /\
  (forall n i, stringToTagMap c !! n = Some i ->
     stringToTagMap (Feature_Initialize f c).2 !! n = Some i) /\
  (forall n i, (n, i) ∈ Feature_tags (Feature_Initialize f c).1 ->
     stringToTagMap (Feature_Initialize f c).2 !! n = Some i).
Proof.
  destruct f; simpl; unfold AccessFeature_Initialize;
    repeat register_step; simpl;
    (split; [done|]); (split; [congruence|]); (split; [by eauto 20|]);
    intros ? ? Hin;
    repeat (apply elem_of_cons in Hin as [[= -> ->]|Hin]; [by eauto 20|]);
    by apply elem_of_nil in Hin.
Qed.

(** X10.  [RegisterFeature] and [GetFeature]: after a feature was
    registered, [GetFeature] of its name gives the feature, replacing one
    registered under that name before; every tag the feature reads is
    registered and the feature holds its id; the other features and the
    ids of the tags known before are unchanged.  An unknown name gives the
    null handle. *)
Theorem X10_RegisterFeature_GetFeature (f : Feature) (c : TypeConfig) :
  (exists f',
     GetFeature (Feature_GetName f) (RegisterFeature f c) = Some f' /\
     Feature_GetName f' = Feature_GetName f /\
     forall n i, (n, i) ∈ Feature_tags f' ->
       stringToTagMap (RegisterFeature f c) !! n = Some i /\
       GetTagId n (RegisterFeature f c) = i) /\
  (forall m, m <> Feature_GetName f ->
     GetFeature m (RegisterFeature f c) = GetFeature m c) /\
  (forall n i, stringToTagMap c !! n = Some i ->
     stringToTagMap (RegisterFeature f c) !! n = Some i) /\
  (forall m, nameToFeatureMap c !! m = None -> GetFeature m c = None).
Proof.
  destruct (Feature_Initialize_tags f c) as (Hname & Hfeatures & Hkept & Htags).
  unfold RegisterFeature, GetFeature, GetTagId.
  destruct (Feature_Initialize f c) as [f' c1]. simpl in *.
  split; [|split; [|split]].
  - exists f'. rewrite lookup_insert_eq. split; [done|]. split; [done|].
    intros n i Hin. by rewrite (Htags n i Hin).
  - intros m Hm. by rewrite lookup_insert_ne, Hfeatures.
  - done.
  - done.
Qed.

(** X11.  [RegisterNameTag] and [IsNameTag] on a consistent registry: the
    tag is registered, or found, and is external afterwards; it is a name
    tag with the priority given, unless it was a name tag before, in
    which case it keeps its priority; no other tag becomes a name tag or
    changes its priority, and the alternative names are untouched. *)
Theorem X11_RegisterNameTag_IsNameTag (tagName : string) (priority : N)
    (c : TypeConfig) :
  TagRegistry_ok c = true ->
  (N.of_nat (length (tags c)) + 1 < 2 ^ TagId_bits)%N ->
  let tagId := (RegisterNameTag tagName priority c).1 in
  let c' := (RegisterNameTag tagName priority c).2 in
  GetTagId tagName c' = tagId /\
  (exists t, tags c' !! N.to_nat tagId = Some t /\
             TagInfo_name t = tagName /\ TagInfo_internalOnly t = false) /\
  IsNameTag tagId c' = Some (default priority (IsNameTag tagId c)) /\
  (forall j, j <> tagId -> IsNameTag j c' = IsNameTag j c) /\
  (forall j, IsNameAltTag j c' = IsNameAltTag j c) /\
  TagRegistry_ok c' = true.
Proof.
  intros Hok Hroom.
  pose proof (proj1 (TagRegistry_ok_inv c) Hok) as Hinv.
  unfold RegisterNameTag.
  assert (exists t,
            tags (RegisterTagForExternalUse tagName c).2
              !! N.to_nat (RegisterTagForExternalUse tagName c).1 = Some t /\
            TagInfo_name t = tagName /\ TagInfo_internalOnly t = false) as Htag.
  { unfold RegisterTagForExternalUse.
    destruct (stringToTagMap c !! tagName) as [i|] eqn:Hi.
    - destruct Hinv as (_ & _ & _ & Hmap).
      destruct (Hmap _ _ Hi) as (t & Ht & Hn). simpl.
      exists (TagInfo_SetToExternal t). rewrite list_lookup_alter_eq, Ht. done.
    - rewrite RegisterTag_new_eq. simpl.
      destruct Hinv as (-> & _). rewrite Nat2N.id.
      eexists. rewrite lookup_app_r, Nat.sub_diag by done. done. }
  assert (stringToTagMap (RegisterTagForExternalUse tagName c).2 !! tagName =
          Some (RegisterTagForExternalUse tagName c).1) as Hmapped.
  { unfold RegisterTagForExternalUse.
    destruct (stringToTagMap c !! tagName) as [i|] eqn:Hi; [done|].
    rewrite RegisterTag_new_eq. simpl. apply lookup_insert_eq. }
  assert (TagRegistry_inv (RegisterTagForExternalUse tagName c).2) as Hinv'.
  { destruct (stringToTagMap c !! tagName) as [i|] eqn:Hi.
    - by eapply RegisterTagForExternalUse_known_inv.
    - unfold RegisterTagForExternalUse. rewrite Hi.
      by apply RegisterTag_new_inv. }
  assert (nameTagIdToPrioMap (RegisterTagForExternalUse tagName c).2 =
            nameTagIdToPrioMap c /\
          nameAltTagIdToPrioMap (RegisterTagForExternalUse tagName c).2 =
            nameAltTagIdToPrioMap c) as [Hprio Halt].
  { unfold RegisterTagForExternalUse.
    destruct (stringToTagMap c !! tagName); [done|].
    by rewrite RegisterTag_new_eq. }
  destruct (RegisterTagForExternalUse tagName c) as [tagId c1]. simpl in *.
  unfold GetTagId, IsNameTag, IsNameAltTag, map_insert_new. simpl.
  rewrite Hmapped, Hprio, Halt.
  split; [done|]. split; [done|].
  assert (TagRegistry_ok
            (TypeConfig_set_nameTagIdToPrioMap
               match nameTagIdToPrioMap c !! tagId with
               | Some _ => nameTagIdToPrioMap c
               | None => <[tagId:=priority]> (nameTagIdToPrioMap c)
               end c1) = true) as Hok'.
  { apply TagRegistry_ok_inv. exact Hinv'. }
  destruct (nameTagIdToPrioMap c !! tagId) as [p0|] eqn:Hp0.
  - assert (nameTagIdToPrioMap c <> ∅) as Hne.
    { intros Hempty. by rewrite Hempty, lookup_empty in Hp0. }
    rewrite bool_decide_eq_false_2 by done. rewrite Hp0. simpl.
    split; [done|]. split; [done|]. split; [done|]. exact Hok'.
  - rewrite bool_decide_eq_false_2 by apply insert_non_empty.
    rewrite lookup_insert_eq.
    split; [by destruct (bool_decide _)|]. split.
    { intros j Hj. rewrite lookup_insert_ne by done.
      case_bool_decide as Hempty; [|done]. by rewrite Hempty, lookup_empty. }
    split; [done|]. exact Hok'.
Qed.

End RegistryFacts.

Section MoreFacts.
Context `{D : Declarations}.

Lemma ResolveTags_loop_spec (c : TypeConfig) (l : list (N * string))
    (acc : list (TagId * string)) :
  (forall t, t ∈ l -> (N.to_nat t.1 < length (tags c))%nat) ->
  ResolveTags_loop l c acc =
  Some (acc ++ filter (fun t => tag_is_external c t.1) l).
Proof.
  revert acc. induction l as [|[k v] l IH]; intros acc Hknown.
  - simpl. by rewrite app_nil_r.
  - simpl. unfold GetTagInfo.
    assert (N.to_nat k < length (tags c))%nat as Hk.
    { apply (Hknown (k, v)). apply list_elem_of_here. }
    rewrite (proj2 (Nat.ltb_lt _ _) Hk).
    destruct (lookup_lt_is_Some_2 _ _ Hk) as [info Hinfo]. rewrite Hinfo. simpl.
    assert (tag_is_external c k = negb (TagInfo_internalOnly info)) as Hext.
    { unfold tag_is_external. by rewrite Hinfo. }
    rewrite filter_cons. simpl.
    destruct (TagInfo_internalOnly info) eqn:Hint; simpl in Hext.
    + rewrite decide_False by (rewrite Hext; intros []).
      apply IH. intros t Ht. apply Hknown. by apply list_elem_of_further.
    + rewrite decide_True by (rewrite Hext; exact I).
      rewrite IH.
      * by rewrite <- app_assoc.
      * intros t Ht. apply Hknown. by apply list_elem_of_further.
Qed.

Lemma StronglySorted_filter_keep {A} (R : relation A) (P : A -> Prop)
    `{forall x, Decision (P x)} (l : list A) :
  StronglySorted R l -> StronglySorted R (filter P l).
Proof.
  induction 1 as [|x l Hl IH Hx]; [constructor|].
  rewrite filter_cons. case_decide; [|done].
  constructor; [done|]. apply Forall_forall.
  intros y [_ Hy]%list_elem_of_filter.
  by apply (proj1 (Forall_forall _ _) Hx).
Qed.

(** X12.  [ResolveTags] on a tag map whose keys are ids of registered
    tags gives the entries of the map whose tag is external, each once,
    in the order of the tag ids; entries of internal-only tags are left
    out.  A key that is not the id of a tag runs into the assertion of
    [GetTagInfo]. *)
Theorem X12_ResolveTags (map : gmap N string) (c : TypeConfig) :
  ((forall k v, map !! k = Some v -> (N.to_nat k < length (tags c))%nat) ->
   exists l,
     ResolveTags map c = Some l /\
     StronglySorted TagId_le l /\ NoDup l.*1 /\
     forall k v,
       (k, v) ∈ l <->
       map !! k = Some v /\
       exists info, tags c !! N.to_nat k = Some info /\
                    TagInfo_internalOnly info = false) /\
  (forall k v, map !! k = Some v -> (length (tags c) <= N.to_nat k)%nat ->
     ResolveTags map c = None).
Proof.
  split.
  - intros Hknown. unfold ResolveTags.
    rewrite ResolveTags_loop_spec.
    2:{ intros [k v] Hin%tags_in_order_elem. by eapply Hknown. }
    eexists. split; [reflexivity|]. simpl. split; [|split].
    + apply StronglySorted_filter_keep, tags_in_order_sorted.
    + apply (NoDup_fmap_fst (filter _ (tags_in_order map))).
      * intros k v1 v2 [_ H1%tags_in_order_elem]%list_elem_of_filter
          [_ H2%tags_in_order_elem]%list_elem_of_filter. congruence.
      * apply NoDup_filter. unfold tags_in_order.
        rewrite merge_sort_Permutation. apply NoDup_map_to_list.
    + intros k v. rewrite list_elem_of_filter, tags_in_order_elem. simpl.
      unfold tag_is_external.
      destruct (tags c !! N.to_nat k) as [info|].
      * destruct (TagInfo_internalOnly info) eqn:Hint; simpl; split.
        -- by intros [[] _].
        -- intros (_ & info' & [= <-] & ?). congruence.
        -- intros [_ ?]. split; [done|]. by exists info.
        -- by intros [? _].
      * split; [by intros [[] _]|]. by intros (_ & info' & ? & _).
  - intros k v Hk Hout. unfold ResolveTags.
    assert ((k, v) ∈ tags_in_order map) as Hin by (by apply tags_in_order_elem).
    revert Hin. generalize (tags_in_order map). generalize (@nil (TagId * string)).
    intros acc l. revert acc. induction l as [|[k' v'] l IH]; intros acc Hin.
    + by apply elem_of_nil in Hin.
    + simpl. unfold GetTagInfo.
      apply elem_of_cons in Hin as [[= <- <-]|Hin].
      * by rewrite (proj2 (Nat.ltb_ge _ _) Hout).
      * destruct (_ <? _)%nat; [|done].
        destruct (tags c !! N.to_nat k') as [info|]; [|done]. simpl.
        destruct (TagInfo_internalOnly info); by apply IH.
Qed.

Lemma Evaluate_and (cs : list TagCondition) (tagMap : gmap N string) :
  Evaluate (TagBoolCondition boolAnd cs) tagMap =
  forallb (fun c => Evaluate c tagMap) cs.
Proof.
  induction cs as [|c cs IH]; [done|].
  simpl in *. rewrite <- IH. by destruct (Evaluate c tagMap).
Qed.

Lemma Evaluate_or (cs : list TagCondition) (tagMap : gmap N string) :
  Evaluate (TagBoolCondition boolOr cs) tagMap =
  existsb (fun c => Evaluate c tagMap) cs.
Proof.
  induction cs as [|c cs IH]; [done|].
  simpl in *. rewrite <- IH. by destruct (Evaluate c tagMap).
Qed.

(** X13.  The connectives of the tag conditions: an [And] holds exactly
    when all its children hold and an [Or] when one of them holds, in
    whatever order the children are given; a double negation is the
    condition itself, and the negation of an [And] ([Or]) is the [Or]
    ([And]) of the negated children. *)
Theorem X13_Evaluate_connectives (cs : list TagCondition) (c : TagCondition)
    (tagMap : gmap N string) :
  (Evaluate (TagBoolCondition boolAnd cs) tagMap = true <->
   forall c', c' ∈ cs -> Evaluate c' tagMap = true) /\
  (Evaluate (TagBoolCondition boolOr cs) tagMap = true <->
   exists c', c' ∈ cs /\ Evaluate c' tagMap = true) /\
  (forall cs', cs' ≡ₚ cs ->
     Evaluate (TagBoolCondition boolAnd cs') tagMap =
       Evaluate (TagBoolCondition boolAnd cs) tagMap /\
     Evaluate (TagBoolCondition boolOr cs') tagMap =
       Evaluate (TagBoolCondition boolOr cs) tagMap) /\
  Evaluate (TagNotCondition (TagNotCondition c)) tagMap = Evaluate c tagMap /\
  Evaluate (TagNotCondition (TagBoolCondition boolAnd cs)) tagMap =
    Evaluate (TagBoolCondition boolOr (TagNotCondition <$> cs)) tagMap /\
  Evaluate (TagNotCondition (TagBoolCondition boolOr cs)) tagMap =
    Evaluate (TagBoolCondition boolAnd (TagNotCondition <$> cs)) tagMap.
Proof.
  assert (forall l, Evaluate (TagBoolCondition boolAnd l) tagMap = true <->
                    forall c', c' ∈ l -> Evaluate c' tagMap = true) as Hand.
  { intros l. rewrite Evaluate_and, forallb_forall.
    split; intros H c' Hc'; apply H; by apply list_elem_of_In. }
  assert (forall l, Evaluate (TagBoolCondition boolOr l) tagMap = true <->
                    exists c', c' ∈ l /\ Evaluate c' tagMap = true) as Hor.
  { intros l. rewrite Evaluate_or, existsb_exists.
    split; intros (c' & Hc' & H); exists c'; by rewrite list_elem_of_In in *. }
  split; [apply Hand|]. split; [apply Hor|]. split; [|split; [|split]].
  - intros cs' Hperm. split.
    + apply eq_true_iff_eq. rewrite !Hand.
      split; intros H c' Hc'; apply H; by rewrite ?Hperm in *.
    + apply eq_true_iff_eq. rewrite !Hor.
      split; intros (c' & Hc' & H); exists c'; by rewrite ?Hperm in *.
  - simpl. apply negb_involutive.
  - change (Evaluate (TagNotCondition (TagBoolCondition boolAnd cs)) tagMap)
      with (negb (Evaluate (TagBoolCondition boolAnd cs) tagMap)).
    rewrite Evaluate_and, Evaluate_or.
    induction cs as [|c0 cs IH]; [done|]. simpl.
    rewrite negb_andb. by rewrite IH.
  - change (Evaluate (TagNotCondition (TagBoolCondition boolOr cs)) tagMap)
      with (negb (Evaluate (TagBoolCondition boolOr cs) tagMap)).
    rewrite Evaluate_and, Evaluate_or.
    induction cs as [|c0 cs IH]; [done|]. simpl.
    rewrite negb_orb. by rewrite IH.
Qed.

End MoreFacts.

Section LayoutFacts.
Context `{D : Declarations}.

(** X14.  The layout [AddFeature] computes: the slots of the features do
    not overlap, every slot lies inside a buffer of
    [GetFeatureValueBufferSize] bytes, and [GetFeatureBytes] is the least
    number of bytes with one bit for every feature. *)
Theorem X14_feature_layout (t : TypeInfo) :
  (0 < alignment)%N ->
  offsets_laid_out (features t) = true ->
  (forall i j a b,
     (i < j)%nat -> features t !! i = Some a -> features t !! j = Some b ->
     (offset a + Feature_GetValueSize (feature a) <= offset b)%N) /\
  (forall i a, features t !! i = Some a ->
     (offset a + Feature_GetValueSize (feature a) <= GetFeatureValueBufferSize t)%N) /\
  (GetFeatureCount t <= 8 * GetFeatureBytes t < GetFeatureCount t + 8)%nat.
Proof.
  intros Hpos Hlaid%offsets_laid_out_spec.
  assert (forall i j a b,
            (i < j)%nat -> features t !! i = Some a -> features t !! j = Some b ->
            (offset a + Feature_GetValueSize (feature a) <= offset b)%N) as Hslots.
  { intros i j a b Hij Ha Hb.
    destruct (lookup_lt_is_Some_2 (features t) (S i)) as [m Hm].
    { apply lookup_lt_Some in Hb. lia. }
    pose proof (laid_out_step _ _ _ _ Hpos Hlaid Ha Hm).
    assert (offset m <= offset b)%N.
    { apply (laid_out_monotone _ Hpos Hlaid (j - S i) (S i)); [done|].
      by replace (S i + (j - S i))%nat with j by lia. }
    lia. }
  split; [exact Hslots|]. split.
  - intros i a Ha. unfold GetFeatureValueBufferSize.
    destruct (last (features t)) as [back|] eqn:Hback.
    + rewrite last_lookup in Hback.
      pose proof (lookup_lt_Some _ _ _ Ha) as Hi.
      destruct (decide (i = pred (length (features t)))) as [->|Hne].
      * assert (a = back) as -> by congruence. lia.
      * pose proof (Hslots i (pred (length (features t))) a back ltac:(lia) Ha Hback).
        lia.
    + apply last_None in Hback. by rewrite Hback in Ha.
  - unfold GetFeatureCount, GetFeatureBytes.
    pose proof (Nat.div_mod_eq (length (features t)) 8) as Hdm.
    pose proof (Nat.mod_upper_bound (length (features t)) 8 ltac:(lia)) as Hm.
    destruct (_ =? 0)%nat eqn:Hz.
    + apply Nat.eqb_eq in Hz. lia.
    + apply Nat.eqb_neq in Hz. lia.
Qed.

Lemma Read_featureBits_short (n i : nat) (b : FeatureValueBuffer) (l : list Z) :
  (length l < n)%nat ->
  exists b' s',
    Read_featureBits n i b {| input := l; scanner_hasError := false |} =
      Return (b', s') /\
    scanner_hasError s' = true /\ type b' = type b.
Proof.
  revert i b l. induction n as [|n IH]; intros i b l Hl; [lia|].
  simpl. unfold FileScanner_Read_uint8, FileScanner_get. simpl.
  destruct l as [|v l]; simpl.
  - by eexists _, _.
  - destruct (IH (S i)
                (FeatureValueBuffer_set_featureBits (<[i:=uint8 v]> (featureBits b)) b)
                l) as (b' & s' & Hread & Herr & Htype); [simpl in Hl; lia|].
    exists b', s'. by rewrite <- Hread.
Qed.

(** X15.  Failures of the streams: [Write] on a writer that is in its
    error state returns [false] and writes nothing.  For a type with at
    least one feature, [Read] from a scanner in its error state returns
    [false] and leaves the scanner as it is; [Read] from an input that
    ends inside the presence bits returns [false] and leaves the scanner
    in its error state.  For a type without features both loops of [Read]
    are empty: it returns [true] and leaves buffer and scanner as they
    are, also when the scanner is in its error state. *)
Theorem X15_buffer_stream_failures (b : FeatureValueBuffer) :
  length (featureBits b) = GetFeatureBytes (type b) ->
  (forall w, writer_hasError w = true ->
     FeatureValueBuffer_Write b w = Some (false, w)) /\
  (forall s, scanner_hasError s = true -> features (type b) <> [] ->
     exists b',
       FeatureValueBuffer_Read b s = Some (false, b', s)) /\
  (forall s, features (type b) = [] ->
     FeatureValueBuffer_Read b s = Some (true, b, s)) /\
  (forall l, (length l < GetFeatureBytes (type b))%nat ->
     exists b' s',
       FeatureValueBuffer_Read b {| input := l; scanner_hasError := false |} =
         Some (false, b', s') /\
       scanner_hasError s' = true /\ type b' = type b).
Proof.
  intros Hlen.
  assert (features (type b) <> [] -> (0 < GetFeatureBytes (type b))%nat) as Hbytes.
  { intros Hne. unfold GetFeatureBytes.
    destruct (features (type b)) as [|f fs]; [done|].
    pose proof (Nat.div_mod_eq (length (f :: fs)) 8).
    destruct (_ =? 0)%nat eqn:Hz; [|lia]. apply Nat.eqb_eq in Hz. simpl in *. lia. }
  split; [|split; [|split]].
  - intros w Hw. unfold FeatureValueBuffer_Write.
    destruct (features (type b)) as [|f fs] eqn:Hfs.
    + assert (GetFeatureBytes (type b) = 0%nat) as ->.
      { unfold GetFeatureBytes. by rewrite Hfs. }
      simpl. unfold FileWriter_HasError. by rewrite Hw.
    + destruct (GetFeatureBytes (type b)) as [|n] eqn:Hn.
      { specialize (Hbytes ltac:(done)). lia. }
      simpl. destruct (featureBits b) as [|v bits]; [done|]. simpl.
      unfold FileWriter_Write_uint8, FileWriter_put. by rewrite Hw.
  - intros s Hs Hne. unfold FeatureValueBuffer_Read.
    destruct (GetFeatureBytes (type b)) as [|n] eqn:Hn.
    { specialize (Hbytes Hne). lia. }
    simpl. unfold FileScanner_Read_uint8, FileScanner_get. rewrite Hs.
    by eexists.
  - intros s Hnone. unfold FeatureValueBuffer_Read.
    assert (GetFeatureBytes (type b) = 0%nat) as ->.
    { unfold GetFeatureBytes. by rewrite Hnone. }
    cbn [Read_featureBits]. by rewrite Hnone.
  - intros l Hl. unfold FeatureValueBuffer_Read.
    destruct (Read_featureBits_short _ 0 b l Hl) as (b' & s' & -> & Herr & Htype).
    by exists b', s'.
Qed.

Lemma not_access_and_never (access bit : Z) :
  Z.land 1 bit = 0%Z -> not_access_and access bit = false.
Proof.
  intros Hbit. unfold not_access_and.
  destruct (access =? 0)%Z; [by rewrite Hbit|done].
Qed.

(** X16.  The tags for one mode of travel in [AccessFeature::Parse],
    when neither oneway flag is the lowest bit of the mask: an object
    with none of the tags of the feature keeps the access the type
    grants; [access:foot] with a value other than [no] grants both foot
    directions; but [access:bicycle], [access:motor_vehicle] and
    [access:motorcar] take both directions of their mode away whatever
    the value is, [yes] as well as [no]. *)
Theorem X16_AccessFeature_modes (t : AccessFeatureTags) (type : TypeInfo) :
  NoDup (AccessFeatureTags_list t) ->
  Z.land 1 onewayForward = 0%Z -> Z.land 1 onewayBackward = 0%Z ->
  (forall tags,
     (forall tag, tag ∈ AccessFeatureTags_list t -> tags !! tag = None) ->
     AccessFeature_access t type tags = AccessFeature_defaultAccess type) /\
  (forall v,
     AccessFeature_access t type {[ tagAccessFoot t := v ]} =
     let access := clear_mask (AccessFeature_defaultAccess type)
                     (Z.lor footForward footBackward) in
     if negb (string_eq v "no")
     then or_mask access (Z.lor footForward footBackward) else access) /\
  (forall v,
     AccessFeature_access t type {[ tagAccessBicycle t := v ]} =
     clear_mask (AccessFeature_defaultAccess type)
       (Z.lor bicycleForward bicycleBackward)) /\
  (forall v,
     AccessFeature_access t type {[ tagAccessMotorVehicle t := v ]} =
     clear_mask (AccessFeature_defaultAccess type) (Z.lor carForward carBackward)) /\
  (forall v,
     AccessFeature_access t type {[ tagAccessMotorcar t := v ]} =
     clear_mask (AccessFeature_defaultAccess type) (Z.lor carForward carBackward)).
Proof.
  intros Hnd Hof Hob.
  assert (forall v forward backward access,
            AccessFeature_mode v forward backward access =
            clear_mask access (Z.lor forward backward)) as Hmode.
  { intros v forward backward access. unfold AccessFeature_mode.
    rewrite !not_access_and_never by done. by destruct (negb _). }
  split.
  { intros tags Hnone. unfold AccessFeature_access.
    rewrite !Hnone; [done|unfold AccessFeatureTags_list..];
      repeat first [apply list_elem_of_here|apply list_elem_of_further]. }
  unfold AccessFeatureTags_list in Hnd. nodup_inv Hnd.
  unfold AccessFeature_access.
  repeat apply conj; intros v;
    rewrite lookup_singleton_eq, !lookup_singleton_ne by done; simpl;
    by rewrite ?Hmode.
Qed.

(** X17.  Type ids: when every registered type has an id below the next
    free one, this also holds after [AddTypeInfo] of a type with a new
    name, as long as the id space is not used up, and [GetMaxTypeId] is
    then an upper bound of the ids of all registered types. *)
Theorem X17_AddTypeInfo_ids (typeInfo typeInfo' : TypeInfo) (c c' : TypeConfig) :
  (forall t, t ∈ types c -> (id t < nextTypeId c)%N) ->
  (nextTypeId c + 1 < 2 ^ TypeId_bits)%N ->
  (id typeInfo + 1 < 2 ^ TypeId_bits)%N ->
  AddTypeInfo typeInfo c = Some (typeInfo', c') ->
  (nextTypeId c <= nextTypeId c')%N /\
  (forall t, t ∈ types c' -> (id t < nextTypeId c')%N) /\
  (forall t, t ∈ types c' -> (id t <= GetMaxTypeId c')%N).
Proof.
  intros Hbelow Hroom Hid Hadd.
  assert ((nextTypeId c <= nextTypeId c')%N /\
          forall t, t ∈ types c' -> (id t < nextTypeId c')%N) as [Hnext Hall].
  { revert Hadd. unfold AddTypeInfo.
    destruct (nameToTypeMap c !! name typeInfo); [by intros [= <- <-]|].
    destruct (if (canBeArea typeInfo || canBeNode typeInfo) &&
                 negb (HasFeature "Address" typeInfo)
              then AddFeature (GetFeature "Address" c) typeInfo
              else Some typeInfo) as [t1|] eqn:Ht1; [|done].
    assert (id t1 = id typeInfo) as Hid1.
    { destruct (_ && _); [|by injection Ht1 as <-].
      by destruct (AddFeature_flags _ _ _ Ht1) as (? & _). }
    simpl. unfold to_TypeId.
    destruct (id t1 =? 0)%N eqn:Hzero; intros [= <- <-]; simpl.
    - rewrite N.mod_small by lia. split; [lia|].
      intros t [Ht|Ht%list_elem_of_singleton]%elem_of_app.
      + specialize (Hbelow t Ht). lia.
      + subst t. simpl. lia.
    - rewrite N.mod_small by lia. split; [lia|].
      intros t [Ht|Ht%list_elem_of_singleton]%elem_of_app.
      + specialize (Hbelow t Ht). lia.
      + subst t. apply N.eqb_neq in Hzero. lia. }
  split; [done|]. split; [done|].
  intros t Ht. specialize (Hall t Ht). unfold GetMaxTypeId.
  destruct (nextTypeId c' =? 0)%N eqn:Hz.
  - apply N.eqb_eq in Hz. lia.
  - lia.
Qed.

End LayoutFacts.

(** X1 on the sample: a relation tagged as a multipolygon gets the area
    type although the relation type matches as well; tagged otherwise
    it gets the relation type. *)
Lemma X1_witness :
  GetRelationTypeId 32%N (sample_relation_tags "multipolygon") sample_schema =
    (true, 8%N) /\
  GetRelationTypeId 32%N (sample_relation_tags "boundary") sample_schema =
    (true, 9%N).
Proof.
  split.
  - destruct (X1_GetRelationTypeId_first_match 32%N
                (sample_relation_tags "multipolygon") sample_schema)
      as (_ & Hmp & _).
    rewrite Hmp.
    + vm_compute. reflexivity.
    + apply map_not_empty. vm_compute. reflexivity.
    + vm_compute. reflexivity.
  - destruct (X1_GetRelationTypeId_first_match 32%N
                (sample_relation_tags "boundary") sample_schema)
      as (_ & _ & Hrel & _).
    rewrite Hrel.
    + vm_compute. reflexivity.
    + apply map_not_empty. vm_compute. reflexivity.
    + vm_compute. reflexivity.
Defined.

(** X2 on the sample: the new way type gets the id 7, which the lookup
    for ways gives and the lookup for nodes does not. *)
Lemma X2_witness :
  id sample_highway_added.1 = 7%N /\
  GetWayTypeId "highway" sample_highway_added.2 = 7%N /\
  GetNodeTypeId "highway" sample_highway_added.2 = typeIgnore.
Proof.
  destruct (X2_AddTypeInfo_lookup sample_highway sample_highway_added.1
              sample_fresh sample_highway_added.2)
    as (Hid & _ & _ & _ & _ & Hnode & Hway & _).
  - vm_compute. reflexivity.
  - vm_compute. reflexivity.
  - assert (id sample_highway_added.1 = 7%N) as Hseven.
    { rewrite Hid. vm_compute. reflexivity. }
    split; [exact Hseven|].
    change "highway" with (name sample_highway).
    split; [rewrite Hway, Hseven; reflexivity|rewrite Hnode; reflexivity].
Defined.

(** X5 on the sample road type: the width is allocated and freed. *)
Lemma X5_witness :
  exists b1,
    FeatureValueBuffer_AllocateValue 1 (FeatureValueBuffer_SetType sample_road) =
      Some b1 /\
    FeatureValueBuffer_HasValue 1 b1 = true /\
    FeatureValueBuffer_FreeValue 1 b1 = Some (FeatureValueBuffer_SetType sample_road).
Proof.
  destruct (X5_AllocateValue_FreeValue 1
              {| feature := WidthFeature 6%N; offset := 16%N |}
              (FeatureValueBuffer_SetType sample_road))
    as (b1 & Halloc & Hbit & _ & _ & _ & _ & Hfree).
  - vm_compute. reflexivity.
  - vm_compute. reflexivity.
  - apply (bool_decide_unpack _). vm_compute. exact I.
  - vm_compute. reflexivity.
  - vm_compute. reflexivity.
  - exists b1. split; [exact Halloc|]. split; [exact Hbit|exact Hfree].
Defined.

(** X6 on the sample type with a name, a bridge marker and a width: the
    bridge is marked and the width stored, at the offset they share. *)
Lemma X6_witness :
  exists b',
    FeatureValueBuffer_Parse parse_int8 sample_names "Way 1"
      {[ 3%N := "yes"; 6%N := "4" ]} []
      (FeatureValueBuffer_SetType sample_bridge_type) = Some ([], b') /\
    FeatureValueBuffer_HasValue 0 b' = false /\
    FeatureValueBuffer_HasValue 1 b' = true /\
    FeatureValueBuffer_GetValue 2 b' = Some (WidthFeatureValue 4).
Proof.
  destruct (X6_FeatureValueBuffer_Parse parse_int8 sample_names "Way 1"
              {[ 3%N := "yes"; 6%N := "4" ]} [] sample_bridge_type)
    as (b' & Hparse & _ & Heach).
  - vm_compute. reflexivity.
  - vm_compute. reflexivity.
  - vm_compute. reflexivity.
  - exists b'. split.
    { rewrite Hparse. f_equal. }
    destruct (Heach 0%nat {| feature := NameFeature; offset := 0%N |})
      as (a0 & H0 & -> & _); [vm_compute; reflexivity|].
    destruct (Heach 1%nat {| feature := BridgeFeature 3%N; offset := 40%N |})
      as (a1 & H1 & -> & _); [vm_compute; reflexivity|].
    destruct (Heach 2%nat {| feature := WidthFeature 6%N; offset := 40%N |})
      as (a2 & H2 & _ & Hv2); [vm_compute; reflexivity|].
    rewrite Hv2 by (vm_compute; reflexivity).
    assert (forall (r : option (list string * FeatureValueBuffer)) a,
              r = Some a ->
              a = default (@nil string, FeatureValueBuffer_SetType TypeInfo_new) r)
      as Hdef by (by intros r a ->).
    apply Hdef in H0, H1, H2.
    apply (f_equal snd) in H0, H1, H2. simpl in H0, H1, H2. subst a0 a1 a2.
    repeat apply conj; vm_compute; reflexivity.
Defined.

(** X7 on the sample: of the names [Wien], priority 0, and [Vienna],
    priority 5, the second one is stored. *)
Lemma X7_witness :
  exists b',
    NameFeature_Parse sample_names 0 {[ 1%N := "Wien"; 34%N := "Vienna" ]}
      (FeatureValueBuffer_SetType sample_bridge_type) = Some b' /\
    FeatureValueBuffer_GetValue 0 b' = Some (NameFeatureValue "Vienna").
Proof.
  destruct (X7_NameFeature_Parse_priority sample_names 0
              {| feature := NameFeature; offset := 0%N |}
              {[ 1%N := "Wien"; 34%N := "Vienna" ]} sample_bridge_type)
    as (b' & Hparse & _ & Hbest).
  - vm_compute. reflexivity.
  - reflexivity.
  - vm_compute. reflexivity.
  - exists b'. split; [exact Hparse|].
    assert (forall tag v,
              ({[ 1%N := "Wien"; 34%N := "Vienna" ]} : gmap N string) !! tag = Some v ->
              (tag = 1%N /\ v = "Wien") \/ (tag = 34%N /\ v = "Vienna")) as Hcases.
    { intros tag v Htag. apply lookup_insert_Some in Htag as [[<- <-]|[_ Htag]].
      - left. split; reflexivity.
      - apply lookup_singleton_Some in Htag as [<- <-]. right. split; reflexivity. }
    destruct Hbest as [_ Hbest].
    { intros tag v p [[-> ->]|[-> ->]]%Hcases _; done. }
    destruct (Hbest 34%N "Vienna" 5%N) as (tag & v & p & Htag & Hp & _ & Hvalue & Hmax);
      [vm_compute; reflexivity..|].
    rewrite Hvalue.
    destruct (Hcases _ _ Htag) as [[-> ->]|[-> ->]]; [|done].
    exfalso. destruct (Hmax 34%N "Vienna" 5%N) as [Hle _];
      [vm_compute; reflexivity..|].
    revert Hp. vm_compute. intros [= <-]. revert Hle. vm_compute. intros H. by apply H.
Defined.

(** X8 on the sample: 50 miles per hour are stored as 80. *)
Lemma X8_witness :
  exists b',
    MaxSpeedFeature_Parse 11%N "Way 1" 0 {[ 11%N := "50 mph" ]} []
      (FeatureValueBuffer_SetType sample_track_type) = Some ([], b') /\
    FeatureValueBuffer_GetValue 0 b' = Some (MaxSpeedFeatureValue 80).
Proof.
  destruct (X8_MaxSpeedFeature_Parse 11%N "Way 1" 0
              {| feature := MaxSpeedFeature 11%N; offset := 0%N |}
              {[ 11%N := "50 mph" ]} [] sample_track_type)
    as (w & b' & Hparse & _ & Hvalue).
  - vm_compute. reflexivity.
  - reflexivity.
  - vm_compute. reflexivity.
  - destruct (Hvalue "50 mph") as (_ & _ & Hnumber); [vm_compute; reflexivity|].
    specialize (Hnumber ltac:(done) ltac:(done) ltac:(done)).
    change (StringToNumber_size_t (MaxSpeed_normalize "50 mph").1)
      with (Some 50%N) in Hnumber.
    change ((MaxSpeed_normalize "50 mph").2) with true in Hnumber.
    destruct Hnumber as (-> & _ & Hstored).
    exists b'. split; [exact Hparse|exact Hstored].
Defined.

(** X9 on the sample: the track type [grade3] decides although the
    surface has the grade 1. *)
Lemma X9_witness :
  exists b',
    GradeFeature_Parse sample_names 12%N 13%N "Way 1" 1
      {[ 12%N := "asphalt"; 13%N := "grade3" ]} []
      (FeatureValueBuffer_SetType sample_track_type) = Some ([], b') /\
    FeatureValueBuffer_GetValue 1 b' = Some (GradeFeatureValue 3).
Proof.
  destruct (X9_GradeFeature_Parse sample_names 12%N 13%N "Way 1" 1
              {| feature := GradeFeature 12%N 13%N; offset := 16%N |}
              {[ 12%N := "asphalt"; 13%N := "grade3" ]} [] sample_track_type)
    as (_ & w & b' & Hparse & Hvalue).
  - vm_compute. reflexivity.
  - reflexivity.
  - vm_compute. reflexivity.
  - change (({[ 12%N := "asphalt"; 13%N := "grade3" ]} : gmap N string) !! 13%N
              ≫= Grade_of_tracktype) with (Some 3%Z) in Hvalue.
    destruct Hvalue as (_ & -> & _ & Hstored).
    exists b'. split; [exact Hparse|exact Hstored].
Defined.

(** X10 on the fresh configuration: registering the feature [Ref] anew
    leaves a feature of that name and does not touch the feature
    [Name]. *)
Lemma X10_witness :
  (exists f',
     GetFeature "Ref" (RegisterFeature (RefFeature 0%N) sample_fresh) = Some f' /\
     Feature_GetName f' = "Ref") /\
  GetFeature "Name" (RegisterFeature (RefFeature 0%N) sample_fresh) =
    GetFeature "Name" sample_fresh.
Proof.
  destruct (X10_RegisterFeature_GetFeature (RefFeature 0%N) sample_fresh)
    as ((f' & Hget & Hname & _) & Hother & _).
  split.
  - exists f'. split; [exact Hget|exact Hname].
  - apply Hother. simpl. discriminate.
Defined.

(** X11 on the fresh configuration: [name:en] becomes the tag 34 and a
    name tag of priority 5. *)
Lemma X11_witness :
  IsNameTag 34%N (RegisterNameTag "name:en" 5%N sample_fresh).2 = Some 5%N.
Proof.
  destruct (X11_RegisterNameTag_IsNameTag "name:en" 5%N sample_fresh)
    as (_ & _ & Hprio & _).
  - vm_compute. reflexivity.
  - vm_compute. reflexivity.
  - change ((RegisterNameTag "name:en" 5%N sample_fresh).1) with 34%N in Hprio.
    rewrite Hprio. vm_compute. reflexivity.
Defined.

(** X12 on the fresh configuration: the external tag [name] is resolved,
    the internal tag [area] is not. *)
Lemma X12_witness :
  exists l,
    ResolveTags {[ 1%N := "Wien"; 30%N := "yes" ]} sample_fresh = Some l /\
    (1%N, "Wien") ∈ l /\ (30%N, "yes") ∉ l.
Proof.
  destruct (X12_ResolveTags {[ 1%N := "Wien"; 30%N := "yes" ]} sample_fresh)
    as [Hresolve _].
  destruct Hresolve as (l & Hl & _ & _ & Hin).
  - intros k v Hk. apply lookup_insert_Some in Hk as [[<- _]|[_ Hk]].
    + vm_compute. lia.
    + apply lookup_singleton_Some in Hk as [<- _]. vm_compute. lia.
  - exists l. split; [exact Hl|]. split.
    + apply Hin. split; [vm_compute; reflexivity|].
      exists {| TagInfo_id := 1%N; TagInfo_name := "name";
                TagInfo_internalOnly := false |}.
      split; [vm_compute; reflexivity|reflexivity].
    + intros [_ (info & Hinfo & Hext)]%Hin.
      revert Hinfo. vm_compute. intros [= <-]. discriminate Hext.
Defined.

(** X13 on two conditions in either order. *)
Lemma X13_witness :
  Evaluate (TagBoolCondition boolAnd [TagExistsCondition 2%N; TagExistsCondition 1%N])
    {[ 1%N := "Wien" ]} =
  Evaluate (TagBoolCondition boolAnd [TagExistsCondition 1%N; TagExistsCondition 2%N])
    {[ 1%N := "Wien" ]}.
Proof.
  destruct (X13_Evaluate_connectives
              [TagExistsCondition 1%N; TagExistsCondition 2%N]
              (TagExistsCondition 1%N) {[ 1%N := "Wien" ]})
    as (_ & _ & Hperm & _).
  apply Hperm. apply Permutation_swap.
Defined.

(** X14 on the sample type with a name, a bridge marker and a width:
    the three features have their bits in one byte, and the name ends
    where the marker and the width begin. *)
Lemma X14_witness :
  (GetFeatureCount sample_bridge_type <= 8 * GetFeatureBytes sample_bridge_type
   < GetFeatureCount sample_bridge_type + 8)%nat /\
  (0 + Feature_GetValueSize NameFeature <= 40)%N.
Proof.
  destruct (X14_feature_layout sample_bridge_type) as (Hslots & _ & Hbytes).
  - vm_compute. reflexivity.
  - vm_compute. reflexivity.
  - split; [exact Hbytes|].
    apply (Hslots 0%nat 1%nat {| feature := NameFeature; offset := 0%N |}
             {| feature := BridgeFeature 3%N; offset := 40%N |}).
    + lia.
    + vm_compute. reflexivity.
    + vm_compute. reflexivity.
Defined.

(** X15 on the sample buffer and on a buffer of a type without
    features: nothing is written to a writer in its error state, nothing
    is read from a scanner in its error state or from an empty input,
    and for the type without features [Read] returns [true] on a scanner
    in its error state. *)
Lemma X15_witness :
  FeatureValueBuffer_Write sample_buffer {| written := [1]%Z; writer_hasError := true |} =
    Some (false, {| written := [1]%Z; writer_hasError := true |}) /\
  (exists b',
     FeatureValueBuffer_Read sample_buffer
       {| input := [3; 87]%Z; scanner_hasError := true |} =
     Some (false, b', {| input := [3; 87]%Z; scanner_hasError := true |})) /\
  (exists b' s',
     FeatureValueBuffer_Read sample_buffer {| input := []; scanner_hasError := false |} =
       Some (false, b', s') /\
     scanner_hasError s' = true /\ type b' = type sample_buffer) /\
  FeatureValueBuffer_Read (FeatureValueBuffer_SetType TypeInfo_new)
    {| input := [3]%Z; scanner_hasError := true |} =
  Some (true, FeatureValueBuffer_SetType TypeInfo_new,
        {| input := [3]%Z; scanner_hasError := true |}).
Proof.
  destruct (X15_buffer_stream_failures sample_buffer)
    as (Hwrite & Hread & _ & Hshort); [vm_compute; reflexivity|].
  destruct (X15_buffer_stream_failures (FeatureValueBuffer_SetType TypeInfo_new))
    as (_ & _ & Hnone & _); [vm_compute; reflexivity|].
  split; [apply Hwrite; reflexivity|].
  split.
  { apply Hread; [reflexivity|].
    intros H. apply (f_equal length) in H. vm_compute in H. discriminate H. }
  split.
  { apply Hshort. vm_compute. lia. }
  apply Hnone. reflexivity.
Defined.

(** X16 on the sample road type: [access:bicycle=yes] leaves the mask 51,
    in which both bicycle bits (4 and 8) of the default 63 are clear. *)
Lemma X16_witness :
  AccessFeature_access sample_access_tags sample_road
    {[ tagAccessBicycle sample_access_tags := "yes" ]} = 51%Z.
Proof.
  destruct (X16_AccessFeature_modes sample_access_tags sample_road)
    as (_ & _ & Hbicycle & _).
  - apply (bool_decide_unpack _). vm_compute. exact I.
  - reflexivity.
  - reflexivity.
  - rewrite Hbicycle. vm_compute. reflexivity.
Defined.

(** X17 on the fresh configuration, to which the sample way type is
    added: all ids are at most the largest id, 7. *)
Lemma X17_witness :
  GetMaxTypeId sample_highway_added.2 = 7%N /\
  forall t, t ∈ types sample_highway_added.2 -> (id t <= 7)%N.
Proof.
  destruct (X17_AddTypeInfo_ids sample_highway sample_highway_added.1
              sample_fresh sample_highway_added.2) as (_ & _ & Hmax).
  - apply Forall_forall. apply (bool_decide_unpack _). vm_compute. exact I.
  - vm_compute. reflexivity.
  - vm_compute. reflexivity.
  - vm_compute. reflexivity.
  - assert (GetMaxTypeId sample_highway_added.2 = 7%N) as Hseven
      by (vm_compute; reflexivity).
    split; [exact Hseven|]. intros t Ht. rewrite <- Hseven. apply Hmax, Ht.
Defined.

Section StoreFacts.
Context `{D : Declarations}.

Lemma put_ok (bytes : list Z) (w : FileWriter) :
  writer_hasError w = false ->
  (FileWriter_put bytes w).2 =
    {| written := written w ++ bytes; writer_hasError := false |}.
Proof. intros H. by rewrite FileWriter_put_ok. Qed.

Lemma Store_tags_written (ts : list TagInfo) (w : FileWriter) :
  writer_hasError w = false ->
  Store_tags ts w =
  {| written := written w ++ concat (tag_bytes <$> ts); writer_hasError := false |}.
Proof.
  revert w. induction ts as [|tag ts IH]; intros w Hw.
  - simpl. rewrite app_nil_r. by destruct w; simpl in *; subst.
  - unfold Store_tags in *. cbn [foldl].
    unfold FileWriter_WriteNumber, FileWriter_Write_string, FileWriter_Write_bool.
    rewrite (put_ok _ w Hw), !put_ok, IH by done. cbn [written fmap list_fmap concat].
    unfold tag_bytes. by rewrite <- !app_assoc.
Qed.

Lemma Store_nameTags_written isNameTag (ts : list TagInfo) (w : FileWriter) :
  writer_hasError w = false ->
  Store_nameTags isNameTag ts w =
  {| written := written w ++ concat (nameTag_bytes isNameTag <$> ts);
     writer_hasError := false |}.
Proof.
  revert w. induction ts as [|tag ts IH]; intros w Hw.
  - simpl. rewrite app_nil_r. by destruct w; simpl in *; subst.
  - unfold Store_nameTags in *. cbn [foldl fmap list_fmap concat].
    unfold nameTag_bytes at 1.
    destruct (isNameTag (TagInfo_id tag)) as [p|].
    + unfold FileWriter_WriteNumber, FileWriter_Write_string.
      rewrite (put_ok _ w Hw), !put_ok, IH by done. cbn [written].
      by rewrite <- !app_assoc.
    + by rewrite IH.
Qed.

Lemma Store_type_written (type : TypeInfo) (w : FileWriter) :
  writer_hasError w = false ->
  Store_type type w =
  {| written := written w ++ type_bytes type; writer_hasError := false |}.
Proof.
  intros Hw. unfold Store_type, type_bytes.
  unfold FileWriter_WriteNumber, FileWriter_Write_string.
  rewrite (put_ok _ w Hw), put_ok by done.
  assert (forall flags w0,
            writer_hasError w0 = false ->
            foldl (fun writer flag => (FileWriter_Write_bool flag writer).2) w0 flags =
            {| written := written w0 ++
                          ((fun flag : bool => if flag then 1 else 0)%Z <$> flags);
               writer_hasError := false |}) as Hflags.
  { induction flags as [|flag flags IH]; intros w0 Hw0.
    - simpl. rewrite app_nil_r. by destruct w0; simpl in *; subst.
    - cbn [foldl]. unfold FileWriter_Write_bool at 2.
      rewrite put_ok, IH by done. cbn [written fmap list_fmap].
      by rewrite <- app_assoc. }
  rewrite Hflags, put_ok by done.
  assert (forall fs w0,
            writer_hasError w0 = false ->
            foldl (fun writer fi =>
                     (FileWriter_put (string_bytes (Feature_GetName (feature fi)))
                        writer).2) w0 fs =
            {| written :=
                 written w0 ++
                 concat ((fun fi => string_bytes (Feature_GetName (feature fi))) <$> fs);
               writer_hasError := false |}) as Hfeatures.
  { induction fs as [|fi fs IH]; intros w0 Hw0.
    - simpl. rewrite app_nil_r. by destruct w0; simpl in *; subst.
    - cbn [foldl]. rewrite put_ok, IH by done. cbn [written fmap list_fmap concat].
      by rewrite <- app_assoc. }
  rewrite Hfeatures by done. cbn [written]. by rewrite <- !app_assoc.
Qed.

Lemma Store_types_written (ts : list TypeInfo) (w : FileWriter) :
  writer_hasError w = false ->
  foldl (fun writer type => Store_type type writer) w ts =
  {| written := written w ++ concat (type_bytes <$> ts); writer_hasError := false |}.
Proof.
  revert w. induction ts as [|t ts IH]; intros w Hw.
  - simpl. rewrite app_nil_r. by destruct w; simpl in *; subst.
  - cbn [foldl]. rewrite Store_type_written, IH by done.
    cbn [written fmap list_fmap concat]. by rewrite <- app_assoc.
Qed.

Lemma Store_counts_spec (c : TypeConfig) :
  (N.of_nat (length (tags c)) < 2 ^ 32)%N ->
  Store_counts c =
  (N.of_nat (nameTag_count (fun tag => IsNameTag tag c) (tags c)),
   N.of_nat (nameTag_count (fun tag => IsNameAltTag tag c) (tags c))).
Proof.
  unfold Store_counts. generalize (tags c). intros ts Hlen.
  induction ts as [|tag ts IH] using rev_ind; [done|].
  rewrite length_app in Hlen. simpl in Hlen.
  rewrite foldl_app. cbn [foldl]. rewrite IH by lia. cbn [fst snd].
  unfold nameTag_count. rewrite !filter_app, !length_app, !filter_cons, !filter_nil.
  pose proof (length_filter (fun tag => is_Some (IsNameTag (TagInfo_id tag) c)) ts).
  pose proof (length_filter (fun tag => is_Some (IsNameAltTag (TagInfo_id tag) c)) ts).
  unfold to_uint32. change (2 ^ 32)%N with 4294967296%N in *.
  destruct (IsNameTag _ c) as [p|], (IsNameAltTag _ c) as [q|];
    repeat case_decide;
    try (by exfalso; match goal with
                     | H : is_Some None |- _ => destruct H as [? [=]]
                     | H : ~ is_Some (Some _) |- _ => apply H; eexists
                     end);
    cbn [length]; (rewrite ?N.mod_small by lia); f_equal; lia.
Qed.

(** The bytes [StoreToDataFile] writes. *)
Lemma StoreToDataFile_written (c : TypeConfig) :
  (N.of_nat (length (tags c)) < 2 ^ 32)%N ->
  StoreToDataFile true c = (true, file_bytes c).
Proof.
  intros Hlen. unfold StoreToDataFile. cbn [negb].
  rewrite (Store_counts_spec c Hlen).
  unfold FileWriter_WriteNumber.
  repeat match goal with
  | |- context [(FileWriter_put ?b {| written := ?x; writer_hasError := false |}).2] =>
      rewrite (put_ok b {| written := x; writer_hasError := false |}) by done
  | |- context [Store_tags ?ts {| written := ?x; writer_hasError := false |}] =>
      rewrite (Store_tags_written ts {| written := x; writer_hasError := false |})
        by done
  | |- context [Store_nameTags ?f ?ts {| written := ?x; writer_hasError := false |}] =>
      rewrite (Store_nameTags_written f ts {| written := x; writer_hasError := false |})
        by done
  | |- context [foldl ?f {| written := ?x; writer_hasError := false |} (types c)] =>
      rewrite (Store_types_written (types c)
                 {| written := x; writer_hasError := false |}) by done
  end.
  cbn [written writer_hasError]. unfold file_bytes, FileWriter_HasError, FileWriter_Close.
  cbn [writer_hasError negb andb app].
  assert (forall f, to_uint32 (N.of_nat (nameTag_count f (tags c))) =
                    N.of_nat (nameTag_count f (tags c))) as Hcount.
  { intros f. unfold to_uint32, nameTag_count. apply N.mod_small.
    pose proof (length_filter (fun tag => is_Some (f (TagInfo_id tag))) (tags c)).
    lia. }
  by rewrite !Hcount, <- !app_assoc.
Qed.

End StoreFacts.

Section LoadFacts.
Context `{D : Declarations}.

Lemma ReadNumber_bytes (n : N) (rest : list Z) :
  FileScanner_ReadNumber {| input := number_bytes n ++ rest; scanner_hasError := false |} =
  (Some n, {| input := rest; scanner_hasError := false |}).
Proof. apply FileScanner_get_ok, decode_number_bytes. Qed.

Lemma Read_string_bytes (s : string) (rest : list Z) :
  FileScanner_Read_string {| input := string_bytes s ++ rest; scanner_hasError := false |} =
  (Some s, {| input := rest; scanner_hasError := false |}).
Proof. apply FileScanner_get_ok, decode_string_bytes. Qed.

Lemma Read_bool_byte (v : bool) (rest : list Z) :
  FileScanner_Read_bool
    {| input := (if v then 1 else 0)%Z :: rest; scanner_hasError := false |} =
  (Some v, {| input := rest; scanner_hasError := false |}).
Proof. apply FileScanner_get_ok. by destruct v. Qed.

Lemma Read_bools_bytes (flags : list bool) (rest : list Z) :
  Read_bools (length flags)
    {| input := ((fun flag : bool => if flag then 1 else 0)%Z <$> flags) ++ rest;
       scanner_hasError := false |} =
  (Some flags, {| input := rest; scanner_hasError := false |}).
Proof.
  induction flags as [|flag flags IH]; [done|].
  cbn [length Read_bools fmap list_fmap app].
  by rewrite Read_bool_byte, IH.
Qed.

Lemma TypeConfig_set_tags_same (c : TypeConfig) : TypeConfig_set_tags (tags c) c = c.
Proof. by destruct c. Qed.

(** Registering a tag again, as the tag it is, changes nothing. *)
Lemma Register_known (tag : TagInfo) (c : TypeConfig) :
  stringToTagMap c !! TagInfo_name tag = Some (TagInfo_id tag) ->
  (TagInfo_internalOnly tag = false -> tags c !! N.to_nat (TagInfo_id tag) = Some tag) ->
  (if TagInfo_internalOnly tag then RegisterTagForInternalUse (TagInfo_name tag) c
   else RegisterTagForExternalUse (TagInfo_name tag) c) = (TagInfo_id tag, c).
Proof.
  intros Hmap Hpos. unfold RegisterTagForInternalUse, RegisterTagForExternalUse.
  rewrite Hmap. destruct (TagInfo_internalOnly tag) eqn:Hint; [done|].
  f_equal.
  assert (alter TagInfo_SetToExternal (N.to_nat (TagInfo_id tag)) (tags c) = tags c)
    as ->; [|apply TypeConfig_set_tags_same].
  apply list_eq. intros i. destruct (decide (i = N.to_nat (TagInfo_id tag))) as [->|Hne].
  - specialize (Hpos eq_refl). rewrite list_lookup_alter, Hpos. simpl.
    rewrite decide_True by done. f_equal.
    unfold TagInfo_SetToExternal. destruct tag; simpl in *. by subst.
  - rewrite list_lookup_alter. destruct (tags c !! i); simpl; by rewrite decide_False.
Qed.

Lemma registry_tag_known (c : TypeConfig) (tag : TagInfo) :
  TagRegistry_inv c -> tag ∈ tags c -> tag_known c tag.
Proof.
  intros (_ & Hlen & Htags & _) [i Hi]%list_elem_of_lookup.
  destruct (Htags i tag Hi) as [Hid Hmap].
  pose proof (lookup_lt_Some _ _ _ Hi).
  unfold tag_known. rewrite Hid, Nat2N.id. split; [lia|done].
Qed.

Lemma Load_tags_known (ts : list TagInfo) (garbage : TagId) (c : TypeConfig)
    (rest : list Z) :
  Forall (tag_known c) ts ->
  Load_tags (length ts) garbage c
    {| input := concat (tag_bytes <$> ts) ++ rest; scanner_hasError := false |} =
  Continue (c, {| input := rest; scanner_hasError := false |}).
Proof.
  induction 1 as [|tag ts (Hid & Hmap & Hpos) _ IH]; [done|].
  cbn [length Load_tags fmap list_fmap concat]. unfold tag_bytes at 1.
  rewrite <- !app_assoc, ReadNumber_bytes, Read_string_bytes.
  cbn [app]. rewrite Read_bool_byte.
  rewrite Register_known by done.
  unfold to_TagId. rewrite N.mod_small by done. by rewrite N.eqb_refl.
Qed.

Lemma TypeConfig_set_nameTagIdToPrioMap_same (c : TypeConfig) :
  TypeConfig_set_nameTagIdToPrioMap (nameTagIdToPrioMap c) c = c.
Proof. by destruct c. Qed.

Lemma TypeConfig_set_nameAltTagIdToPrioMap_same (c : TypeConfig) :
  TypeConfig_set_nameAltTagIdToPrioMap (nameAltTagIdToPrioMap c) c = c.
Proof. by destruct c. Qed.

Lemma RegisterTagForExternalUse_known (tag : TagInfo) (c : TypeConfig) :
  tag_known c tag -> TagInfo_internalOnly tag = false ->
  RegisterTagForExternalUse (TagInfo_name tag) c = (TagInfo_id tag, c).
Proof.
  intros (_ & Hmap & Hpos) Hext.
  pose proof (Register_known tag c Hmap (fun _ => Hpos)) as H.
  by rewrite Hext in H.
Qed.

Lemma IsNameTag_lookup (tag : TagId) (c : TypeConfig) (p : N) :
  IsNameTag tag c = Some p -> nameTagIdToPrioMap c !! tag = Some p.
Proof. unfold IsNameTag. by case_bool_decide. Qed.

Lemma IsNameAltTag_lookup (tag : TagId) (c : TypeConfig) (p : N) :
  IsNameAltTag tag c = Some p -> nameAltTagIdToPrioMap c !! tag = Some p.
Proof. unfold IsNameAltTag. by case_bool_decide. Qed.

Lemma RegisterNameTag_known (tag : TagInfo) (c : TypeConfig) (p q : N) :
  tag_known c tag -> TagInfo_internalOnly tag = false ->
  IsNameTag (TagInfo_id tag) c = Some p ->
  RegisterNameTag (TagInfo_name tag) q c = (TagInfo_id tag, c).
Proof.
  intros Hk Hext Hp%IsNameTag_lookup. unfold RegisterNameTag.
  rewrite RegisterTagForExternalUse_known by done.
  unfold map_insert_new. rewrite Hp.
  by rewrite TypeConfig_set_nameTagIdToPrioMap_same.
Qed.

Lemma RegisterNameAltTag_known (tag : TagInfo) (c : TypeConfig) (p q : N) :
  tag_known c tag -> TagInfo_internalOnly tag = false ->
  IsNameAltTag (TagInfo_id tag) c = Some p ->
  RegisterNameAltTag (TagInfo_name tag) q c = (TagInfo_id tag, c).
Proof.
  intros Hk Hext Hp%IsNameAltTag_lookup. unfold RegisterNameAltTag.
  rewrite RegisterTagForExternalUse_known by done.
  unfold map_insert_new. rewrite Hp.
  by rewrite TypeConfig_set_nameAltTagIdToPrioMap_same.
Qed.

Lemma Load_nameTags_known register (isNameTag : TagId -> option N)
    (ts : list TagInfo) (garbage : TagId) (c : TypeConfig) (rest : list Z) :
  (forall tag p q, tag ∈ ts -> isNameTag (TagInfo_id tag) = Some p ->
     register (TagInfo_name tag) q c = (TagInfo_id tag, c)) ->
  Forall (tag_known c) ts ->
  Load_nameTags register (nameTag_count isNameTag ts) garbage c
    {| input := concat (nameTag_bytes isNameTag <$> ts) ++ rest;
       scanner_hasError := false |} =
  Continue (c, {| input := rest; scanner_hasError := false |}).
Proof.
  intros Hreg Hknown. induction Hknown as [|tag ts (Hid & _) _ IH]; [done|].
  unfold nameTag_count in *. rewrite filter_cons.
  cbn [fmap list_fmap concat]. unfold nameTag_bytes at 1.
  destruct (isNameTag (TagInfo_id tag)) as [p|] eqn:Hp.
  - rewrite decide_True by by eexists.
    cbn [length Load_nameTags]. unfold Load_nameTagEntry.
    rewrite <- !app_assoc, ReadNumber_bytes, Read_string_bytes, ReadNumber_bytes.
    rewrite (Hreg tag p) by (done || by left).
    unfold to_TagId. rewrite N.mod_small by done. rewrite N.eqb_refl. cbn [negb].
    apply IH. intros tag' p' q' Hin. apply Hreg. by right.
  - rewrite decide_False by by intros [? [=]].
    cbn [app]. apply IH. intros tag' p' q' Hin. apply Hreg. by right.
Qed.

Lemma Load_typeInfo_name (i : TypeId) (n : string) (flags : list bool) :
  name (Load_typeInfo i n flags) = n /\ featureSet (Load_typeInfo i n flags) = ∅.
Proof. done. Qed.

Lemma TypeInfo_set_features_same (t : TypeInfo) :
  TypeInfo_set_features (features t) (featureSet t) t = t.
Proof. by destruct t. Qed.

(** The loop over the feature names of a type: every feature is found
    and added, only [features] and [featureSet] change. *)
Lemma Load_features_known (fs : list FeatureInstance) (typeInfo : TypeInfo)
    (c : TypeConfig) (rest : list Z) :
  Forall (fun fi => Feature_registered c fi = true) fs ->
  NoDup (feature_names fs) ->
  (forall n, n ∈ feature_names fs -> n ∉ featureSet typeInfo) ->
  exists fs' fset',
    feature_names fs' = feature_names (features typeInfo) ++ feature_names fs /\
    (forall n, n ∈ fset' <-> n ∈ featureSet typeInfo \/ n ∈ feature_names fs) /\
    Load_features (length fs) typeInfo c
      {| input := concat ((fun fi => string_bytes (Feature_GetName (feature fi))) <$> fs)
                  ++ rest;
         scanner_hasError := false |} =
    Some (Continue (TypeInfo_set_features fs' fset' typeInfo,
                    {| input := rest; scanner_hasError := false |})).
Proof.
  intros Hreg. revert typeInfo.
  induction Hreg as [|fi fs Hfi _ IH]; intros typeInfo Hnodup Hfresh.
  - exists (features typeInfo), (featureSet typeInfo).
    rewrite TypeInfo_set_features_same. unfold feature_names. simpl.
    rewrite app_nil_r. split; [done|]. split; [|done].
    intros n. split; [by left|]. intros [H|H]; [done|]. by apply elem_of_nil in H.
  - cbn [length Load_features fmap list_fmap concat].
    rewrite <- app_assoc, Read_string_bytes.
    unfold Feature_registered in Hfi.
    destruct (GetFeature (Feature_GetName (feature fi)) c) as [f|]; [|done].
    apply bool_decide_eq_true in Hfi.
    unfold feature_names in Hnodup, Hfresh. cbn [fmap list_fmap] in Hnodup, Hfresh.
    apply NoDup_cons in Hnodup as [Hnotin Hnodup].
    unfold AddFeature at 1. rewrite Hfi.
    rewrite bool_decide_eq_false_2 by (apply Hfresh; by left).
    cbn [mbind option_bind].
    match goal with |- context [Load_features _ ?t' _ _] => set (t1 := t') end.
    destruct (IH t1 Hnodup) as (fs' & fset' & Hnames & Hset & Hload).
    { intros n Hin. unfold t1. cbn [featureSet TypeInfo_set_features].
      intros [Heq%elem_of_singleton|Hold]%elem_of_union.
      - apply Hnotin. by rewrite <- Heq.
      - revert Hold. apply Hfresh. by right. }
    exists fs', fset'. split; [|split].
    + rewrite Hnames. unfold t1, feature_names.
      cbn [features TypeInfo_set_features fmap list_fmap feature].
      rewrite fmap_app, <- app_assoc. cbn [fmap list_fmap feature app]. by rewrite Hfi.
    + intros n. rewrite Hset. unfold t1, feature_names.
      cbn [featureSet TypeInfo_set_features fmap list_fmap].
      rewrite elem_of_union, elem_of_singleton, elem_of_cons.
      fold (feature_names fs). tauto.
    + by rewrite Hload.
Qed.

Lemma TypeInfo_set_features_fields fs fset t :
  name (TypeInfo_set_features fs fset t) = name t /\
  featureSet (TypeInfo_set_features fs fset t) = fset.
Proof. done. Qed.

Lemma Load_types_known (ts : list TypeInfo) (c : TypeConfig) (rest : list Z) :
  Forall (fun type => Type_stored_ok c type = true) ts ->
  Load_types (length ts) c
    {| input := concat (type_bytes <$> ts) ++ rest; scanner_hasError := false |} =
  Some (Continue (c, {| input := rest; scanner_hasError := false |})).
Proof.
  induction 1 as [|type ts Hok _ IH]; [done|].
  unfold Type_stored_ok in Hok.
  apply andb_prop in Hok as [Hok Hnodup]. apply andb_prop in Hok as [Hok Hreg].
  apply andb_prop in Hok as [Hname Hcount].
  apply bool_decide_eq_true in Hname, Hnodup.
  apply N.ltb_lt in Hcount. pose proof (proj1 (forallb_forall _ _) Hreg) as Hreg'%List.Forall_forall.
  cbn [length Load_types fmap list_fmap concat]. unfold type_bytes at 1.
  rewrite <- !app_assoc, ReadNumber_bytes, Read_string_bytes.
  change 15%nat with (length (Store_flags type)).
  rewrite Read_bools_bytes, ReadNumber_bytes.
  unfold to_uint32 at 1 2. rewrite !(N.mod_small _ _ Hcount), Nat2N.id.
  destruct (Load_features_known (features type)
              (Load_typeInfo (to_TypeId (id type)) (name type) (Store_flags type))
              c (concat (type_bytes <$> ts) ++ rest) Hreg' Hnodup)
    as (fs' & fset' & _ & _ & Hload).
  { intros n _. rewrite (proj2 (Load_typeInfo_name _ _ _)). apply not_elem_of_empty. }
  rewrite Hload. cbn [mbind option_bind].
  unfold AddTypeInfo.
  rewrite (proj1 (TypeInfo_set_features_fields _ _ _)), (proj1 (Load_typeInfo_name _ _ _)).
  destruct Hname as [t' ->]. apply IH.
Qed.

(** X19 (StoreToDataFile and LoadFromDataFile, the loops over the
    types).  Loading the bytes that are stored for a type, when its name is
    new to the configuration: the type is appended and
    registered under its name, it keeps its id unless that is 0, it has no
    conditions, the ten flags from [canBeNode] to [indexAsPOI] and the flag
    [ignore] are those of the stored type, but [optimizeLowZoom],
    [multipolygon], [pinWay] and [ignoreSeaLand] are [false] whatever was
    stored; the features are those stored, followed by the address
    feature if the type can be a node or an area and has none. *)
Theorem X19_Load_types_stored_type (type : TypeInfo) (c : TypeConfig) (rest : list Z) :
  nameToTypeMap c !! name type = None ->
  (id type < 2 ^ TypeId_bits)%N ->
  (N.of_nat (length (features type)) < 2 ^ 32)%N ->
  Forall (fun fi => Feature_registered c fi = true) (features type) ->
  NoDup (feature_names (features type)) ->
  (exists f, GetFeature "Address" c = Some f /\ Feature_GetName f = "Address") ->
  exists t' c',
    Load_types 1 c
      {| input := written (Store_type type {| written := []; writer_hasError := false |})
                  ++ rest;
         scanner_hasError := false |} =
      Some (Continue (c', {| input := rest; scanner_hasError := false |})) /\
    types c' = types c ++ [t'] /\
    nameToTypeMap c' !! name type = Some t' /\
    name t' = name type /\
    id t' = (if (id type =? 0)%N then nextTypeId c else id type) /\
    conditions t' = [] /\
    Store_flags t' =
      [canBeNode type; canBeWay type; canBeArea type; canBeRelation type;
       canRouteFoot type; canRouteBicycle type; canRouteCar type;
       indexAsLocation type; indexAsRegion type; indexAsPOI type;
       false; false; false; false; ignore type] /\
    feature_names (features t') =
      feature_names (features type) ++
      (if (canBeArea type || canBeNode type) &&
          negb (bool_decide ("Address" ∈ feature_names (features type)))
       then ["Address"] else []).
Proof.
  intros Hnew Hid Hcount Hreg Hnodup (fa & Hfa & Hfaname).
  rewrite Store_type_written by done. cbn [written app].
  cbn [Load_types]. unfold type_bytes.
  rewrite <- !app_assoc, ReadNumber_bytes, Read_string_bytes.
  change 15%nat with (length (Store_flags type)).
  rewrite Read_bools_bytes, ReadNumber_bytes.
  unfold to_uint32 at 1 2. rewrite !(N.mod_small _ _ Hcount), Nat2N.id.
  unfold to_TypeId. rewrite (N.mod_small _ _ Hid).
  set (t0 := Load_typeInfo (id type) (name type) (Store_flags type)).
  destruct (Load_features_known (features type) t0 c rest Hreg Hnodup)
    as (fs' & fset' & Hnames & Hset & Hload).
  { intros n _. apply not_elem_of_empty. }
  rewrite Hload. cbn [mbind option_bind].
  assert (forall n, n ∈ fset' <-> n ∈ feature_names (features type)) as Hset'.
  { intros n. rewrite Hset. split; [intros [H|H]; [by apply elem_of_empty in H|done]|].
    by right. }
  change (feature_names (features t0)) with (@nil string) in Hnames.
  cbn [app] in Hnames.
  unfold AddTypeInfo.
  change (name (TypeInfo_set_features fs' fset' t0)) with (name type).
  rewrite Hnew.
  change (canBeArea (TypeInfo_set_features fs' fset' t0)) with (canBeArea type).
  change (canBeNode (TypeInfo_set_features fs' fset' t0)) with (canBeNode type).
  unfold HasFeature.
  change (featureSet (TypeInfo_set_features fs' fset' t0)) with fset'.
  rewrite (bool_decide_ext _ _ (Hset' "Address")).
  destruct ((canBeArea type || canBeNode type) &&
            negb (bool_decide ("Address" ∈ feature_names (features type)))) eqn:Haddr.
  - apply andb_prop in Haddr as [_ Hno]. apply negb_true_iff in Hno.
    apply bool_decide_eq_false in Hno.
    rewrite Hfa. unfold AddFeature. rewrite Hfaname.
    change (featureSet (TypeInfo_set_features fs' fset' t0)) with fset'.
    rewrite bool_decide_eq_false_2 by by rewrite Hset'.
    cbn [mbind option_bind id features TypeInfo_set_features].
    change (id t0) with (id type).
    destruct (id type =? 0)%N; eexists; eexists; (split; [reflexivity|]);
      cbn [types TypeConfig_set_types TypeConfig_set_nameToTypeMap
           TypeConfig_set_idToTypeMap TypeConfig_set_nextTypeId nameToTypeMap];
      (split; [reflexivity|]);
      (split; [apply lookup_insert_eq|]);
      do 4 (split; [reflexivity|]);
      unfold feature_names in *;
      cbn [features TypeInfo_SetId TypeInfo_set_features];
      by rewrite fmap_app, Hnames; cbn [fmap list_fmap feature]; rewrite Hfaname.
  - cbn [mbind option_bind id features TypeInfo_set_features].
    change (id t0) with (id type).
    destruct (id type =? 0)%N; eexists; eexists; (split; [reflexivity|]);
      cbn [types TypeConfig_set_types TypeConfig_set_nameToTypeMap
           TypeConfig_set_idToTypeMap TypeConfig_set_nextTypeId nameToTypeMap];
      (split; [reflexivity|]);
      (split; [apply lookup_insert_eq|]);
      do 4 (split; [reflexivity|]);
      cbn [features TypeInfo_SetId TypeInfo_set_features];
      by rewrite Hnames, app_nil_r.
Qed.

End LoadFacts.

Section StoreLoad.
Context `{D : Declarations}.

(** X18 (StoreToDataFile, LoadFromDataFile): for a configuration whose
    tag registry is consistent, whose counts fit [uint32_t], whose name
    tags are external and whose types and their features are registered
    under their names, storing succeeds, and loading the bytes written
    into the same configuration returns [true] and leaves the
    configuration as it is, whatever the uninitialized id holds. *)
Theorem X18_StoreToDataFile_reload (c : TypeConfig) (garbage : TagId) :
  Stored_ok c = true ->
  (StoreToDataFile true c).1 = true /\
  LoadFromDataFile (Some (StoreToDataFile true c).2) garbage c = Some (true, c).
Proof.
  unfold Stored_ok. intros Hok.
  apply andb_prop in Hok as [Hok Htypes]. apply andb_prop in Hok as [Hok Htags].
  apply andb_prop in Hok as [Hok Hntypes]. apply andb_prop in Hok as [Hreg Hntags].
  apply TagRegistry_ok_inv in Hreg. apply N.ltb_lt in Hntags, Hntypes.
  pose proof (proj1 (forallb_forall _ _) Htypes) as Htypes'%List.Forall_forall.
  pose proof (proj1 (forallb_forall _ _) Htags) as Htags'. clear Htags. rename Htags' into Htags.
  rewrite (StoreToDataFile_written c Hntags). split; [done|]. cbn [snd].
  assert (Forall (tag_known c) (tags c)) as Hknown.
  { apply Forall_forall. intros tag Hin. by apply registry_tag_known. }
  assert (forall f, (N.of_nat (nameTag_count f (tags c)) < 2 ^ 32)%N) as Hcount.
  { intros f. unfold nameTag_count.
    pose proof (length_filter (fun tag => is_Some (f (TagInfo_id tag))) (tags c)).
    lia. }
  assert (forall tag p q, tag ∈ tags c -> IsNameTag (TagInfo_id tag) c = Some p ->
            RegisterNameTag (TagInfo_name tag) q c = (TagInfo_id tag, c)) as Hname.
  { intros tag p q Hin Hp. apply (RegisterNameTag_known tag c p q); [|clear Hknown|done].
    - by apply registry_tag_known.
    - specialize (Htags tag (proj1 (list_elem_of_In _ _) Hin)).
      unfold Tag_stored_ok in Htags. rewrite Hp in Htags.
      by destruct (TagInfo_internalOnly tag). }
  assert (forall tag p q, tag ∈ tags c -> IsNameAltTag (TagInfo_id tag) c = Some p ->
            RegisterNameAltTag (TagInfo_name tag) q c = (TagInfo_id tag, c)) as Halt.
  { intros tag p q Hin Hp. apply (RegisterNameAltTag_known tag c p q); [|clear Hknown|done].
    - by apply registry_tag_known.
    - specialize (Htags tag (proj1 (list_elem_of_In _ _) Hin)).
      unfold Tag_stored_ok in Htags. rewrite Hp in Htags.
      by destruct (TagInfo_internalOnly tag), (IsNameTag _ c). }
  unfold LoadFromDataFile, file_bytes, to_uint32.
  rewrite ReadNumber_bytes. rewrite !(N.mod_small _ _ Hntags), Nat2N.id.
  rewrite Load_tags_known by done.
  rewrite ReadNumber_bytes. rewrite !(N.mod_small _ _ (Hcount _)), Nat2N.id.
  rewrite (Load_nameTags_known RegisterNameTag (fun tag => IsNameTag tag c)
             (tags c) garbage c _ Hname Hknown).
  rewrite ReadNumber_bytes. rewrite !(N.mod_small _ _ (Hcount _)), Nat2N.id.
  rewrite (Load_nameTags_known RegisterNameAltTag (fun tag => IsNameAltTag tag c)
             (tags c) garbage c _ Halt Hknown).
  rewrite ReadNumber_bytes. rewrite !(N.mod_small _ _ Hntypes), Nat2N.id.
  rewrite <- (app_nil_r (concat (type_bytes <$> types c))).
  rewrite (Load_types_known _ _ _ Htypes'). done.
Qed.

End StoreLoad.

Section ComparisonFacts.
Context `{D : Declarations}.

(** X20 (TagBinaryCondition::Evaluate, TagIsInCondition::Evaluate).  For
    a tag that the object has, compared as a string, or as a number when
    its value is one, the complementary operator gives the negated
    result: [<] and [>=], [<=] and [>], [==] and [!=].  A membership test
    in a union is the disjunction of the membership tests, and in a
    one-element set it is the comparison with [==]. *)
Theorem X20_Evaluate_comparisons (tagMap : gmap N string) (tag : TagId)
    (op : BinaryOperator) (vt : ValueType) (s : string) (n : N) (v : string)
    (A B : gset string) :
  tagMap !! tag = Some v ->
  (vt = valueType_sizet -> is_Some (StringToNumber_size_t v)) ->
  Evaluate (TagBinaryCondition tag (BinaryOperator_complement op) vt s n) tagMap =
    negb (Evaluate (TagBinaryCondition tag op vt s n) tagMap) /\
  Evaluate (TagIsInCondition tag (A ∪ B)) tagMap =
    Evaluate (TagBoolCondition boolOr [TagIsInCondition tag A; TagIsInCondition tag B])
      tagMap /\
  Evaluate (TagIsInCondition tag {[s]}) tagMap =
    Evaluate (TagBinaryCondition tag operatorEqual valueType_string s n) tagMap.
Proof.
  intros Hv Hnum. cbn [Evaluate]. rewrite Hv. split; [|split].
  - destruct vt.
    + destruct op; cbn [BinaryOperator_complement];
        unfold string_lt, string_le, String.ltb, String.leb;
        rewrite ?(String.compare_antisym s v), ?negb_involutive; try done;
        by destruct (String.compare v s).
    + destruct (Hnum eq_refl) as [value ->].
      destruct op; cbn [BinaryOperator_complement];
        rewrite ?negb_involutive; try done;
        repeat match goal with
        | |- context [(?a <? ?b)%N] => destruct (N.ltb_spec a b)
        | |- context [(?a <=? ?b)%N] => destruct (N.leb_spec a b)
        end; simpl; (done || lia).
  - rewrite (bool_decide_ext _ _ (elem_of_union A B v)), bool_decide_or.
    by destruct (bool_decide (v ∈ A)), (bool_decide (v ∈ B)).
  - unfold string_eq. destruct (String.eqb_spec v s) as [->|Hne].
    + apply bool_decide_eq_true. by apply elem_of_singleton.
    + apply bool_decide_eq_false. by intros ?%elem_of_singleton.
Qed.

End ComparisonFacts.

Section TypeLookupFacts.
Context `{D : Declarations}.

Lemma TypeRegistry_ok_spec (c : TypeConfig) :
  TypeRegistry_ok c = true <->
  nextTypeId c = N.of_nat (length (types c)) /\
  forall i t, types c !! i = Some t -> id t = N.of_nat i.
Proof.
  unfold TypeRegistry_ok. rewrite andb_true_iff, N.eqb_eq, forallb_forall.
  split; intros [Hnext Hpos]; (split; [done|]).
  - intros i t Hi.
    assert (In (i, t) (imap pair (types c))) as Hin.
    { apply list_elem_of_In. by apply (elem_of_lookup_imap_2 pair). }
    apply Hpos in Hin. by apply N.eqb_eq in Hin.
  - intros [i t] Hin. apply list_elem_of_In in Hin. simpl.
    apply elem_of_lookup_imap in Hin as (j & y & Heq & Hy).
    injection Heq as -> ->. apply N.eqb_eq. by apply Hpos.
Qed.

(** What [AddTypeInfo] does with a type whose name is new. *)
Lemma AddTypeInfo_new (typeInfo typeInfo' : TypeInfo) (c c' : TypeConfig) :
  nameToTypeMap c !! name typeInfo = None ->
  AddTypeInfo typeInfo c = Some (typeInfo', c') ->
  types c' = types c ++ [typeInfo'] /\
  name typeInfo' = name typeInfo /\
  nameToTypeMap c' !! name typeInfo = Some typeInfo' /\
  id typeInfo' = (if (id typeInfo =? 0)%N then nextTypeId c else id typeInfo) /\
  nextTypeId c' =
    (if (id typeInfo =? 0)%N then to_TypeId (nextTypeId c + 1)
     else N.max (nextTypeId c) (to_TypeId (id typeInfo + 1))).
Proof.
  intros Hnew. unfold AddTypeInfo. rewrite Hnew.
  destruct (if (canBeArea typeInfo || canBeNode typeInfo) &&
               negb (HasFeature "Address" typeInfo)
            then AddFeature (GetFeature "Address" c) typeInfo
            else Some typeInfo) as [t1|] eqn:Ht1; [|done].
  assert (id t1 = id typeInfo /\ name t1 = name typeInfo) as [Hid Hname].
  { destruct (_ && _); [|by injection Ht1 as <-].
    split; [by destruct (AddFeature_flags _ _ _ Ht1) as (? & _)|].
    by eapply AddFeature_name. }
  cbn [mbind option_bind]. rewrite Hid.
  destruct (id typeInfo =? 0)%N; intros [= <- <-]; cbn;
    rewrite <- ?Hname, ?lookup_insert_eq; done.
Qed.

(** X21 (GetTypeInfo, AddTypeInfo).  [GetTypeInfo] looks a type up at the
    position of its id.  On a configuration in which every type is at the
    position of its id and the next id is the number of types, after
    [AddTypeInfo] of a type with a new name the types registered before
    are still found under their ids; if the new type had id 0 or the next
    id, the configuration stays that way and the new type is found under
    the id of its name; with any other id the new type is at the position
    of the old next id, which is not its id, and the configuration is not
    that way any more. *)
Theorem X21_GetTypeInfo_positions (typeInfo typeInfo' : TypeInfo) (c c' : TypeConfig) :
  TypeRegistry_ok c = true ->
  (nextTypeId c + 1 < 2 ^ TypeId_bits)%N ->
  nameToTypeMap c !! name typeInfo = None ->
  AddTypeInfo typeInfo c = Some (typeInfo', c') ->
  (forall t, t ∈ types c -> GetTypeInfo (id t) c' = Some t) /\
  (id typeInfo = 0%N \/ id typeInfo = nextTypeId c ->
     TypeRegistry_ok c' = true /\
     GetTypeInfo (GetTypeId (name typeInfo) c') c' = Some typeInfo') /\
  (id typeInfo <> 0%N -> id typeInfo <> nextTypeId c ->
     GetTypeInfo (nextTypeId c) c' = Some typeInfo' /\
     id typeInfo' <> nextTypeId c /\
     TypeRegistry_ok c' = false).
Proof.
  intros [Hnext Hpos]%TypeRegistry_ok_spec Hroom Hnew Hadd.
  destruct (AddTypeInfo_new _ _ _ _ Hnew Hadd) as (Htypes & Hname & Hmap & Hid & Hnext').
  assert (GetTypeInfo (nextTypeId c) c' = Some typeInfo') as Hlast.
  { unfold GetTypeInfo. rewrite Htypes, Hnext, Nat2N.id.
    by rewrite lookup_app_r, Nat.sub_diag. }
  split; [|split].
  - intros t [i Hi]%list_elem_of_lookup. rewrite (Hpos i t Hi).
    unfold GetTypeInfo. rewrite Htypes, Nat2N.id. by apply lookup_app_l_Some.
  - intros Hcase.
    assert (id typeInfo' = nextTypeId c) as Hid'.
    { rewrite Hid. destruct (N.eqb_spec (id typeInfo) 0); [done|]. by destruct Hcase. }
    split.
    + apply TypeRegistry_ok_spec. rewrite Htypes, length_app. cbn [length]. split.
      * rewrite Hnext'. unfold to_TypeId.
        destruct (N.eqb_spec (id typeInfo) 0) as [Hz|Hnz].
        -- rewrite N.mod_small by done. lia.
        -- destruct Hcase as [?|Hcase]; [done|]. rewrite Hcase.
           rewrite N.mod_small by done. lia.
      * intros i t [Hi|[Hi Ht]]%lookup_app_Some; [by apply Hpos|].
        apply list_lookup_singleton_Some in Ht as [Hi0 <-].
        rewrite Hid', Hnext. f_equal. lia.
    + unfold GetTypeId. rewrite Hmap, Hid'. exact Hlast.
  - intros Hnz Hne. split; [done|].
    assert (id typeInfo' <> nextTypeId c) as Hid'.
    { rewrite Hid. by destruct (N.eqb_spec (id typeInfo) 0). }
    split; [done|]. apply not_true_is_false.
    intros [_ Hpos']%TypeRegistry_ok_spec. apply Hid'.
    rewrite Hnext. apply Hpos'. by rewrite <- (Nat2N.id (length (types c))), <- Hnext.
Qed.

End TypeLookupFacts.

(** X18 on the sample schema with its name tags. *)
Lemma X18_witness :
  (StoreToDataFile true sample_stored).1 = true /\
  LoadFromDataFile (Some (StoreToDataFile true sample_stored).2) 77%N sample_stored =
    Some (true, sample_stored).
Proof.
  apply (X18_StoreToDataFile_reload sample_stored 77%N).
  vm_compute. reflexivity.
Defined.

(** X19 on the sample: the track type loaded into the fresh
    configuration has lost the four flags. *)
Lemma X19_witness :
  exists t' c',
    Load_types 1 sample_fresh
      {| input := written (Store_type sample_stored_type
                             {| written := []; writer_hasError := false |}) ++ [7%Z];
         scanner_hasError := false |} =
      Some (Continue (c', {| input := [7%Z]; scanner_hasError := false |})) /\
    types c' = types sample_fresh ++ [t'] /\
    nameToTypeMap c' !! "track" = Some t' /\
    name t' = "track" /\
    id t' = 12%N /\
    conditions t' = [] /\
    Store_flags t' =
      [false; true; false; false; true; false; false; false; false; false;
       false; false; false; false; false] /\
    feature_names (features t') = ["MaxSpeed"; "Grade"; "Layer"].
Proof.
  apply (X19_Load_types_stored_type sample_stored_type sample_fresh [7%Z]).
  - vm_compute. reflexivity.
  - vm_compute. reflexivity.
  - vm_compute. reflexivity.
  - apply Forall_forall. intros fi Hfi. apply list_elem_of_In in Hfi.
    revert fi Hfi. apply forallb_forall. vm_compute. reflexivity.
  - apply (bool_decide_unpack _). vm_compute. exact I.
  - exists (default NameFeature (GetFeature "Address" sample_fresh)).
    split; vm_compute; reflexivity.
Defined.

(** X20 on a sample: the value 3 is less than 4, so [>=] fails. *)
Lemma X20_witness :
  Evaluate (TagBinaryCondition 5%N operatorGreaterEqual valueType_sizet "" 4%N)
    {[ 5%N := "3" ]} =
    negb (Evaluate (TagBinaryCondition 5%N operatorLess valueType_sizet "" 4%N)
            {[ 5%N := "3" ]}) /\
  Evaluate (TagIsInCondition 5%N ({[ "2" ]} ∪ {[ "3" ]})) {[ 5%N := "3" ]} =
    Evaluate (TagBoolCondition boolOr
                [TagIsInCondition 5%N {[ "2" ]}; TagIsInCondition 5%N {[ "3" ]}])
      {[ 5%N := "3" ]} /\
  Evaluate (TagIsInCondition 5%N {[ "" ]}) {[ 5%N := "3" ]} =
    Evaluate (TagBinaryCondition 5%N operatorEqual valueType_string "" 4%N)
      {[ 5%N := "3" ]}.
Proof.
  apply (X20_Evaluate_comparisons {[ 5%N := "3" ]} 5%N operatorLess valueType_sizet
           "" 4%N "3" {[ "2" ]} {[ "3" ]}).
  - vm_compute. reflexivity.
  - intros _. exists 3%N. vm_compute. reflexivity.
Defined.

(** X21 on the sample: the way type added to the fresh configuration. *)
Lemma X21_witness :
  (forall t, t ∈ types sample_fresh ->
     GetTypeInfo (id t) sample_highway_added.2 = Some t) /\
  (id sample_highway = 0%N \/ id sample_highway = nextTypeId sample_fresh ->
     TypeRegistry_ok sample_highway_added.2 = true /\
     GetTypeInfo (GetTypeId (name sample_highway) sample_highway_added.2)
       sample_highway_added.2 = Some sample_highway_added.1) /\
  (id sample_highway <> 0%N -> id sample_highway <> nextTypeId sample_fresh ->
     GetTypeInfo (nextTypeId sample_fresh) sample_highway_added.2 =
       Some sample_highway_added.1 /\
     id sample_highway_added.1 <> nextTypeId sample_fresh /\
     TypeRegistry_ok sample_highway_added.2 = false).
Proof.
  apply (X21_GetTypeInfo_positions sample_highway sample_highway_added.1
           sample_fresh sample_highway_added.2).
  - vm_compute. reflexivity.
  - vm_compute. reflexivity.
  - vm_compute. reflexivity.
  - vm_compute. reflexivity.
Defined.
